(** * TOON codec: a shallow embedding of the serializer and deserializer

    The development follows the TypeScript sources file by file:
    [constants.ts], [string-utils.ts], [validation-utils.ts],
    [normalize.ts], [utils.ts], [encode.ts] and [decode.ts].

    Conventions.
    - A JavaScript string is a [string]: a sequence of code units, here the
      code units 0..255.  [trim] strips the ECMAScript white space and line
      terminators that exist in that range (9-13, 32, 160).
    - An index is a [Z]; a search that fails answers [-1], as [indexOf] does.
    - A JavaScript number is a binary64 value, [spec_float] with precision 53
      and maximal exponent 1024.
    - A thrown exception is a value of [Exception], carried by the outcome
      [Throw]; a call that returns gives [Return]. *)

From Stdlib Require Import ZArith List String Ascii Bool Lia Sorted.
From Stdlib Require Import Floats.SpecFloat DecimalString DecimalPos.
From stdpp Require Import gmap.

Import ListNotations.
Open Scope string_scope.
Open Scope list_scope.
Open Scope Z_scope.

(** ** constants.ts *)

Definition LIST_ITEM_MARKER : string := "-".
Definition LIST_ITEM_PREFIX : string := "- ".
Definition COMMA : ascii := ","%char.
Definition COLON : ascii := ":"%char.
Definition SPACE : ascii := " "%char.
Definition PIPE : ascii := "|"%char.
Definition HASH : ascii := "#"%char.
Definition OPEN_BRACKET : ascii := "["%char.
Definition CLOSE_BRACKET : ascii := "]"%char.
Definition OPEN_BRACE : ascii := "{"%char.
Definition CLOSE_BRACE : ascii := "}"%char.
Definition NULL_LITERAL : string := "null".
Definition TRUE_LITERAL : string := "true".
Definition FALSE_LITERAL : string := "false".
Definition BACKSLASH : ascii := "\"%char.
Definition DOUBLE_QUOTE : ascii := "034"%char.
Definition NEWLINE : ascii := "010"%char.
Definition CARRIAGE_RETURN : ascii := "013"%char.
Definition TAB : ascii := "009"%char.
Definition DEFAULT_INDENT_SIZE : Z := 2.

(** The [Delimiter] type of [types.ts]: [','], ['\t'] or ['|']. *)
Inductive Delimiter := DComma | DTab | DPipe.

Definition delimChar (d : Delimiter) : ascii :=
  match d with DComma => COMMA | DTab => TAB | DPipe => PIPE end.

Definition DEFAULT_DELIMITER : Delimiter := DComma.

Definition Delimiter_eqb (a b : Delimiter) : bool :=
  match a, b with
  | DComma, DComma | DTab, DTab | DPipe, DPipe => true
  | _, _ => false
  end.

(** ** The JavaScript string operations the sources use *)

Module JsString.

Definition len (s : string) : Z := Z.of_nat (String.length s).

Fixpoint drop (n : nat) (s : string) : string :=
  match n, s with
  | O, _ => s
  | S n', String _ r => drop n' r
  | S _, EmptyString => EmptyString
  end.

Fixpoint take (n : nat) (s : string) : string :=
  match n, s with
  | S n', String c r => String c (take n' r)
  | _, _ => EmptyString
  end.

(** [s.slice(a, b)]: a negative bound counts from the end; both are
    clamped to the string. *)
Definition clampIndex (s : string) (i : Z) : Z :=
  if i <? 0 then Z.max (len s + i) 0 else Z.min i (len s).

Definition slice (s : string) (a b : Z) : string :=
  let from := clampIndex s a in
  let to := clampIndex s b in
  take (Z.to_nat (to - from)) (drop (Z.to_nat from) s).

(** [s.slice(a)] *)
Definition sliceFrom (s : string) (a : Z) : string :=
  drop (Z.to_nat (clampIndex s a)) s.

(** [s[i]]: [None] stands for [undefined]. *)
Definition charAt (s : string) (i : Z) : option ascii :=
  if i <? 0 then None else String.get (Z.to_nat i) s.

Definition charIs (s : string) (i : Z) (c : ascii) : bool :=
  match charAt s i with
  | Some x => Ascii.eqb x c
  | None => false
  end.

(** Position of the first [c] in [s], counted from the start of [s]. *)
Fixpoint find (c : ascii) (s : string) : option nat :=
  match s with
  | EmptyString => None
  | String x r =>
      if Ascii.eqb x c then Some O
      else match find c r with
           | Some i => Some (S i)
           | None => None
           end
  end.

(** [s.indexOf(c, from)], [-1] when there is none. *)
Definition indexOfFrom (s : string) (c : ascii) (from : Z) : Z :=
  let start := Z.max from 0 in
  match find c (drop (Z.to_nat start) s) with
  | Some i => start + Z.of_nat i
  | None => -1
  end.

Definition indexOf (s : string) (c : ascii) : Z := indexOfFrom s c 0.

Definition includes (s : string) (c : ascii) : bool :=
  match find c s with Some _ => true | None => false end.

Fixpoint startsWith (s p : string) : bool :=
  match p, s with
  | EmptyString, _ => true
  | String a p', String b s' => Ascii.eqb a b && startsWith s' p'
  | String _ _, EmptyString => false
  end.

Fixpoint lastChar (s : string) : option ascii :=
  match s with
  | EmptyString => None
  | String c EmptyString => Some c
  | String _ r => lastChar r
  end.

(** [s.endsWith(c)] for a one-character [c]. *)
Definition endsWithChar (s : string) (c : ascii) : bool :=
  match lastChar s with
  | Some x => Ascii.eqb x c
  | None => false
  end.

(** White space and line terminators stripped by [trim]. *)
Definition isWhite (c : ascii) : bool :=
  let n := nat_of_ascii c in
  ((9 <=? n) && (n <=? 13))%nat || (n =? 32)%nat || (n =? 160)%nat.

Fixpoint trimStart (s : string) : string :=
  match s with
  | String c r => if isWhite c then trimStart r else s
  | EmptyString => EmptyString
  end.

Fixpoint trimEnd (s : string) : string :=
  match s with
  | EmptyString => EmptyString
  | String c r =>
      match trimEnd r with
      | EmptyString => if isWhite c then EmptyString else String c EmptyString
      | t => String c t
      end
  end.

Definition trim (s : string) : string := trimEnd (trimStart s).

(** A string is falsy exactly when it is empty. *)
Definition isEmpty (s : string) : bool :=
  match s with EmptyString => true | _ => false end.

(** [s.split('\n')] *)
Fixpoint splitOn (c : ascii) (s : string) : list string :=
  match s with
  | EmptyString => [EmptyString]
  | String x r =>
      if Ascii.eqb x c then EmptyString :: splitOn c r
      else match splitOn c r with
           | h :: t => String x h :: t
           | [] => [String x EmptyString]
           end
  end.

(** [parts.join(sep)] *)
Fixpoint join (sep : string) (parts : list string) : string :=
  match parts with
  | [] => EmptyString
  | [p] => p
  | p :: rest => (p ++ sep ++ join sep rest)%string
  end.

(** [unit.repeat(n)] *)
Fixpoint repeat (unit : string) (n : nat) : string :=
  match n with
  | O => EmptyString
  | S n' => (unit ++ repeat unit n')%string
  end.

Definition ofChar (c : ascii) : string := String c EmptyString.

Definition isDigit (c : ascii) : bool :=
  let n := nat_of_ascii c in ((48 <=? n) && (n <=? 57))%nat.

Definition digitValue (c : ascii) : Z := Z.of_nat (nat_of_ascii c) - 48.

End JsString.

Import JsString.

(** ** Exceptions and outcomes

    The decoder throws [TypeError], [SyntaxError], [RangeError] and
    [ReferenceError]; the encoder throws [SerializeError], and lets through
    the [TypeError] of the host when it calls what is no function or runs a
    built-in method on an object of another kind.  An outcome is a returned
    value or a thrown exception.  [Exhausted] is reserved for the recursive
    definitions below that are driven by a step budget; the budget lemmas
    show that the entry points never produce it.

    [HostCall] is no exception of the code: it marks the one place where
    the code calls a function that its input carries (a function stored
    under the key [hasOwnProperty]); the embedding follows no function of
    the host and stops there. *)

Inductive Exception :=
| EmptyInputError                              (* TypeError, deserialize *)
| SyntaxError (msg : string)
| CountMismatch (expected actual : Z) (itemType : string)  (* RangeError *)
| InvalidTimeValue                             (* RangeError, toISOString *)
| InvalidArrayLength                           (* TypeError, parseBracketSegment *)
| ReferenceError (msg : string)
| SerializeError                               (* circular references *)
| TypeError                                    (* of the host, see above *)
| HostCall.

Inductive outcome (A : Type) :=
| Return (a : A)
| Throw (e : Exception)
| Exhausted.

Arguments Return {A} a.
Arguments Throw {A} e.
Arguments Exhausted {A}.

Definition bind {A B} (m : outcome A) (k : A -> outcome B) : outcome B :=
  match m with
  | Return a => k a
  | Throw e => Throw e
  | Exhausted => Exhausted
  end.

Notation "'do' x <- m ; k" := (bind m (fun x => k))
  (at level 10, x pattern, m at level 99, k at level 200).

Fixpoint mapM {A B} (f : A -> outcome B) (l : list A) : outcome (list B) :=
  match l with
  | [] => Return []
  | x :: r => do y <- f x; do ys <- mapM f r; Return (y :: ys)
  end.

(** ** string-utils.ts *)

(** [value.replace(/c/g, rep)] *)
Fixpoint replaceAll (c : ascii) (rep : string) (s : string) : string :=
  match s with
  | EmptyString => EmptyString
  | String x r =>
      if Ascii.eqb x c then (rep ++ replaceAll c rep r)%string
      else String x (replaceAll c rep r)
  end.

Definition escapeString (value : string) : string :=
  replaceAll TAB (String BACKSLASH "t")
    (replaceAll CARRIAGE_RETURN (String BACKSLASH "r")
      (replaceAll NEWLINE (String BACKSLASH "n")
        (replaceAll DOUBLE_QUOTE (String BACKSLASH (ofChar DOUBLE_QUOTE))
          (replaceAll BACKSLASH (String BACKSLASH (ofChar BACKSLASH)) value)))).

Fixpoint unescapeString (value : string) : outcome string :=
  match value with
  | EmptyString => Return EmptyString
  | String c r =>
      if Ascii.eqb c BACKSLASH then
        match r with
        | EmptyString =>
            Throw (SyntaxError "Invalid escape sequence: backslash at end of string")
        | String next r' =>
            let continue (x : ascii) :=
              do rest <- unescapeString r'; Return (String x rest) in
            if Ascii.eqb next "n" then continue NEWLINE
            else if Ascii.eqb next "t" then continue TAB
            else if Ascii.eqb next "r" then continue CARRIAGE_RETURN
            else if Ascii.eqb next BACKSLASH then continue BACKSLASH
            else if Ascii.eqb next DOUBLE_QUOTE then continue DOUBLE_QUOTE
            else Throw (SyntaxError "Invalid escape sequence")
        end
      else do rest <- unescapeString r; Return (String c rest)
  end.

(** The loop of [findClosingQuote], run on the text from index [i] on. *)
Fixpoint scanClosingQuote (s : string) (i : Z) : Z :=
  match s with
  | EmptyString => -1
  | String c r =>
      match r with
      | String _ r' =>
          if Ascii.eqb c BACKSLASH then scanClosingQuote r' (i + 2)
          else if Ascii.eqb c DOUBLE_QUOTE then i
          else scanClosingQuote r (i + 1)
      | EmptyString =>
          if Ascii.eqb c DOUBLE_QUOTE then i else -1
      end
  end.

Definition findClosingQuote (content : string) (start : Z) : Z :=
  scanClosingQuote (drop (Z.to_nat (start + 1)) content) (start + 1).

(** The loop of [findUnquotedChar], run on the text from index [i] on. *)
Fixpoint scanUnquoted (char : ascii) (s : string) (inQuotes : bool) (i : Z) : Z :=
  match s with
  | EmptyString => -1
  | String c r =>
      let otherwise :=
        if Ascii.eqb c DOUBLE_QUOTE then scanUnquoted char r (negb inQuotes) (i + 1)
        else if Ascii.eqb c char && negb inQuotes then i
        else scanUnquoted char r inQuotes (i + 1) in
      match r with
      | String _ r' =>
          if Ascii.eqb c BACKSLASH && inQuotes then scanUnquoted char r' inQuotes (i + 2)
          else otherwise
      | EmptyString => otherwise
      end
  end.

Definition findUnquotedChar (content : string) (char : ascii) : Z :=
  scanUnquoted char content false 0.

(** ** Numbers of the host

    [Number(s)], [Number.parseInt(s, 10)], [Number.isNaN] and
    [Number.isFinite], on binary64 values. *)

Module JsNumber.

Definition prec : Z := 53.
Definition emax : Z := 1024.

Definition number := spec_float.

Definition posZero : number := S754_zero false.
Definition negZero : number := S754_zero true.

Definition isNaN (x : number) : bool :=
  match x with S754_nan => true | _ => false end.

Definition isFinite (x : number) : bool :=
  match x with S754_zero _ | S754_finite _ _ _ => true | _ => false end.

(** [Object.is(x, -0)] *)
Definition isNegativeZero (x : number) : bool :=
  match x with S754_zero true => true | _ => false end.

(** The binary64 value nearest to an integer (ties to even). *)
Definition ofZ (z : Z) : number := binary_normalize prec emax z 0 false.

(** [Number(z)] for a big integer [z] of the safe range: the conversion is
    exact, the mantissa is only aligned. *)
Definition ofSafeInteger (z : Z) : number :=
  match z with
  | Z0 => S754_zero false
  | Zpos m =>
      let '(m', e') := shl_align m 0 (fexp prec emax (Zpos (digits2_pos m))) in
      S754_finite false m' e'
  | Zneg m =>
      let '(m', e') := shl_align m 0 (fexp prec emax (Zpos (digits2_pos m))) in
      S754_finite true m' e'
  end.

(** The binary64 value nearest to [mant * 10 ^ e10], with the sign [neg]. *)
Definition ofDecimal (neg : bool) (mant : Z) (e10 : Z) : number :=
  match mant with
  | Zpos m =>
      if 0 <=? e10 then binary_round prec emax neg (m * Z.to_pos (10 ^ e10))%positive 0
      else SFdiv prec emax (S754_finite neg m 0)
                           (S754_finite false (Z.to_pos (10 ^ (- e10))) 0)
  | _ => S754_zero neg
  end.

(** Longest prefix of digits, and the rest. *)
Fixpoint spanDigits (s : string) : string * string :=
  match s with
  | String c r =>
      if isDigit c then let '(d, rest) := spanDigits r in (String c d, rest)
      else (EmptyString, s)
  | EmptyString => (EmptyString, EmptyString)
  end.

Fixpoint digitsValue (acc : Z) (s : string) : Z :=
  match s with
  | String c r => digitsValue (10 * acc + digitValue c) r
  | EmptyString => acc
  end.

(** [ExponentPart], optional; [None] when the text is not a well-formed
    end of a decimal literal. *)
Definition parseExponent (s : string) : option Z :=
  match s with
  | EmptyString => Some 0
  | String c r =>
      if Ascii.eqb c "e" || Ascii.eqb c "E" then
        let '(neg, body) :=
          match r with
          | String "+" b => (false, b)
          | String "-" b => (true, b)
          | _ => (false, r)
          end in
        match spanDigits body with
        | (String _ _ as d, EmptyString) =>
            Some (if neg then - digitsValue 0 d else digitsValue 0 d)
        | _ => None
        end
      else None
  end.

(** [StrUnsignedDecimalLiteral] other than [Infinity]: mantissa and
    decimal exponent. *)
Definition parseUnsignedDecimal (s : string) : option (Z * Z) :=
  let '(ip, r1) := spanDigits s in
  match r1 with
  | String "." r2 =>
      let '(fp, r3) := spanDigits r2 in
      if isEmpty ip && isEmpty fp then None
      else match parseExponent r3 with
           | Some e => Some (digitsValue 0 (ip ++ fp)%string, e - len fp)
           | None => None
           end
  | _ =>
      if isEmpty ip then None
      else match parseExponent r1 with
           | Some e => Some (digitsValue 0 ip, e)
           | None => None
           end
  end.

Definition radixDigit (radix : Z) (c : ascii) : option Z :=
  let n := Z.of_nat (nat_of_ascii c) in
  let v := if (48 <=? n) && (n <=? 57) then n - 48
           else if (97 <=? n) && (n <=? 102) then n - 87
           else if (65 <=? n) && (n <=? 70) then n - 55
           else 99 in
  if v <? radix then Some v else None.

Fixpoint radixValue (radix acc : Z) (s : string) : option Z :=
  match s with
  | EmptyString => Some acc
  | String c r =>
      match radixDigit radix c with
      | Some v => radixValue radix (radix * acc + v) r
      | None => None
      end
  end.

(** [NonDecimalIntegerLiteral]: [0x], [0o], [0b] forms. *)
Definition parseNonDecimal (s : string) : option Z :=
  match s with
  | String "0" (String p (String _ _ as body)) =>
      if Ascii.eqb p "x" || Ascii.eqb p "X" then radixValue 16 0 body
      else if Ascii.eqb p "o" || Ascii.eqb p "O" then radixValue 8 0 body
      else if Ascii.eqb p "b" || Ascii.eqb p "B" then radixValue 2 0 body
      else None
  | _ => None
  end.

Definition parseSignedDecimal (s : string) : number :=
  let '(neg, body) :=
    match s with
    | String "+" b => (false, b)
    | String "-" b => (true, b)
    | _ => (false, s)
    end in
  if String.eqb body "Infinity" then S754_infinity neg
  else match parseUnsignedDecimal body with
       | Some (mant, e10) => ofDecimal neg mant e10
       | None => S754_nan
       end.

(** [Number(s)] for a string [s] *)
Definition Number (s : string) : number :=
  let t := trim s in
  if isEmpty t then posZero
  else match parseNonDecimal t with
       | Some z => ofZ z
       | None => parseSignedDecimal t
       end.

(** [Number.parseInt(s, 10)]; [None] is [NaN].  The result is kept as an
    integer: it is only ever compared with element counts. *)
Definition parseInt (s : string) : option Z :=
  let t := trimStart s in
  let '(neg, body) :=
    match t with
    | String "+" b => (false, b)
    | String "-" b => (true, b)
    | _ => (false, t)
    end in
  match spanDigits body with
  | (String _ _ as d, _) => Some (if neg then - digitsValue 0 d else digitsValue 0 d)
  | _ => None
  end.

End JsNumber.

Import JsNumber.

(** ** validation-utils.ts, the tests on strings *)

Definition isBooleanOrNullLiteral (token : string) : bool :=
  String.eqb token TRUE_LITERAL || String.eqb token FALSE_LITERAL
  || String.eqb token NULL_LITERAL.

Definition isNumericLiteral (token : string) : bool :=
  if isEmpty token then false
  else if (1 <? len token) && charIs token 0 "0" && negb (charIs token 1 ".") then false
  else let num := Number token in
       negb (isNaN num) && isFinite num.

(** [\d+] at the head of [s]: the rest after the digits, when there is at
    least one. *)
Definition reDigits1 (s : string) : option string :=
  match spanDigits s with
  | (String _ _, rest) => Some rest
  | _ => None
  end.

(** [/^-?\d+(?:\.\d+)?(?:e[+-]?\d+)?$/i] *)
Definition reDecimalNumber (value : string) : bool :=
  let s0 := match value with String "-" r => r | _ => value end in
  match reDigits1 s0 with
  | None => false
  | Some s1 =>
      let s2 :=
        match s1 with
        | String "." r => match reDigits1 r with Some r' => r' | None => s1 end
        | _ => s1
        end in
      let s3 :=
        match s2 with
        | String c r =>
            if Ascii.eqb c "e" || Ascii.eqb c "E" then
              let body := match r with
                          | String "+" b => b
                          | String "-" b => b
                          | _ => r
                          end in
              match reDigits1 body with Some r' => r' | None => s2 end
            else s2
        | EmptyString => s2
        end in
      isEmpty s3
  end.

(** [/^0\d+$/] *)
Definition reLeadingZero (value : string) : bool :=
  match value with
  | String "0" r => match reDigits1 r with Some rest => isEmpty rest | None => false end
  | _ => false
  end.

Definition isNumericLike (value : string) : bool :=
  reDecimalNumber value || reLeadingZero value.

Definition isAsciiLetter (c : ascii) : bool :=
  let n := nat_of_ascii c in
  (((65 <=? n) && (n <=? 90)) || ((97 <=? n) && (n <=? 122)))%nat.

(** [\w] together with ['.'] *)
Definition isKeyChar (c : ascii) : bool :=
  isAsciiLetter c || isDigit c || Ascii.eqb c "_" || Ascii.eqb c ".".

Fixpoint allChars (p : ascii -> bool) (s : string) : bool :=
  match s with
  | EmptyString => true
  | String c r => p c && allChars p r
  end.

(** [/^[A-Z_][\w.]*$/i] *)
Definition isValidUnquotedKey (key : string) : bool :=
  match key with
  | String c r => (isAsciiLetter c || Ascii.eqb c "_") && allChars isKeyChar r
  | EmptyString => false
  end.

Definition isSafeUnquoted (value : string) (delimiter : Delimiter) : bool :=
  if isEmpty value then false
  else if negb (String.eqb value (trim value)) then false
  else if isBooleanOrNullLiteral value || isNumericLike value then false
  else if includes value ":" then false
  else if includes value DOUBLE_QUOTE || includes value BACKSLASH then false
  else if includes value "[" || includes value "]"
          || includes value "{" || includes value "}" then false
  else if includes value NEWLINE || includes value CARRIAGE_RETURN
          || includes value TAB then false
  else if includes value (delimChar delimiter) then false
  else if startsWith value LIST_ITEM_MARKER then false
  else true.

(** ** Objects: own enumerable string-keyed properties, in property order

    [Object.keys] lists the keys that are array indices first, in ascending
    numeric order, and then the other keys in the order of their creation.
    Defining a property overwrites it in place or creates it at the
    position that order gives it. *)

Module JsObject.
Section Props.
Context {A : Type}.

Definition props := list (string * A).

Fixpoint lookup (k : string) (o : props) : option A :=
  match o with
  | [] => None
  | (k', v) :: r => if String.eqb k' k then Some v else lookup k r
  end.

(** [key in obj] *)
Definition hasKey (k : string) (o : props) : bool :=
  match lookup k o with Some _ => true | None => false end.

Definition keys (o : props) : list string := map fst o.

(** The array index a key denotes: a canonical numeric string of
    value at most 2^32 - 2. *)
Definition arrayIndex (k : string) : option Z :=
  match k with
  | String c r =>
      if allChars isDigit k && (isEmpty r || negb (Ascii.eqb c "0")) then
        let n := digitsValue 0 k in
        if n <=? 4294967294 then Some n else None
      else None
  | EmptyString => None
  end.

Fixpoint overwrite (k : string) (v : A) (o : props) : props :=
  match o with
  | [] => []
  | (k', v') :: r =>
      if String.eqb k' k then (k', v) :: r else (k', v') :: overwrite k v r
  end.

(** Create the index property [k] (of index [i]) at its place. *)
Fixpoint insertIndex (i : Z) (k : string) (v : A) (o : props) : props :=
  match o with
  | [] => [(k, v)]
  | (k', v') :: r =>
      match arrayIndex k' with
      | Some j => if j <? i then (k', v') :: insertIndex i k v r
                  else (k, v) :: o
      | None => (k, v) :: o
      end
  end.

(** The own property [k] is created or overwritten with the value [v]:
    what [Object.fromEntries] does with an entry and an object literal with
    a computed key, [{ [k]: v }], and what an assignment [obj[k] = v] does
    when it meets no setter (see [assign] below). *)
Definition define (o : props) (k : string) (v : A) : props :=
  if hasKey k o then overwrite k v o
  else match arrayIndex k with
       | Some i => insertIndex i k v o
       | None => o ++ [(k, v)]
       end.

(** The entries are defined one after the other; [Object.fromEntries]
    does so on a fresh object. *)
Definition defineAll (o : props) (entries : list (string * A)) : props :=
  fold_left (fun acc kv => define acc (fst kv) (snd kv)) entries o.

Definition fromEntries (entries : list (string * A)) : props :=
  defineAll [] entries.
End Props.
Arguments props A : clear implicits.
End JsObject.

(** ** Host values

    The value trees a caller can hand to [serialize]: the unfolding of an
    object graph without cycles.  A [Date] is given by the outcome of its
    [toISOString()] ([None]: the time value is invalid and the call throws),
    a [Map] by its entries with each key already converted by [String].

    An object is given by its own enumerable properties, which are data
    properties, and by its prototype: [VObj props] has the prototype
    [Object.prototype], as the object of a literal or of [JSON.parse] has;
    [VObjWith None props] has the prototype [null], and
    [VObjWith (Some p) props] has the object [p] for prototype.  The
    prototype of an array, a [Date], a [Set] and a [Map] is the built-in one
    of its kind.

    Every other host value is opaque: a function or a symbol
    ([VOpaque false]), or an object of another kind that has no own
    enumerable property ([VOpaque true], whose [typeof] is ['object']). *)

#[local] Unset Elimination Schemes.
Inductive jsval :=
| VUndefined
| VNull
| VBool (b : bool)
| VNum (x : number)
| VStr (s : string)
| VBigInt (z : Z)
| VDate (iso : option string)
| VArr (items : list jsval)
| VSet (items : list jsval)
| VMap (entries : list (string * jsval))
| VObj (props : list (string * jsval))
| VObjWith (proto : option jsval) (props : list (string * jsval))
| VOpaque (isObject : bool).
#[local] Set Elimination Schemes.

Definition isJsonPrimitive (value : jsval) : bool :=
  match value with
  | VNull | VStr _ | VNum _ | VBool _ => true
  | _ => false
  end.

Definition isJsonArray (value : jsval) : bool :=
  match value with VArr _ => true | _ => false end.

Definition isJsonObject (value : jsval) : bool :=
  match value with
  | VDate _ | VSet _ | VMap _ | VObj _ | VObjWith _ _ | VOpaque true => true
  | _ => false
  end.

(** The prototype is [null] or [Object.prototype]. *)
Definition isPlainObject (value : jsval) : bool :=
  match value with VObj _ | VObjWith None _ => true | _ => false end.

Definition isArrayOfPrimitives (value : list jsval) : bool := forallb isJsonPrimitive value.
Definition isArrayOfArrays (value : list jsval) : bool := forallb isJsonArray value.
Definition isArrayOfObjects (value : list jsval) : bool := forallb isJsonObject value.

(** [Object.keys(value)] with the values, for a value that is an object. *)
Definition ownProps (value : jsval) : list (string * jsval) :=
  match value with VObj p | VObjWith _ p => p | _ => [] end.

(** ** Properties and the prototype chain *)

Definition PROTO : string := "__proto__".

(** [typeof value === 'object'], [null] included: what the setter of
    [__proto__] accepts for a prototype.  The values that the code assigns
    are results of [normalizeValue] or of the decoder, none of them opaque. *)
Definition isObjectOrNull (value : jsval) : bool :=
  match value with
  | VNull | VDate _ | VArr _ | VSet _ | VMap _ | VObj _ | VObjWith _ _
  | VOpaque true => true
  | _ => false
  end.

(** [key in value] and [value[key]] for an object [value]: the own
    property, or else the property of the first object of the prototype
    chain that has one.  An array has its elements under their indices and
    its [length].  The properties of the built-in prototypes themselves
    (methods, [constructor], and the accessor [__proto__], which gives the
    prototype) hold functions and objects; the callers below ask whether the
    value is a JSON primitive, which is as false for them as for a key that
    is absent, so that they are not listed. *)
Fixpoint getProperty (value : jsval) (key : string) : option jsval :=
  match value with
  | VObj props => JsObject.lookup key props
  | VObjWith proto props =>
      match JsObject.lookup key props with
      | Some v => Some v
      | None =>
          match proto with
          | Some p => getProperty p key
          | None => None
          end
      end
  | VArr items =>
      if String.eqb key "length" then
        Some (VNum (ofSafeInteger (Z.of_nat (List.length items))))
      else
        match JsObject.arrayIndex key with
        | Some i => nth_error items (Z.to_nat i)
        | None => None
        end
  | _ => None
  end.

(** An assignment to the key [__proto__] that finds no own property of
    that name in [value] goes up the prototype chain; it ends at the
    accessor that [Object.prototype] has for this key, unless an object on
    the way has a property of that name or the chain ends with [null]
    before.  The built-in prototypes of arrays, dates, sets and maps lead to
    [Object.prototype]. *)
Fixpoint reachesProtoSetter (value : jsval) : bool :=
  match value with
  | VObj props => negb (JsObject.hasKey PROTO props)
  | VObjWith proto props =>
      negb (JsObject.hasKey PROTO props)
      && match proto with
         | Some p => reachesProtoSetter p
         | None => false
         end
  | _ => true
  end.

(** The setter of [Object.prototype.__proto__], called on [obj] with [v]:
    an object or [null] becomes the prototype of [obj], and any other value
    is ignored.  (The setter throws when [obj] is on the prototype chain of
    [v]; here [obj] is an object that the code has just made, and [v] does
    not know it.) *)
Definition setPrototypeOf (obj : jsval) (v : jsval) : jsval :=
  match v with
  | VNull => VObjWith None (ownProps obj)
  | _ => if isObjectOrNull v then VObjWith (Some v) (ownProps obj) else obj
  end.

(** [obj[key] = v], for an object [obj] that the code has made.  The
    properties that [obj] and its prototypes have are writable data
    properties, and [Object.prototype] has one accessor, for the key
    [__proto__]: an assignment to that key runs the setter when it reaches
    it, and creates no property; every other assignment defines an own
    property. *)
Definition assign (obj : jsval) (key : string) (v : jsval) : jsval :=
  match obj with
  | VObj props =>
      if String.eqb key PROTO && reachesProtoSetter obj then setPrototypeOf obj v
      else VObj (JsObject.define props key v)
  | VObjWith proto props =>
      if String.eqb key PROTO && reachesProtoSetter obj then setPrototypeOf obj v
      else VObjWith proto (JsObject.define props key v)
  | _ => obj
  end.

(** The entries are assigned one after the other. *)
Definition assignAll (obj : jsval) (entries : list (string * jsval)) : jsval :=
  fold_left (fun acc kv => assign acc (fst kv) (snd kv)) entries obj.

(** [value instanceof C], for an object whose prototype is [proto] and a
    built-in class [C] whose instances [isC] recognizes: the chain of
    prototypes holds [C.prototype] when an object in it is an instance. *)
Fixpoint inherits (isC : jsval -> bool) (proto : jsval) : bool :=
  isC proto
  || match proto with
     | VObjWith (Some p) _ => inherits isC p
     | _ => false
     end.

Definition isDate (value : jsval) : bool :=
  match value with VDate _ => true | _ => false end.

Definition isSetOrMap (value : jsval) : bool :=
  match value with VSet _ | VMap _ => true | _ => false end.

(** [String(n)] for an integer [n], as the emitter prints an element count
    and [BigInt.prototype.toString] prints a big integer. *)
Definition intToString (n : Z) : string := NilZero.string_of_int (Z.to_int n).

(** ** normalize.ts *)

Definition MIN_SAFE_INTEGER : Z := - (2 ^ 53 - 1).
Definition MAX_SAFE_INTEGER : Z := 2 ^ 53 - 1.

Fixpoint normalizeValue (value : jsval) : outcome jsval :=
  match value with
  | VNull => Return VNull
  | VStr _ | VBool _ => Return value
  | VNum x =>
      if isNegativeZero x then Return (VNum posZero)
      else if negb (isFinite x) then Return VNull
      else Return value
  | VBigInt z =>
      if (MIN_SAFE_INTEGER <=? z) && (z <=? MAX_SAFE_INTEGER)
      then Return (VNum (ofSafeInteger z))
      else Return (VStr (intToString z))
  | VDate iso =>
      match iso with
      | Some s => Return (VStr s)
      | None => Throw InvalidTimeValue
      end
  | VArr items => do r <- mapM normalizeValue items; Return (VArr r)
  | VSet items => do r <- mapM normalizeValue items; Return (VArr r)
  | VMap entries =>
      do r <- mapM (fun kv => do v <- normalizeValue (snd kv); Return (fst kv, v)) entries;
      Return (VObj (JsObject.fromEntries r))
  | VObj props | VObjWith None props =>
      (fix loop (todo : list (string * jsval)) (result : jsval) :=
         match todo with
         | [] => Return result
         | (key, v) :: rest =>
             do nv <- normalizeValue v;
             loop rest (assign result key nv)
         end) props (VObj [])
  | VObjWith (Some p) _ =>
      (* [toISOString], and the iterator that [Array.from] takes from
         [Set.prototype] or [Map.prototype], refuse an object that is no
         [Date], [Set] or [Map] itself *)
      if inherits isDate p || inherits isSetOrMap p then Throw TypeError
      else Return VNull
  | VUndefined | VOpaque _ => Return VNull
  end.

(** ** encode.ts *)

Section Encoder.

(** [String(x)] for a number [x]: the shortest decimal text that reads
    back as [x], a service of the host. *)
Variable numberToString : number -> string.

Record EncodeOptions := {
  opt_indent : nat;
  opt_delimiter : Delimiter;
  opt_lengthMarker : bool
}.

Definition resolveOptions (delimiter : option Delimiter) : EncodeOptions :=
  {| opt_indent := 2;
     opt_delimiter := match delimiter with Some d => d | None => DEFAULT_DELIMITER end;
     opt_lengthMarker := false |}.

Definition quoted (body : string) : string :=
  String DOUBLE_QUOTE (body ++ ofChar DOUBLE_QUOTE)%string.

Definition encodeStringLiteral (value : string) (delimiter : Delimiter) : string :=
  if isSafeUnquoted value delimiter then value
  else quoted (escapeString value).

(** Reached with primitives only; the last case is never taken. *)
Definition encodePrimitive (value : jsval) (delimiter : Delimiter) : string :=
  match value with
  | VNull => NULL_LITERAL
  | VBool b => if b then "true" else "false"
  | VNum x => numberToString x
  | VStr s => encodeStringLiteral s delimiter
  | _ => EmptyString
  end.

Definition encodeKey (key : string) : string :=
  if isValidUnquotedKey key then key else quoted (escapeString key).

Definition encodeAndJoinPrimitives (values : list jsval) (delimiter : Delimiter) : string :=
  join (ofChar (delimChar delimiter)) (map (fun v => encodePrimitive v delimiter) values).

(** [formatHeader(length, { key, fields, delimiter, lengthMarker })] *)
Definition formatHeader (length : nat) (key : option string)
    (fields : option (list string)) (delimiter : Delimiter) (lengthMarker : bool) : string :=
  let keyPart :=
    match key with
    | Some k => if isEmpty k then EmptyString else encodeKey k
    | None => EmptyString
    end in
  let bracket :=
    (ofChar OPEN_BRACKET ++ (if lengthMarker then "#" else "")
       ++ intToString (Z.of_nat length)
       ++ (if Delimiter_eqb delimiter DEFAULT_DELIMITER then EmptyString
           else ofChar (delimChar delimiter))
       ++ ofChar CLOSE_BRACKET)%string in
  let fieldPart :=
    match fields with
    | Some fs =>
        (ofChar OPEN_BRACE ++ join (ofChar (delimChar delimiter)) (map encodeKey fs)
           ++ ofChar CLOSE_BRACE)%string
    | None => EmptyString
    end in
  (keyPart ++ bracket ++ fieldPart ++ ofChar COLON)%string.

(** The [LineWriter]: the lines pushed so far, oldest first. *)
Definition LineWriter := list string.

Definition push (indentSize : nat) (depth : nat) (content : string)
    (writer : LineWriter) : LineWriter :=
  writer ++ [(JsString.repeat (JsString.repeat " " indentSize) depth ++ content)%string].

Definition pushListItem (indentSize : nat) (depth : nat) (content : string)
    (writer : LineWriter) : LineWriter :=
  push indentSize depth (LIST_ITEM_PREFIX ++ content)%string writer.

Definition writerToString (writer : LineWriter) : string :=
  join (ofChar NEWLINE) writer.

Section ForEach.
Context {A : Type}.
Variable body : A -> LineWriter -> LineWriter.
Fixpoint forEach (l : list A) (writer : LineWriter) : LineWriter :=
  match l with
  | [] => writer
  | x :: r => forEach r (body x writer)
  end.
End ForEach.

Variable options : EncodeOptions.

Let wpush := push (opt_indent options).
Let wpushListItem := pushListItem (opt_indent options).

Definition encodeInlineArrayLine (values : list jsval) (delimiter : Delimiter)
    (prefix : option string) (lengthMarker : bool) : string :=
  let header := formatHeader (List.length values) prefix None delimiter lengthMarker in
  let joinedValue := encodeAndJoinPrimitives values delimiter in
  match values with
  | [] => header
  | _ => (header ++ " " ++ joinedValue)%string
  end.

Definition encodeArrayOfArraysAsListItems (prefix : option string) (values : list jsval)
    (depth : nat) (writer : LineWriter) : LineWriter :=
  let header := formatHeader (List.length values) prefix None
                  (opt_delimiter options) (opt_lengthMarker options) in
  forEach (fun arr w =>
             match arr with
             | VArr items =>
                 if isArrayOfPrimitives items then
                   wpushListItem (S depth)
                     (encodeInlineArrayLine items (opt_delimiter options) None
                        (opt_lengthMarker options)) w
                 else w
             | _ => w
             end)
    values (wpush depth header writer).

Definition isTabularArray (rows : list jsval) (header : list string) : bool :=
  forallb (fun row =>
             (List.length (JsObject.keys (ownProps row)) =? List.length header)%nat
             && forallb (fun key =>
                           match getProperty row key with
                           | Some v => isJsonPrimitive v
                           | None => false
                           end) header)
    rows.

Definition extractTabularHeader (rows : list jsval) : option (list string) :=
  match rows with
  | [] => None
  | firstRow :: _ =>
      match JsObject.keys (ownProps firstRow) with
      | [] => None
      | firstKeys => if isTabularArray rows firstKeys then Some firstKeys else None
      end
  end.

Definition writeTabularRows (rows : list jsval) (header : list string)
    (depth : nat) (writer : LineWriter) : LineWriter :=
  forEach (fun row w =>
             let values :=
               map (fun key => match getProperty row key with
                               | Some v => v
                               | None => VUndefined
                               end) header in
             wpush depth (encodeAndJoinPrimitives values (opt_delimiter options)) w)
    rows writer.

Definition encodeArrayOfObjectsAsTabular (prefix : option string) (rows : list jsval)
    (header : list string) (depth : nat) (writer : LineWriter) : LineWriter :=
  let formattedHeader := formatHeader (List.length rows) prefix (Some header)
                           (opt_delimiter options) (opt_lengthMarker options) in
  writeTabularRows rows header (S depth) (wpush depth formattedHeader writer).

(** The functions that descend into a value take the recursive calls they
    make on its parts as arguments; the fixpoint below ties them. *)
Section Open.
Variable encodeListItemValue : jsval -> nat -> LineWriter -> LineWriter.

Definition encodeMixedArrayAsListItems (prefix : option string) (items : list jsval)
    (depth : nat) (writer : LineWriter) : LineWriter :=
  let header := formatHeader (List.length items) prefix None
                  (opt_delimiter options) (opt_lengthMarker options) in
  forEach (fun item w => encodeListItemValue item (S depth) w)
    items (wpush depth header writer).

Definition encodeArray (key : option string) (value : list jsval)
    (depth : nat) (writer : LineWriter) : LineWriter :=
  match value with
  | [] =>
      wpush depth (formatHeader 0 key None (opt_delimiter options)
                     (opt_lengthMarker options)) writer
  | _ =>
      if isArrayOfPrimitives value then
        wpush depth (encodeInlineArrayLine value (opt_delimiter options) key
                       (opt_lengthMarker options)) writer
      else if isArrayOfArrays value
              && forallb (fun arr => match arr with
                                     | VArr items => isArrayOfPrimitives items
                                     | _ => false
                                     end) value then
        encodeArrayOfArraysAsListItems key value depth writer
      else if isArrayOfObjects value then
        match extractTabularHeader value with
        | Some header => encodeArrayOfObjectsAsTabular key value header depth writer
        | None => encodeMixedArrayAsListItems key value depth writer
        end
      else encodeMixedArrayAsListItems key value depth writer
  end.

Variable encodeKeyValuePair : string -> jsval -> nat -> LineWriter -> LineWriter.
Variable encodeObjectAsListItem : jsval -> nat -> LineWriter -> LineWriter.

(** The body of [encodeObjectAsListItem], on the properties of [obj]. *)
Definition encodePropsAsListItem (props : list (string * jsval)) (depth : nat)
    (writer : LineWriter) : LineWriter :=
  match props with
  | [] => wpush depth LIST_ITEM_MARKER writer
  | (firstKey, firstValue) :: remaining =>
      let encodedKey := encodeKey firstKey in
      let afterFirst :=
        if isJsonPrimitive firstValue then
          wpushListItem depth
            (encodedKey ++ ": "
               ++ encodePrimitive firstValue (opt_delimiter options))%string
            writer
        else
          match firstValue with
          | VArr items =>
              if isArrayOfPrimitives items then
                wpushListItem depth
                  (encodeInlineArrayLine items (opt_delimiter options) (Some firstKey)
                     (opt_lengthMarker options)) writer
              else if isArrayOfObjects items then
                match extractTabularHeader items with
                | Some header =>
                    writeTabularRows items header (S depth)
                      (wpushListItem depth
                         (formatHeader (List.length items) (Some firstKey) (Some header)
                            (opt_delimiter options) (opt_lengthMarker options)) writer)
                | None =>
                    forEach (fun item w => encodeObjectAsListItem item (S depth) w) items
                      (wpushListItem depth
                         (encodedKey ++ "["
                            ++ intToString (Z.of_nat (List.length items))
                            ++ "]:")%string writer)
                end
              else
                forEach (fun item w => encodeListItemValue item (S depth) w) items
                  (wpushListItem depth
                     (encodedKey ++ "[" ++ intToString (Z.of_nat (List.length items))
                        ++ "]:")%string writer)
          | VObj props' | VObjWith _ props' =>
              forEach (fun kv w => encodeKeyValuePair (fst kv) (snd kv) (S (S depth)) w)
                props' (wpushListItem depth (encodedKey ++ ":")%string writer)
          | VDate _ | VSet _ | VMap _ | VOpaque true =>
              wpushListItem depth (encodedKey ++ ":")%string writer
          | _ => writer
          end in
      forEach (fun kv w => encodeKeyValuePair (fst kv) (snd kv) (S depth) w)
        remaining afterFirst
  end.
End Open.

Fixpoint encodeKeyValuePair (key : string) (value : jsval) (depth : nat)
    (writer : LineWriter) {struct value} : LineWriter :=
  let encodedKey := encodeKey key in
  if isJsonPrimitive value then
    wpush depth (encodedKey ++ ": " ++ encodePrimitive value (opt_delimiter options))%string
      writer
  else
    match value with
    | VArr items => encodeArray encodeListItemValue (Some key) items depth writer
    | VObj props | VObjWith _ props =>
        forEach (fun kv w => encodeKeyValuePair (fst kv) (snd kv) (S depth) w)
          props (wpush depth (encodedKey ++ ":")%string writer)
    | VDate _ | VSet _ | VMap _ | VOpaque true =>
        wpush depth (encodedKey ++ ":")%string writer
    | _ => writer
    end

with encodeListItemValue (value : jsval) (depth : nat) (writer : LineWriter)
    {struct value} : LineWriter :=
  if isJsonPrimitive value then
    wpushListItem depth (encodePrimitive value (opt_delimiter options)) writer
  else
    match value with
    | VArr items =>
        if isArrayOfPrimitives items then
          wpushListItem depth
            (encodeInlineArrayLine items (opt_delimiter options) None
               (opt_lengthMarker options)) writer
        else writer
    | VObj props | VObjWith _ props =>
        encodePropsAsListItem encodeListItemValue encodeKeyValuePair
          encodeObjectAsListItem props depth writer
    | VDate _ | VSet _ | VMap _ | VOpaque true => wpush depth LIST_ITEM_MARKER writer
    | _ => writer
    end

with encodeObjectAsListItem (obj : jsval) (depth : nat) (writer : LineWriter)
    {struct obj} : LineWriter :=
  match obj with
  | VObj props | VObjWith _ props =>
      encodePropsAsListItem encodeListItemValue encodeKeyValuePair
        encodeObjectAsListItem props depth writer
  | _ => wpush depth LIST_ITEM_MARKER writer
  end.

Definition encodeObject (value : jsval) (depth : nat) (writer : LineWriter) : LineWriter :=
  forEach (fun kv w => encodeKeyValuePair (fst kv) (snd kv) depth w) (ownProps value) writer.

Definition encodeValue (value : jsval) : string :=
  if isJsonPrimitive value then encodePrimitive value (opt_delimiter options)
  else
    writerToString
      (match value with
       | VArr items => encodeArray encodeListItemValue None items 0%nat []
       | _ => if isJsonObject value then encodeObject value 0%nat [] else []
       end).

End Encoder.

(** ** decode.ts: the line model *)

Record ParsedLine := {
  raw : string;
  indent : Z;
  content : string;
  depth : Z;
  lineNumber : Z
}.

Record BlankLine := {
  blank_lineNumber : Z;
  blank_indent : Z;
  blank_depth : Z
}.

Record DecodeOptions := {
  dec_indent : Z;
  dec_strict : bool
}.

(** [Math.floor(indentSpaces / indentSize)] *)
Definition computeDepthFromIndent (indentSpaces indentSize : Z) : Z :=
  indentSpaces / indentSize.

(** Length of the longest prefix of [s] whose characters satisfy [p]. *)
Fixpoint countWhile (p : ascii -> bool) (s : string) : Z :=
  match s with
  | String c r => if p c then 1 + countWhile p r else 0
  | EmptyString => 0
  end.

Definition isSpace (c : ascii) : bool := Ascii.eqb c SPACE.
Definition isSpaceOrTab (c : ascii) : bool := Ascii.eqb c SPACE || Ascii.eqb c TAB.

(** The body of the loop of [toParsedLines], from line number [lineNumber]. *)
Fixpoint scanLines (todo : list string) (lineNumber : Z) (indentSize : Z) (strict : bool)
    (parsed : list ParsedLine) (blankLines : list BlankLine)
    : outcome (list ParsedLine * list BlankLine) :=
  match todo with
  | [] => Return (parsed, blankLines)
  | raw :: rest =>
      let indent := countWhile isSpace raw in
      let content := sliceFrom raw indent in
      let depth := computeDepthFromIndent indent indentSize in
      if isEmpty (trim content) then
        scanLines rest (lineNumber + 1) indentSize strict parsed
          (blankLines ++ [{| blank_lineNumber := lineNumber;
                             blank_indent := indent; blank_depth := depth |}])
      else
        let wsEnd := countWhile isSpaceOrTab raw in
        if strict && includes (slice raw 0 wsEnd) TAB then
          Throw (SyntaxError "Tabs are not allowed in indentation in strict mode")
        else if strict && (0 <? indent) && negb (indent mod indentSize =? 0) then
          Throw (SyntaxError "Indentation must be exact multiple of the indent size")
        else
          scanLines rest (lineNumber + 1) indentSize strict
            (parsed ++ [{| raw := raw; indent := indent; content := content;
                           depth := depth; lineNumber := lineNumber |}])
            blankLines
  end.

Definition toParsedLines (source : string) (indentSize : Z) (strict : bool)
    : outcome (list ParsedLine * list BlankLine) :=
  if isEmpty (trim source) then Return ([], [])
  else scanLines (splitOn NEWLINE source) 1 indentSize strict [] [].

(** ** decode.ts: headers and tokens *)

Record ArrayHeader := {
  hdr_key : option string;
  hdr_length : Z;
  hdr_delimiter : Delimiter;
  hdr_fields : option (list string);
  hdr_hasLengthMarker : bool
}.

Definition dropLastChar (s : string) : string := slice s 0 (-1).

Definition parseBracketSegment (seg : string) (defaultDelimiter : Delimiter)
    : outcome (Z * Delimiter * bool) :=
  let '(hasLengthMarker, content1) :=
    if startsWith seg "#" then (true, sliceFrom seg 1) else (false, seg) in
  let '(delimiter, content2) :=
    if endsWithChar content1 TAB then (DTab, dropLastChar content1)
    else if endsWithChar content1 PIPE then (DPipe, dropLastChar content1)
    else (defaultDelimiter, content1) in
  match parseInt content2 with
  | None => Throw InvalidArrayLength
  | Some length => Return (length, delimiter, hasLengthMarker)
  end.

(** The loop of [parseDelimitedValues], on the text still to read. *)
Fixpoint scanDelimited (delimiter : ascii) (input : string) (inQuotes : bool)
    (current : string) (values : list string) : list string :=
  match input with
  | EmptyString =>
      if negb (isEmpty current) || (0 <? Z.of_nat (List.length values))
      then values ++ [trim current] else values
  | String char r =>
      let otherwise :=
        if Ascii.eqb char DOUBLE_QUOTE then
          scanDelimited delimiter r (negb inQuotes) (current ++ ofChar char)%string values
        else if Ascii.eqb char delimiter && negb inQuotes then
          scanDelimited delimiter r inQuotes EmptyString (values ++ [trim current])
        else
          scanDelimited delimiter r inQuotes (current ++ ofChar char)%string values in
      match r with
      | String next r' =>
          if Ascii.eqb char BACKSLASH && inQuotes then
            scanDelimited delimiter r' inQuotes
              (current ++ String char (ofChar next))%string values
          else otherwise
      | EmptyString => otherwise
      end
  end.

Definition parseDelimitedValues (input : string) (delimiter : Delimiter) : list string :=
  scanDelimited (delimChar delimiter) input false EmptyString [].

Definition parseStringLiteral (token : string) : outcome string :=
  let trimmed := trim token in
  if startsWith trimmed (ofChar DOUBLE_QUOTE) then
    let closingQuoteIndex := findClosingQuote trimmed 0 in
    if closingQuoteIndex =? -1 then
      Throw (SyntaxError "Unterminated string: missing closing quote")
    else if negb (closingQuoteIndex =? len trimmed - 1) then
      Throw (SyntaxError "Unexpected characters after closing quote")
    else unescapeString (slice trimmed 1 closingQuoteIndex)
  else Return trimmed.

Definition parsePrimitiveToken (token : string) : outcome jsval :=
  let trimmed := trim token in
  if isEmpty trimmed then Return (VStr EmptyString)
  else if startsWith trimmed (ofChar DOUBLE_QUOTE) then
    do s <- parseStringLiteral trimmed; Return (VStr s)
  else if isBooleanOrNullLiteral trimmed then
    if String.eqb trimmed TRUE_LITERAL then Return (VBool true)
    else if String.eqb trimmed FALSE_LITERAL then Return (VBool false)
    else Return VNull
  else if isNumericLiteral trimmed then Return (VNum (Number trimmed))
  else Return (VStr trimmed).

Definition mapRowValuesToPrimitives (values : list string) : outcome (list jsval) :=
  mapM parsePrimitiveToken values.

Definition parseArrayHeaderLine (content : string) (defaultDelimiter : Delimiter)
    : outcome (option (ArrayHeader * option string)) :=
  if startsWith (trimStart content) (ofChar DOUBLE_QUOTE) then Return None
  else
    let bracketStart := indexOf content OPEN_BRACKET in
    if bracketStart =? -1 then Return None
    else
      let bracketEnd := indexOfFrom content CLOSE_BRACKET bracketStart in
      if bracketEnd =? -1 then Return None
      else
        let braceStart := indexOfFrom content OPEN_BRACE bracketEnd in
        let braceEnd :=
          if negb (braceStart =? -1) && (braceStart <? indexOfFrom content COLON bracketEnd)
          then
            let foundBraceEnd := indexOfFrom content CLOSE_BRACE braceStart in
            if negb (foundBraceEnd =? -1) then foundBraceEnd + 1 else bracketEnd + 1
          else bracketEnd + 1 in
        let colonIndex := indexOfFrom content COLON (Z.max bracketEnd braceEnd) in
        if colonIndex =? -1 then Return None
        else
          let key := if 0 <? bracketStart then Some (trim (slice content 0 bracketStart))
                     else None in
          let afterColon := trim (sliceFrom content (colonIndex + 1)) in
          let bracketContent := slice content (bracketStart + 1) braceEnd in
          match parseBracketSegment bracketContent defaultDelimiter with
          | Return (length, delimiter, hasLengthMarker) =>
              do fields <-
                (if negb (braceStart =? -1) && (braceStart <? colonIndex) then
                   let foundBraceEnd := indexOfFrom content CLOSE_BRACE braceStart in
                   if negb (foundBraceEnd =? -1) && (foundBraceEnd <? colonIndex) then
                     let fieldsStr := slice content (braceStart + 1) foundBraceEnd in
                     do fs <- mapM (fun field => parseStringLiteral (trim field))
                                (parseDelimitedValues fieldsStr delimiter);
                     Return (Some fs)
                   else Return None
                 else Return None);
              Return (Some ({| hdr_key := key; hdr_length := length;
                               hdr_delimiter := delimiter; hdr_fields := fields;
                               hdr_hasLengthMarker := hasLengthMarker |},
                            if isEmpty afterColon then None else Some afterColon))
          | _ => Return None
          end.

(** The loop of [parseUnquotedKey]: the index of the first colon at or
    after [start]. *)
Definition parseUnquotedKey (content : string) (start : Z) : outcome (string * Z) :=
  let end_ := indexOfFrom content COLON start in
  if end_ =? -1 then Throw (SyntaxError "Missing colon after key")
  else Return (trim (slice content start end_), end_ + 1).

Definition parseQuotedKey (content : string) (start : Z) : outcome (string * Z) :=
  let closingQuoteIndex := findClosingQuote content start in
  if closingQuoteIndex =? -1 then Throw (SyntaxError "Unterminated quoted key")
  else
    do key <- unescapeString (slice content (start + 1) closingQuoteIndex);
    let end_ := closingQuoteIndex + 1 in
    if (len content <=? end_) || negb (charIs content end_ COLON) then
      Throw (SyntaxError "Missing colon after key")
    else Return (key, end_ + 1).

Definition parseKeyToken (content : string) (start : Z) : outcome (string * Z) :=
  if charIs content start DOUBLE_QUOTE then parseQuotedKey content start
  else parseUnquotedKey content start.

Definition isArrayHeaderAfterHyphen (content : string) : bool :=
  startsWith (trim content) (ofChar OPEN_BRACKET)
  && negb (findUnquotedChar content COLON =? -1).

Definition isObjectFirstFieldAfterHyphen (content : string) : bool :=
  negb (findUnquotedChar content COLON =? -1).

Definition assertExpectedCount (actual expected : Z) (itemType : string)
    (options : DecodeOptions) : outcome unit :=
  if dec_strict options && negb (actual =? expected)
  then Throw (CountMismatch expected actual itemType)
  else Return tt.

Definition isDataRow (content : string) (delimiter : Delimiter) : bool :=
  let colonPos := indexOf content COLON in
  let delimiterPos := indexOf content (delimChar delimiter) in
  if colonPos =? -1 then true
  else if negb (delimiterPos =? -1) && (delimiterPos <? colonPos) then true
  else false.

Definition isKeyValueLine (line : ParsedLine) : bool :=
  let content := content line in
  if startsWith content (ofChar DOUBLE_QUOTE) then
    let closingQuoteIndex := findClosingQuote content 0 in
    if closingQuoteIndex =? -1 then false
    else (closingQuoteIndex + 1 <? len content) && charIs content (closingQuoteIndex + 1) COLON
  else includes content COLON.

(** ** decode.ts: the recursive decoder

    The [LineCursor] is the list of parsed lines, fixed for one call of
    [deserialize], and the index of the next line; a decoding function
    takes the index and returns the new one with its value.  Each [while]
    loop is a function of its local variables.  The functions that call each
    other recursively are driven by a step budget, spent one unit per call. *)

Section Decoder.

Variable lines : list ParsedLine.
Variable options : DecodeOptions.

Definition peek (cursor : nat) : option ParsedLine := nth_error lines cursor.

Definition atEnd (cursor : nat) : bool := (List.length lines <=? cursor)%nat.

Definition decodeInlinePrimitiveArray (header : ArrayHeader) (inlineValues : string)
    : outcome (list jsval) :=
  if isEmpty (trim inlineValues) then
    do _ <- assertExpectedCount 0 (hdr_length header) "inline array items" options;
    Return []
  else
    do primitives <- mapRowValuesToPrimitives
                       (parseDelimitedValues inlineValues (hdr_delimiter header));
    do _ <- assertExpectedCount (Z.of_nat (List.length primitives)) (hdr_length header)
              "inline array items" options;
    Return primitives.

(** The object a tabular row denotes: [obj[fields[i]] = primitives[i]]. *)
Fixpoint bindFields (fields : list string) (primitives : list jsval)
    (obj : jsval) : jsval :=
  match fields with
  | [] => obj
  | f :: fs =>
      bindFields fs (tl primitives)
        (assign obj f (match primitives with p :: _ => p | [] => VUndefined end))
  end.

(** The test that lets [decodeTabularArray] consume a line as a row. *)
Definition acceptsRow (line : ParsedLine) (delimiter : Delimiter) : bool :=
  negb (startsWith (content line) LIST_ITEM_PREFIX) && isDataRow (content line) delimiter.

(** The loop of [decodeTabularArray]; [rest] is the part of [lines] from
    [cursor] on. *)
Fixpoint tabularRows (header : ArrayHeader) (fields : list string) (rowDepth : Z)
    (rest : list ParsedLine) (cursor : nat) (objects : list jsval)
    : outcome (list jsval * nat) :=
  match rest with
  | [] => Return (objects, cursor)
  | line :: rest' =>
      if negb (Z.of_nat (List.length objects) <? hdr_length header) then
        Return (objects, cursor)
      else if depth line <? rowDepth then Return (objects, cursor)
      else if depth line =? rowDepth then
        if acceptsRow line (hdr_delimiter header) then
          let values := parseDelimitedValues (content line) (hdr_delimiter header) in
          do _ <- assertExpectedCount (Z.of_nat (List.length values))
                    (Z.of_nat (List.length fields)) "tabular row values" options;
          do primitives <- mapRowValuesToPrimitives values;
          tabularRows header fields rowDepth rest' (S cursor)
            (objects ++ [bindFields fields primitives (VObj [])])
        else Return (objects, cursor)
      else Return (objects, cursor)
  end.

Definition decodeTabularArray (header : ArrayHeader) (cursor : nat) (baseDepth : Z)
    : outcome (list jsval * nat) :=
  let fields := match hdr_fields header with Some fs => fs | None => [] end in
  do r <- tabularRows header fields (baseDepth + 1) (skipn cursor lines) cursor [];
  do _ <- assertExpectedCount (Z.of_nat (List.length (fst r))) (hdr_length header)
            "tabular rows" options;
  Return r.

(** What [decodeKeyValue] returns. *)
Record KeyValue := { kv_key : string; kv_value : jsval; kv_followDepth : Z }.

(** The bodies of the functions that call each other.  Each takes the
    functions it calls as arguments; the fixpoint below hands them over
    with the budget that is left. *)
Section Bodies.
Variable decodeKeyValue : string -> nat -> Z -> outcome (KeyValue * nat).
Variable decodeObject : nat -> Z -> jsval -> outcome (jsval * nat).
Variable decodeArrayFromHeader :
  ArrayHeader -> option string -> nat -> Z -> outcome (list jsval * nat).
Variable decodeListArray :
  ArrayHeader -> nat -> Z -> list jsval -> outcome (list jsval * nat).
Variable decodeListItem : nat -> Z -> Delimiter -> outcome (jsval * nat).
Variable decodeObjectFromListItem : ParsedLine -> nat -> Z -> outcome (jsval * nat).
Variable decodeListItemFields : nat -> Z -> jsval -> outcome (jsval * nat).

Definition decodeKeyValue_body (content : string) (cursor : nat) (baseDepth : Z)
    : outcome (KeyValue * nat) :=
  do arrayHeader <- parseArrayHeaderLine content DEFAULT_DELIMITER;
  let plain :=
    do ke <- parseKeyToken content 0;
    let rest := trim (sliceFrom content (snd ke)) in
    if isEmpty rest then
      match peek cursor with
      | Some nextLine =>
          if baseDepth <? depth nextLine then
            do oc <- decodeObject cursor (baseDepth + 1) (VObj []);
            Return ({| kv_key := fst ke; kv_value := fst oc;
                       kv_followDepth := baseDepth + 1 |}, snd oc)
          else Return ({| kv_key := fst ke; kv_value := VObj [];
                          kv_followDepth := baseDepth + 1 |}, cursor)
      | None => Return ({| kv_key := fst ke; kv_value := VObj [];
                           kv_followDepth := baseDepth + 1 |}, cursor)
      end
    else
      do v <- parsePrimitiveToken rest;
      Return ({| kv_key := fst ke; kv_value := v; kv_followDepth := baseDepth + 1 |},
              cursor) in
  match arrayHeader with
  | Some (header, inlineValues) =>
      match hdr_key header with
      | Some key =>
          if isEmpty key then plain
          else
            do ac <- decodeArrayFromHeader header inlineValues cursor baseDepth;
            Return ({| kv_key := key; kv_value := VArr (fst ac);
                       kv_followDepth := baseDepth + 1 |}, snd ac)
      | None => plain
      end
  | None => plain
  end.

(** One turn of the loop of [decodeObject], with [obj] built so far;
    the line is read by [decodeKeyValuePair]. *)
Definition decodeObject_body (cursor : nat) (baseDepth : Z)
    (obj : jsval) : outcome (jsval * nat) :=
  if atEnd cursor then Return (obj, cursor)
  else
    match peek cursor with
    | None => Return (obj, cursor)
    | Some line =>
        if depth line <? baseDepth then Return (obj, cursor)
        else if depth line =? baseDepth then
          do kc <- decodeKeyValue (content line) (S cursor) baseDepth;
          decodeObject (snd kc) baseDepth
            (assign obj (kv_key (fst kc)) (kv_value (fst kc)))
        else Return (obj, cursor)
    end.

Definition decodeArrayFromHeader_body (header : ArrayHeader)
    (inlineValues : option string) (cursor : nat) (baseDepth : Z)
    : outcome (list jsval * nat) :=
  let body :=
    match hdr_fields header with
    | Some (_ :: _) => decodeTabularArray header cursor baseDepth
    | _ => decodeListArray header cursor baseDepth []
    end in
  match inlineValues with
  | Some iv =>
      if isEmpty iv then body
      else do a <- decodeInlinePrimitiveArray header iv; Return (a, cursor)
  | None => body
  end.

(** One turn of the loop of [decodeListArray], with [items] collected
    so far, and the assertion that follows the loop. *)
Definition decodeListArray_body (header : ArrayHeader) (cursor : nat) (baseDepth : Z)
    (items : list jsval) : outcome (list jsval * nat) :=
  let itemDepth := baseDepth + 1 in
  let finish :=
    do _ <- assertExpectedCount (Z.of_nat (List.length items)) (hdr_length header)
              "list array items" options;
    Return (items, cursor) in
  if atEnd cursor || negb (Z.of_nat (List.length items) <? hdr_length header)
  then finish
  else
    match peek cursor with
    | None => finish
    | Some line =>
        if depth line <? itemDepth then finish
        else if (depth line =? itemDepth)
                && startsWith (content line) LIST_ITEM_PREFIX then
          do ic <- decodeListItem cursor itemDepth (hdr_delimiter header);
          decodeListArray header (snd ic) baseDepth (items ++ [fst ic])
        else finish
    end.

Definition decodeListItem_body (cursor : nat) (baseDepth : Z)
    (activeDelimiter : Delimiter) : outcome (jsval * nat) :=
  match peek cursor with
  | None => Throw (ReferenceError "Expected list item")
  | Some line =>
      let cursor1 := S cursor in
      let afterHyphen := sliceFrom (content line) (len LIST_ITEM_PREFIX) in
      let other :=
        if isObjectFirstFieldAfterHyphen afterHyphen then
          do oc <- decodeObjectFromListItem line cursor1 baseDepth;
          Return (fst oc, snd oc)
        else
          do v <- parsePrimitiveToken afterHyphen; Return (v, cursor1) in
      if isArrayHeaderAfterHyphen afterHyphen then
        do arrayHeader <- parseArrayHeaderLine afterHyphen DEFAULT_DELIMITER;
        match arrayHeader with
        | Some (header, inlineValues) =>
            do ac <- decodeArrayFromHeader header inlineValues cursor1 baseDepth;
            Return (VArr (fst ac), snd ac)
        | None => other
        end
      else other
  end.

(** The object starts as the literal [{ [key]: value }]. *)
Definition decodeObjectFromListItem_body (firstLine : ParsedLine) (cursor : nat)
    (baseDepth : Z) : outcome (jsval * nat) :=
  do kc <- decodeKeyValue (sliceFrom (content firstLine) (len LIST_ITEM_PREFIX))
             cursor baseDepth;
  decodeListItemFields (snd kc) (kv_followDepth (fst kc))
    (VObj (JsObject.define [] (kv_key (fst kc)) (kv_value (fst kc)))).

(** One turn of the loop of [decodeObjectFromListItem], with [obj]
    built so far. *)
Definition decodeListItemFields_body (cursor : nat) (followDepth : Z)
    (obj : jsval) : outcome (jsval * nat) :=
  if atEnd cursor then Return (obj, cursor)
  else
    match peek cursor with
    | None => Return (obj, cursor)
    | Some line =>
        if depth line <? followDepth then Return (obj, cursor)
        else if (depth line =? followDepth)
                && negb (startsWith (content line) LIST_ITEM_PREFIX) then
          do kc <- decodeKeyValue (content line) (S cursor) followDepth;
          decodeListItemFields (snd kc) followDepth
            (assign obj (kv_key (fst kc)) (kv_value (fst kc)))
        else Return (obj, cursor)
    end.
End Bodies.

Fixpoint decodeKeyValue (fuel : nat) (content : string) (cursor : nat) (baseDepth : Z)
    {struct fuel} : outcome (KeyValue * nat) :=
  match fuel with
  | O => Exhausted
  | S fuel' =>
      decodeKeyValue_body (decodeObject fuel') (decodeArrayFromHeader fuel')
        content cursor baseDepth
  end

with decodeObject (fuel : nat) (cursor : nat) (baseDepth : Z)
    (obj : jsval) {struct fuel} : outcome (jsval * nat) :=
  match fuel with
  | O => Exhausted
  | S fuel' =>
      decodeObject_body (decodeKeyValue fuel') (decodeObject fuel') cursor baseDepth obj
  end

with decodeArrayFromHeader (fuel : nat) (header : ArrayHeader)
    (inlineValues : option string) (cursor : nat) (baseDepth : Z) {struct fuel}
    : outcome (list jsval * nat) :=
  match fuel with
  | O => Exhausted
  | S fuel' =>
      decodeArrayFromHeader_body (decodeListArray fuel') header inlineValues
        cursor baseDepth
  end

with decodeListArray (fuel : nat) (header : ArrayHeader) (cursor : nat) (baseDepth : Z)
    (items : list jsval) {struct fuel} : outcome (list jsval * nat) :=
  match fuel with
  | O => Exhausted
  | S fuel' =>
      decodeListArray_body (decodeListArray fuel') (decodeListItem fuel')
        header cursor baseDepth items
  end

with decodeListItem (fuel : nat) (cursor : nat) (baseDepth : Z)
    (activeDelimiter : Delimiter) {struct fuel} : outcome (jsval * nat) :=
  match fuel with
  | O => Exhausted
  | S fuel' =>
      decodeListItem_body (decodeArrayFromHeader fuel') (decodeObjectFromListItem fuel')
        cursor baseDepth activeDelimiter
  end

with decodeObjectFromListItem (fuel : nat) (firstLine : ParsedLine) (cursor : nat)
    (baseDepth : Z) {struct fuel} : outcome (jsval * nat) :=
  match fuel with
  | O => Exhausted
  | S fuel' =>
      decodeObjectFromListItem_body (decodeKeyValue fuel') (decodeListItemFields fuel')
        firstLine cursor baseDepth
  end

with decodeListItemFields (fuel : nat) (cursor : nat) (followDepth : Z)
    (obj : jsval) {struct fuel} : outcome (jsval * nat) :=
  match fuel with
  | O => Exhausted
  | S fuel' =>
      decodeListItemFields_body (decodeKeyValue fuel') (decodeListItemFields fuel')
        cursor followDepth obj
  end.

Definition decodeValueFromLines (fuel : nat) : outcome jsval :=
  match peek 0%nat with
  | None => Throw (ReferenceError "No content to decode")
  | Some first =>
      let other :=
        if (List.length lines =? 1)%nat && negb (isKeyValueLine first) then
          parsePrimitiveToken (trim (content first))
        else
          do oc <- decodeObject fuel 0%nat 0 (VObj []); Return (fst oc) in
      if isArrayHeaderAfterHyphen (content first) then
        do headerInfo <- parseArrayHeaderLine (content first) DEFAULT_DELIMITER;
        match headerInfo with
        | Some (header, inlineValues) =>
            do ac <- decodeArrayFromHeader fuel header inlineValues 1%nat 0;
            Return (VArr (fst ac))
        | None => other
        end
      else other
  end.

End Decoder.

(** The budget [deserialize] hands to the recursive decoder: six steps per
    line and six more. *)
Definition decodeBudget (lines : list ParsedLine) : nat := 6 * List.length lines + 6.

Definition deserialize (toonStr : string) (strict : option bool) : outcome jsval :=
  let resolvedOptions :=
    {| dec_indent := DEFAULT_INDENT_SIZE;
       dec_strict := match strict with Some b => b | None => false end |} in
  do scanResult <- toParsedLines toonStr (dec_indent resolvedOptions)
                     (dec_strict resolvedOptions);
  match fst scanResult with
  | [] => Throw EmptyInputError
  | lines => decodeValueFromLines lines resolvedOptions (decodeBudget lines)
  end.

(** ** utils.ts: [hasCircularReference], on object graphs

    A cycle needs objects with an identity.  An object graph is a store
    from addresses to containers; a value met in it is a reference to a
    container, or a part that is a tree of its own ([HTree]): no object in
    such a part is referenced from anywhere else, so a traversal meets
    none of them twice.

    Arrays and objects expose their parts as elements and own enumerable
    properties.  A [Set] or a [Map] keeps its members in internal slots: a
    [for ... in] loop over it finds nothing, while [Array.from] lists them.
    The objects of the store have the prototype [Object.prototype]. *)

Definition addr := positive.

Inductive hval :=
| HTree (v : jsval)
| HRef (a : addr).

Inductive hnode :=
| NArr (items : list hval)
| NObj (props : list (string * hval))
| NSet (members : list hval)
| NMap (entries : list (string * hval)).

Abbreviation heap := (gmap addr hnode).

(** What [for (const item of obj)] and [for (const key in obj)] visit. *)
Definition enumerable (n : hnode) : list hval :=
  match n with
  | NArr items => items
  | NObj props => map snd props
  | NSet _ | NMap _ => []
  end.

(** What [normalizeValue] descends into. *)
Definition parts (n : hnode) : list hval :=
  match n with
  | NArr items | NSet items => items
  | NObj props | NMap props => map snd props
  end.

(** The object at an address; an address outside the store stands for an
    object without parts. *)
Definition deref (h : heap) (a : addr) : hnode :=
  match h !! a with Some n => n | None => NObj [] end.

(** What the expression [obj.hasOwnProperty] finds: the method of
    [Object.prototype], the value of a property that [obj] or one of its
    prototypes has under that name, or nothing, when the chain of
    prototypes ends with [null] before [Object.prototype]. *)
Inductive OwnTest :=
| BuiltinMethod
| DataProperty (v : jsval)
| NoProperty.

Fixpoint hasOwnPropertyOf (obj : jsval) : OwnTest :=
  match obj with
  | VObj props =>
      match JsObject.lookup "hasOwnProperty" props with
      | Some v => DataProperty v
      | None => BuiltinMethod
      end
  | VObjWith proto props =>
      match JsObject.lookup "hasOwnProperty" props with
      | Some v => DataProperty v
      | None =>
          match proto with
          | Some p => hasOwnPropertyOf p
          | None => NoProperty
          end
      end
  | _ => BuiltinMethod
  end.

(** The call [obj.hasOwnProperty(key)].  The built-in method answers
    whether [key] is an own property.  A value that is no function cannot
    be called; of the values, only [VOpaque false] may be a function. *)
Definition callOwnTest (test : OwnTest) : outcome unit :=
  match test with
  | BuiltinMethod => Return tt
  | DataProperty (VOpaque false) => Throw HostCall
  | DataProperty _ | NoProperty => Throw TypeError
  end.

(** [for (const key in obj)] finds a key: an enumerable property of [obj]
    or of an object of its prototype chain.  The built-in prototypes have
    none. *)
Fixpoint hasEnumerableKey (obj : jsval) : bool :=
  match obj with
  | VArr items => negb (List.length items =? 0)%nat
  | VObj props => negb (List.length props =? 0)%nat
  | VObjWith proto props =>
      negb (List.length props =? 0)%nat
      || match proto with
         | Some p => hasEnumerableKey p
         | None => false
         end
  | _ => false
  end.

(** [check] on a part that is a tree.  No object of it is met twice, so
    that the answer is [false], unless a call of [obj.hasOwnProperty]
    throws on the way.  The loop over the keys calls it for every key,
    own or inherited, and descends into the own properties. *)
Fixpoint checkTree (obj : jsval) : outcome bool :=
  match obj with
  | VArr items =>
      (fix each (items : list jsval) :=
         match items with
         | [] => Return false
         | item :: rest =>
             do c <- checkTree item;
             if c : bool then Return true else each rest
         end) items
  | VObj props | VObjWith _ props =>
      if hasEnumerableKey obj then
        do _ <- callOwnTest (hasOwnPropertyOf obj);
        (fix each (todo : list (string * jsval)) :=
           match todo with
           | [] => Return false
           | kv :: rest =>
               do c <- checkTree (snd kv);
               if c : bool then Return true else each rest
           end) props
      else Return false
  | _ => Return false
  end.

(** The call [obj.hasOwnProperty(key)] for an object of the store that has
    a key; a property that holds an object of the store holds no function. *)
Definition callOwnTestOf (n : hnode) : outcome unit :=
  match n with
  | NObj ((_ :: _) as props) =>
      match JsObject.lookup "hasOwnProperty" props with
      | Some (HTree v) => callOwnTest (DataProperty v)
      | Some (HRef _) => Throw TypeError
      | None => Return tt
      end
  | _ => Return tt
  end.

(** The inner function [check] of [hasCircularReference]; [seen] is the
    [WeakSet], passed in and returned. *)
Fixpoint check (fuel : nat) (h : heap) (obj : hval) (seen : gset addr)
    : outcome (bool * gset addr) :=
  match fuel with
  | O => Exhausted
  | S fuel' =>
      match obj with
      | HTree v => do c <- checkTree v; Return (c, seen)
      | HRef a =>
          if decide (a ∈ seen) then Return (true, seen)
          else
            let seen1 := {[a]} ∪ seen in
            do _ <- callOwnTestOf (deref h a);
            do r <- (fix each (items : list hval) (seen : gset addr) :=
                       match items with
                       | [] => Return (false, seen)
                       | item :: rest =>
                           do c <- check fuel' h item seen;
                           if fst c then Return (true, snd c) else each rest (snd c)
                       end) (enumerable (deref h a)) seen1;
            if fst r then Return (true, snd r)
            else Return (false, snd r ∖ {[a]})
      end
  end.

(** One step of [check] for each object of the store, and two more. *)
Definition checkBudget (h : heap) : nat := size h + 2.

Definition hasCircularReference (h : heap) (obj : hval) : outcome bool :=
  do r <- check (checkBudget h) h obj ∅; Return (fst r).

(** The value tree [normalizeValue] reads when it traverses the graph from
    [obj]; the traversal is as deep as [fuel] allows. *)
Fixpoint unfold (fuel : nat) (h : heap) (obj : hval) : outcome jsval :=
  match obj with
  | HTree v => Return v
  | HRef a =>
      match fuel with
      | O => Exhausted
      | S fuel' =>
          match deref h a with
          | NArr items => do l <- mapM (unfold fuel' h) items; Return (VArr l)
          | NSet items => do l <- mapM (unfold fuel' h) items; Return (VSet l)
          | NObj props =>
              do l <- mapM (fun kv => do v <- unfold fuel' h (snd kv); Return (fst kv, v))
                        props;
              Return (VObj l)
          | NMap props =>
              do l <- mapM (fun kv => do v <- unfold fuel' h (snd kv); Return (fst kv, v))
                        props;
              Return (VMap l)
          end
      end
  end.

(** ** encode.ts: [serialize] *)

Section Serialize.
Variable numberToString : number -> string.

(** [serialize(obj, options)] for [obj] in the object graph [h].  The
    normalization recurses to the depth [fuel] at most. *)
Definition serialize (fuel : nat) (h : heap) (obj : hval)
    (delimiter : option Delimiter) : outcome string :=
  do circular <- hasCircularReference h obj;
  if circular : bool then Throw SerializeError
  else
    do tree <- unfold fuel h obj;
    do normalized <- normalizeValue tree;
    Return (encodeValue numberToString (resolveOptions delimiter) normalized).

(** [serialize(value)] for a value that is a tree, with default options. *)
Definition serializeValue (value : jsval) : outcome string :=
  serialize 0 ∅ (HTree value) None.
End Serialize.

(** ** Definitions used to state the properties *)

(** A document given by its lines. *)
Definition document (ls : list string) : string := join (ofChar NEWLINE) ls.

(** [deserialize(serialize(value))], both with default options. *)
Definition roundTrip (numberToString : number -> string) (value : jsval) : outcome jsval :=
  do text <- serializeValue numberToString value; deserialize text None.

(** The row test as the specification words it: no colon at all, or the
    first unquoted delimiter before the first colon. *)
Definition isDataRow_spec (content : string) (delimiter : Delimiter) : bool :=
  let colonPos := indexOf content COLON in
  let delimiterPos := findUnquotedChar content (delimChar delimiter) in
  (colonPos =? -1) || (negb (delimiterPos =? -1) && (delimiterPos <? colonPos)).

(** A header with the default delimiter and no length marker. *)
Definition header (key : option string) (length : Z) (fields : option (list string))
    : ArrayHeader :=
  {| hdr_key := key; hdr_length := length; hdr_delimiter := DComma;
     hdr_fields := fields; hdr_hasLengthMarker := false |}.

(** [occurs c s]: the character [c] is one of the characters of [s]. *)
Fixpoint occurs (c : ascii) (s : string) : Prop :=
  match s with
  | EmptyString => False
  | String x r => x = c \/ occurs c r
  end.

(** The shape of a tabular row: no colon at all, or a delimiter with no
    colon before it. *)
Definition rowShape (content : string) (delimiter : Delimiter) : Prop :=
  ~ occurs COLON content
  \/ exists pre post, content = (pre ++ String (delimChar delimiter) post)%string
                      /\ ~ occurs COLON pre.

(** The first colon or delimiter of [s] decides the row test. *)
Fixpoint firstDecides (d : ascii) (s : string) : bool :=
  match s with
  | EmptyString => true
  | String x r =>
      if Ascii.eqb x COLON then false
      else if Ascii.eqb x d then true else firstDecides d r
  end.

Definition rowTest (fc fd : option nat) : bool :=
  match fc with
  | None => true
  | Some j => match fd with Some i => (i <? j)%nat | None => false end
  end.

(** A line of depth 1, the second of its document. *)
Definition rowLine (text : string) : ParsedLine :=
  {| raw := ("  " ++ text)%string; indent := 2; content := text; depth := 1; lineNumber := 2 |}.

(** The key-value lines that the loop of [decodeObject] reads from
    [cursor] on, each decoded by [decodeKeyValue], in the order of the lines
    and with repeated keys kept. *)
Fixpoint decodeEntries (lines : list ParsedLine) (options : DecodeOptions) (fuel : nat)
    (cursor : nat) (baseDepth : Z) : outcome (list (string * jsval) * nat) :=
  match fuel with
  | O => Exhausted
  | S fuel' =>
      if atEnd lines cursor then Return ([], cursor)
      else
        match peek lines cursor with
        | None => Return ([], cursor)
        | Some line =>
            if depth line <? baseDepth then Return ([], cursor)
            else if depth line =? baseDepth then
              do kc <- decodeKeyValue lines options fuel' (content line) (S cursor) baseDepth;
              do r <- decodeEntries lines options fuel' (snd kc) baseDepth;
              Return ((kv_key (fst kc), kv_value (fst kc)) :: fst r, snd r)
            else Return ([], cursor)
        end
  end.

(** The value of the last entry of key [k]. *)
Fixpoint lastBinding {A} (k : string) (entries : list (string * A)) : option A :=
  match entries with
  | [] => None
  | (k', v) :: r =>
      match lastBinding k r with
      | Some x => Some x
      | None => if String.eqb k' k then Some v else None
      end
  end.

(** [throwsOnly P m]: every exception that [m] throws satisfies [P]. *)
Definition throwsOnly {A} (P : Exception -> Prop) (m : outcome A) : Prop :=
  forall e, m = Throw e -> P e.

(** The exceptions of the recursive decoder: syntax and reference errors,
    and count mismatches in strict mode only. *)
Definition decoderThrows (strict : bool) (e : Exception) : Prop :=
  match e with
  | SyntaxError _ | ReferenceError _ => True
  | CountMismatch _ _ _ => strict = true
  | _ => False
  end.

(** The line at [cursor] does not continue a list body of depth
    [itemDepth]: there is none, it is shallower or deeper, or it is not a
    list item. *)
Definition listBodyEnds (lines : list ParsedLine) (cursor : nat) (itemDepth : Z) : bool :=
  match peek lines cursor with
  | None => true
  | Some line =>
      negb ((depth line =? itemDepth) && startsWith (content line) LIST_ITEM_PREFIX)
  end.

(** The first line of a document, of depth 0. *)
Definition topLine (text : string) : ParsedLine :=
  {| raw := text; indent := 0; content := text; depth := 0; lineNumber := 1 |}.

Definition strictOptions : DecodeOptions := {| dec_indent := 2; dec_strict := true |}.

(** [before k' k]: in the property order, a key [k'] may stand before a
    different key [k]: when [k] is an array index, [k'] is a smaller one. *)
Definition before (k' k : string) : Prop :=
  k' <> k
  /\ forall i, JsObject.arrayIndex k = Some i ->
               exists j, JsObject.arrayIndex k' = Some j /\ j < i.

(** The keys of an object are in property order. *)
Definition propertyOrder {A} (o : JsObject.props A) : Prop :=
  StronglySorted before (JsObject.keys o).

(** The step of [normalizeValue] on one entry of a [Map] or property of an
    object. *)
Definition normalizeEntry (kv : string * jsval) : outcome (string * jsval) :=
  do v <- normalizeValue (snd kv); Return (fst kv, v).

(** [normalizeValue] leaves [w] as it is. *)
Definition stable (w : jsval) : Prop := normalizeValue w = Return w.

(** [edge h a c]: the object at [a] has the object at [c] among its
    elements or own enumerable properties. *)
Definition edge (h : heap) (a c : addr) : Prop := In (HRef c) (enumerable (deref h a)).

(** [member h a c]: the object at [a] has the object at [c] among its
    parts, those of a [Set] or [Map] included. *)
Definition member (h : heap) (a c : addr) : Prop := In (HRef c) (parts (deref h a)).

(** From [v] one can reach, along [step], an object that reaches itself. *)
Definition reachesCycle (step : addr -> addr -> Prop) (v : hval) : Prop :=
  match v with
  | HTree _ => False
  | HRef a => exists b, rtc step a b /\ tc step b b
  end.

(** From [v] one can reach an object of [seen] or one that reaches itself. *)
Definition hits (h : heap) (seen : gset addr) (v : hval) : Prop :=
  match v with
  | HTree _ => False
  | HRef a => exists b, rtc (edge h) a b /\ (b ∈ seen \/ tc (edge h) b b)
  end.

(** The loop of [check] over the parts of an object. *)
Definition checkEach (fuel : nat) (h : heap) : list hval -> gset addr -> outcome (bool * gset addr) :=
  fix each (items : list hval) (seen : gset addr) :=
    match items with
    | [] => Return (false, seen)
    | item :: rest =>
        do c <- check fuel h item seen;
        if fst c then Return (true, snd c) else each rest (snd c)
    end.

(** What a call of [check] does: it answers [false] and gives [seen] back,
    or it answers [true]. *)
Definition checkAnswers (h : heap) (seen : gset addr) (v : hval)
    (r : outcome (bool * gset addr)) : Prop :=
  (r = Return (false, seen) /\ ~ hits h seen v)
  \/ (exists seen', r = Return (true, seen') /\ hits h seen v).

(** A [Set] that is a member of itself. *)
Definition selfSet : heap := {[ 1%positive := NSet [HRef 1%positive] ]}.

(** [finishes m]: the step budget was enough for [m]. *)
Definition finishes {A} (m : outcome A) : Prop :=
  match m with Exhausted => False | _ => True end.

Arguments finishes {A} m : simpl never.

(** [advances from m]: the budget was enough for [m], and the cursor [m]
    returns is not before [from]. *)
Definition advances {A} (from : nat) (m : outcome (A * nat)) : Prop :=
  match m with
  | Return (_, c) => (from <= c)%nat
  | Throw _ => True
  | Exhausted => False
  end.

(** The budget a decoding function of rank [rank] needs with [c] as its
    cursor, in a document of [total] lines: six steps for each line from [c]
    on, and its rank. *)
Definition enough (total rank c fuel : nat) : Prop :=
  (6 * (total - c) + rank <= fuel)%nat.

(** The escape of one character. *)
Definition escapeChar (c : ascii) : string :=
  if Ascii.eqb c BACKSLASH then String BACKSLASH (ofChar BACKSLASH)
  else if Ascii.eqb c DOUBLE_QUOTE then String BACKSLASH (ofChar DOUBLE_QUOTE)
  else if Ascii.eqb c NEWLINE then String BACKSLASH "n"
  else if Ascii.eqb c CARRIAGE_RETURN then String BACKSLASH "r"
  else if Ascii.eqb c TAB then String BACKSLASH "t"
  else ofChar c.

(** The escapes of the characters of a string, one after the other. *)
Fixpoint escapeChars (s : string) : string :=
  match s with
  | EmptyString => EmptyString
  | String c r => (escapeChar c ++ escapeChars r)%string
  end.

(** A value of the JSON data model: [null], a boolean, a string, a number
    that satisfies [okNumber], an array or an object of such values.  An
    object to which an assignment has given another prototype counts with
    its own properties, and its prototype is such a value too. *)
Fixpoint jsonTree (okNumber : number -> bool) (v : jsval) : bool :=
  match v with
  | VNull | VBool _ | VStr _ => true
  | VNum x => okNumber x
  | VArr items => forallb (jsonTree okNumber) items
  | VObj props => forallb (fun kv => jsonTree okNumber (snd kv)) props
  | VObjWith proto props =>
      match proto with
      | Some p => jsonTree okNumber p
      | None => true
      end
      && forallb (fun kv => jsonTree okNumber (snd kv)) props
  | _ => false
  end.

(** JSON values: the numbers are finite. *)
Definition isJsonValue : jsval -> bool := jsonTree isFinite.

(** An object that the code has made, and one that it has made of JSON
    values. *)
Definition built (obj : jsval) : Prop :=
  match obj with
  | VObj _ | VObjWith _ _ => True
  | _ => False
  end.

Definition builtJson (obj : jsval) : Prop := built obj /\ isJsonValue obj = true.





(** The exceptions that leave [deserialize]. *)
Definition deserializeError (strict : bool) (e : Exception) : Prop :=
  match e with
  | EmptyInputError | SyntaxError _ => True
  | CountMismatch _ _ _ => strict = true
  | _ => False
  end.

(** The exceptions that leave the recursive decoder. *)
Definition decoderError (strict : bool) (e : Exception) : Prop :=
  match e with
  | SyntaxError _ => True
  | CountMismatch _ _ _ => strict = true
  | _ => False
  end.

(** [returnsOnly Q m]: every value that [m] returns satisfies [Q]. *)
Definition returnsOnly {A} (Q : A -> Prop) (m : outcome A) : Prop :=
  forall a, m = Return a -> Q a.

(** Every value of an object satisfies [Q]. *)
Definition allValues (Q : jsval -> Prop) (o : JsObject.props jsval) : Prop :=
  Forall (fun kv => Q (snd kv)) o.

(** [strict], as [deserialize] resolves the option. *)
Definition resolveStrict (strict : option bool) : bool :=
  match strict with Some b => b | None => false end.

(** A parsed line of the given depth and content (two spaces a level). *)
Definition lineOf (d : nat) (text : string) (number : Z) : ParsedLine :=
  {| raw := (JsString.repeat "  " d ++ text)%string; indent := 2 * Z.of_nat d;
     content := text; depth := Z.of_nat d; lineNumber := number |}.

(** A line the emitter pushes: its depth and its content. *)
Definition renderLine (it : nat * string) : string :=
  (JsString.repeat "  " (fst it) ++ snd it)%string.

(** The parsed lines of the pushed lines, numbered from [n]. *)
Fixpoint numberLines (n : Z) (items : list (nat * string)) : list ParsedLine :=
  match items with
  | [] => []
  | it :: r => lineOf (fst it) (snd it) n :: numberLines (n + 1) r
  end.

(** A line content that starts with a character other than white space
    and holds no newline. *)
Definition solid (text : string) : bool :=
  match text with
  | String c _ => negb (isWhite c) && negb (includes text NEWLINE)
  | EmptyString => false
  end.

(** The lines from [cursor] on have the depths and contents of [items]. *)
Fixpoint linesAt (lines : list ParsedLine) (cursor : nat) (items : list (nat * string))
    : Prop :=
  match items with
  | [] => True
  | it :: r =>
      match peek lines cursor with
      | Some l =>
          depth l = Z.of_nat (fst it) /\ content l = snd it /\ linesAt lines (S cursor) r
      | None => False
      end
  end.

(** The line at [cursor], if there is one, is shallower than [d]. *)
Definition closedAt (lines : list ParsedLine) (cursor : nat) (d : nat) : Prop :=
  match peek lines cursor with
  | Some l => depth l < Z.of_nat d
  | None => True
  end.

(** [m] returns [a] if its budget lets it return. *)
Definition upTo {A} (m : outcome A) (a : A) : Prop := m = Exhausted \/ m = Return a.

(** A line that is not made of white space only. *)
Definition nonBlank (raw : string) : bool := negb (allChars isWhite raw).

(** The indentation that strict mode refuses: a tab in the leading white
    space of the line, or a number of leading spaces that is no multiple of
    the indent size. *)
Definition badIndent (indentSize : Z) (raw : string) : bool :=
  includes (slice raw 0 (countWhile isSpaceOrTab raw)) TAB
  || ((0 <? countWhile isSpace raw) && negb (countWhile isSpace raw mod indentSize =? 0)).

(** What a parsed line records of the source lines [raws], numbered from
    [first]: the line it was read from, split into its leading spaces and
    the rest, and its depth. *)
Definition parsedFrom (indentSize : Z) (raws : list string) (first : Z) (l : ParsedLine)
    : Prop :=
  raw l = (JsString.repeat " " (Z.to_nat (indent l)) ++ content l)%string
  /\ 0 <= indent l
  /\ startsWith (content l) " " = false
  /\ nonBlank (content l) = true
  /\ depth l = indent l / indentSize
  /\ first <= lineNumber l
  /\ nth_error raws (Z.to_nat (lineNumber l - first)) = Some (raw l).

(** What the line scanner may give for the lines [raws]. *)
Definition scanOutcome (indentSize : Z) (strict : bool) (raws : list string) (first : Z)
    (parsed : list ParsedLine) (r : outcome (list ParsedLine * list BlankLine)) : Prop :=
  let refused := existsb (fun raw => nonBlank raw && badIndent indentSize raw) raws in
  match r with
  | Return (p, b) =>
      strict && refused = false
      /\ exists p', p = parsed ++ p'
                    /\ map raw p' = List.filter nonBlank raws
                    /\ Forall (parsedFrom indentSize raws first) p'
  | Throw e => strict = true /\ refused = true /\ exists m, e = SyntaxError m
  | Exhausted => False
  end.

(** Equality of two binary64 values, bit for bit. *)
Definition number_eqb (x y : number) : bool :=
  match x, y with
  | S754_zero a, S754_zero b => Bool.eqb a b
  | S754_infinity a, S754_infinity b => Bool.eqb a b
  | S754_nan, S754_nan => true
  | S754_finite a m e, S754_finite b m' e' => Bool.eqb a b && Pos.eqb m m' && Z.eqb e e'
  | _, _ => false
  end.

(** The characters of the decimal text of a finite number. *)
Definition numberChar (c : ascii) : bool :=
  isDigit c || Ascii.eqb c "." || Ascii.eqb c "-" || Ascii.eqb c "+"
  || Ascii.eqb c "e" || Ascii.eqb c "E".

(** The text that the host prints for [x] is made of such characters and
    reads back as [x]. *)
Definition numberReads (numberToString : number -> string) (x : number) : bool :=
  allChars numberChar (numberToString x)
  && match parsePrimitiveToken (numberToString x) with
     | Return (VNum y) => number_eqb y x
     | _ => false
     end.

(** A primitive that reads back from the text the emitter writes for it
    with the delimiter [d]. *)
Definition readable (numberToString : number -> string) (d : Delimiter) (v : jsval)
    : bool :=
  match v with
  | VNull | VBool _ => true
  | VNum x => numberReads numberToString x
  | VStr s => negb (isSafeUnquoted s d && isNumericLiteral s)
  | _ => false
  end.

(** What the decoder reads of a parsed line: its depth and its content. *)
Definition textOf (l : ParsedLine) : ParsedLine :=
  {| raw := EmptyString; indent := 0; content := content l; depth := depth l;
     lineNumber := 0 |}.

(** The depth and the content that the line scanner records for a source
    line. *)
Definition scanned (indentSize : Z) (ln : string) : ParsedLine :=
  {| raw := EmptyString; indent := 0;
     content := sliceFrom ln (countWhile isSpace ln);
     depth := computeDepthFromIndent (countWhile isSpace ln) indentSize;
     lineNumber := 0 |}.

(** The strings that a key-value line gives back: no opening bracket, and
    not written bare while [isNumericLiteral] accepts them. *)
Definition plainString (s : string) : bool :=
  negb (includes s OPEN_BRACKET)
  && negb (isSafeUnquoted s DEFAULT_DELIMITER && isNumericLiteral s).

(** The primitives that a key-value line gives back: [null], booleans,
    numbers whose decimal text reads back, and plain strings. *)
Definition plainLeaf (numberToString : number -> string) (v : jsval) : bool :=
  match v with
  | VNull | VBool _ => true
  | VNum x => numberReads numberToString x
  | VStr s => plainString s
  | _ => false
  end.

(** The elements of an array. *)
Definition elements (v : jsval) : list jsval :=
  match v with VArr items => items | _ => [] end.

(** The lines from the first of [rest] on have the depths and contents
    of [items]. *)
Fixpoint startsWithItems (rest : list ParsedLine) (items : list (nat * string))
    {struct items} : Prop :=
  match items with
  | [] => True
  | it :: r =>
      match rest with
      | l :: rest' =>
          depth l = Z.of_nat (fst it) /\ content l = snd it /\ startsWithItems rest' r
      | [] => False
      end
  end.

(** The keys of the objects the round trip is shown for: every key but
    [__proto__], which an assignment does not create, and [hasOwnProperty],
    under which [hasCircularReference] looks for the test it calls. *)
Definition plainKey (key : string) : bool :=
  negb (String.eqb key PROTO) && negb (String.eqb key "hasOwnProperty").

(** The values on which every call [obj.hasOwnProperty(key)] of
    [hasCircularReference] runs the built-in method: primitives, arrays, and
    objects with the prototype [Object.prototype] and no own property of
    that name, at any depth; and the object graphs that are made of such
    parts. *)
Fixpoint ordinary (v : jsval) : bool :=
  match v with
  | VArr items => forallb ordinary items
  | VObj props =>
      negb (JsObject.hasKey "hasOwnProperty" props)
      && forallb (fun kv => ordinary (snd kv)) props
  | VObjWith _ _ => false
  | _ => true
  end.

Definition ordinaryPart (v : hval) : Prop :=
  match v with
  | HTree t => ordinary t = true
  | HRef _ => True
  end.

Definition ordinaryNode (n : hnode) : Prop :=
  match n with
  | NObj props =>
      JsObject.lookup "hasOwnProperty" props = None
      /\ Forall ordinaryPart (map snd props)
  | NArr items => Forall ordinaryPart items
  | NSet _ | NMap _ => True
  end.

Definition ordinaryGraph (h : heap) (v : hval) : Prop :=
  ordinaryPart v /\ forall a n, h !! a = Some n -> ordinaryNode n.

(** No entry of a [Map] and no property of an object has the key
    [__proto__], in the parts of the value into which [normalizeValue]
    descends. *)
Fixpoint protoFree (v : jsval) : bool :=
  match v with
  | VArr items | VSet items => forallb protoFree items
  | VMap entries | VObj entries | VObjWith None entries =>
      forallb (fun kv => negb (String.eqb (fst kv) PROTO) && protoFree (snd kv)) entries
  | _ => true
  end.

(** A cell of a table: a primitive that reads back from its text, and
    whose text holds no colon. *)
Definition cell (numberToString : number -> string) (v : jsval) : bool :=
  readable numberToString DEFAULT_DELIMITER v
  && negb (includes (encodePrimitive numberToString v DEFAULT_DELIMITER) COLON).

(** A row of the table with the given fields: an object that has these
    keys, in this order, and cells for values. *)
Definition tableRow (numberToString : number -> string) (fields : list string)
    (row : jsval) : bool :=
  match row with
  | VObj props =>
      (if List.list_eq_dec String.string_dec (JsObject.keys props) fields then true else false)
      && forallb (fun kv => cell numberToString (snd kv)) props
  | _ => false
  end.

(** A table: at least one row and one field, and field names that are
    written bare. *)
Definition table (numberToString : number -> string) (fields : list string)
    (rows : list jsval) : bool :=
  negb (List.length fields =? 0)%nat && forallb isValidUnquotedKey fields
  && negb (List.length rows =? 0)%nat && forallb (tableRow numberToString fields) rows
  && forallb plainKey fields.

(** The line of a row, and the lines of a table at depth [d]. *)
Definition rowText (numberToString : number -> string) (row : jsval) : string :=
  encodeAndJoinPrimitives numberToString (map snd (ownProps row)) DEFAULT_DELIMITER.

Definition tableItems (numberToString : number -> string) (key : option string)
    (fields : list string) (rows : list jsval) (d : nat) : list (nat * string) :=
  (d, formatHeader (List.length rows) key (Some fields) DEFAULT_DELIMITER false)
    :: map (fun row => (S d, rowText numberToString row)) rows.

(** The field names of a table: the keys of its first row. *)
Definition tableFields (rows : list jsval) : list string :=
  match rows with
  | VObj props :: _ => JsObject.keys props
  | _ => []
  end.

(** An array that is a table. *)
Definition isTable (numberToString : number -> string) (rows : list jsval) : bool :=
  table numberToString (tableFields rows) rows.

(** An array of arrays of primitives that read back, with one array at
    least. *)
Definition listOfArrays (numberToString : number -> string) (rows : list jsval) : bool :=
  negb (List.length rows =? 0)%nat
  && forallb (fun row => match row with
                         | VArr items =>
                             forallb (readable numberToString DEFAULT_DELIMITER) items
                         | _ => false
                         end) rows.

(** The list items of an array of arrays, at depth [d]. *)
Definition arrayItems (numberToString : number -> string) (rows : list jsval) (d : nat)
    : list (nat * string) :=
  map (fun row => (d,
                   (LIST_ITEM_PREFIX
                      ++ encodeInlineArrayLine numberToString (elements row)
                           DEFAULT_DELIMITER None false)%string)) rows.

(** The arrays that are written without list items of their own kind:
    arrays of primitives that read back, tables, and arrays of arrays of
    such primitives. *)
Definition plainArray (numberToString : number -> string) (items : list jsval) : bool :=
  forallb (readable numberToString DEFAULT_DELIMITER) items
  || isTable numberToString items || listOfArrays numberToString items.

(** An array in list form: one that [encodeArray] hands to
    [encodeMixedArrayAsListItems]. *)
Definition listForm (items : list jsval) : bool :=
  negb (isArrayOfPrimitives items)
  && negb (isArrayOfArrays items
           && forallb (fun arr => match arr with
                                  | VArr xs => isArrayOfPrimitives xs
                                  | _ => false
                                  end) items)
  && (negb (isArrayOfObjects items)
      || match extractTabularHeader items with Some _ => false | None => true end).

(** The values the round trip is shown for: primitives, arrays, and
    objects of such values at any depth, with the prototype
    [Object.prototype] and keys that are a [plainKey].  A number is one
    whose decimal text reads back, a string outside an array is a
    [plainString], and an array under a key needs a key that is written
    bare.  An array is
    a [plainArray], or an array in list form whose items are primitives
    that read back, arrays of such primitives, and objects of the values
    described here that have a first property, with a value that is not
    an object. *)
Fixpoint plainTree (numberToString : number -> string) (v : jsval) : bool :=
  match v with
  | VNull | VBool _ => true
  | VNum x => numberReads numberToString x
  | VStr s => plainString s
  | VArr items =>
      plainArray numberToString items
      || (listForm items
          && forallb (fun item =>
                        match item with
                        | VArr xs => forallb (readable numberToString DEFAULT_DELIMITER) xs
                        | VObj ((_, x) :: _) =>
                            plainTree numberToString item && negb (isJsonObject x)
                        | _ => readable numberToString DEFAULT_DELIMITER item
                        end) items)
  | VObj props =>
      forallb (fun kv => plainTree numberToString (snd kv)
                         && (negb (isJsonArray (snd kv)) || isValidUnquotedKey (fst kv))
                         && plainKey (fst kv))
        props
  | _ => false
  end.

(** A property of such an object, and an item of such a list. *)
Definition plainPair (numberToString : number -> string) (kv : string * jsval) : bool :=
  plainTree numberToString (snd kv)
  && (negb (isJsonArray (snd kv)) || isValidUnquotedKey (fst kv))
  && plainKey (fst kv).

Definition listItem (numberToString : number -> string) (item : jsval) : bool :=
  match item with
  | VArr xs => forallb (readable numberToString DEFAULT_DELIMITER) xs
  | VObj ((_, x) :: _) => plainTree numberToString item && negb (isJsonObject x)
  | _ => readable numberToString DEFAULT_DELIMITER item
  end.

(** The header line of such an array under [key], and the lines under
    the header of a [plainArray] that stands at depth [d]. *)
Definition arrayHead (numberToString : number -> string) (key : option string)
    (items : list jsval) : string :=
  if forallb (readable numberToString DEFAULT_DELIMITER) items then
    encodeInlineArrayLine numberToString items DEFAULT_DELIMITER key false
  else
    formatHeader (List.length items) key
      (if isTable numberToString items then Some (tableFields items) else None)
      DEFAULT_DELIMITER false.

Definition arrayBody (numberToString : number -> string) (items : list jsval) (d : nat)
    : list (nat * string) :=
  if forallb (readable numberToString DEFAULT_DELIMITER) items then []
  else if isTable numberToString items then
    map (fun row => (S d, rowText numberToString row)) items
  else arrayItems numberToString items (S d).

(** The text of the line [encodeKeyValuePair] pushes first. *)
Definition headText (numberToString : number -> string) (key : string) (value : jsval)
    : string :=
  match value with
  | VObj _ => (encodeKey key ++ ":")%string
  | VArr items => arrayHead numberToString (Some key) items
  | _ => (encodeKey key ++ ": "
            ++ encodePrimitive numberToString value DEFAULT_DELIMITER)%string
  end.

(** The lines it pushes after the first, for a value under a key at
    depth [d]: the properties of an object one level deeper, the rows or
    the list items of an array one level deeper, and under the first
    line of a list item that is an object, its other properties one
    level deeper than the hyphen. *)
Fixpoint childItems (numberToString : number -> string) (value : jsval) (d : nat)
    {struct value} : list (nat * string) :=
  match value with
  | VObj props =>
      flat_map (fun kv => (S d, headText numberToString (fst kv) (snd kv))
                          :: childItems numberToString (snd kv) (S d)) props
  | VArr items =>
      if plainArray numberToString items then arrayBody numberToString items d
      else
        flat_map
          (fun item =>
             match item with
             | VObj ((k, x) :: rest) =>
                 (S d, (LIST_ITEM_PREFIX ++ headText numberToString k x)%string)
                   :: childItems numberToString x (S d)
                   ++ flat_map (fun kv => (S (S d), headText numberToString (fst kv) (snd kv))
                                          :: childItems numberToString (snd kv) (S (S d)))
                        rest
             | VArr xs =>
                 [(S d, (LIST_ITEM_PREFIX
                           ++ encodeInlineArrayLine numberToString xs DEFAULT_DELIMITER
                                None false)%string)]
             | _ =>
                 [(S d, (LIST_ITEM_PREFIX
                           ++ encodePrimitive numberToString item DEFAULT_DELIMITER)%string)]
             end) items
  | _ => []
  end.

(** The lines [encodeKeyValuePair] pushes for a key and such a value, the
    lines [encodeObject] pushes for the properties of an object, and the
    lines [encodeListItemValue] pushes for an item of a list. *)
Definition pairItems (numberToString : number -> string) (key : string) (value : jsval)
    (d : nat) : list (nat * string) :=
  (d, headText numberToString key value) :: childItems numberToString value d.

Definition objectItems (numberToString : number -> string) (props : list (string * jsval))
    (d : nat) : list (nat * string) :=
  flat_map (fun kv => pairItems numberToString (fst kv) (snd kv) d) props.

Definition itemLines (numberToString : number -> string) (item : jsval) (d : nat)
    : list (nat * string) :=
  match item with
  | VObj ((k, x) :: rest) =>
      (d, (LIST_ITEM_PREFIX ++ headText numberToString k x)%string)
        :: childItems numberToString x d ++ objectItems numberToString rest (S d)
  | VArr xs =>
      [(d, (LIST_ITEM_PREFIX
              ++ encodeInlineArrayLine numberToString xs DEFAULT_DELIMITER None false)%string)]
  | _ => [(d, (LIST_ITEM_PREFIX
                 ++ encodePrimitive numberToString item DEFAULT_DELIMITER)%string)]
  end.

Definition listBody (numberToString : number -> string) (items : list jsval) (d : nat)
    : list (nat * string) :=
  flat_map (fun item => itemLines numberToString item (S d)) items.

(** The line at [cursor], if there is one, ends a list whose items stand
    at depth [d]: it is not deeper, and at that depth it does not start
    with the hyphen of an item. *)
Definition listStops (lines : list ParsedLine) (cursor d : nat) : Prop :=
  match peek lines cursor with
  | Some l =>
      depth l <= Z.of_nat d
      /\ (depth l = Z.of_nat d -> startsWith (content l) LIST_ITEM_PREFIX = false)
  | None => True
  end.

(** * Properties *)

(** ** Normalization of numbers *)

(** C6. For every number, [normalizeValue] answers 0 for negative zero,
    [null] for NaN and the two infinities, and the number itself in every
    other case. *)
Theorem normalizeValue_number (x : number) :
  normalizeValue (VNum x) =
  Return (match x with
          | S754_zero true => VNum (S754_zero false)
          | S754_nan | S754_infinity _ => VNull
          | _ => VNum x
          end).
Proof.
  destruct x as [[|]|s| |s m e]; reflexivity.
Qed.

(** ** The header parser *)

(** C7. The bracket interior is read by [parseInt], which stops at the
    first character that is not a digit and accepts a sign: a negative
    length and a length followed by other text are accepted as headers, and
    a delimiter hint before the closing bracket is not seen. *)
Theorem parseArrayHeaderLine_lenient :
  parseArrayHeaderLine "[-3]:" DEFAULT_DELIMITER = Return (Some (header None (-3) None, None))
  /\ parseArrayHeaderLine "[3abc]:" DEFAULT_DELIMITER
     = Return (Some (header None 3 None, None))
  /\ parseArrayHeaderLine "items[2x]: a,b" DEFAULT_DELIMITER
     = Return (Some (header (Some "items") 2 None, Some "a,b"))
  /\ deserialize "items[2x]: a,b" None
     = Return (VObj [("items", VArr [VStr "a"; VStr "b"])])
  /\ deserialize "[-3]:" None = Return (VArr [])
  /\ parseArrayHeaderLine "[2|]: a|b" DEFAULT_DELIMITER
     = Return (Some (header None 2 None, Some "a|b")).
Proof.
  repeat split; vm_compute; reflexivity.
Qed.

(** ** Round trip *)

(** C1. The round trip [deserialize(serialize(v)) = normalizeValue(v)] fails
    on values of the JSON data model.  An array nested two levels deep
    inside an array is dropped by the emitter and read back as an empty
    array; the empty object is emitted as the empty text, which the parser
    rejects; a string holding a bracket and a colon is read back as a key
    with an array. *)
Theorem roundTrip_broken (numberToString : number -> string) :
  let nested := VArr [VArr [VArr [VStr "a"]]] in
  let text := VObj [("x", VStr "a[1]: b")] in
  (normalizeValue nested = Return nested
   /\ serializeValue numberToString nested = Return "[1]:"
   /\ roundTrip numberToString nested = Return (VArr []))
  /\ (normalizeValue (VObj []) = Return (VObj [])
      /\ serializeValue numberToString (VObj []) = Return ""
      /\ roundTrip numberToString (VObj []) = Throw EmptyInputError)
  /\ (normalizeValue text = Return text
      /\ roundTrip numberToString text
         = Return (VObj [(("x: " ++ ofChar DOUBLE_QUOTE ++ "a")%string,
                          VArr [VStr ("b" ++ ofChar DOUBLE_QUOTE)%string])])).
Proof.
  repeat split; vm_compute; reflexivity.
Qed.

(** ** Quoting of strings *)

(** C5. The emitter quotes a string exactly when [isSafeUnquoted] rejects
    it, but the strings ["+5"], [".5"] and ["5."] pass [isSafeUnquoted], are
    written bare, and are read back as the number 5 or 0.5. *)
Theorem bare_string_read_as_number (delimiter : Delimiter) :
  (forall s, encodeStringLiteral s delimiter
             = if isSafeUnquoted s delimiter then s else quoted (escapeString s))
  /\ (encodeStringLiteral "+5" delimiter = "+5"
      /\ parsePrimitiveToken "+5" = Return (VNum (S754_finite false 5629499534213120 (-50))))
  /\ (encodeStringLiteral ".5" delimiter = ".5"
      /\ parsePrimitiveToken ".5" = Return (VNum (S754_finite false 4503599627370496 (-53))))
  /\ (encodeStringLiteral "5." delimiter = "5."
      /\ parsePrimitiveToken "5." = Return (VNum (S754_finite false 5629499534213120 (-50)))).
Proof.
  split; [reflexivity|].
  destruct delimiter; repeat split; vm_compute; reflexivity.
Qed.

(** ** The row test of tabular arrays *)

Lemma indexOf_find s c :
  indexOf s c = match find c s with Some i => Z.of_nat i | None => -1 end.
Proof. unfold indexOf, indexOfFrom. simpl. now destruct (find c s). Qed.

Lemma isDataRow_rowTest content d :
  isDataRow content d = rowTest (find COLON content) (find (delimChar d) content).
Proof.
  unfold isDataRow, rowTest. rewrite !indexOf_find.
  destruct (find COLON content) as [j|]; [|reflexivity].
  replace (Z.of_nat j =? -1) with false by (symmetry; apply Z.eqb_neq; lia).
  destruct (find (delimChar d) content) as [i|]; [|reflexivity].
  replace (Z.of_nat i =? -1) with false by (symmetry; apply Z.eqb_neq; lia).
  simpl. destruct (Z.ltb_spec (Z.of_nat i) (Z.of_nat j)), (Nat.ltb_spec i j);
    try reflexivity; lia.
Qed.

Lemma rowTest_firstDecides d s :
  d <> COLON -> rowTest (find COLON s) (find d s) = firstDecides d s.
Proof.
  intros Hd. induction s as [|x r IH]; simpl; [reflexivity|].
  destruct (Ascii.eqb_spec x COLON) as [->|Hc].
  - destruct (Ascii.eqb_spec COLON d) as [He|_]; [now symmetry in He|].
    simpl. now destruct (find d r).
  - destruct (Ascii.eqb_spec x d) as [->|Hx].
    + simpl. now destruct (find COLON r).
    + rewrite <- IH. destruct (find COLON r), (find d r); reflexivity.
Qed.

Lemma delimChar_not_colon d : delimChar d <> COLON.
Proof. destruct d; discriminate. Qed.

Lemma firstDecides_shape d s :
  firstDecides (delimChar d) s = true <-> rowShape s d.
Proof.
  unfold rowShape. induction s as [|x r IH]; simpl.
  - split; [intros _; left; tauto|reflexivity].
  - destruct (Ascii.eqb_spec x COLON) as [->|Hc].
    + split; [discriminate|]. intros [Hn|(pre & post & Heq & Hn)].
      * exfalso. apply Hn. now left.
      * exfalso. destruct pre as [|y pre']; simpl in Heq; inversion Heq; subst.
        -- now apply (delimChar_not_colon d).
        -- apply Hn. now left.
    + destruct (Ascii.eqb_spec x (delimChar d)) as [->|Hx].
      * split; [intros _|reflexivity]. right. exists EmptyString, r. split; [reflexivity|].
        intros [].
      * rewrite IH. split.
        -- intros [Hn|(pre & post & -> & Hn)].
           ++ left. intros [Heq|Ho]; [now apply Hc|now apply Hn].
           ++ right. exists (String x pre), post. split; [reflexivity|].
              intros [Heq|Ho]; [now apply Hc|now apply Hn].
        -- intros [Hn|(pre & post & Heq & Hn)].
           ++ left. intros Ho. apply Hn. now right.
           ++ right. destruct pre as [|y pre']; simpl in Heq; inversion Heq; subst.
              ** now exfalso.
              ** exists pre', post. split; [reflexivity|]. intros Ho. apply Hn. now right.
Qed.

Lemma isDataRow_shape content d : isDataRow content d = true <-> rowShape content d.
Proof.
  rewrite isDataRow_rowTest, rowTest_firstDecides by apply delimChar_not_colon.
  apply firstDecides_shape.
Qed.

(** X24. The loop of [decodeTabularArray] and its row test.  A line at the
    row depth, met while fewer rows than declared have been read, is
    consumed as a row exactly when it does not start with the list-item
    prefix and either has no colon or has a delimiter, quoted or not, with
    no colon before it; any other line ends the tabular body without being
    consumed. *)
Theorem tabular_row_consumed options hdr fields rowDepth line rest cursor objects :
  Z.of_nat (List.length objects) < hdr_length hdr ->
  depth line = rowDepth ->
  let d := hdr_delimiter hdr in
  (acceptsRow line d = true
   <-> startsWith (content line) LIST_ITEM_PREFIX = false /\ rowShape (content line) d)
  /\ (acceptsRow line d = false ->
      tabularRows options hdr fields rowDepth (line :: rest) cursor objects
      = Return (objects, cursor))
  /\ (acceptsRow line d = true ->
      tabularRows options hdr fields rowDepth (line :: rest) cursor objects
      = let values := parseDelimitedValues (content line) d in
        do _ <- assertExpectedCount (Z.of_nat (List.length values))
                  (Z.of_nat (List.length fields)) "tabular row values" options;
        do primitives <- mapRowValuesToPrimitives values;
        tabularRows options hdr fields rowDepth rest (S cursor)
          (objects ++ [bindFields fields primitives (VObj [])])).
Proof.
  intros Hlt Hd d. split; [|split].
  - unfold acceptsRow. rewrite andb_true_iff, negb_true_iff, isDataRow_shape. reflexivity.
  - intros Ha. simpl. fold d.
    replace (Z.of_nat (List.length objects) <? hdr_length hdr) with true
      by (symmetry; apply Z.ltb_lt; exact Hlt).
    simpl. rewrite Hd, Z.ltb_irrefl, Z.eqb_refl, Ha. reflexivity.
  - intros Ha. simpl. fold d.
    replace (Z.of_nat (List.length objects) <? hdr_length hdr) with true
      by (symmetry; apply Z.ltb_lt; exact Hlt).
    simpl. rewrite Hd, Z.ltb_irrefl, Z.eqb_refl, Ha. reflexivity.
Qed.

Lemma tabular_row_consumed_witness :
  let line := rowLine "Alice,30" in
  let hdr := header None 1 (Some ["name"; "age"]) in
  (acceptsRow line DComma = true
   <-> startsWith (content line) LIST_ITEM_PREFIX = false /\ rowShape (content line) DComma)
  /\ (acceptsRow line DComma = false ->
      tabularRows {| dec_indent := 2; dec_strict := true |} hdr ["name"; "age"] 1
        [line] 1%nat [] = Return ([], 1%nat))
  /\ (acceptsRow line DComma = true ->
      tabularRows {| dec_indent := 2; dec_strict := true |} hdr ["name"; "age"] 1
        [line] 1%nat []
      = Return ([VObj [("name", VStr "Alice");
                       ("age", VNum (S754_finite false 8444249301319680 (-48)))]], 2%nat)).
Proof.
  intros line hdr.
  pose proof (tabular_row_consumed {| dec_indent := 2; dec_strict := true |} hdr
                ["name"; "age"] 1 line [] 1%nat []) as H.
  destruct H as (H1 & H2 & H3); [simpl; lia|reflexivity|].
  split; [exact H1|split; [exact H2|]].
  intros Ha. rewrite (H3 Ha). vm_compute. reflexivity.
Defined.

(** C3. A column value that holds a colon does not always make a row.
    [isDataRow] takes the first colon and the first delimiter of the line
    with [indexOf], inside quotes as well as outside.  In the row
    ["12:30",x], which [serialize] writes for an object whose first value
    is the string 12:30, the colon inside the quotes comes before the
    first delimiter: the line is refused and the table ends there, so
    that [deserialize] returns the empty array, or throws the count error
    in strict mode.  A delimiter inside quotes counts as well: the line
    ["a,b": 1], which has no delimiter outside quotes, is taken for a row.
    [parseDelimitedValues], which splits a row, skips quoted text. *)
Theorem quoted_colon_row_refused (numberToString : number -> string) :
  let rows := VArr [VObj [("t", VStr "12:30"); ("v", VStr "x")]] in
  let row := (ofChar DOUBLE_QUOTE ++ "12:30" ++ ofChar DOUBLE_QUOTE ++ ",x")%string in
  let text := document ["[1]{t,v}:"; ("  " ++ row)%string] in
  let keyed := (ofChar DOUBLE_QUOTE ++ "a,b" ++ ofChar DOUBLE_QUOTE ++ ": 1")%string in
  normalizeValue rows = Return rows
  /\ serializeValue numberToString rows = Return text
  /\ indexOf row COLON = 3
  /\ indexOf row COMMA = 7
  /\ isDataRow row DComma = false
  /\ parseDelimitedValues row DComma
     = [(ofChar DOUBLE_QUOTE ++ "12:30" ++ ofChar DOUBLE_QUOTE)%string; "x"]
  /\ deserialize text None = Return (VArr [])
  /\ deserialize text (Some true) = Throw (CountMismatch 1 0 "tabular rows")
  /\ findUnquotedChar keyed COMMA = -1
  /\ isDataRow_spec keyed DComma = false
  /\ acceptsRow (rowLine keyed) DComma = true
  /\ tabularRows strictOptions (header None 1 (Some ["x"; "y"])) ["x"; "y"] 1
       [rowLine keyed] 1%nat []
     = Throw (CountMismatch 2 1 "tabular row values").
Proof. repeat split; vm_compute; reflexivity. Qed.

(** ** Objects: reading after writing *)

Module JsObjectFacts.
Import JsObject.
Section Facts.
Context {A : Type}.
Implicit Types (o : props A) (k : string) (v : A).

Lemma lookup_overwrite o k v k' :
  lookup k' (overwrite k v o)
  = if String.eqb k k' then match lookup k' o with Some _ => Some v | None => None end
    else lookup k' o.
Proof.
  induction o as [|[k0 v0] r IH]; simpl.
  - now destruct (String.eqb k k').
  - destruct (String.eqb_spec k0 k) as [->|Hne]; simpl.
    + destruct (String.eqb_spec k k') as [->|Hk]; [|reflexivity].
      reflexivity.
    + rewrite IH. destruct (String.eqb_spec k0 k') as [->|Hk0].
      * destruct (String.eqb_spec k k') as [->|_]; [now exfalso|reflexivity].
      * reflexivity.
Qed.

Lemma lookup_insertIndex i o k v k' :
  lookup k o = None ->
  lookup k' (insertIndex i k v o) = if String.eqb k k' then Some v else lookup k' o.
Proof.
  induction o as [|[k0 v0] r IH]; simpl; intros Hk.
  - reflexivity.
  - destruct (String.eqb_spec k0 k) as [->|Hne]; [discriminate|].
    destruct (arrayIndex k0) as [j|]; [destruct (j <? i)|]; simpl;
      try rewrite (IH Hk);
      destruct (String.eqb_spec k k') as [->|Hkk]; try reflexivity;
      destruct (String.eqb_spec k0 k') as [->|Hk0]; try reflexivity; now exfalso.
Qed.

Lemma lookup_app_None o k v k' :
  lookup k o = None ->
  lookup k' (o ++ [(k, v)]) = if String.eqb k k' then Some v else lookup k' o.
Proof.
  induction o as [|[k0 v0] r IH]; simpl; intros Hk.
  - reflexivity.
  - destruct (String.eqb_spec k0 k) as [->|Hne]; [discriminate|].
    rewrite (IH Hk).
    destruct (String.eqb_spec k k') as [->|Hkk]; try reflexivity.
    destruct (String.eqb_spec k0 k') as [->|Hk0]; try reflexivity; now exfalso.
Qed.

(** Reading [obj[k']] after [obj[k] = v]. *)
Lemma lookup_define o k v k' :
  lookup k' (define o k v) = if String.eqb k k' then Some v else lookup k' o.
Proof.
  unfold define, hasKey. destruct (lookup k o) as [x|] eqn:E.
  - rewrite lookup_overwrite. destruct (String.eqb_spec k k') as [->|_]; [|reflexivity].
    now rewrite E.
  - destruct (arrayIndex k); [now apply lookup_insertIndex|now apply lookup_app_None].
Qed.

Lemma lookup_defineAll o entries k :
  lookup k (defineAll o entries)
  = match lastBinding k entries with Some v => Some v | None => lookup k o end.
Proof.
  revert o. induction entries as [|[k0 v0] r IH]; intros o; [reflexivity|].
  unfold defineAll in *. simpl. rewrite IH.
  destruct (lastBinding k r); [reflexivity|]. rewrite lookup_define.
  now destruct (String.eqb k0 k).
Qed.
End Facts.
End JsObjectFacts.

(** ** The recursive decoder, one step at a time *)

Section DecoderSteps.
Variable lines : list ParsedLine.
Variable options : DecodeOptions.

Lemma decodeKeyValue_S fuel content cursor baseDepth :
  decodeKeyValue lines options (S fuel) content cursor baseDepth
  = decodeKeyValue_body lines (decodeObject lines options fuel)
      (decodeArrayFromHeader lines options fuel) content cursor baseDepth.
Proof. reflexivity. Qed.

Lemma decodeObject_S fuel cursor baseDepth obj :
  decodeObject lines options (S fuel) cursor baseDepth obj
  = decodeObject_body lines (decodeKeyValue lines options fuel)
      (decodeObject lines options fuel) cursor baseDepth obj.
Proof. reflexivity. Qed.

Lemma decodeArrayFromHeader_S fuel hdr inlineValues cursor baseDepth :
  decodeArrayFromHeader lines options (S fuel) hdr inlineValues cursor baseDepth
  = decodeArrayFromHeader_body lines options (decodeListArray lines options fuel)
      hdr inlineValues cursor baseDepth.
Proof. reflexivity. Qed.

Lemma decodeListArray_S fuel hdr cursor baseDepth items :
  decodeListArray lines options (S fuel) hdr cursor baseDepth items
  = decodeListArray_body lines options (decodeListArray lines options fuel)
      (decodeListItem lines options fuel) hdr cursor baseDepth items.
Proof. reflexivity. Qed.

Lemma decodeListItem_S fuel cursor baseDepth activeDelimiter :
  decodeListItem lines options (S fuel) cursor baseDepth activeDelimiter
  = decodeListItem_body lines (decodeArrayFromHeader lines options fuel)
      (decodeObjectFromListItem lines options fuel) cursor baseDepth activeDelimiter.
Proof. reflexivity. Qed.

Lemma decodeObjectFromListItem_S fuel firstLine cursor baseDepth :
  decodeObjectFromListItem lines options (S fuel) firstLine cursor baseDepth
  = decodeObjectFromListItem_body (decodeKeyValue lines options fuel)
      (decodeListItemFields lines options fuel) firstLine cursor baseDepth.
Proof. reflexivity. Qed.

Lemma decodeListItemFields_S fuel cursor followDepth obj :
  decodeListItemFields lines options (S fuel) cursor followDepth obj
  = decodeListItemFields_body lines (decodeKeyValue lines options fuel)
      (decodeListItemFields lines options fuel) cursor followDepth obj.
Proof. reflexivity. Qed.
End DecoderSteps.

(** ** Assignments *)

Lemma assign_define props key v :
  key <> PROTO -> assign (VObj props) key v = VObj (JsObject.define props key v).
Proof.
  intros H. unfold assign. destruct (String.eqb_spec key PROTO); [contradiction|reflexivity].
Qed.

Lemma assignAll_define entries : forall props,
  Forall (fun kv => fst kv <> PROTO) entries ->
  assignAll (VObj props) entries = VObj (JsObject.defineAll props entries).
Proof.
  induction entries as [|[k v] r IH]; intros props H; [reflexivity|].
  inversion H as [|? ? Hk Hr]; subst. unfold assignAll, JsObject.defineAll. cbn [fold_left fst snd].
  rewrite (assign_define props k v Hk). apply IH. exact Hr.
Qed.

Lemma assignAll_cons obj k v r : assignAll obj ((k, v) :: r) = assignAll (assign obj k v) r.
Proof. reflexivity. Qed.

Lemma setPrototypeOf_ownProps obj v : ownProps (setPrototypeOf obj v) = ownProps obj.
Proof.
  unfold setPrototypeOf. destruct v; try reflexivity.
  destruct isObject; reflexivity.
Qed.

Lemma setPrototypeOf_built obj v : built obj -> built (setPrototypeOf obj v).
Proof.
  intros H. unfold setPrototypeOf. destruct v; try exact H; try exact I.
  destruct isObject; [exact I|exact H].
Qed.

Lemma assign_built obj k v : built obj -> built (assign obj k v).
Proof.
  intros H. destruct obj; try contradiction; unfold assign;
    (destruct (_ && _); [now apply setPrototypeOf_built|exact I]).
Qed.

Lemma assignAll_built entries : forall obj, built obj -> built (assignAll obj entries).
Proof.
  induction entries as [|[k v] r IH]; intros obj H; [exact H|].
  rewrite assignAll_cons. apply IH. now apply assign_built.
Qed.

(** Reading the own property [k'] after [obj[k] = v], for every key [k']
    but [__proto__]. *)
Lemma lookup_assign obj k v k' :
  k' <> PROTO -> built obj ->
  JsObject.lookup k' (ownProps (assign obj k v))
  = if String.eqb k k' then Some v else JsObject.lookup k' (ownProps obj).
Proof.
  intros Hk Hb.
  assert (Hset : String.eqb k PROTO && reachesProtoSetter obj = true ->
                 JsObject.lookup k' (ownProps (setPrototypeOf obj v))
                 = if String.eqb k k' then Some v else JsObject.lookup k' (ownProps obj)).
  { intros H. apply andb_prop in H. destruct H as [H _]. apply String.eqb_eq in H. subst k.
    rewrite setPrototypeOf_ownProps.
    destruct (String.eqb_spec PROTO k') as [E|_]; [now exfalso; apply Hk|reflexivity]. }
  destruct obj; try contradiction; unfold assign;
    (destruct (String.eqb k PROTO && _) eqn:E; [now apply Hset|]);
    cbn [ownProps]; apply JsObjectFacts.lookup_define.
Qed.

Lemma lookup_assignAll entries k : forall obj,
  k <> PROTO -> built obj ->
  JsObject.lookup k (ownProps (assignAll obj entries))
  = match lastBinding k entries with
    | Some v => Some v
    | None => JsObject.lookup k (ownProps obj)
    end.
Proof.
  induction entries as [|[k0 v0] r IH]; intros obj Hk Hb; [reflexivity|].
  rewrite assignAll_cons, IH by (try assumption; now apply assign_built).
  cbn [lastBinding]. destruct (lastBinding k r); [reflexivity|].
  rewrite lookup_assign by assumption. now destruct (String.eqb k0 k).
Qed.

(** ** Repeated keys in an object body *)

Lemma decodeObject_entries lines options fuel :
  forall cursor baseDepth obj,
    decodeObject lines options fuel cursor baseDepth obj
    = do r <- decodeEntries lines options fuel cursor baseDepth;
      Return (assignAll obj (fst r), snd r).
Proof.
  induction fuel as [|fuel IH]; intros cursor baseDepth obj; [reflexivity|].
  rewrite decodeObject_S. unfold decodeObject_body. cbn [decodeEntries].
  destruct (atEnd lines cursor); [reflexivity|].
  destruct (peek lines cursor) as [line|]; [|reflexivity].
  destruct (depth line <? baseDepth); [reflexivity|].
  destruct (depth line =? baseDepth); [|reflexivity].
  destruct (decodeKeyValue lines options fuel (content line) (S cursor) baseDepth)
    as [[kv c]|e|]; [|reflexivity|reflexivity].
  cbn [bind fst snd]. rewrite IH.
  destruct (decodeEntries lines options fuel c baseDepth) as [[es c']|e|]; reflexivity.
Qed.

(** X26. A key other than [__proto__] that is repeated in an object body
    is bound to the value of its last line.  The object [decodeObject] returns
    is the result of assigning, in the order of the lines, every decoded
    entry; the outcome is an error only when decoding a line is; and the
    own property of such a key holds the value of the last entry with that
    key. *)
Theorem repeated_key_assigned :
  (forall lines options fuel cursor baseDepth,
      decodeObject lines options fuel cursor baseDepth (VObj [])
      = do r <- decodeEntries lines options fuel cursor baseDepth;
        Return (assignAll (VObj []) (fst r), snd r))
  /\ (forall (entries : list (string * jsval)) key,
         key <> PROTO ->
         JsObject.lookup key (ownProps (assignAll (VObj []) entries))
         = lastBinding key entries)
  /\ (forall strict,
         deserialize (document ["a: x"; "b: y"; "a: z"]) strict
         = Return (VObj [("a", VStr "z"); ("b", VStr "y")]))
  /\ (forall strict,
         deserialize (document ["o:"; "  k: 1"; "  k:"; "    n: u"; "  k: w"]) strict
         = Return (VObj [("o", VObj [("k", VStr "w")])])).
Proof.
  split; [|split; [|split]].
  - intros. apply decodeObject_entries.
  - intros entries key Hk. rewrite lookup_assignAll by (try assumption; exact I).
    now destruct (lastBinding key entries).
  - intros [[|]|]; vm_compute; reflexivity.
  - intros [[|]|]; vm_compute; reflexivity.
Qed.

Lemma repeated_key_assigned_witness :
  let entries := [("a", VStr "x"); (PROTO, VStr "p"); ("b", VStr "y"); ("a", VStr "z")] in
  "a" <> PROTO
  /\ JsObject.lookup "a" (ownProps (assignAll (VObj []) entries)) = Some (VStr "z").
Proof.
  intros entries.
  assert (Hk : "a" <> PROTO) by discriminate.
  split; [exact Hk|]. exact (proj1 (proj2 repeated_key_assigned) entries "a" Hk).
Defined.

(** C10. The key [__proto__] is not bound to the value of its last line.
    [decodeObject] builds the object by assignments [obj[key] = value], and
    an assignment to this key runs the setter that [Object.prototype] has
    for it: a string is ignored, so that two lines with this key leave
    the object empty, and an object becomes the prototype of the result.
    The first key of a list item is written by an object literal, which
    creates the property, and there the last line wins. *)
Theorem proto_key_not_bound :
  (forall strict,
      deserialize (document ["__proto__: x"; "__proto__: y"]) strict = Return (VObj []))
  /\ (forall strict,
         deserialize (document ["__proto__: x"; "a: u"; "__proto__: y"]) strict
         = Return (VObj [("a", VStr "u")]))
  /\ (forall strict,
         deserialize (document ["__proto__:"; "  b: u"; "__proto__:"; "  c: w"; "a: y"]) strict
         = Return (VObjWith (Some (VObj [("c", VStr "w")])) [("a", VStr "y")]))
  /\ (forall strict,
         deserialize (document ["[1]:"; "  - __proto__: x"; "    __proto__: y"]) strict
         = Return (VArr [VObj [("__proto__", VStr "y")]])).
Proof.
  repeat split; intros [[|]|]; vm_compute; reflexivity.
Qed.

(** ** White space *)

Lemma allWhite_trimStart s : allChars isWhite (trimStart s) = allChars isWhite s.
Proof.
  induction s as [|c r IH]; simpl; [reflexivity|].
  destruct (isWhite c) eqn:E; simpl; [exact IH|now rewrite E].
Qed.

Lemma trimEnd_empty s : trimEnd s = EmptyString <-> allChars isWhite s = true.
Proof.
  induction s as [|c r IH]; simpl; [tauto|].
  destruct (trimEnd r) eqn:E.
  - destruct (isWhite c); simpl; [tauto|]. split; discriminate.
  - split; [discriminate|]. rewrite andb_true_iff. intros [_ H].
    apply IH in H. discriminate.
Qed.

Lemma trim_empty s : trim s = EmptyString <-> allChars isWhite s = true.
Proof. unfold trim. now rewrite trimEnd_empty, allWhite_trimStart. Qed.

Lemma isEmpty_true s : isEmpty s = true <-> s = EmptyString.
Proof. destruct s; simpl; split; congruence. Qed.

Lemma isEmpty_trim s : isEmpty (trim s) = allChars isWhite s.
Proof.
  destruct (allChars isWhite s) eqn:E.
  - apply isEmpty_true, trim_empty, E.
  - destruct (isEmpty (trim s)) eqn:E'; [|reflexivity].
    apply isEmpty_true, trim_empty in E'. congruence.
Qed.

Lemma splitOn_nonempty c s : splitOn c s <> [].
Proof.
  induction s as [|x r IH]; simpl; [discriminate|].
  destruct (Ascii.eqb x c); [discriminate|]. now destruct (splitOn c r).
Qed.

Lemma allWhite_splitOn s :
  forallb (allChars isWhite) (splitOn NEWLINE s) = allChars isWhite s.
Proof.
  induction s as [|x r IH]; simpl; [reflexivity|].
  destruct (Ascii.eqb_spec x NEWLINE) as [->|Hx].
  - simpl. exact IH.
  - pose proof (splitOn_nonempty NEWLINE r) as Hne.
    destruct (splitOn NEWLINE r) as [|h t]; [now exfalso|].
    simpl in *. rewrite <- IH. now rewrite andb_assoc.
Qed.

Lemma countWhile_bounds p s : 0 <= countWhile p s <= len s.
Proof.
  unfold len. induction s as [|c r IH]; simpl; [lia|].
  destruct (p c); lia.
Qed.

Lemma sliceFrom_inside s a : 0 <= a <= len s -> sliceFrom s a = drop (Z.to_nat a) s.
Proof.
  intros H. unfold sliceFrom, clampIndex.
  destruct (Z.ltb_spec a 0); [lia|]. now rewrite Z.min_l by lia.
Qed.

Lemma allWhite_content raw :
  allChars isWhite (sliceFrom raw (countWhile isSpace raw)) = allChars isWhite raw.
Proof.
  rewrite sliceFrom_inside by apply countWhile_bounds.
  induction raw as [|c r IH]; simpl; [reflexivity|].
  destruct (isSpace c) eqn:E.
  - pose proof (countWhile_bounds isSpace r).
    replace (Z.to_nat (1 + countWhile isSpace r)) with (S (Z.to_nat (countWhile isSpace r)))
      by lia.
    simpl. rewrite IH. unfold isSpace in E. apply Ascii.eqb_eq in E. subst c.
    reflexivity.
  - reflexivity.
Qed.

(** ** Which exceptions the decoder throws *)

Section ThrowsOnly.
Context (P : Exception -> Prop).

Lemma throwsOnly_Return {A} (a : A) : throwsOnly P (Return a).
Proof. intros e H. discriminate. Qed.

Lemma throwsOnly_Exhausted {A} : throwsOnly P (@Exhausted A).
Proof. intros e H. discriminate. Qed.

Lemma throwsOnly_Throw {A} e : P e -> throwsOnly P (@Throw A e).
Proof. intros H e' He. now inversion He; subst. Qed.

Lemma throwsOnly_bind {A B} (m : outcome A) (k : A -> outcome B) :
  throwsOnly P m -> (forall a, throwsOnly P (k a)) -> throwsOnly P (bind m k).
Proof.
  intros Hm Hk e. destruct m as [a|e'|]; simpl; intros H;
    [exact (Hk a e H)|inversion H; subst; now apply Hm|discriminate].
Qed.

Lemma throwsOnly_mapM {A B} (f : A -> outcome B) l :
  (forall x, throwsOnly P (f x)) -> throwsOnly P (mapM f l).
Proof.
  intros Hf. induction l as [|x r IH]; simpl; [apply throwsOnly_Return|].
  apply throwsOnly_bind; [apply Hf|]. intros y.
  apply throwsOnly_bind; [apply IH|]. intros ys. apply throwsOnly_Return.
Qed.
End ThrowsOnly.

(** Splits a goal [throwsOnly P m] along the shape of [m]. *)
Ltac throws_step :=
  match goal with
  | |- throwsOnly _ (Return _) => apply throwsOnly_Return
  | |- throwsOnly _ Exhausted => apply throwsOnly_Exhausted
  | |- throwsOnly _ (Throw _) => apply throwsOnly_Throw; simpl; try exact I
  | |- throwsOnly _ (bind _ _) => apply throwsOnly_bind; [|intros ?]
  | |- throwsOnly _ (mapM _ _) => apply throwsOnly_mapM; intros ?
  | |- throwsOnly _ (if ?b then _ else _) => destruct b eqn:?
  | |- throwsOnly _ (match ?x with _ => _ end) => destruct x eqn:?
  | |- throwsOnly _ (let _ := _ in _) => cbv zeta
  | H : _ |- _ => solve [apply H]
  end.

Ltac throws := repeat throws_step.

Section DecoderThrows.
Variable strict : bool.
Let P := decoderThrows strict.

Lemma unescapeString_throws s : throwsOnly P (unescapeString s).
Proof.
  remember (String.length s) as n eqn:Hn.
  revert s Hn. induction n as [n IH] using lt_wf_ind. intros s Hn.
  destruct s as [|c r]; simpl; [throws|].
  destruct (Ascii.eqb c BACKSLASH).
  - destruct r as [|next r']; [throws|].
    assert (H : throwsOnly P (unescapeString r')).
    { apply (IH (String.length r')); [subst n; simpl; lia|reflexivity]. }
    throws.
  - assert (H : throwsOnly P (unescapeString r)).
    { apply (IH (String.length r)); [subst n; simpl; lia|reflexivity]. }
    throws.
Qed.

Lemma parseStringLiteral_throws s : throwsOnly P (parseStringLiteral s).
Proof.
  unfold parseStringLiteral. pose proof unescapeString_throws. throws.
Qed.

Lemma parsePrimitiveToken_throws s : throwsOnly P (parsePrimitiveToken s).
Proof.
  unfold parsePrimitiveToken. pose proof parseStringLiteral_throws. throws.
Qed.

Lemma parseArrayHeaderLine_throws s d : throwsOnly P (parseArrayHeaderLine s d).
Proof.
  unfold parseArrayHeaderLine. pose proof parseStringLiteral_throws. throws.
Qed.

Lemma parseKeyToken_throws s i : throwsOnly P (parseKeyToken s i).
Proof.
  unfold parseKeyToken, parseQuotedKey, parseUnquotedKey.
  pose proof unescapeString_throws. throws.
Qed.

Variable lines : list ParsedLine.
Variable options : DecodeOptions.
Hypothesis Hstrict : dec_strict options = strict.

Lemma assertExpectedCount_throws a e k : throwsOnly P (assertExpectedCount a e k options).
Proof.
  unfold assertExpectedCount.
  destruct (dec_strict options && negb (a =? e)) eqn:E; [|throws].
  apply throwsOnly_Throw. subst P. simpl. rewrite <- Hstrict.
  apply andb_true_iff in E. tauto.
Qed.

Lemma decodeInlinePrimitiveArray_throws hdr iv :
  throwsOnly P (decodeInlinePrimitiveArray options hdr iv).
Proof.
  unfold decodeInlinePrimitiveArray, mapRowValuesToPrimitives.
  pose proof assertExpectedCount_throws. pose proof parsePrimitiveToken_throws. throws.
Qed.

Lemma tabularRows_throws hdr fields rowDepth rest :
  forall cursor objects,
    throwsOnly P (tabularRows options hdr fields rowDepth rest cursor objects).
Proof.
  pose proof assertExpectedCount_throws. pose proof parsePrimitiveToken_throws.
  induction rest as [|line rest IH]; intros cursor objects; simpl; [throws|].
  unfold mapRowValuesToPrimitives. throws.
Qed.

Lemma decodeTabularArray_throws hdr cursor baseDepth :
  throwsOnly P (decodeTabularArray lines options hdr cursor baseDepth).
Proof.
  unfold decodeTabularArray.
  pose proof assertExpectedCount_throws. pose proof tabularRows_throws. throws.
Qed.

Lemma decoder_throws fuel :
  (forall content cursor baseDepth,
      throwsOnly P (decodeKeyValue lines options fuel content cursor baseDepth))
  /\ (forall cursor baseDepth obj,
         throwsOnly P (decodeObject lines options fuel cursor baseDepth obj))
  /\ (forall hdr inlineValues cursor baseDepth,
         throwsOnly P (decodeArrayFromHeader lines options fuel hdr inlineValues
                         cursor baseDepth))
  /\ (forall hdr cursor baseDepth items,
         throwsOnly P (decodeListArray lines options fuel hdr cursor baseDepth items))
  /\ (forall cursor baseDepth d,
         throwsOnly P (decodeListItem lines options fuel cursor baseDepth d))
  /\ (forall firstLine cursor baseDepth,
         throwsOnly P (decodeObjectFromListItem lines options fuel firstLine
                         cursor baseDepth))
  /\ (forall cursor followDepth obj,
         throwsOnly P (decodeListItemFields lines options fuel cursor followDepth obj)).
Proof.
  pose proof assertExpectedCount_throws. pose proof parsePrimitiveToken_throws.
  pose proof parseArrayHeaderLine_throws. pose proof parseKeyToken_throws.
  pose proof decodeInlinePrimitiveArray_throws. pose proof decodeTabularArray_throws.
  induction fuel as [|fuel (IH1 & IH2 & IH3 & IH4 & IH5 & IH6 & IH7)].
  - repeat split; intros; simpl; throws.
  - repeat split; intros.
    + rewrite decodeKeyValue_S. unfold decodeKeyValue_body. throws.
    + rewrite decodeObject_S. unfold decodeObject_body. throws.
    + rewrite decodeArrayFromHeader_S. unfold decodeArrayFromHeader_body. throws.
    + rewrite decodeListArray_S. unfold decodeListArray_body. throws.
    + rewrite decodeListItem_S. unfold decodeListItem_body. throws.
    + rewrite decodeObjectFromListItem_S. unfold decodeObjectFromListItem_body. throws.
    + rewrite decodeListItemFields_S. unfold decodeListItemFields_body. throws.
Qed.

Lemma decodeValueFromLines_throws fuel :
  throwsOnly P (decodeValueFromLines lines options fuel).
Proof.
  destruct (decoder_throws fuel) as (IH1 & IH2 & IH3 & _).
  pose proof parsePrimitiveToken_throws. pose proof parseArrayHeaderLine_throws.
  unfold decodeValueFromLines. throws.
Qed.
End DecoderThrows.

(** ** The line model *)

Lemma scanLines_throws strict todo :
  forall n indentSize parsed blank,
    throwsOnly (decoderThrows strict) (scanLines todo n indentSize strict parsed blank).
Proof.
  induction todo as [|raw rest IH]; intros; simpl; throws.
Qed.

Lemma scanLines_parsed todo :
  forall n indentSize strict parsed blank p b,
    scanLines todo n indentSize strict parsed blank = Return (p, b) ->
    parsed <> [] \/ forallb (allChars isWhite) todo = false ->
    p <> [].
Proof.
  induction todo as [|raw rest IH]; intros n indentSize strict parsed blank p b H Hne.
  - simpl in *. inversion H; subst. destruct Hne as [Hne|Hne]; [exact Hne|discriminate].
  - simpl in H. rewrite isEmpty_trim, allWhite_content in H.
    simpl in Hne. destruct (allChars isWhite raw) eqn:Ew.
    + eapply IH; [exact H|]. simpl in Hne. exact Hne.
    + destruct (strict && includes _ TAB); [discriminate|].
      destruct (strict && (0 <? countWhile isSpace raw) && _); [discriminate|].
      eapply IH; [exact H|]. left. now destruct parsed.
Qed.

(** C9. [deserialize] raises the empty-input error exactly when every
    character of its input is white space, whatever the [strict] option. *)
Theorem deserialize_empty_input_iff (s : string) (strict : option bool) :
  deserialize s strict = Throw EmptyInputError <-> allChars isWhite s = true.
Proof.
  unfold deserialize, toParsedLines. cbn [dec_indent dec_strict].
  rewrite isEmpty_trim. set (st := match strict with Some b => b | None => false end).
  destruct (allChars isWhite s) eqn:Ew.
  - split; [reflexivity|]. intros _. reflexivity.
  - split; [|discriminate]. intros H. exfalso.
    destruct (scanLines (splitOn NEWLINE s) 1 DEFAULT_INDENT_SIZE st [] [])
      as [[p b]|e|] eqn:Es; simpl in H.
    + assert (Hp : p <> []).
      { eapply scanLines_parsed; [exact Es|]. right. now rewrite allWhite_splitOn. }
      destruct p as [|l p]; [now apply Hp|].
      apply (decodeValueFromLines_throws st (l :: p)
               {| dec_indent := DEFAULT_INDENT_SIZE; dec_strict := st |} eq_refl) in H.
      exact H.
    + inversion H; subst. now apply (scanLines_throws st) in Es.
    + discriminate.
Qed.

(** ** Count assertions *)

Lemma assertExpectedCount_Return a e k options :
  assertExpectedCount a e k options = Return tt ->
  dec_strict options = true -> a = e.
Proof.
  unfold assertExpectedCount. intros H Hs. rewrite Hs in H. simpl in H.
  destruct (Z.eqb_spec a e); [assumption|discriminate].
Qed.

Lemma assertExpectedCount_fails a e k options :
  dec_strict options = true -> a <> e ->
  assertExpectedCount a e k options = Throw (CountMismatch e a k).
Proof.
  unfold assertExpectedCount. intros -> Hne. simpl.
  destruct (Z.eqb_spec a e); [contradiction|reflexivity].
Qed.

Lemma assertExpectedCount_passes a k options :
  assertExpectedCount a a k options = Return tt.
Proof.
  unfold assertExpectedCount. rewrite Z.eqb_refl. now destruct (dec_strict options).
Qed.

Section StrictCounts.
Variable lines : list ParsedLine.
Variable options : DecodeOptions.
Hypothesis Hstrict : dec_strict options = true.

Lemma finish_exact {A} (items : list A) N k (c : nat) r :
  (do _ <- assertExpectedCount (Z.of_nat (List.length items)) N k options;
   Return (items, c)) = Return r ->
  Z.of_nat (List.length (fst r)) = N.
Proof.
  destruct (assertExpectedCount _ N k options) as [[]|e|] eqn:E; simpl; try discriminate.
  intros H. inversion H; subst. simpl. now apply assertExpectedCount_Return in E.
Qed.

Lemma decodeListArray_exact fuel :
  forall hdr c d items r,
    decodeListArray lines options fuel hdr c d items = Return r ->
    Z.of_nat (List.length (fst r)) = hdr_length hdr.
Proof.
  induction fuel as [|fuel IH]; intros hdr c d items r; [discriminate|].
  rewrite decodeListArray_S. unfold decodeListArray_body.
  destruct (atEnd lines c || _); [apply finish_exact|].
  destruct (peek lines c) as [line|]; [|apply finish_exact].
  destruct (depth line <? d + 1); [apply finish_exact|].
  destruct ((depth line =? d + 1) && _); [|apply finish_exact].
  destruct (decodeListItem lines options fuel c (d + 1) (hdr_delimiter hdr))
    as [[v c1]|e|]; simpl; try discriminate.
  apply IH.
Qed.

Lemma decodeArrayFromHeader_exact fuel hdr inlineValues c d r :
  decodeArrayFromHeader lines options fuel hdr inlineValues c d = Return r ->
  Z.of_nat (List.length (fst r)) = hdr_length hdr.
Proof.
  destruct fuel as [|fuel]; [discriminate|].
  rewrite decodeArrayFromHeader_S. unfold decodeArrayFromHeader_body.
  assert (Hbody :
    match hdr_fields hdr with
    | Some (_ :: _) => decodeTabularArray lines options hdr c d
    | _ => decodeListArray lines options fuel hdr c d []
    end = Return r -> Z.of_nat (List.length (fst r)) = hdr_length hdr).
  { destruct (hdr_fields hdr) as [[|f fs]|]; try apply decodeListArray_exact.
    unfold decodeTabularArray.
    destruct (tabularRows _ _ _ _ _ _ _) as [[objs c1]|e|]; simpl; try discriminate.
    destruct (assertExpectedCount _ _ _ _) as [[]|e|] eqn:E; simpl; try discriminate.
    intros H. inversion H; subst. simpl. now apply assertExpectedCount_Return in E. }
  destruct inlineValues as [iv|]; [|exact Hbody].
  destruct (isEmpty iv); [exact Hbody|].
  unfold decodeInlinePrimitiveArray.
  destruct (isEmpty (trim iv)).
  - destruct (assertExpectedCount _ _ _ _) as [[]|e|] eqn:E; simpl; try discriminate.
    intros H. inversion H; subst. simpl. now apply assertExpectedCount_Return in E.
  - destruct (mapRowValuesToPrimitives _) as [ps|e|]; simpl; try discriminate.
    destruct (assertExpectedCount _ _ _ _) as [[]|e|] eqn:E; simpl; try discriminate.
    intros H. inversion H; subst. simpl. now apply assertExpectedCount_Return in E.
Qed.
End StrictCounts.

Lemma deserialize_throws s strict :
  throwsOnly (fun e => e = EmptyInputError
                       \/ decoderThrows (match strict with Some b => b | None => false end) e)
    (deserialize s strict).
Proof.
  unfold deserialize, toParsedLines. cbn [dec_indent dec_strict].
  set (st := match strict with Some b => b | None => false end).
  intros e. destruct (isEmpty (trim s)); simpl; [intros H; inversion H; now left|].
  destruct (scanLines _ _ _ _ _ _) as [[p b]|e'|] eqn:Es; simpl.
  - destruct p as [|l p]; [intros H; inversion H; now left|].
    intros H. right.
    now apply (decodeValueFromLines_throws st (l :: p)
                 {| dec_indent := DEFAULT_INDENT_SIZE; dec_strict := st |} eq_refl) in H.
  - intros H. inversion H; subst. right. now apply (scanLines_throws st) in Es.
  - discriminate.
Qed.

(** X23. In strict mode an array that is decoded has
    exactly the number of elements its header declares, in every body form:
    an inline body with another number of values, and a list or tabular body
    that ends before that number of items or rows, raise the count error.  A
    list or tabular body is read up to the declared number only, and what
    follows is left unread without a count error.  Without strict mode no
    input raises the count error. *)
Theorem strict_count_assertions (lines : list ParsedLine) (options : DecodeOptions) :
  (dec_strict options = true ->
   forall fuel hdr inlineValues c d a c',
     decodeArrayFromHeader lines options fuel hdr inlineValues c d = Return (a, c') ->
     Z.of_nat (List.length a) = hdr_length hdr)
  /\ (dec_strict options = true ->
      forall hdr iv values,
        isEmpty (trim iv) = false ->
        mapRowValuesToPrimitives (parseDelimitedValues iv (hdr_delimiter hdr))
        = Return values ->
        Z.of_nat (List.length values) <> hdr_length hdr ->
        decodeInlinePrimitiveArray options hdr iv
        = Throw (CountMismatch (hdr_length hdr) (Z.of_nat (List.length values))
                   "inline array items"))
  /\ (dec_strict options = true ->
      forall fuel hdr c d items,
        listBodyEnds lines c (d + 1) = true ->
        Z.of_nat (List.length items) <> hdr_length hdr ->
        decodeListArray lines options (S fuel) hdr c d items
        = Throw (CountMismatch (hdr_length hdr) (Z.of_nat (List.length items))
                   "list array items"))
  /\ (forall fuel hdr c d items,
         Z.of_nat (List.length items) = hdr_length hdr ->
         decodeListArray lines options (S fuel) hdr c d items = Return (items, c))
  /\ (dec_strict options = true ->
      forall hdr c d objs c',
        tabularRows options hdr (match hdr_fields hdr with Some fs => fs | None => [] end)
          (d + 1) (skipn c lines) c [] = Return (objs, c') ->
        Z.of_nat (List.length objs) <> hdr_length hdr ->
        decodeTabularArray lines options hdr c d
        = Throw (CountMismatch (hdr_length hdr) (Z.of_nat (List.length objs))
                   "tabular rows"))
  /\ (forall hdr fields rowDepth rest c objs,
         Z.of_nat (List.length objs) = hdr_length hdr ->
         tabularRows options hdr fields rowDepth rest c objs = Return (objs, c))
  /\ (forall input expected actual kind,
         deserialize input (Some false) <> Throw (CountMismatch expected actual kind)
         /\ deserialize input None <> Throw (CountMismatch expected actual kind)).
Proof.
  repeat apply conj.
  - intros Hs fuel hdr iv c d a c' H.
    apply (decodeArrayFromHeader_exact lines options Hs) in H. exact H.
  - intros Hs hdr iv values He Hm Hne. unfold decodeInlinePrimitiveArray.
    rewrite He, Hm. simpl. now rewrite assertExpectedCount_fails.
  - intros Hs fuel hdr c d items He Hne.
    rewrite decodeListArray_S. unfold decodeListArray_body, listBodyEnds, atEnd, peek in *.
    rewrite (assertExpectedCount_fails _ _ _ _ Hs Hne). simpl.
    destruct (_ || _); [reflexivity|].
    destruct (nth_error lines c) as [line|]; [|reflexivity].
    destruct (depth line <? d + 1); [reflexivity|].
    destruct ((depth line =? d + 1) && _); [discriminate|reflexivity].
  - intros fuel hdr c d items He.
    rewrite decodeListArray_S. unfold decodeListArray_body.
    rewrite He, Z.ltb_irrefl, orb_true_r, assertExpectedCount_passes. reflexivity.
  - intros Hs hdr c d objs c' Ht Hne. unfold decodeTabularArray.
    rewrite Ht. simpl. now rewrite assertExpectedCount_fails.
  - intros hdr fields rowDepth rest c objs He.
    destruct rest as [|line rest]; simpl; [reflexivity|].
    now rewrite He, Z.ltb_irrefl.
  - intros input expected actual kind. split; intros H.
    + apply deserialize_throws in H. destruct H as [H|H]; [discriminate|].
      simpl in H. discriminate.
    + apply deserialize_throws in H. destruct H as [H|H]; [discriminate|].
      simpl in H. discriminate.
Qed.

(** C2. In strict mode a list or tabular body that holds more items or
    rows than its header declares raises no count error.  The loops of
    [decodeListArray] and [decodeTabularArray] stop at the declared number
    and nothing looks at what follows: the second item is left unread, and
    with it the key [n] of the enclosing object, which stands behind it.
    The inline form raises the error for one value too many, and the list
    form for one item too few. *)
Theorem strict_extra_items_accepted :
  deserialize (document ["[1]:"; "  - a"; "  - b"]) (Some true) = Return (VArr [VStr "a"])
  /\ deserialize (document ["[1]{x}:"; "  a"; "  b"]) (Some true)
     = Return (VArr [VObj [("x", VStr "a")]])
  /\ deserialize (document ["k[1]:"; "  - a"; "  - b"; "n: c"]) (Some true)
     = Return (VObj [("k", VArr [VStr "a"])])
  /\ deserialize "[1]: a,b" (Some true) = Throw (CountMismatch 1 2 "inline array items")
  /\ deserialize (document ["[2]:"; "  - a"]) (Some true)
     = Throw (CountMismatch 2 1 "list array items").
Proof. repeat split; vm_compute; reflexivity. Qed.

Lemma strict_count_assertions_witness :
  let lines := [topLine "[2]:"; rowLine "- a"] in
  Z.of_nat (List.length [VStr "a"]) = hdr_length (header None 1 None)
  /\ decodeInlinePrimitiveArray strictOptions (header None 3 None) "a,b"
     = Throw (CountMismatch 3 2 "inline array items")
  /\ decodeListArray lines strictOptions 1 (header None 2 None) 2 0 [VStr "a"]
     = Throw (CountMismatch 2 1 "list array items")
  /\ decodeListArray lines strictOptions 1 (header None 1 None) 2 0 [VStr "a"]
     = Return ([VStr "a"], 2%nat)
  /\ decodeTabularArray lines strictOptions (header None 2 (Some ["x"])) 1 0
     = Throw (CountMismatch 2 0 "tabular rows")
  /\ tabularRows strictOptions (header None 0 (Some ["x"])) ["x"] 1 [rowLine "a"] 1 []
     = Return ([], 1%nat).
Proof.
  intros lines.
  destruct (strict_count_assertions lines strictOptions)
    as (H1 & H2 & H3 & H4 & H5 & H6 & _).
  split; [|split; [|split; [|split; [|split]]]].
  - apply (H1 eq_refl 5%nat (header None 1 None) None 1%nat 0 [VStr "a"] 2%nat).
    vm_compute. reflexivity.
  - apply (H2 eq_refl (header None 3 None) "a,b" [VStr "a"; VStr "b"]).
    + reflexivity.
    + vm_compute. reflexivity.
    + discriminate.
  - apply (H3 eq_refl 0%nat (header None 2 None) 2%nat 0 [VStr "a"]).
    + reflexivity.
    + discriminate.
  - apply (H4 0%nat (header None 1 None) 2%nat 0 [VStr "a"]). reflexivity.
  - apply (H5 eq_refl (header None 2 (Some ["x"])) 1%nat 0 [] 1%nat).
    + vm_compute. reflexivity.
    + discriminate.
  - apply (H6 (header None 0 (Some ["x"])) ["x"] 1 [rowLine "a"] 1%nat []). reflexivity.
Defined.

(** ** Induction on host values *)

Lemma jsval_ind (P : jsval -> Prop) :
  P VUndefined -> P VNull -> (forall b, P (VBool b)) -> (forall x, P (VNum x)) ->
  (forall s, P (VStr s)) -> (forall z, P (VBigInt z)) -> (forall iso, P (VDate iso)) ->
  (forall items, Forall P items -> P (VArr items)) ->
  (forall items, Forall P items -> P (VSet items)) ->
  (forall entries, Forall (fun kv => P (snd kv)) entries -> P (VMap entries)) ->
  (forall props, Forall (fun kv => P (snd kv)) props -> P (VObj props)) ->
  (forall proto props,
      match proto with Some p => P p | None => True end ->
      Forall (fun kv => P (snd kv)) props -> P (VObjWith proto props)) ->
  (forall b, P (VOpaque b)) ->
  forall v, P v.
Proof.
  intros Hu Hn Hb Hx Hs Hz Hd Ha Hset Hm Ho Hw Hop.
  fix IH 1. intros v. destruct v as [| |b|x|s|z|iso|items|items|entries|props|proto props|b].
  - exact Hu.
  - exact Hn.
  - apply Hb.
  - apply Hx.
  - apply Hs.
  - apply Hz.
  - apply Hd.
  - apply Ha. induction items as [|x r IHr]; constructor; [apply IH|exact IHr].
  - apply Hset. induction items as [|x r IHr]; constructor; [apply IH|exact IHr].
  - apply Hm. induction entries as [|[k x] r IHr]; constructor; [apply IH|exact IHr].
  - apply Ho. induction props as [|[k x] r IHr]; constructor; [apply IH|exact IHr].
  - apply Hw.
    + destruct proto as [p|]; [apply IH|exact I].
    + induction props as [|[k x] r IHr]; constructor; [apply IH|exact IHr].
  - apply Hop.
Qed.

(** ** Decimal digits and array indices *)

Lemma digitsValue_acc s : forall a,
  digitsValue a s = a * 10 ^ len s + digitsValue 0 s.
Proof.
  unfold len. induction s as [|c r IH]; intros a; simpl String.length.
  - simpl. lia.
  - cbn [digitsValue]. rewrite (IH (10 * a + digitValue c)), (IH (10 * 0 + digitValue c)).
    rewrite Nat2Z.inj_succ, Z.pow_succ_r by lia. lia.
Qed.

Lemma digitValue_range c : isDigit c = true -> 0 <= digitValue c <= 9.
Proof.
  unfold isDigit, digitValue. rewrite andb_true_iff, !Nat.leb_le. lia.
Qed.

Lemma digitValue_inj c d :
  isDigit c = true -> isDigit d = true -> digitValue c = digitValue d -> c = d.
Proof.
  unfold digitValue. intros _ _ H.
  rewrite <- (ascii_nat_embedding c), <- (ascii_nat_embedding d). f_equal. lia.
Qed.

Lemma digitsValue_bound s :
  allChars isDigit s = true -> 0 <= digitsValue 0 s < 10 ^ len s.
Proof.
  unfold len. induction s as [|c r IH]; simpl String.length; cbn [allChars digitsValue].
  - simpl. lia.
  - rewrite andb_true_iff. intros [Hc Hr]. specialize (IH Hr).
    rewrite digitsValue_acc. unfold len.
    pose proof (digitValue_range c Hc).
    rewrite Nat2Z.inj_succ, Z.pow_succ_r by lia. nia.
Qed.

Lemma base_split P x y a b :
  0 <= a < P -> 0 <= b < P -> x * P + a = y * P + b -> x = y /\ a = b.
Proof.
  intros Ha Hb H.
  assert (x = y).
  { destruct (Z.lt_trichotomy x y) as [L|[E|G]]; [|exact E|].
    - assert ((x + 1) * P <= y * P) by (apply Z.mul_le_mono_nonneg_r; lia). lia.
    - assert ((y + 1) * P <= x * P) by (apply Z.mul_le_mono_nonneg_r; lia). lia. }
  subst. split; [reflexivity|lia].
Qed.

Lemma digitsValue_inj_length s : forall t,
  allChars isDigit s = true -> allChars isDigit t = true ->
  String.length s = String.length t ->
  digitsValue 0 s = digitsValue 0 t -> s = t.
Proof.
  induction s as [|c r IH]; intros [|d t] Hs Ht Hl Hv; try discriminate; [reflexivity|].
  cbn [allChars] in Hs, Ht. apply andb_true_iff in Hs, Ht.
  destruct Hs as [Hc Hr], Ht as [Hd Ht]. simpl in Hl. injection Hl as Hl.
  cbn [digitsValue] in Hv. rewrite (digitsValue_acc r), (digitsValue_acc t) in Hv.
  unfold len in Hv. rewrite Hl in Hv.
  pose proof (digitsValue_bound r Hr) as Br. pose proof (digitsValue_bound t Ht) as Bt.
  unfold len in Br, Bt. rewrite Hl in Br.
  replace (10 * 0 + digitValue c) with (digitValue c) in Hv by lia.
  replace (10 * 0 + digitValue d) with (digitValue d) in Hv by lia.
  destruct (base_split _ _ _ _ _ Br Bt Hv) as [E1 E2].
  f_equal; [now apply digitValue_inj|now apply IH].
Qed.

Lemma arrayIndex_Some k i :
  JsObject.arrayIndex k = Some i ->
  exists c r, k = String c r /\ allChars isDigit k = true
              /\ (r = EmptyString \/ c <> "0"%char) /\ i = digitsValue 0 k.
Proof.
  unfold JsObject.arrayIndex. destruct k as [|c r]; [discriminate|].
  destruct (allChars isDigit (String c r) && (isEmpty r || negb (Ascii.eqb c "0")))
    eqn:E; [|discriminate].
  apply andb_true_iff in E. destruct E as [Ed Ez].
  destruct (digitsValue 0 (String c r) <=? 4294967294); [|discriminate].
  intros H. inversion H; subst. exists c, r. split; [reflexivity|].
  split; [exact Ed|]. split; [|reflexivity].
  apply orb_true_iff in Ez. destruct Ez as [Ez|Ez].
  - left. now apply isEmpty_true.
  - right. apply negb_true_iff, Ascii.eqb_neq in Ez. exact Ez.
Qed.

Lemma canonical_lower c r :
  allChars isDigit (String c r) = true -> c <> "0"%char ->
  10 ^ len r <= digitsValue 0 (String c r).
Proof.
  cbn [allChars digitsValue]. rewrite andb_true_iff. intros [Hc Hr] Hz.
  rewrite digitsValue_acc. pose proof (digitsValue_bound r Hr).
  assert (1 <= digitValue c).
  { pose proof (digitValue_range c Hc).
    destruct (Z.eq_dec (digitValue c) 0) as [E|E]; [|lia].
    exfalso. apply Hz. apply digitValue_inj; [assumption|reflexivity|exact E]. }
  assert (0 < 10 ^ len r) by (apply Z.pow_pos_nonneg; unfold len; lia).
  nia.
Qed.

Lemma arrayIndex_inj k k' i :
  JsObject.arrayIndex k = Some i -> JsObject.arrayIndex k' = Some i -> k = k'.
Proof.
  intros H H'.
  destruct (arrayIndex_Some _ _ H) as (c & r & -> & Hd & Hz & Hi).
  destruct (arrayIndex_Some _ _ H') as (c' & r' & -> & Hd' & Hz' & Hi').
  assert (Hlen : String.length r = String.length r').
  { pose proof (digitsValue_bound _ Hd) as B. pose proof (digitsValue_bound _ Hd') as B'.
    unfold len in B, B'. simpl String.length in B, B'.
    rewrite Nat2Z.inj_succ, Z.pow_succ_r in B, B' by lia.
    destruct (Nat.lt_trichotomy (String.length r) (String.length r')) as [Hlt|[He|Hgt]];
      [|exact He|]; exfalso.
    - assert (r' <> EmptyString) by (destruct r'; [simpl in Hlt; lia|discriminate]).
      destruct Hz' as [Hz'|Hz']; [contradiction|].
      pose proof (canonical_lower c' r' Hd' Hz') as L. unfold len in L.
      assert (10 * 10 ^ Z.of_nat (String.length r) <= 10 ^ Z.of_nat (String.length r')).
      { rewrite <- Z.pow_succ_r by lia. apply Z.pow_le_mono_r; lia. }
      lia.
    - assert (r <> EmptyString) by (destruct r; [simpl in Hgt; lia|discriminate]).
      destruct Hz as [Hz|Hz]; [contradiction|].
      pose proof (canonical_lower c r Hd Hz) as L. unfold len in L.
      assert (10 * 10 ^ Z.of_nat (String.length r') <= 10 ^ Z.of_nat (String.length r)).
      { rewrite <- Z.pow_succ_r by lia. apply Z.pow_le_mono_r; lia. }
      lia. }
  apply digitsValue_inj_length; try assumption; [simpl; now rewrite Hlen|congruence].
Qed.

(** ** Property order *)

Lemma StronglySorted_before_mid {A} (R : A -> A -> Prop) l1 x l2 :
  StronglySorted R (l1 ++ x :: l2) -> Forall (fun y => R y x) l1.
Proof.
  induction l1 as [|a l1 IH]; simpl; intros H; [constructor|].
  inversion H as [|? ? Hs Hf]; subst. constructor; [|now apply IH].
  rewrite List.Forall_forall in Hf. apply Hf. apply in_or_app. right. now left.
Qed.

Lemma StronglySorted_snoc {A} (R : A -> A -> Prop) l x :
  StronglySorted R l -> Forall (fun y => R y x) l -> StronglySorted R (l ++ [x]).
Proof.
  induction l as [|a l IH]; simpl; intros Hs Hf.
  - constructor; constructor.
  - inversion Hs as [|? ? Hs' Ha]; subst. inversion Hf as [|? ? Hax Hf']; subst.
    constructor; [now apply IH|].
    apply List.Forall_app. split; [exact Ha|]. constructor; [exact Hax|constructor].
Qed.

Section PropertyOrder.
Import JsObject.
Context {A : Type}.
Implicit Types (o : props A) (k : string) (v : A).

Lemma keys_overwrite o k v : keys (overwrite k v o) = keys o.
Proof.
  unfold keys. induction o as [|[k0 v0] r IH]; simpl; [reflexivity|].
  destruct (String.eqb k0 k); simpl; [reflexivity|now rewrite IH].
Qed.

Lemma lookup_None o k : lookup k o = None <-> ~ In k (keys o).
Proof.
  unfold keys. induction o as [|[k0 v0] r IH]; simpl; [tauto|].
  destruct (String.eqb_spec k0 k) as [->|Hne].
  - split; [discriminate|]. intros H. exfalso. apply H. now left.
  - rewrite IH. tauto.
Qed.

Lemma Forall_keys_insertIndex (P : string -> Prop) i o k v :
  Forall P (keys (insertIndex i k v o)) <-> P k /\ Forall P (keys o).
Proof.
  unfold keys. induction o as [|[k0 v0] r IH]; simpl.
  - rewrite List.Forall_cons_iff. tauto.
  - destruct (arrayIndex k0) as [j|]; [destruct (j <? i)|]; simpl;
      rewrite ?List.Forall_cons_iff, ?IH; simpl; tauto.
Qed.

Lemma insertIndex_last i o k v :
  Forall (fun k' => exists j, arrayIndex k' = Some j /\ j < i) (keys o) ->
  insertIndex i k v o = o ++ [(k, v)].
Proof.
  unfold keys. induction o as [|[k0 v0] r IH]; simpl; intros H; [reflexivity|].
  inversion H as [|? ? (j & Hj & Hlt) Hr]; subst. simpl in Hj. rewrite Hj.
  destruct (Z.ltb_spec j i); [|lia]. now rewrite IH.
Qed.

(** Assigning a key that may stand after all the keys appends it. *)
Lemma define_last o k v :
  Forall (fun k' => before k' k) (keys o) -> define o k v = o ++ [(k, v)].
Proof.
  intros H. unfold define, hasKey.
  assert (Hn : lookup k o = None).
  { apply lookup_None. intros Hin. rewrite List.Forall_forall in H.
    destruct (H k Hin) as [Hne _]. now apply Hne. }
  rewrite Hn. destruct (arrayIndex k) as [i|] eqn:Ei; [|reflexivity].
  apply insertIndex_last. eapply List.Forall_impl; [|exact H].
  intros k' [_ Hb]. now apply Hb.
Qed.

Lemma propertyOrder_insertIndex i o k v :
  propertyOrder o -> ~ In k (keys o) -> arrayIndex k = Some i ->
  propertyOrder (insertIndex i k v o).
Proof.
  unfold propertyOrder, keys. intros Ho Hk Hi.
  induction o as [|[k0 v0] r IH]; simpl in *.
  - constructor; constructor.
  - inversion Ho as [|? ? Hr Hk0]; subst.
    assert (Hne : k0 <> k) by (intros ->; apply Hk; now left).
    assert (Hkr : ~ In k (map fst r)) by (intros Hin; apply Hk; now right).
    assert (Hins : forall x, In x (k0 :: map fst r) -> (exists j0, arrayIndex k0 = Some j0 /\ i <= j0) \/ arrayIndex k0 = None -> before k x).
    { intros x Hx Hcase. split.
      - intros ->. now apply Hk.
      - intros ix Hix. exists i. split; [exact Hi|].
        destruct Hx as [<-|Hx].
        + destruct Hcase as [(j0 & Hj0 & Hle)|Hnone]; [|congruence].
          assert (j0 = ix) by congruence. subst.
          destruct (Z.eq_dec i ix) as [->|]; [|lia].
          exfalso. apply Hne. now apply (arrayIndex_inj _ _ ix).
        + rewrite List.Forall_forall in Hk0. destruct (Hk0 x Hx) as [_ Hb].
          destruct (Hb ix Hix) as (j0 & Hj0 & Hlt0).
          destruct Hcase as [(j0' & Hj0' & Hle)|Hnone]; [|congruence].
          assert (j0' = j0) by congruence. subst. lia. }
    destruct (arrayIndex k0) as [j|] eqn:Ej.
    + destruct (Z.ltb_spec j i).
      * simpl. constructor; [now apply IH|].
        change (map fst (insertIndex i k v r)) with (keys (insertIndex i k v r)).
        apply Forall_keys_insertIndex. split; [|exact Hk0].
        split; [exact Hne|]. intros i' Hi'. exists j. split; [exact Ej|].
        assert (i' = i) by congruence. lia.
      * simpl. constructor; [constructor; assumption|].
        apply List.Forall_forall. intros x Hx. apply Hins; [exact Hx|]. left.
        exists j. split; [reflexivity|lia].
    + simpl. constructor; [constructor; assumption|].
      apply List.Forall_forall. intros x Hx. apply Hins; [exact Hx|]. now right.
Qed.

Lemma propertyOrder_define o k v : propertyOrder o -> propertyOrder (define o k v).
Proof.
  intros Ho. unfold define, hasKey. destruct (lookup k o) as [x|] eqn:E.
  - unfold propertyOrder. now rewrite keys_overwrite.
  - apply lookup_None in E. destruct (arrayIndex k) as [i|] eqn:Ei.
    + now apply propertyOrder_insertIndex.
    + unfold propertyOrder, keys. rewrite map_app. simpl.
      apply StronglySorted_snoc; [exact Ho|].
      apply List.Forall_forall. intros x Hx. split; [intros ->; now apply E|].
      intros i Hi. congruence.
Qed.

Lemma propertyOrder_defineAll entries : forall o,
  propertyOrder o -> propertyOrder (defineAll o entries).
Proof.
  unfold defineAll. induction entries as [|[k v] r IH]; intros o Ho; simpl; [exact Ho|].
  apply IH. now apply propertyOrder_define.
Qed.

Lemma propertyOrder_fromEntries (entries : list (string * A)) :
  propertyOrder (fromEntries entries).
Proof. apply propertyOrder_defineAll. constructor. Qed.

(** Assigning again the properties of an object, in their order, rebuilds
    the object. *)
Lemma defineAll_rebuild o : forall pre,
  propertyOrder (pre ++ o) -> defineAll pre o = pre ++ o.
Proof.
  unfold defineAll. induction o as [|[k v] r IH]; intros pre H; simpl.
  - now rewrite app_nil_r.
  - rewrite define_last.
    + rewrite IH; rewrite <- app_assoc; [reflexivity|exact H].
    + unfold propertyOrder, keys in H. rewrite map_app in H. simpl in H.
      now apply StronglySorted_before_mid in H.
Qed.

Lemma fromEntries_rebuild o : propertyOrder o -> fromEntries o = o.
Proof. intros H. apply (defineAll_rebuild o []). exact H. Qed.

Lemma Forall_values_overwrite (Q : A -> Prop) o k v :
  Forall (fun kv => Q (snd kv)) o -> Q v ->
  Forall (fun kv => Q (snd kv)) (overwrite k v o).
Proof.
  intros Ho Hv. induction o as [|[k0 v0] r IH]; simpl; [constructor|].
  inversion Ho; subst. destruct (String.eqb k0 k); constructor; auto.
Qed.

Lemma Forall_values_insertIndex (Q : A -> Prop) i o k v :
  Forall (fun kv => Q (snd kv)) o -> Q v ->
  Forall (fun kv => Q (snd kv)) (insertIndex i k v o).
Proof.
  intros Ho Hv. induction o as [|[k0 v0] r IH]; simpl; [repeat constructor; exact Hv|].
  inversion Ho; subst.
  destruct (arrayIndex k0) as [j|]; [destruct (j <? i)|]; repeat constructor; auto.
Qed.

Lemma Forall_values_define (Q : A -> Prop) o k v :
  Forall (fun kv => Q (snd kv)) o -> Q v -> Forall (fun kv => Q (snd kv)) (define o k v).
Proof.
  intros Ho Hv. unfold define. destruct (hasKey k o).
  - now apply Forall_values_overwrite.
  - destruct (arrayIndex k).
    + now apply Forall_values_insertIndex.
    + apply List.Forall_app. split; [exact Ho|]. repeat constructor. exact Hv.
Qed.

Lemma Forall_values_defineAll (Q : A -> Prop) entries : forall o,
  Forall (fun kv => Q (snd kv)) o -> Forall (fun kv => Q (snd kv)) entries ->
  Forall (fun kv => Q (snd kv)) (defineAll o entries).
Proof.
  unfold defineAll. induction entries as [|[k v] r IH]; intros o Ho He; simpl; [exact Ho|].
  inversion He; subst. apply IH; [|assumption]. now apply Forall_values_define.
Qed.
End PropertyOrder.

(** ** Normalization: objects *)

Lemma normalizeValue_loop props : forall result,
  (fix loop (todo : list (string * jsval)) (result : jsval) :=
     match todo with
     | [] => Return result
     | (key, v) :: rest =>
         do nv <- normalizeValue v;
         loop rest (assign result key nv)
     end) props result
  = do es <- mapM normalizeEntry props; Return (assignAll result es).
Proof.
  induction props as [|[k v] r IH]; intros result; [reflexivity|].
  cbn [mapM]. unfold normalizeEntry at 1. cbn [fst snd].
  destruct (normalizeValue v) as [nv|e|]; [|reflexivity|reflexivity].
  cbn [bind]. rewrite IH.
  destruct (mapM normalizeEntry r) as [es|e|]; reflexivity.
Qed.

Lemma normalizeValue_VObj props :
  normalizeValue (VObj props)
  = do es <- mapM normalizeEntry props; Return (assignAll (VObj []) es).
Proof. cbn [normalizeValue]. apply normalizeValue_loop. Qed.

Lemma normalizeValue_VObjWith_None props :
  normalizeValue (VObjWith None props)
  = do es <- mapM normalizeEntry props; Return (assignAll (VObj []) es).
Proof. cbn [normalizeValue]. apply normalizeValue_loop. Qed.

Lemma normalizeValue_VMap entries :
  normalizeValue (VMap entries)
  = do es <- mapM normalizeEntry entries; Return (VObj (JsObject.fromEntries es)).
Proof. reflexivity. Qed.

Lemma normalizeEntry_keys props : forall es,
  mapM normalizeEntry props = Return es -> JsObject.keys es = JsObject.keys props.
Proof.
  induction props as [|[k v] ps IH]; intros es H; cbn [mapM] in H.
  - now inversion H.
  - unfold normalizeEntry at 1 in H. cbn [fst snd] in H.
    destruct (normalizeValue v) as [nv|e|]; try discriminate. cbn [bind] in H.
    destruct (mapM normalizeEntry ps) as [es'|e|]; try discriminate. cbn [bind] in H.
    inversion H; subst. unfold JsObject.keys in *. cbn [map fst]. f_equal. now apply IH.
Qed.

Lemma normalizeEntry_fixed props :
  mapM normalizeEntry props = Return props ->
  Forall (fun kv => normalizeValue (snd kv) = Return (snd kv)) props.
Proof.
  induction props as [|[k v] ps IH]; intros H; [constructor|]. cbn [mapM] in H.
  unfold normalizeEntry at 1 in H. cbn [fst snd] in H.
  destruct (normalizeValue v) as [nv|e|] eqn:Ev; try discriminate. cbn [bind] in H.
  destruct (mapM normalizeEntry ps) as [es'|e|] eqn:Em; try discriminate. cbn [bind] in H.
  inversion H; subst. constructor; [exact Ev|]. now apply IH.
Qed.

Lemma mapM_fixed items :
  mapM normalizeValue items = Return items -> Forall stable items.
Proof.
  induction items as [|v r IH]; intros H; [constructor|]. cbn [mapM] in H.
  destruct (normalizeValue v) as [w|e|] eqn:Ev; try discriminate. cbn [bind] in H.
  destruct (mapM normalizeValue r) as [ws|e|] eqn:Em; try discriminate. cbn [bind] in H.
  inversion H; subst. constructor; [exact Ev|]. now apply IH.
Qed.

Lemma mapM_of_stable r : Forall stable r -> mapM normalizeValue r = Return r.
Proof.
  induction 1 as [|w r Hw _ IH]; simpl; [reflexivity|]. now rewrite Hw, IH.
Qed.

Lemma mapM_entries_of_stable o :
  Forall (fun kv => stable (snd kv)) o -> mapM normalizeEntry o = Return o.
Proof.
  induction 1 as [|[k v] o Hv _ IH]; simpl; [reflexivity|].
  unfold normalizeEntry at 1. simpl in *. now rewrite Hv, IH.
Qed.

(** An object with another prototype keeps one, whatever is assigned. *)
Lemma assignAll_VObjWith entries : forall proto props,
  exists proto' props', assignAll (VObjWith proto props) entries = VObjWith proto' props'.
Proof.
  induction entries as [|[k v] r IH]; intros proto props; [now exists proto, props|].
  rewrite assignAll_cons. unfold assign.
  destruct (String.eqb k PROTO && _); [|apply IH].
  unfold setPrototypeOf. destruct v; try apply IH. destruct isObject; apply IH.
Qed.

Lemma In_keys_define {A} (o : JsObject.props A) k v k' :
  In k' (JsObject.keys (JsObject.define o k v)) <-> k' = k \/ In k' (JsObject.keys o).
Proof.
  destruct (in_dec String.string_dec k' (JsObject.keys (JsObject.define o k v))) as [Hi|Hn].
  - split; [|intros _; exact Hi]. intros _.
    destruct (String.eqb_spec k k') as [->|Hne]; [now left|]. right.
    destruct (in_dec String.string_dec k' (JsObject.keys o)) as [Ho|Ho]; [exact Ho|].
    exfalso. apply lookup_None in Ho.
    assert (Hl : JsObject.lookup k' (JsObject.define o k v) = None).
    { rewrite JsObjectFacts.lookup_define. destruct (String.eqb_spec k k'); congruence. }
    apply lookup_None in Hl. now apply Hl.
  - split; [intros H; now exfalso|]. intros H. exfalso. apply lookup_None in Hn.
    rewrite JsObjectFacts.lookup_define in Hn.
    destruct (String.eqb_spec k k') as [->|Hne]; [discriminate|].
    destruct H as [->|H]; [now apply Hne|]. apply lookup_None in Hn. now apply Hn.
Qed.

(** An object that keeps the prototype [Object.prototype] while entries are
    assigned to it gets no property [__proto__]. *)
Lemma assignAll_VObj_keys entries : forall o o',
  assignAll (VObj o) entries = VObj o' ->
  ~ In PROTO (JsObject.keys o) -> ~ In PROTO (JsObject.keys o').
Proof.
  induction entries as [|[k v] r IH]; intros o o' H Ho.
  - cbn in H. now inversion H; subst.
  - rewrite assignAll_cons in H. unfold assign in H.
    destruct (String.eqb_spec k PROTO) as [->|Hk]; cbn [andb] in H.
    + assert (Hr : reachesProtoSetter (VObj o) = true).
      { cbn [reachesProtoSetter]. unfold JsObject.hasKey.
        apply lookup_None in Ho. now rewrite Ho. }
      rewrite Hr in H. unfold setPrototypeOf in H. cbn [ownProps] in H.
      destruct v; cbn [isObjectOrNull] in H;
        try (now apply (IH o o'));
        try (destruct (assignAll_VObjWith r None o) as (p' & o'' & E); congruence);
        try (match type of H with
             | assignAll (VObjWith ?p o) r = _ =>
                 destruct (assignAll_VObjWith r p o) as (p' & o'' & E); congruence
             end).
      destruct isObject;
        [destruct (assignAll_VObjWith r (Some (VOpaque true)) o) as (p' & o'' & E); congruence
        |now apply (IH o o')].
    + apply (IH _ o' H). rewrite In_keys_define. intros [E|E]; [now apply Hk|now apply Ho].
Qed.

Lemma not_In_keys {A} (o : JsObject.props A) k :
  ~ In k (JsObject.keys o) -> Forall (fun kv => fst kv <> k) o.
Proof.
  intros H. apply List.Forall_forall. intros [k' v] Hin E. cbn in E. subst k'.
  apply H. unfold JsObject.keys. apply in_map_iff. now exists (k, v).
Qed.

(** A normalized object has its keys in property order and normalized
    values, and none of its keys is [__proto__]. *)
Lemma stable_VObj_full props :
  normalizeValue (VObj props) = Return (VObj props) ->
  propertyOrder props
  /\ Forall (fun kv => normalizeValue (snd kv) = Return (snd kv)) props
  /\ ~ In PROTO (JsObject.keys props).
Proof.
  rewrite normalizeValue_VObj.
  destruct (mapM normalizeEntry props) as [es|e|] eqn:E; try discriminate.
  cbn [bind]. intros H. injection H as Hes.
  assert (Hk : ~ In PROTO (JsObject.keys props)).
  { apply (assignAll_VObj_keys es [] props Hes). intros []. }
  assert (Hke : Forall (fun kv => fst kv <> PROTO) es).
  { apply not_In_keys. now rewrite (normalizeEntry_keys props es E). }
  rewrite assignAll_define in Hes by exact Hke. injection Hes as Hes.
  change (JsObject.defineAll [] es) with (JsObject.fromEntries es) in Hes.
  assert (Hord : propertyOrder props) by (rewrite <- Hes; apply propertyOrder_fromEntries).
  assert (Hes' : propertyOrder es).
  { unfold propertyOrder in *. now rewrite (normalizeEntry_keys props es E). }
  rewrite (fromEntries_rebuild es Hes') in Hes. subst es.
  split; [exact Hord|split; [now apply normalizeEntry_fixed|exact Hk]].
Qed.

Lemma stable_VObj props :
  normalizeValue (VObj props) = Return (VObj props) ->
  propertyOrder props
  /\ Forall (fun kv => normalizeValue (snd kv) = Return (snd kv)) props.
Proof. intros H. destruct (stable_VObj_full props H) as (H1 & H2 & _). now split. Qed.

Lemma stable_VObj_keys props :
  normalizeValue (VObj props) = Return (VObj props) ->
  Forall (fun kv => fst kv <> PROTO) props.
Proof.
  intros H. destruct (stable_VObj_full props H) as (_ & _ & H3). now apply not_In_keys.
Qed.

(** An object in property order, with normalized values and without the
    key [__proto__], is normalized. *)
Lemma stable_object props :
  propertyOrder props -> Forall (fun kv => stable (snd kv)) props ->
  Forall (fun kv => fst kv <> PROTO) props -> stable (VObj props).
Proof.
  intros Ho Hs Hk. unfold stable. rewrite normalizeValue_VObj.
  rewrite mapM_entries_of_stable by exact Hs. cbn [bind].
  rewrite assignAll_define by exact Hk.
  change (JsObject.defineAll [] props) with (JsObject.fromEntries props).
  now rewrite fromEntries_rebuild.
Qed.

Lemma stable_VArr items : stable (VArr items) -> Forall stable items.
Proof.
  unfold stable. cbn [normalizeValue].
  destruct (mapM normalizeValue items) as [r| |] eqn:E; try discriminate.
  cbn [bind]. intros H. injection H as ->. now apply mapM_fixed.
Qed.

Lemma stable_ofSafeInteger z : stable (VNum (ofSafeInteger z)).
Proof.
  unfold stable, ofSafeInteger.
  destruct z as [|m|m]; [reflexivity| |];
    destruct (shl_align m 0 _) as [m' e']; reflexivity.
Qed.

(** ** Normalization is idempotent where no key is [__proto__] *)

Lemma Forall_keys_defineAll {A} (P : string -> Prop) entries : forall (o : JsObject.props A),
  Forall (fun kv => P (fst kv)) o -> Forall (fun kv => P (fst kv)) entries ->
  Forall (fun kv => P (fst kv)) (JsObject.defineAll o entries).
Proof.
  unfold JsObject.defineAll.
  induction entries as [|[k v] r IH]; intros o Ho He; [exact Ho|].
  inversion He; subst. cbn [fold_left fst snd]. apply IH; [|assumption].
  apply List.Forall_forall. intros [k' v'] Hin. cbn [fst].
  assert (Hk : In k' (JsObject.keys (JsObject.define o k v))).
  { unfold JsObject.keys. apply in_map_iff. now exists (k', v'). }
  apply In_keys_define in Hk. destruct Hk as [->|Hk]; [assumption|].
  unfold JsObject.keys in Hk. apply in_map_iff in Hk. destruct Hk as ([k2 v2] & E & Hin2).
  cbn in E. subst k2. rewrite List.Forall_forall in Ho. exact (Ho _ Hin2).
Qed.

Lemma mapM_entries_stable entries :
  Forall (fun kv => forall w, normalizeValue (snd kv) = Return w -> stable w) entries ->
  forall es, mapM normalizeEntry entries = Return es ->
             Forall (fun kv => stable (snd kv)) es.
Proof.
  induction 1 as [|[k v] entries Hv _ IH]; intros es H; simpl in H.
  - inversion H. constructor.
  - unfold normalizeEntry at 1 in H. simpl in H.
    destruct (normalizeValue v) as [w|e|] eqn:Ev; try discriminate. simpl in H.
    destruct (mapM normalizeEntry entries) as [ws|e|]; try discriminate. simpl in H.
    inversion H; subst. constructor; [now apply Hv|now apply IH].
Qed.

Lemma mapM_stable items :
  Forall (fun v => forall w, normalizeValue v = Return w -> stable w) items ->
  forall r, mapM normalizeValue items = Return r -> Forall stable r.
Proof.
  induction 1 as [|v items Hv _ IH]; intros r H; simpl in H.
  - inversion H. constructor.
  - destruct (normalizeValue v) as [w|e|] eqn:Ev; try discriminate. simpl in H.
    destruct (mapM normalizeValue items) as [ws|e|]; try discriminate. simpl in H.
    inversion H; subst. constructor; [now apply Hv|now apply IH].
Qed.

Lemma stable_fromEntries es :
  Forall (fun kv => stable (snd kv)) es -> Forall (fun kv => fst kv <> PROTO) es ->
  stable (VObj (JsObject.fromEntries es)).
Proof.
  intros Hs Hk. apply stable_object.
  - apply propertyOrder_fromEntries.
  - apply Forall_values_defineAll; [constructor|exact Hs].
  - apply (Forall_keys_defineAll (fun k => k <> PROTO)); [constructor|exact Hk].
Qed.

Lemma protoFree_entries entries :
  forallb (fun kv => negb (String.eqb (fst kv) PROTO) && protoFree (snd kv)) entries = true ->
  Forall (fun kv => fst kv <> PROTO) entries
  /\ Forall (fun kv => protoFree (snd kv) = true) entries.
Proof.
  rewrite forallb_forall. intros H. split; apply List.Forall_forall; intros kv Hin;
    specialize (H kv Hin); apply andb_prop in H; destruct H as [H1 H2]; [|exact H2].
  apply negb_true_iff in H1. now apply String.eqb_neq.
Qed.

Lemma normalizeValue_stable v :
  protoFree v = true -> forall w, normalizeValue v = Return w -> stable w.
Proof.
  induction v
    as [| |b|x|s|z|iso|items IH|items IH|entries IH|props IH|proto props IHp IH|b]
    using jsval_ind;
    intros Hf w H.
  - inversion H. reflexivity.
  - inversion H. reflexivity.
  - inversion H. reflexivity.
  - destruct x as [[|]|[|]| |sg m e]; inversion H; reflexivity.
  - inversion H. reflexivity.
  - cbn [normalizeValue] in H. destruct (_ && _); inversion H; subst.
    + apply stable_ofSafeInteger.
    + reflexivity.
  - destruct iso; inversion H. reflexivity.
  - cbn [normalizeValue] in H. cbn [protoFree] in Hf. rewrite forallb_forall in Hf.
    destruct (mapM normalizeValue items) as [r|e|] eqn:E; inversion H; subst.
    unfold stable. cbn [normalizeValue].
    rewrite (mapM_of_stable r); [reflexivity|]. apply (mapM_stable items); [|exact E].
    rewrite List.Forall_forall in IH |- *. intros v Hin. apply IH; [exact Hin|now apply Hf].
  - cbn [normalizeValue] in H. cbn [protoFree] in Hf. rewrite forallb_forall in Hf.
    destruct (mapM normalizeValue items) as [r|e|] eqn:E; inversion H; subst.
    unfold stable. cbn [normalizeValue].
    rewrite (mapM_of_stable r); [reflexivity|]. apply (mapM_stable items); [|exact E].
    rewrite List.Forall_forall in IH |- *. intros v Hin. apply IH; [exact Hin|now apply Hf].
  - rewrite normalizeValue_VMap in H. cbn [protoFree] in Hf.
    apply protoFree_entries in Hf. destruct Hf as [Hk Hf].
    destruct (mapM normalizeEntry entries) as [es|e|] eqn:E; inversion H; subst.
    apply stable_fromEntries.
    + apply (mapM_entries_stable entries); [|exact E].
      rewrite List.Forall_forall in IH, Hf |- *. intros kv Hin. apply IH; [exact Hin|now apply Hf].
    + apply not_In_keys. rewrite (normalizeEntry_keys entries es E).
      intros Hin. unfold JsObject.keys in Hin. apply in_map_iff in Hin.
      destruct Hin as (kv & Ek & Hin). rewrite List.Forall_forall in Hk. now apply (Hk kv Hin).
  - rewrite normalizeValue_VObj in H. cbn [protoFree] in Hf.
    apply protoFree_entries in Hf. destruct Hf as [Hk Hf].
    destruct (mapM normalizeEntry props) as [es|e|] eqn:E; inversion H; subst.
    assert (Hke : Forall (fun kv => fst kv <> PROTO) es).
    { apply not_In_keys. rewrite (normalizeEntry_keys props es E).
      intros Hin. unfold JsObject.keys in Hin. apply in_map_iff in Hin.
      destruct Hin as (kv & Ek & Hin). rewrite List.Forall_forall in Hk. now apply (Hk kv Hin). }
    rewrite assignAll_define by exact Hke. apply stable_fromEntries; [|exact Hke].
    apply (mapM_entries_stable props); [|exact E].
    rewrite List.Forall_forall in IH, Hf |- *. intros kv Hin. apply IH; [exact Hin|now apply Hf].
  - destruct proto as [p|].
    + cbn [normalizeValue] in H. destruct (_ || _); inversion H. reflexivity.
    + rewrite normalizeValue_VObjWith_None in H. cbn [protoFree] in Hf.
      apply protoFree_entries in Hf. destruct Hf as [Hk Hf].
      destruct (mapM normalizeEntry props) as [es|e|] eqn:E; inversion H; subst.
      assert (Hke : Forall (fun kv => fst kv <> PROTO) es).
      { apply not_In_keys. rewrite (normalizeEntry_keys props es E).
        intros Hin. unfold JsObject.keys in Hin. apply in_map_iff in Hin.
        destruct Hin as (kv & Ek & Hin). rewrite List.Forall_forall in Hk. now apply (Hk kv Hin). }
      rewrite assignAll_define by exact Hke. apply stable_fromEntries; [|exact Hke].
      apply (mapM_entries_stable props); [|exact E].
      rewrite List.Forall_forall in IH, Hf |- *. intros kv Hin. apply IH; [exact Hin|now apply Hf].
  - inversion H. reflexivity.
Qed.

(** X25. Normalizing a normalized value changes nothing, for every host
    value in which no entry of a [Map] and no property of an object has the
    key [__proto__]: normalizing twice gives the outcome of normalizing
    once. *)
Theorem normalizeValue_idempotent (v : jsval) :
  protoFree v = true ->
  (do w <- normalizeValue v; normalizeValue w) = normalizeValue v.
Proof.
  intros Hf. destruct (normalizeValue v) as [w|e|] eqn:E; simpl; [|reflexivity|reflexivity].
  now apply (normalizeValue_stable v).
Qed.

Lemma normalizeValue_idempotent_witness :
  let v := VObj [("b", VSet [VBigInt 7; VUndefined; VNum (S754_zero true)]);
                 ("2", VDate (Some "2020-01-01T00:00:00.000Z"));
                 ("1", VMap [("k", VObjWith None [("n", VNum S754_nan)])])] in
  protoFree v = true
  /\ (do w <- normalizeValue v; normalizeValue w) = normalizeValue v.
Proof.
  intros v. split; [reflexivity|]. apply (normalizeValue_idempotent v). reflexivity.
Defined.

(** C8. Normalization is not idempotent on the key [__proto__].  The [Map]
    branch builds its object with [Object.fromEntries], which creates the
    property, and the object branch with assignments [result[key] = ...],
    which run the setter of [Object.prototype] for this key: the object
    that normalizing a [Map] gives loses the property when it is normalized
    again, and an object that has the property (as [JSON.parse] makes it),
    with an object for value, is normalized to an object that has this
    value for prototype, which is no plain object and is normalized to
    [null]. *)
Theorem normalizeValue_not_idempotent :
  let map := VMap [(PROTO, VStr "x")] in
  let parsed := VObj [(PROTO, VObj [("b", VStr "u")]); ("a", VStr "y")] in
  normalizeValue map = Return (VObj [(PROTO, VStr "x")])
  /\ normalizeValue (VObj [(PROTO, VStr "x")]) = Return (VObj [])
  /\ (do w <- normalizeValue map; normalizeValue w) <> normalizeValue map
  /\ normalizeValue parsed = Return (VObjWith (Some (VObj [("b", VStr "u")])) [("a", VStr "y")])
  /\ normalizeValue (VObjWith (Some (VObj [("b", VStr "u")])) [("a", VStr "y")])
     = Return VNull
  /\ (do w <- normalizeValue parsed; normalizeValue w) <> normalizeValue parsed.
Proof.
  repeat split; try (vm_compute; reflexivity); vm_compute; discriminate.
Qed.

(** ** The cycle check *)

#[local] Set Warnings "-clear-no-such-hyp".

Lemma check_S fuel h obj seen :
  check (S fuel) h obj seen
  = match obj with
    | HTree v => do c <- checkTree v; Return (c, seen)
    | HRef a =>
        if decide (a ∈ seen) then Return (true, seen)
        else
          do _ <- callOwnTestOf (deref h a);
          do r <- checkEach fuel h (enumerable (deref h a)) ({[a]} ∪ seen);
          if fst r then Return (true, snd r) else Return (false, snd r ∖ {[a]})
    end.
Proof. reflexivity. Qed.

Lemma checkTree_each_items items :
  Forall (fun v => checkTree v = Return false) items ->
  (fix each (items : list jsval) :=
     match items with
     | [] => Return false
     | item :: rest => do c <- checkTree item; if c : bool then Return true else each rest
     end) items = Return false.
Proof. induction 1 as [|v r Hv _ IH]; [reflexivity|]. now rewrite Hv. Qed.

Lemma checkTree_each_props props :
  Forall (fun kv => checkTree (snd kv) = Return false) props ->
  (fix each (todo : list (string * jsval)) :=
     match todo with
     | [] => Return false
     | kv :: rest => do c <- checkTree (snd kv); if c : bool then Return true else each rest
     end) props = Return false.
Proof. induction 1 as [|v r Hv _ IH]; [reflexivity|]. now rewrite Hv. Qed.

(** On a value made of primitives, arrays and ordinary objects, every
    call of [obj.hasOwnProperty] runs the built-in method, and the check
    answers [false]. *)
Lemma checkTree_ordinary v : ordinary v = true -> checkTree v = Return false.
Proof.
  induction v
    as [| |b|x|s|z|iso|items IH|items IH|entries IH|props IH|proto props IHp IH|b]
    using jsval_ind;
    intros H; try reflexivity; try discriminate.
  - cbn [checkTree]. apply checkTree_each_items. cbn [ordinary] in H.
    rewrite forallb_forall in H. rewrite List.Forall_forall in IH |- *.
    intros v Hin. apply IH; [exact Hin|now apply H].
  - cbn [ordinary] in H. apply andb_prop in H. destruct H as [Hk H].
    cbn [checkTree]. destruct (hasEnumerableKey (VObj props)); [|reflexivity].
    cbn [hasOwnPropertyOf]. unfold JsObject.hasKey in Hk.
    destruct (JsObject.lookup "hasOwnProperty" props); [discriminate|]. cbn [callOwnTest bind].
    apply checkTree_each_props. rewrite forallb_forall in H.
    rewrite List.Forall_forall in IH |- *. intros kv Hin. apply IH; [exact Hin|now apply H].
Qed.

Lemma checkEach_answers fuel h items seen :
  (forall v, In v items -> checkAnswers h seen v (check fuel h v seen)) ->
  (checkEach fuel h items seen = Return (false, seen)
   /\ forall v, In v items -> ~ hits h seen v)
  \/ (exists seen', checkEach fuel h items seen = Return (true, seen')
                    /\ exists v, In v items /\ hits h seen v).
Proof.
  intros Hc. induction items as [|item rest IH]; simpl.
  - left. split; [reflexivity|]. intros v [].
  - destruct (Hc item (or_introl eq_refl)) as [[-> Hn]|(seen' & -> & Hy)]; simpl.
    + destruct IH as [[-> Hr]|(seen' & -> & v & Hv & Hh)].
      * intros v Hv. apply Hc. now right.
      * left. split; [reflexivity|]. intros v [<-|Hv]; [exact Hn|now apply Hr].
      * right. exists seen'. split; [reflexivity|]. exists v. split; [now right|exact Hh].
    + right. exists seen'. split; [reflexivity|]. exists item. split; [now left|exact Hy].
Qed.

Lemma tc_first {A} (R : relation A) x z : tc R x z -> exists y, R x y /\ rtc R y z.
Proof.
  intros H. destruct H as [x y H1|x c y H1 H2].
  - exists y. split; [exact H1|constructor].
  - exists c. split; [exact H1|now apply tc_rtc].
Qed.

Lemma hits_child h seen a :
  a ∉ seen ->
  hits h seen (HRef a) <-> exists v, In v (enumerable (deref h a)) /\ hits h ({[a]} ∪ seen) v.
Proof.
  intros Ha. split.
  - intros (b & Hab & Hb). destruct (rtc_inv _ _ Hab) as [->|(c & Hac & Hcb)].
    + destruct Hb as [Hb|Hb]; [contradiction|].
      destruct (tc_first _ _ _ Hb) as (c & Hbc & Hcb).
      exists (HRef c). split; [exact Hbc|]. exists b. split; [exact Hcb|].
      left. set_solver.
    + exists (HRef c). split; [exact Hac|]. exists b. split; [exact Hcb|].
      destruct Hb as [Hb|Hb]; [left; set_solver|now right].
  - intros (v & Hv & Hh). destruct v as [t|c]; [contradiction|].
    destruct Hh as (b & Hcb & Hb).
    assert (Hac : edge h a c) by exact Hv.
    destruct Hb as [Hb|Hb].
    + apply elem_of_union in Hb. destruct Hb as [Hb|Hb].
      * apply elem_of_singleton in Hb. subst b.
        exists a. split; [constructor|]. right.
        eapply tc_rtc_r; [apply tc_once; exact Hac|exact Hcb].
      * exists b. split; [eapply rtc_l; eassumption|now left].
    + exists b. split; [eapply rtc_l; eassumption|now right].
Qed.

Lemma size_difference_insert (h : heap) (seen : gset addr) a :
  a ∉ seen -> is_Some (h !! a) ->
  (size (dom h ∖ ({[a]} ∪ seen)) < size (dom h ∖ seen))%nat.
Proof.
  intros Ha Hh. apply subset_size. apply elem_of_dom in Hh. set_solver.
Qed.

Lemma callOwnTestOf_ordinary n : ordinaryNode n -> callOwnTestOf n = Return tt.
Proof.
  destruct n as [items|props|items|entries]; try reflexivity.
  intros [Hk _]. cbn [callOwnTestOf]. destruct props; [reflexivity|]. now rewrite Hk.
Qed.

Lemma enumerable_ordinary n v : ordinaryNode n -> In v (enumerable n) -> ordinaryPart v.
Proof.
  destruct n as [items|props|items|entries]; cbn [enumerable ordinaryNode].
  - intros H Hin. rewrite List.Forall_forall in H. now apply H.
  - intros [_ H] Hin. rewrite List.Forall_forall in H. now apply H.
  - intros _ [].
  - intros _ [].
Qed.

Lemma check_answers fuel : forall h seen v,
  (forall a n, h !! a = Some n -> ordinaryNode n) -> ordinaryPart v ->
  (size (dom h ∖ seen) + 2 <= fuel)%nat ->
  checkAnswers h seen v (check fuel h v seen).
Proof.
  induction fuel as [|fuel IH]; intros h seen v Hh Hv Hf; [lia|].
  rewrite check_S. destruct v as [t|a].
  - left. cbn [ordinaryPart] in Hv. rewrite (checkTree_ordinary t Hv).
    split; [reflexivity|]. intros [].
  - destruct (decide (a ∈ seen)) as [Ha|Ha].
    + right. exists seen. split; [reflexivity|]. exists a. split; [constructor|now left].
    + assert (Hback : ({[a]} ∪ seen) ∖ {[a]} = seen) by set_solver.
      assert (Hcall : callOwnTestOf (deref h a) = Return tt).
      { unfold deref. destruct (h !! a) as [n|] eqn:En; [|reflexivity].
        apply callOwnTestOf_ordinary. exact (Hh a n En). }
      rewrite Hcall. cbn [bind].
      assert (Heach :
        (checkEach fuel h (enumerable (deref h a)) ({[a]} ∪ seen)
         = Return (false, {[a]} ∪ seen)
         /\ forall v, In v (enumerable (deref h a)) -> ~ hits h ({[a]} ∪ seen) v)
        \/ (exists seen', checkEach fuel h (enumerable (deref h a)) ({[a]} ∪ seen)
                          = Return (true, seen')
                          /\ exists v, In v (enumerable (deref h a))
                                       /\ hits h ({[a]} ∪ seen) v)).
      { destruct (h !! a) as [n|] eqn:En.
        - apply checkEach_answers. intros v Hin. apply IH; [exact Hh| |].
          + unfold deref in Hin. rewrite En in Hin.
            exact (enumerable_ordinary n v (Hh a n En) Hin).
          + pose proof (size_difference_insert h seen a Ha (mk_is_Some _ _ En)). lia.
        - unfold deref. rewrite En. simpl. left. split; [reflexivity|]. intros v []. }
      destruct Heach as [[-> Hn]|(seen' & -> & Hy)]; simpl.
      * left. rewrite Hback. split; [reflexivity|].
        rewrite (hits_child h seen a Ha). intros (v & Hv' & Hh'). now apply (Hn v).
      * right. exists seen'. split; [reflexivity|]. now apply (hits_child h seen a Ha).
Qed.

(** What the check decides on a graph of ordinary parts: [true] exactly
    when an array or object reached through elements and own properties
    reaches itself through them. *)
Lemma hasCircularReference_spec (h : heap) (v : hval) :
  ordinaryGraph h v ->
  (hasCircularReference h v = Return true /\ reachesCycle (edge h) v)
  \/ (hasCircularReference h v = Return false /\ ~ reachesCycle (edge h) v).
Proof.
  intros [Hv Hh]. unfold hasCircularReference.
  assert (Hf : (size (dom h ∖ (∅ : gset addr)) + 2 <= checkBudget h)%nat).
  { unfold checkBudget. rewrite difference_empty_L, size_dom. lia. }
  assert (Hiff : hits h ∅ v <-> reachesCycle (edge h) v).
  { destruct v as [t|a]; simpl; [tauto|].
    split; intros (b & Hab & Hb); exists b; (split; [exact Hab|]).
    - destruct Hb as [Hb|Hb]; [set_solver|exact Hb].
    - now right. }
  destruct (check_answers _ h ∅ v Hh Hv Hf) as [[-> Hn]|(seen' & -> & Hy)]; simpl.
  - right. split; [reflexivity|]. now rewrite <- Hiff.
  - left. split; [reflexivity|]. now rewrite <- Hiff.
Qed.

Lemma deref_selfSet : deref selfSet 1%positive = NSet [HRef 1%positive].
Proof. reflexivity. Qed.

Lemma unfold_selfSet fuel : unfold fuel selfSet (HRef 1%positive) = Exhausted.
Proof.
  induction fuel as [|fuel IH]; [reflexivity|].
  cbn [unfold]. rewrite deref_selfSet. cbn [mapM]. rewrite IH. reflexivity.
Qed.

(** C4. The check follows array elements and own enumerable properties
    only: on a graph of ordinary parts (no object in it has a property
    named [hasOwnProperty], which the check calls) it answers [true]
    exactly when an array or object reached that way reaches itself, and
    [false] on every such graph without such a cycle, shared parts
    included.  A [Set] (or [Map]) that contains itself is not seen:
    [serialize] raises no cycle error on it and its normalization never
    ends. *)
Theorem cycle_through_set_not_detected :
  (forall h v,
      ordinaryGraph h v ->
      (hasCircularReference h v = Return true /\ reachesCycle (edge h) v)
      \/ (hasCircularReference h v = Return false /\ ~ reachesCycle (edge h) v))
  /\ reachesCycle (member selfSet) (HRef 1%positive)
  /\ hasCircularReference selfSet (HRef 1%positive) = Return false
  /\ (forall numberToString fuel delimiter,
         serialize numberToString fuel selfSet (HRef 1%positive) delimiter = Exhausted).
Proof.
  split; [exact hasCircularReference_spec|]. split; [|split].
  - exists 1%positive. split; [constructor|]. apply tc_once.
    unfold member. rewrite deref_selfSet. now left.
  - vm_compute. reflexivity.
  - intros numberToString fuel delimiter. unfold serialize.
    replace (hasCircularReference selfSet (HRef 1%positive)) with (Return false)
      by (vm_compute; reflexivity).
    cbn [bind]. now rewrite unfold_selfSet.
Qed.

Lemma cycle_through_set_not_detected_witness :
  let h : heap := {[ 1%positive := NObj [("self", HRef 2%positive)];
                     2%positive := NArr [HTree VNull; HRef 1%positive] ]} in
  ordinaryGraph h (HRef 1%positive)
  /\ ((hasCircularReference h (HRef 1%positive) = Return true
       /\ reachesCycle (edge h) (HRef 1%positive))
      \/ (hasCircularReference h (HRef 1%positive) = Return false
          /\ ~ reachesCycle (edge h) (HRef 1%positive))).
Proof.
  intros h.
  assert (Ho : ordinaryGraph h (HRef 1%positive)).
  { split; [exact I|]. intros a n Hl. unfold h in Hl.
    apply lookup_insert_Some in Hl. destruct Hl as [[_ <-]|[_ Hl]].
    - split; [reflexivity|]. repeat constructor.
    - apply lookup_singleton_Some in Hl. destruct Hl as [_ <-]. repeat constructor. }
  split; [exact Ho|]. exact (proj1 cycle_through_set_not_detected h (HRef 1%positive) Ho).
Defined.

(** Shared parts are no cycle: an array that holds the same object twice. *)
Example shared_object_is_no_cycle :
  let h : heap := {[ 1%positive := NArr [HRef 2%positive; HRef 2%positive];
                     2%positive := NObj [("k", HTree (VStr "v"))] ]} in
  hasCircularReference h (HRef 1%positive) = Return false
  /\ forall numberToString,
       serialize numberToString 2 h (HRef 1%positive) None
       = Return (document ["[2]{k}:"; "  v"; "  v"]).
Proof. split; [|intros numberToString]; vm_compute; reflexivity. Qed.

(** A cycle through a property and an array is reported. *)
Example cycle_is_reported :
  let h : heap := {[ 1%positive := NObj [("self", HRef 2%positive)];
                     2%positive := NArr [HTree VNull; HRef 1%positive] ]} in
  forall numberToString fuel,
    serialize numberToString fuel h (HRef 1%positive) None = Throw SerializeError.
Proof. intros h numberToString fuel. vm_compute. reflexivity. Qed.

(** ** The step budget of the decoder is enough *)

Lemma finishes_bind {A B} (m : outcome A) (k : A -> outcome B) :
  finishes m -> (forall a, finishes (k a)) -> finishes (bind m k).
Proof. destruct m as [a|e|]; simpl; intros Hm Hk; [apply Hk|exact I|exact Hm]. Qed.

Lemma finishes_mapM {A B} (f : A -> outcome B) l :
  (forall x, finishes (f x)) -> finishes (mapM f l).
Proof.
  intros Hf. induction l as [|x r IH]; simpl; [exact I|].
  apply finishes_bind; [apply Hf|]. intros y.
  apply finishes_bind; [apply IH|]. intros ys. exact I.
Qed.

(** Splits a goal [finishes m] along the shape of [m]. *)
Ltac finishes_step :=
  match goal with
  | |- finishes (Return _) => exact I
  | |- finishes (Throw _) => exact I
  | |- finishes (bind _ _) => apply finishes_bind; [|intros ?]
  | |- finishes (mapM _ _) => apply finishes_mapM; intros ?
  | |- finishes (if ?b then _ else _) => destruct b eqn:?
  | |- finishes (match ?x with _ => _ end) => destruct x eqn:?
  | |- finishes (let _ := _ in _) => cbv zeta
  | H : _ |- _ => solve [apply H]
  end.

Ltac finishes_all := repeat finishes_step.

Lemma unescapeString_finishes s : finishes (unescapeString s).
Proof.
  remember (String.length s) as n eqn:Hn.
  revert s Hn. induction n as [n IH] using lt_wf_ind. intros s Hn.
  destruct s as [|c r]; simpl; [exact I|].
  destruct (Ascii.eqb c BACKSLASH).
  - destruct r as [|next r']; [exact I|].
    assert (H : finishes (unescapeString r')).
    { apply (IH (String.length r')); [subst n; simpl; lia|reflexivity]. }
    finishes_all.
  - assert (H : finishes (unescapeString r)).
    { apply (IH (String.length r)); [subst n; simpl; lia|reflexivity]. }
    finishes_all.
Qed.

Lemma parseStringLiteral_finishes s : finishes (parseStringLiteral s).
Proof. unfold parseStringLiteral. pose proof unescapeString_finishes. finishes_all. Qed.

Lemma parsePrimitiveToken_finishes s : finishes (parsePrimitiveToken s).
Proof. unfold parsePrimitiveToken. pose proof parseStringLiteral_finishes. finishes_all. Qed.

Lemma parseArrayHeaderLine_finishes s d : finishes (parseArrayHeaderLine s d).
Proof. unfold parseArrayHeaderLine. pose proof parseStringLiteral_finishes. finishes_all. Qed.

Lemma parseKeyToken_finishes s i : finishes (parseKeyToken s i).
Proof.
  unfold parseKeyToken, parseQuotedKey, parseUnquotedKey.
  pose proof unescapeString_finishes. finishes_all.
Qed.

Lemma assertExpectedCount_finishes a e k options :
  finishes (assertExpectedCount a e k options).
Proof. unfold assertExpectedCount. finishes_all. Qed.

Lemma scanLines_finishes todo : forall n indentSize strict parsed blank,
  finishes (scanLines todo n indentSize strict parsed blank).
Proof. induction todo as [|raw rest IH]; intros; simpl; finishes_all. Qed.

Lemma advances_Return {A} from (v : A) c : (from <= c)%nat -> advances from (Return (v, c)).
Proof. intros H. exact H. Qed.

Lemma advances_weaken {A} from from' (m : outcome (A * nat)) :
  (from <= from')%nat -> advances from' m -> advances from m.
Proof. intros H. destruct m as [[v c]|e|]; simpl; [lia|auto|auto]. Qed.

Lemma advances_bind_finishes {A B} from (m : outcome A) (k : A -> outcome (B * nat)) :
  finishes m -> (forall a, advances from (k a)) -> advances from (bind m k).
Proof. destruct m as [a|e|]; simpl; intros Hm Hk; [apply Hk|exact I|exact Hm]. Qed.

Lemma advances_bind {A B} from (m : outcome (A * nat)) (k : A * nat -> outcome (B * nat)) :
  advances from m ->
  (forall v c, (from <= c)%nat -> advances c (k (v, c))) ->
  advances from (bind m k).
Proof.
  destruct m as [[v c]|e|]; simpl; [|auto|auto].
  intros Hc Hk. eapply advances_weaken; [exact Hc|]. now apply Hk.
Qed.

Section Budget.
Variable lines : list ParsedLine.
Variable options : DecodeOptions.

Lemma peek_Some_lt c line : peek lines c = Some line -> (c < List.length lines)%nat.
Proof. unfold peek. intros H. apply nth_error_Some. congruence. Qed.

Lemma decodeInlinePrimitiveArray_finishes hdr iv :
  finishes (decodeInlinePrimitiveArray options hdr iv).
Proof.
  unfold decodeInlinePrimitiveArray, mapRowValuesToPrimitives.
  pose proof assertExpectedCount_finishes. pose proof parsePrimitiveToken_finishes.
  finishes_all.
Qed.

Lemma tabularRows_advances hdr fields rowDepth rest : forall c objects,
  advances c (tabularRows options hdr fields rowDepth rest c objects).
Proof.
  induction rest as [|line rest IH]; intros c objects; simpl; [lia|].
  destruct (negb _); [simpl; lia|].
  destruct (depth line <? rowDepth); [simpl; lia|].
  destruct (depth line =? rowDepth); [|simpl; lia].
  destruct (acceptsRow line _); [|simpl; lia].
  apply advances_bind_finishes; [apply assertExpectedCount_finishes|]. intros _.
  apply advances_bind_finishes.
  { unfold mapRowValuesToPrimitives. apply finishes_mapM. apply parsePrimitiveToken_finishes. }
  intros ps. eapply advances_weaken; [|apply IH]. lia.
Qed.

Lemma decodeTabularArray_advances hdr c d :
  advances c (decodeTabularArray lines options hdr c d).
Proof.
  unfold decodeTabularArray. apply advances_bind; [apply tabularRows_advances|].
  intros v c' Hc. apply advances_bind_finishes; [apply assertExpectedCount_finishes|].
  intros _. simpl. lia.
Qed.

Lemma decoder_advances fuel :
  (forall content c d, enough (List.length lines) 4 c fuel ->
      advances c (decodeKeyValue lines options fuel content c d))
  /\ (forall c d obj, enough (List.length lines) 1 c fuel ->
         advances c (decodeObject lines options fuel c d obj))
  /\ (forall hdr inlineValues c d, enough (List.length lines) 3 c fuel ->
         advances c (decodeArrayFromHeader lines options fuel hdr inlineValues c d))
  /\ (forall hdr c d items, enough (List.length lines) 2 c fuel ->
         advances c (decodeListArray lines options fuel hdr c d items))
  /\ (forall c d dl, enough (List.length lines) 1 c fuel ->
         advances (S c) (decodeListItem lines options fuel c d dl))
  /\ (forall firstLine c d, enough (List.length lines) 5 c fuel ->
         advances c (decodeObjectFromListItem lines options fuel firstLine c d))
  /\ (forall c d obj, enough (List.length lines) 1 c fuel ->
         advances c (decodeListItemFields lines options fuel c d obj)).
Proof.
  unfold enough.
  induction fuel as [|fuel (IH1 & IH2 & IH3 & IH4 & IH5 & IH6 & IH7)].
  - repeat split; intros; lia.
  - repeat split.
    + intros content c d Hf. rewrite decodeKeyValue_S. unfold decodeKeyValue_body.
      apply advances_bind_finishes; [apply parseArrayHeaderLine_finishes|].
      intros arrayHeader.
      assert (Hplain : advances c
        (do ke <- parseKeyToken content 0;
         if isEmpty (trim (sliceFrom content ke.2))
         then match peek lines c with
              | Some nextLine =>
                  if d <? depth nextLine
                  then do oc <- decodeObject lines options fuel c (d + 1) (VObj []);
                       Return ({| kv_key := ke.1; kv_value := oc.1;
                                  kv_followDepth := d + 1 |}, oc.2)
                  else Return ({| kv_key := ke.1; kv_value := VObj [];
                                  kv_followDepth := d + 1 |}, c)
              | None => Return ({| kv_key := ke.1; kv_value := VObj [];
                                   kv_followDepth := d + 1 |}, c)
              end
         else do v <- parsePrimitiveToken (trim (sliceFrom content ke.2));
              Return ({| kv_key := ke.1; kv_value := v; kv_followDepth := d + 1 |}, c))).
      { apply advances_bind_finishes; [apply parseKeyToken_finishes|]. intros ke.
        destruct (isEmpty _).
        - destruct (peek lines c) as [nextLine|]; [|simpl; lia].
          destruct (d <? depth nextLine); [|simpl; lia].
          apply advances_bind; [apply IH2; lia|]. intros v c' Hc. simpl. lia.
        - apply advances_bind_finishes; [apply parsePrimitiveToken_finishes|].
          intros v. simpl. lia. }
      destruct arrayHeader as [[hdr inlineValues]|]; [|exact Hplain].
      destruct (hdr_key hdr) as [key|]; [|exact Hplain].
      destruct (isEmpty key); [exact Hplain|].
      apply advances_bind; [apply IH3; lia|]. intros v c' Hc. simpl. lia.
    + intros c d obj Hf. rewrite decodeObject_S. unfold decodeObject_body.
      destruct (atEnd lines c); [simpl; lia|].
      destruct (peek lines c) as [line|] eqn:Ep; [|simpl; lia].
      apply peek_Some_lt in Ep.
      destruct (depth line <? d); [simpl; lia|].
      destruct (depth line =? d); [|simpl; lia].
      apply (advances_weaken c (S c)); [lia|].
      apply advances_bind; [apply IH1; lia|].
      intros kv c' Hc. apply IH2. simpl. lia.
    + intros hdr inlineValues c d Hf. rewrite decodeArrayFromHeader_S.
      unfold decodeArrayFromHeader_body.
      assert (Hbody : advances c
        match hdr_fields hdr with
        | Some (_ :: _) => decodeTabularArray lines options hdr c d
        | _ => decodeListArray lines options fuel hdr c d []
        end).
      { destruct (hdr_fields hdr) as [[|f fs]|];
          [apply IH4; lia|apply decodeTabularArray_advances|apply IH4; lia]. }
      destruct inlineValues as [iv|]; [|exact Hbody].
      destruct (isEmpty iv); [exact Hbody|].
      apply advances_bind_finishes; [apply decodeInlinePrimitiveArray_finishes|].
      intros a. simpl. lia.
    + intros hdr c d items Hf. rewrite decodeListArray_S. unfold decodeListArray_body.
      assert (Hfin : advances c
        (do _ <- assertExpectedCount (Z.of_nat (List.length items)) (hdr_length hdr)
                   "list array items" options;
         Return (items, c))).
      { apply advances_bind_finishes; [apply assertExpectedCount_finishes|].
        intros _. simpl. lia. }
      destruct (atEnd lines c || _); [exact Hfin|].
      destruct (peek lines c) as [line|] eqn:Ep; [|exact Hfin].
      apply peek_Some_lt in Ep.
      destruct (depth line <? d + 1); [exact Hfin|].
      destruct (_ && _); [|exact Hfin].
      apply (advances_weaken c (S c)); [lia|].
      apply advances_bind; [apply IH5; lia|].
      intros v c' Hc. apply IH4. simpl. lia.
    + intros c d dl Hf. rewrite decodeListItem_S. unfold decodeListItem_body.
      destruct (peek lines c) as [line|] eqn:Ep; [|exact I].
      apply peek_Some_lt in Ep.
      assert (Hother : advances (S c)
        (if isObjectFirstFieldAfterHyphen (sliceFrom (content line) (len LIST_ITEM_PREFIX))
         then do oc <- decodeObjectFromListItem lines options fuel line (S c) d;
              Return (oc.1, oc.2)
         else do v <- parsePrimitiveToken
                        (sliceFrom (content line) (len LIST_ITEM_PREFIX));
              Return (v, S c))).
      { destruct (isObjectFirstFieldAfterHyphen _).
        - apply advances_bind; [apply IH6; lia|]. intros v c' Hc. simpl. lia.
        - apply advances_bind_finishes; [apply parsePrimitiveToken_finishes|].
          intros v. simpl. lia. }
      destruct (isArrayHeaderAfterHyphen _); [|exact Hother].
      apply advances_bind_finishes; [apply parseArrayHeaderLine_finishes|].
      intros [[hdr inlineValues]|]; [|exact Hother].
      apply advances_bind; [apply IH3; lia|]. intros v c' Hc. simpl. lia.
    + intros firstLine c d Hf. rewrite decodeObjectFromListItem_S.
      unfold decodeObjectFromListItem_body.
      apply advances_bind; [apply IH1; lia|]. intros kv c' Hc. apply IH7. simpl. lia.
    + intros c d obj Hf. rewrite decodeListItemFields_S. unfold decodeListItemFields_body.
      destruct (atEnd lines c); [simpl; lia|].
      destruct (peek lines c) as [line|] eqn:Ep; [|simpl; lia].
      apply peek_Some_lt in Ep.
      destruct (depth line <? d); [simpl; lia|].
      destruct (_ && _); [|simpl; lia].
      apply (advances_weaken c (S c)); [lia|].
      apply advances_bind; [apply IH1; lia|].
      intros kv c' Hc. apply IH7. simpl. lia.
Qed.

Lemma decodeValueFromLines_finishes :
  finishes (decodeValueFromLines lines options (decodeBudget lines)).
Proof.
  destruct (decoder_advances (decodeBudget lines)) as (_ & H2 & H3 & _).
  unfold enough, decodeBudget in *.
  assert (Ho : finishes (decodeObject lines options (6 * List.length lines + 6) 0 0 (VObj []))).
  { specialize (H2 0%nat 0 (VObj [])). destruct (decodeObject _ _ _ _ _ _) as [[v c]|e|];
      simpl in *; [exact I|exact I|]. apply H2. lia. }
  assert (Ha : forall hdr iv,
    finishes (decodeArrayFromHeader lines options (6 * List.length lines + 6) hdr iv 1 0)).
  { intros hdr iv. specialize (H3 hdr iv 1%nat 0).
    destruct (decodeArrayFromHeader _ _ _ _ _ _ _) as [[v c]|e|];
      simpl in *; [exact I|exact I|]. apply H3. lia. }
  unfold decodeValueFromLines.
  pose proof parsePrimitiveToken_finishes. pose proof parseArrayHeaderLine_finishes.
  finishes_all.
Qed.
End Budget.

(** [deserialize] always returns or throws. *)
Lemma deserialize_finishes s strict : finishes (deserialize s strict).
Proof.
  unfold deserialize, toParsedLines. cbn [dec_indent dec_strict].
  apply finishes_bind.
  - destruct (isEmpty (trim s)); [exact I|apply scanLines_finishes].
  - intros [p b]. cbn [fst]. destruct p as [|l p]; [exact I|].
    apply decodeValueFromLines_finishes.
Qed.

(** ** Quoted strings are read back *)

Lemma append_cons x (r b : string) : (String x r ++ b = String x (r ++ b))%string.
Proof. reflexivity. Qed.

Lemma append_nil (b : string) : (EmptyString ++ b = b)%string.
Proof. reflexivity. Qed.

Lemma append_assoc (a b c : string) : ((a ++ b) ++ c = a ++ (b ++ c))%string.
Proof.
  induction a as [|x r IH]; [reflexivity|]. rewrite !append_cons. now rewrite IH.
Qed.

Lemma length_append (a b : string) :
  String.length (a ++ b)%string = (String.length a + String.length b)%nat.
Proof.
  induction a as [|x r IH]; [reflexivity|]. rewrite append_cons. simpl. now rewrite IH.
Qed.

Lemma replaceAll_app c rep a b :
  replaceAll c rep (a ++ b)%string = (replaceAll c rep a ++ replaceAll c rep b)%string.
Proof.
  induction a as [|x r IH]; simpl; [reflexivity|].
  destruct (Ascii.eqb x c); simpl; rewrite IH; [now rewrite append_assoc|reflexivity].
Qed.

Lemma escapeString_cons c r :
  escapeString (String c r) = (escapeChar c ++ escapeString r)%string.
Proof.
  unfold escapeString, escapeChar.
  change (String c r) with (ofChar c ++ r)%string.
  rewrite !replaceAll_app. f_equal.
  destruct (Ascii.eqb_spec c BACKSLASH) as [->|H1]; [reflexivity|].
  destruct (Ascii.eqb_spec c DOUBLE_QUOTE) as [->|H2]; [reflexivity|].
  destruct (Ascii.eqb_spec c NEWLINE) as [->|H3]; [reflexivity|].
  destruct (Ascii.eqb_spec c CARRIAGE_RETURN) as [->|H4]; [reflexivity|].
  destruct (Ascii.eqb_spec c TAB) as [->|H5]; [reflexivity|].
  apply Ascii.eqb_neq in H1, H2, H3, H4, H5.
  unfold ofChar. cbn [replaceAll]. rewrite H1. cbn [replaceAll]. rewrite H2.
  cbn [replaceAll]. rewrite H3. cbn [replaceAll]. rewrite H4.
  cbn [replaceAll]. rewrite H5. reflexivity.
Qed.

Lemma escapeString_chars s : escapeString s = escapeChars s.
Proof.
  induction s as [|c r IH]; [reflexivity|].
  rewrite escapeString_cons, IH. reflexivity.
Qed.

Lemma unescape_escapeChars s : unescapeString (escapeChars s) = Return s.
Proof.
  induction s as [|c r IH]; [reflexivity|].
  cbn [escapeChars]. unfold escapeChar, ofChar.
  destruct (Ascii.eqb_spec c BACKSLASH) as [->|H1];
    [rewrite !append_cons, append_nil; cbn; now rewrite IH|].
  destruct (Ascii.eqb_spec c DOUBLE_QUOTE) as [->|H2];
    [rewrite !append_cons, append_nil; cbn; now rewrite IH|].
  destruct (Ascii.eqb_spec c NEWLINE) as [->|H3];
    [rewrite !append_cons, append_nil; cbn; now rewrite IH|].
  destruct (Ascii.eqb_spec c CARRIAGE_RETURN) as [->|H4];
    [rewrite !append_cons, append_nil; cbn; now rewrite IH|].
  destruct (Ascii.eqb_spec c TAB) as [->|H5];
    [rewrite !append_cons, append_nil; cbn; now rewrite IH|].
  apply Ascii.eqb_neq in H1. rewrite append_cons, append_nil.
  cbn [unescapeString]. now rewrite H1, IH.
Qed.

Lemma scanClosingQuote_plain c y t i :
  Ascii.eqb c BACKSLASH = false -> Ascii.eqb c DOUBLE_QUOTE = false ->
  scanClosingQuote (String c (String y t)) i = scanClosingQuote (String y t) (i + 1).
Proof.
  intros H1 H2. change (scanClosingQuote (String c (String y t)) i)
    with (if Ascii.eqb c BACKSLASH then scanClosingQuote t (i + 2)
          else if Ascii.eqb c DOUBLE_QUOTE then i
          else scanClosingQuote (String y t) (i + 1)).
  now rewrite H1, H2.
Qed.

Lemma scan_escapeChars s : forall i,
  scanClosingQuote (escapeChars s ++ ofChar DOUBLE_QUOTE)%string i
  = i + len (escapeChars s).
Proof.
  unfold len. induction s as [|c r IH]; intros i.
  - cbn [escapeChars]. rewrite append_nil. cbn. lia.
  - cbn [escapeChars]. unfold escapeChar.
    assert (Hesc : forall x,
      scanClosingQuote
        ((String BACKSLASH (ofChar x) ++ escapeChars r) ++ ofChar DOUBLE_QUOTE)%string i
      = i + Z.of_nat (String.length (String BACKSLASH (ofChar x) ++ escapeChars r)%string)).
    { intros x. unfold ofChar at 1 3. rewrite !append_cons, !append_nil.
      cbn [scanClosingQuote]. rewrite Ascii.eqb_refl, IH. cbn [String.length]. lia. }
    destruct (Ascii.eqb_spec c BACKSLASH) as [->|H1]; [apply Hesc|].
    destruct (Ascii.eqb_spec c DOUBLE_QUOTE) as [->|H2]; [apply Hesc|].
    destruct (Ascii.eqb_spec c NEWLINE) as [->|H3]; [apply (Hesc "n"%char)|].
    destruct (Ascii.eqb_spec c CARRIAGE_RETURN) as [->|H4]; [apply (Hesc "r"%char)|].
    destruct (Ascii.eqb_spec c TAB) as [->|H5]; [apply (Hesc "t"%char)|].
    apply Ascii.eqb_neq in H1, H2.
    replace (String.length (ofChar c ++ escapeChars r)%string)
      with (S (String.length (escapeChars r))) by reflexivity.
    change ((ofChar c ++ escapeChars r) ++ ofChar DOUBLE_QUOTE)%string
      with (String c (escapeChars r ++ ofChar DOUBLE_QUOTE)%string).
    specialize (IH (i + 1)).
    destruct (escapeChars r ++ ofChar DOUBLE_QUOTE)%string as [|y t] eqn:E.
    { destruct (escapeChars r); discriminate. }
    rewrite scanClosingQuote_plain by assumption. rewrite IH. lia.
Qed.

Lemma take_append e t : take (String.length e) (e ++ t)%string = e.
Proof.
  induction e as [|c r IH]; [now destruct t|].
  rewrite append_cons. cbn [String.length take]. now rewrite IH.
Qed.

Lemma trimEnd_last s c : isWhite c = false -> trimEnd (s ++ ofChar c)%string = (s ++ ofChar c)%string.
Proof.
  intros Hc. induction s as [|x r IH].
  - rewrite append_nil. cbn. now rewrite Hc.
  - rewrite append_cons. cbn [trimEnd]. rewrite IH.
    destruct (r ++ ofChar c)%string eqn:E; [|reflexivity].
    destruct r; discriminate.
Qed.

Lemma trim_quoted e : trim (quoted e) = quoted e.
Proof.
  unfold trim, quoted. cbn [trimStart].
  change (isWhite DOUBLE_QUOTE) with false. cbv iota.
  change (String DOUBLE_QUOTE (e ++ ofChar DOUBLE_QUOTE))
    with ((String DOUBLE_QUOTE e) ++ ofChar DOUBLE_QUOTE)%string.
  now apply trimEnd_last.
Qed.

Lemma startsWith_nil s : startsWith s EmptyString = true.
Proof. now destruct s. Qed.

Lemma parseStringLiteral_quoted s :
  parseStringLiteral (quoted (escapeString s)) = Return s.
Proof.
  rewrite escapeString_chars. unfold parseStringLiteral. rewrite trim_quoted.
  set (e := escapeChars s).
  assert (Hclose : findClosingQuote (quoted e) 0 = 1 + len e).
  { unfold findClosingQuote, quoted. simpl. apply scan_escapeChars. }
  assert (Hlen : len (quoted e) = len e + 2).
  { unfold len, quoted. cbn [String.length]. rewrite length_append. simpl. lia. }
  unfold quoted at 1. cbn [startsWith ofChar].
  rewrite Ascii.eqb_refl, startsWith_nil. cbn [andb].
  rewrite Hclose, Hlen.
  assert (He : 0 <= len e) by (unfold len; lia).
  destruct (Z.eqb_spec (1 + len e) (-1)); [lia|].
  destruct (Z.eqb_spec (1 + len e) (len e + 2 - 1)); [|lia]. cbn [negb].
  unfold slice, clampIndex. rewrite Hlen.
  destruct (Z.ltb_spec 1 0); [lia|]. destruct (Z.ltb_spec (1 + len e) 0); [lia|].
  rewrite !Z.min_l by lia.
  replace (Z.to_nat (1 + len e - 1)) with (String.length e) by (unfold len; lia).
  unfold quoted. simpl drop. rewrite take_append. apply unescape_escapeChars.
Qed.

(** Every quoted and escaped string is read back as the string it was. *)
Lemma parsePrimitiveToken_quoted s :
  parsePrimitiveToken (quoted (escapeString s)) = Return (VStr s).
Proof.
  unfold parsePrimitiveToken. rewrite trim_quoted.
  unfold quoted at 1 2. cbn [isEmpty startsWith ofChar].
  rewrite Ascii.eqb_refl, startsWith_nil. cbn [andb].
  now rewrite parseStringLiteral_quoted.
Qed.

Lemma startsWith_includes s c : startsWith s (ofChar c) = true -> includes s c = true.
Proof.
  destruct s as [|x r]; [discriminate|].
  unfold ofChar, includes. cbn [startsWith find].
  rewrite startsWith_nil, andb_true_r, Ascii.eqb_sym. now intros ->.
Qed.

(** A string that is written bare is read back as itself unless the parser
    takes it for a number. *)
Lemma parsePrimitiveToken_bare s delimiter :
  isSafeUnquoted s delimiter = true ->
  parsePrimitiveToken s
  = Return (if isNumericLiteral s then VNum (Number s) else VStr s).
Proof.
  unfold isSafeUnquoted, parsePrimitiveToken.
  destruct (isEmpty s) eqn:E0; [discriminate|].
  destruct (String.eqb_spec s (trim s)) as [Ht|]; [|discriminate]. cbn [negb].
  rewrite <- Ht, E0.
  destruct (isBooleanOrNullLiteral s) eqn:Eb; [discriminate|]. cbn [orb].
  destruct (isNumericLike s); [discriminate|].
  destruct (includes s ":"); [discriminate|].
  destruct (includes s DOUBLE_QUOTE) eqn:Eq; [discriminate|]. cbn [orb].
  destruct (startsWith s (ofChar DOUBLE_QUOTE)) eqn:Es.
  { apply startsWith_includes in Es. congruence. }
  intros _. now destruct (isNumericLiteral s).
Qed.

(** * Further properties of the code

    ** string-utils.ts: escaping *)

(** X1. Unescaping undoes escaping: for every string, [unescapeString]
    returns the string that [escapeString] was given, and throws nothing. *)
Theorem unescapeString_escapeString (s : string) :
  unescapeString (escapeString s) = Return s.
Proof. rewrite escapeString_chars. apply unescape_escapeChars. Qed.

Lemma scan_escapeChars_rest s rest : forall i,
  scanClosingQuote (escapeChars s ++ String DOUBLE_QUOTE rest)%string i
  = i + len (escapeChars s).
Proof.
  unfold len. induction s as [|c r IH]; intros i.
  - cbn [escapeChars]. rewrite append_nil. destruct rest; cbn; lia.
  - cbn [escapeChars]. unfold escapeChar.
    assert (Hesc : forall x,
      scanClosingQuote
        ((String BACKSLASH (ofChar x) ++ escapeChars r) ++ String DOUBLE_QUOTE rest)%string i
      = i + Z.of_nat (String.length (String BACKSLASH (ofChar x) ++ escapeChars r)%string)).
    { intros x. unfold ofChar. rewrite !append_cons, !append_nil.
      cbn [scanClosingQuote]. rewrite Ascii.eqb_refl, IH. cbn [String.length]. lia. }
    destruct (Ascii.eqb_spec c BACKSLASH) as [->|H1]; [apply Hesc|].
    destruct (Ascii.eqb_spec c DOUBLE_QUOTE) as [->|H2]; [apply Hesc|].
    destruct (Ascii.eqb_spec c NEWLINE) as [->|H3]; [apply (Hesc "n"%char)|].
    destruct (Ascii.eqb_spec c CARRIAGE_RETURN) as [->|H4]; [apply (Hesc "r"%char)|].
    destruct (Ascii.eqb_spec c TAB) as [->|H5]; [apply (Hesc "t"%char)|].
    apply Ascii.eqb_neq in H1, H2.
    replace (String.length (ofChar c ++ escapeChars r)%string)
      with (S (String.length (escapeChars r))) by reflexivity.
    change ((ofChar c ++ escapeChars r) ++ String DOUBLE_QUOTE rest)%string
      with (String c (escapeChars r ++ String DOUBLE_QUOTE rest)%string).
    specialize (IH (i + 1)).
    destruct (escapeChars r ++ String DOUBLE_QUOTE rest)%string as [|y t] eqn:E.
    { destruct (escapeChars r); discriminate. }
    rewrite scanClosingQuote_plain by assumption. rewrite IH. lia.
Qed.

Lemma quoted_append e rest :
  (quoted e ++ rest)%string = String DOUBLE_QUOTE (e ++ String DOUBLE_QUOTE rest)%string.
Proof.
  unfold quoted, ofChar. rewrite append_cons, append_assoc, append_cons, append_nil.
  reflexivity.
Qed.

Lemma length_quoted e : String.length (quoted e) = S (S (String.length e)).
Proof.
  unfold quoted, ofChar. cbn [String.length]. rewrite length_append. cbn [String.length]. lia.
Qed.

(** X2. The closing quote of a quoted and escaped string is found where the
    emitter wrote it, whatever text follows: no quote inside the escaped
    text is taken for it. *)
Theorem findClosingQuote_quoted (s rest : string) :
  findClosingQuote (quoted (escapeString s) ++ rest)%string 0
  = len (escapeString s) + 1.
Proof.
  rewrite escapeString_chars, quoted_append. unfold findClosingQuote.
  change (Z.to_nat (0 + 1)) with 1%nat. cbn [drop].
  rewrite scan_escapeChars_rest. lia.
Qed.

(** X3. A string value written by [encodeStringLiteral] is read back by
    [parsePrimitiveToken] as the same string exactly when it is not both
    written bare and taken for a number by [isNumericLiteral]. *)
Theorem encodeStringLiteral_read_back (s : string) (delimiter : Delimiter) :
  parsePrimitiveToken (encodeStringLiteral s delimiter) = Return (VStr s)
  <-> isSafeUnquoted s delimiter && isNumericLiteral s = false.
Proof.
  unfold encodeStringLiteral. destruct (isSafeUnquoted s delimiter) eqn:E.
  - rewrite (parsePrimitiveToken_bare s delimiter E). cbn [andb].
    destruct (isNumericLiteral s); split; intros H; try reflexivity; discriminate.
  - rewrite parsePrimitiveToken_quoted. cbn [andb]. split; reflexivity.
Qed.

(** ** Keys *)

Lemma allChars_impl (p q : ascii -> bool) s :
  (forall c, p c = true -> q c = true) -> allChars p s = true -> allChars q s = true.
Proof.
  intros Hpq. induction s as [|c r IH]; [reflexivity|]. cbn [allChars].
  rewrite !andb_true_iff. intros [Hc Hr]. split; [now apply Hpq|now apply IH].
Qed.

Lemma find_absent (p : ascii -> bool) c s :
  allChars p s = true -> p c = false -> find c s = None.
Proof.
  intros Hs Hc. induction s as [|x r IH]; [reflexivity|].
  cbn [allChars] in Hs. apply andb_true_iff in Hs. destruct Hs as [Hx Hr].
  cbn [find]. destruct (Ascii.eqb_spec x c) as [->|_]; [congruence|].
  now rewrite IH.
Qed.

Lemma find_append c k rest :
  find c k = None -> find c (k ++ String c rest)%string = Some (String.length k).
Proof.
  induction k as [|x r IH]; intros H.
  - rewrite append_nil. cbn. now rewrite Ascii.eqb_refl.
  - rewrite append_cons. cbn [find] in *. destruct (Ascii.eqb x c); [discriminate|].
    destruct (find c r); [discriminate|]. now rewrite IH.
Qed.

Lemma trimEnd_noWhite s :
  allChars (fun c => negb (isWhite c)) s = true -> trimEnd s = s.
Proof.
  induction s as [|c r IH]; [reflexivity|]. cbn [allChars].
  rewrite andb_true_iff, negb_true_iff. intros [Hc Hr].
  cbn [trimEnd]. rewrite (IH Hr). destruct r; [now rewrite Hc|reflexivity].
Qed.

Lemma trim_noWhite s :
  allChars (fun c => negb (isWhite c)) s = true -> trim s = s.
Proof.
  intros H. unfold trim.
  replace (trimStart s) with s; [now apply trimEnd_noWhite|].
  destruct s as [|c r]; [reflexivity|]. cbn [allChars] in H.
  apply andb_true_iff in H. destruct H as [Hc _]. apply negb_true_iff in Hc.
  cbn [trimStart]. now rewrite Hc.
Qed.

Lemma slice_prefix k t : slice (k ++ t)%string 0 (len k) = k.
Proof.
  unfold slice, clampIndex, len. rewrite length_append.
  destruct (Z.ltb_spec 0 0); [lia|].
  destruct (Z.ltb_spec (Z.of_nat (String.length k)) 0); [lia|].
  rewrite !Z.min_l by lia. rewrite Z.sub_0_r, Nat2Z.id. cbn [Z.to_nat drop].
  apply take_append.
Qed.

Lemma get_append a c r : String.get (String.length a) (a ++ String c r)%string = Some c.
Proof. induction a as [|x a IH]; [reflexivity|]. rewrite append_cons. exact IH. Qed.

Lemma isKeyChar_plain c :
  isKeyChar c = true ->
  Ascii.eqb c COLON = false /\ isWhite c = false /\ Ascii.eqb c DOUBLE_QUOTE = false
  /\ Ascii.eqb c OPEN_BRACKET = false.
Proof.
  destruct c as [[] [] [] [] [] [] [] []]; vm_compute; intros H;
    try discriminate; repeat split.
Qed.

Lemma isValidUnquotedKey_chars key :
  isValidUnquotedKey key = true -> allChars isKeyChar key = true /\ key <> EmptyString.
Proof.
  destruct key as [|c r]; [discriminate|]. cbn [isValidUnquotedKey allChars].
  rewrite andb_true_iff. intros [Hc Hr]. split; [|discriminate].
  rewrite Hr, andb_true_r. unfold isKeyChar.
  apply orb_true_iff in Hc. destruct Hc as [-> | ->]; [reflexivity|].
  now rewrite !orb_true_r.
Qed.

Lemma findClosingQuote_written e rest :
  findClosingQuote (quoted (escapeChars e) ++ rest)%string 0 = len (escapeChars e) + 1.
Proof.
  rewrite quoted_append. unfold findClosingQuote.
  change (Z.to_nat (0 + 1)) with 1%nat. cbn [drop].
  rewrite scan_escapeChars_rest. lia.
Qed.

Lemma parseKeyToken_written (key rest : string) :
  parseKeyToken (encodeKey key ++ String COLON rest)%string 0
  = Return (key, len (encodeKey key) + 1).
Proof.
  unfold encodeKey. destruct (isValidUnquotedKey key) eqn:Ev.
  - apply isValidUnquotedKey_chars in Ev. destruct Ev as [Hk Hne].
    assert (Hq : charIs (key ++ String COLON rest)%string 0 DOUBLE_QUOTE = false).
    { destruct key as [|c r]; [congruence|]. cbn [allChars] in Hk.
      apply andb_true_iff in Hk. destruct Hk as [Hc _].
      apply isKeyChar_plain in Hc. rewrite append_cons. unfold charIs, charAt. cbn.
      tauto. }
    unfold parseKeyToken. rewrite Hq. unfold parseUnquotedKey.
    change (indexOfFrom (key ++ String COLON rest)%string COLON 0)
      with (indexOf (key ++ String COLON rest)%string COLON).
    rewrite indexOf_find, find_append
      by (apply (find_absent isKeyChar); [exact Hk|reflexivity]).
    fold (len key).
    destruct (Z.eqb_spec (len key) (-1)); [unfold len in *; lia|].
    rewrite slice_prefix, trim_noWhite; [reflexivity|].
    apply (allChars_impl isKeyChar); [|exact Hk].
    intros c Hc. apply isKeyChar_plain in Hc. apply negb_true_iff. tauto.
  - rewrite escapeString_chars. set (e := escapeChars key).
    assert (Hclose : findClosingQuote (quoted e ++ String COLON rest)%string 0 = len e + 1)
      by apply findClosingQuote_written.
    unfold parseKeyToken.
    assert (Hq : charIs (quoted e ++ String COLON rest)%string 0 DOUBLE_QUOTE = true)
      by (rewrite quoted_append; reflexivity).
    rewrite Hq. unfold parseQuotedKey. rewrite Hclose.
    assert (He : 0 <= len e) by (unfold len; lia).
    destruct (Z.eqb_spec (len e + 1) (-1)); [lia|].
    assert (Hs : slice (quoted e ++ String COLON rest)%string (0 + 1) (len e + 1) = e).
    { rewrite quoted_append. unfold slice, clampIndex, len in *. cbn [String.length].
      rewrite length_append. cbn [String.length].
      destruct (Z.ltb_spec (0 + 1) 0); [lia|].
      destruct (Z.ltb_spec (Z.of_nat (String.length e) + 1) 0); [lia|].
      rewrite !Z.min_l by lia.
      replace (Z.to_nat (Z.of_nat (String.length e) + 1 - (0 + 1))) with (String.length e)
        by lia.
      change (Z.to_nat (0 + 1)) with 1%nat. cbn [drop]. apply take_append. }
    rewrite Hs. unfold e at 1. rewrite unescape_escapeChars. cbn [bind].
    assert (Hlen : len (quoted e ++ String COLON rest)%string = len e + 3 + len rest).
    { rewrite quoted_append. unfold len. cbn [String.length]. rewrite length_append.
      cbn [String.length]. lia. }
    rewrite Hlen.
    destruct (Z.leb_spec (len e + 3 + len rest) (len e + 1 + 1)); [unfold len in *; lia|].
    assert (Hc : charIs (quoted e ++ String COLON rest)%string (len e + 1 + 1) COLON = true).
    { unfold charIs, charAt. destruct (Z.ltb_spec (len e + 1 + 1) 0); [lia|].
      replace (Z.to_nat (len e + 1 + 1)) with (String.length (quoted e))
        by (rewrite length_quoted; unfold len; lia).
      rewrite get_append. apply Ascii.eqb_refl. }
    rewrite Hc. cbn [negb orb].
    replace (len (quoted e)) with (len e + 2); [f_equal; f_equal; lia|].
    unfold len. rewrite length_quoted. lia.
Qed.

(** ** normalize.ts: what normalization returns *)




(** An assignment keeps an object in the JSON data model. *)
Lemma jsonTree_own ok obj :
  built obj -> jsonTree ok obj = true ->
  Forall (fun kv => jsonTree ok (snd kv) = true) (ownProps obj).
Proof.
  destruct obj; try contradiction; intros _ H; cbn [jsonTree ownProps] in *.
  - apply List.Forall_forall. now apply forallb_forall.
  - apply andb_prop in H. destruct H as [_ H].
    apply List.Forall_forall. now apply forallb_forall.
Qed.

Lemma jsonTree_setPrototypeOf ok obj v :
  built obj -> jsonTree ok obj = true -> jsonTree ok v = true ->
  jsonTree ok (setPrototypeOf obj v) = true.
Proof.
  intros Hb Ho Hv. pose proof (jsonTree_own ok obj Hb Ho) as Hown.
  assert (Hp : forallb (fun kv => jsonTree ok (snd kv)) (ownProps obj) = true).
  { apply forallb_forall. now apply List.Forall_forall. }
  unfold setPrototypeOf. destruct v; try exact Ho; cbn [isObjectOrNull jsonTree];
    try (rewrite Hp; cbn [jsonTree] in Hv; now rewrite ?Hv).
  destruct isObject; [discriminate|exact Ho].
Qed.

Lemma jsonTree_assign ok obj k v :
  built obj -> jsonTree ok obj = true -> jsonTree ok v = true ->
  jsonTree ok (assign obj k v) = true.
Proof.
  intros Hb Ho Hv. pose proof (jsonTree_own ok obj Hb Ho) as Hown.
  assert (Hd : forallb (fun kv => jsonTree ok (snd kv))
                 (JsObject.define (ownProps obj) k v) = true).
  { apply forallb_forall. apply List.Forall_forall.
    now apply (Forall_values_define (fun x => jsonTree ok x = true)). }
  destruct obj; try contradiction; unfold assign;
    (destruct (_ && _); [now apply jsonTree_setPrototypeOf|]);
    cbn [jsonTree ownProps] in *; [exact Hd|].
  apply andb_prop in Ho. destruct Ho as [Hp _]. now rewrite Hp, Hd.
Qed.



(** ** decode.ts: the outcomes of [deserialize] *)

Section DecoderErrors.
Variable strict : bool.
Let P := decoderError strict.

Lemma unescapeString_errors s : throwsOnly P (unescapeString s).
Proof.
  remember (String.length s) as n eqn:Hn.
  revert s Hn. induction n as [n IH] using lt_wf_ind. intros s Hn.
  destruct s as [|c r]; simpl; [throws|].
  destruct (Ascii.eqb c BACKSLASH).
  - destruct r as [|next r']; [throws|].
    assert (H : throwsOnly P (unescapeString r')).
    { apply (IH (String.length r')); [subst n; simpl; lia|reflexivity]. }
    throws.
  - assert (H : throwsOnly P (unescapeString r)).
    { apply (IH (String.length r)); [subst n; simpl; lia|reflexivity]. }
    throws.
Qed.

Lemma parseStringLiteral_errors s : throwsOnly P (parseStringLiteral s).
Proof. unfold parseStringLiteral. pose proof unescapeString_errors. throws. Qed.

Lemma parsePrimitiveToken_errors s : throwsOnly P (parsePrimitiveToken s).
Proof. unfold parsePrimitiveToken. pose proof parseStringLiteral_errors. throws. Qed.

Lemma parseArrayHeaderLine_errors s d : throwsOnly P (parseArrayHeaderLine s d).
Proof. unfold parseArrayHeaderLine. pose proof parseStringLiteral_errors. throws. Qed.

Lemma parseKeyToken_errors s i : throwsOnly P (parseKeyToken s i).
Proof.
  unfold parseKeyToken, parseQuotedKey, parseUnquotedKey.
  pose proof unescapeString_errors. throws.
Qed.

Variable lines : list ParsedLine.
Variable options : DecodeOptions.
Hypothesis Hstrict : dec_strict options = strict.

Lemma assertExpectedCount_errors a e k : throwsOnly P (assertExpectedCount a e k options).
Proof.
  unfold assertExpectedCount.
  destruct (dec_strict options && negb (a =? e)) eqn:E; [|throws].
  apply throwsOnly_Throw. subst P. simpl. rewrite <- Hstrict.
  apply andb_true_iff in E. tauto.
Qed.

Lemma decodeInlinePrimitiveArray_errors hdr iv :
  throwsOnly P (decodeInlinePrimitiveArray options hdr iv).
Proof.
  unfold decodeInlinePrimitiveArray, mapRowValuesToPrimitives.
  pose proof assertExpectedCount_errors. pose proof parsePrimitiveToken_errors. throws.
Qed.

Lemma tabularRows_errors hdr fields rowDepth rest :
  forall cursor objects,
    throwsOnly P (tabularRows options hdr fields rowDepth rest cursor objects).
Proof.
  pose proof assertExpectedCount_errors. pose proof parsePrimitiveToken_errors.
  induction rest as [|line rest IH]; intros cursor objects; simpl; [throws|].
  unfold mapRowValuesToPrimitives. throws.
Qed.

Lemma decodeTabularArray_errors hdr cursor baseDepth :
  throwsOnly P (decodeTabularArray lines options hdr cursor baseDepth).
Proof.
  unfold decodeTabularArray.
  pose proof assertExpectedCount_errors. pose proof tabularRows_errors. throws.
Qed.

(** [decodeListItem] is only called on a line that [peek] has shown:
    its [ReferenceError] is never thrown. *)
Lemma decoder_errors fuel :
  (forall content cursor baseDepth,
      throwsOnly P (decodeKeyValue lines options fuel content cursor baseDepth))
  /\ (forall cursor baseDepth obj,
         throwsOnly P (decodeObject lines options fuel cursor baseDepth obj))
  /\ (forall hdr inlineValues cursor baseDepth,
         throwsOnly P (decodeArrayFromHeader lines options fuel hdr inlineValues
                         cursor baseDepth))
  /\ (forall hdr cursor baseDepth items,
         throwsOnly P (decodeListArray lines options fuel hdr cursor baseDepth items))
  /\ (forall cursor baseDepth d,
         peek lines cursor <> None ->
         throwsOnly P (decodeListItem lines options fuel cursor baseDepth d))
  /\ (forall firstLine cursor baseDepth,
         throwsOnly P (decodeObjectFromListItem lines options fuel firstLine
                         cursor baseDepth))
  /\ (forall cursor followDepth obj,
         throwsOnly P (decodeListItemFields lines options fuel cursor followDepth obj)).
Proof.
  pose proof assertExpectedCount_errors. pose proof parsePrimitiveToken_errors.
  pose proof parseArrayHeaderLine_errors. pose proof parseKeyToken_errors.
  pose proof decodeInlinePrimitiveArray_errors. pose proof decodeTabularArray_errors.
  induction fuel as [|fuel (IH1 & IH2 & IH3 & IH4 & IH5 & IH6 & IH7)].
  - repeat split; intros; simpl; throws.
  - repeat split; intros.
    + rewrite decodeKeyValue_S. unfold decodeKeyValue_body. throws.
    + rewrite decodeObject_S. unfold decodeObject_body. throws.
    + rewrite decodeArrayFromHeader_S. unfold decodeArrayFromHeader_body. throws.
    + rewrite decodeListArray_S. unfold decodeListArray_body. throws.
      apply IH5. congruence.
    + rewrite decodeListItem_S. unfold decodeListItem_body.
      destruct (peek lines cursor) as [line|] eqn:E; [|congruence]. throws.
    + rewrite decodeObjectFromListItem_S. unfold decodeObjectFromListItem_body. throws.
    + rewrite decodeListItemFields_S. unfold decodeListItemFields_body. throws.
Qed.

Lemma decodeValueFromLines_errors fuel :
  lines <> [] -> throwsOnly P (decodeValueFromLines lines options fuel).
Proof.
  intros Hne. destruct (decoder_errors fuel) as (IH1 & IH2 & IH3 & _).
  pose proof parsePrimitiveToken_errors. pose proof parseArrayHeaderLine_errors.
  unfold decodeValueFromLines.
  destruct (peek lines 0) as [first|] eqn:E.
  - throws.
  - unfold peek in E. destruct lines; [congruence|discriminate].
Qed.
End DecoderErrors.

Lemma scanLines_errors strict todo :
  forall n indentSize parsed blank,
    throwsOnly (decoderError strict) (scanLines todo n indentSize strict parsed blank).
Proof.
  induction todo as [|raw rest IH]; intros; simpl; throws.
Qed.

(** X6. [deserialize] ends on every input and in both modes: it returns a
    value or throws the empty-input error, a syntax error or, in strict mode
    only, a count mismatch.  The [ReferenceError] of [decodeValueFromLines]
    and [decodeListItem] and the [TypeError] of [parseBracketSegment] never
    leave it. *)
Theorem deserialize_outcome (s : string) (strict : option bool) :
  match deserialize s strict with
  | Return _ => True
  | Throw e => deserializeError (resolveStrict strict) e
  | Exhausted => False
  end.
Proof.
  pose proof (deserialize_finishes s strict) as Hf.
  destruct (deserialize s strict) as [v|e|] eqn:E; [exact I| |exact Hf].
  revert E. unfold deserialize, toParsedLines. cbn [dec_indent dec_strict].
  fold (resolveStrict strict). set (st := resolveStrict strict).
  destruct (isEmpty (trim s)); simpl; [intros H; inversion H; exact I|].
  destruct (scanLines _ _ _ _ _ _) as [[p b]|e'|] eqn:Es; simpl.
  - destruct p as [|l p]; [intros H; inversion H; exact I|].
    intros H.
    apply (decodeValueFromLines_errors st (l :: p)
             {| dec_indent := DEFAULT_INDENT_SIZE; dec_strict := st |} eq_refl) in H;
      [|discriminate].
    destruct e; simpl in *; tauto.
  - intros H. inversion H; subst. apply (scanLines_errors st) in Es.
    destruct e; simpl in *; tauto.
  - discriminate.
Qed.

(** ** decode.ts: the values [deserialize] returns *)

Lemma returnsOnly_Return {A} (Q : A -> Prop) a : Q a -> returnsOnly Q (Return a).
Proof. intros H b Hb. now inversion Hb; subst. Qed.

Lemma returnsOnly_Throw {A} (Q : A -> Prop) e : returnsOnly Q (Throw e).
Proof. intros b Hb. discriminate. Qed.

Lemma returnsOnly_Exhausted {A} (Q : A -> Prop) : returnsOnly Q Exhausted.
Proof. intros b Hb. discriminate. Qed.

Lemma returnsOnly_mapM {A B} (Q : B -> Prop) (f : A -> outcome B) l :
  (forall x, returnsOnly Q (f x)) -> returnsOnly (Forall Q) (mapM f l).
Proof.
  intros Hf. induction l as [|x r IH]; simpl; [apply returnsOnly_Return; constructor|].
  intros ys H. destruct (f x) as [y| |] eqn:Ey; try discriminate. cbn [bind] in H.
  destruct (mapM f r) as [ys'| |] eqn:Er; try discriminate. cbn [bind] in H.
  inversion H; subst. constructor; [now apply (Hf x)|now apply IH].
Qed.

Lemma mapM_length {A B} (f : A -> outcome B) l :
  returnsOnly (fun r => List.length r = List.length l) (mapM f l).
Proof.
  induction l as [|x r IH]; simpl; [now apply returnsOnly_Return|].
  intros ys H. destruct (f x) as [y| |]; try discriminate. cbn [bind] in H.
  destruct (mapM f r) as [ys'| |] eqn:Er; try discriminate. cbn [bind] in H.
  inversion H; subst. simpl. f_equal. now apply IH.
Qed.

(** Splits a goal [returnsOnly Q m] along the shape of [m], keeping the
    equation of each computation that [m] runs first. *)
Ltac returns_step :=
  match goal with
  | |- returnsOnly _ (Return _) => apply returnsOnly_Return
  | |- returnsOnly _ Exhausted => apply returnsOnly_Exhausted
  | |- returnsOnly _ (Throw _) => apply returnsOnly_Throw
  | |- returnsOnly _ (if ?b then _ else _) => destruct b eqn:?
  | |- returnsOnly _ (match ?x with _ => _ end) => destruct x eqn:?
  | |- returnsOnly _ (let _ := _ in _) => cbv zeta
  | |- returnsOnly _ (bind ?m _) => destruct m eqn:?; cbn [bind]
  end.

Ltac returns := repeat returns_step.

Lemma json_VObj o : allValues (fun v => isJsonValue v = true) o -> isJsonValue (VObj o) = true.
Proof.
  intros H. unfold isJsonValue. cbn [jsonTree]. apply forallb_forall.
  apply List.Forall_forall. exact H.
Qed.

Lemma json_VArr l : Forall (fun v => isJsonValue v = true) l -> isJsonValue (VArr l) = true.
Proof.
  intros H. unfold isJsonValue. cbn [jsonTree]. apply forallb_forall.
  apply List.Forall_forall. exact H.
Qed.

Lemma parsePrimitiveToken_json s :
  returnsOnly (fun v => isJsonValue v = true) (parsePrimitiveToken s).
Proof.
  unfold parsePrimitiveToken. returns; try reflexivity.
  unfold isNumericLiteral in *. unfold isJsonValue. cbn [jsonTree].
  repeat match goal with
         | H : (if ?b then _ else _) = true |- _ => destruct b; [discriminate|]
         end.
  match goal with H : _ && _ = true |- _ => apply andb_true_iff in H; tauto end.
Qed.

Lemma builtJson_empty : builtJson (VObj []).
Proof. now split. Qed.

Lemma builtJson_assign obj k v :
  builtJson obj -> isJsonValue v = true -> builtJson (assign obj k v).
Proof.
  intros [Hb Ho] Hv. split; [now apply assign_built|now apply jsonTree_assign].
Qed.

Lemma builtJson_first k v : isJsonValue v = true -> builtJson (VObj (JsObject.define [] k v)).
Proof.
  intros Hv. split; [exact I|]. apply json_VObj.
  apply Forall_values_define; [constructor|exact Hv].
Qed.

Lemma bindFields_json fields : forall primitives obj,
  (List.length fields <= List.length primitives)%nat ->
  Forall (fun v => isJsonValue v = true) primitives ->
  builtJson obj -> builtJson (bindFields fields primitives obj).
Proof.
  induction fields as [|f fs IH]; intros primitives obj Hl Hp Ho; [exact Ho|].
  destruct primitives as [|p ps]; [simpl in Hl; lia|].
  inversion Hp; subst. cbn [bindFields tl]. apply IH; [simpl in Hl; lia|assumption|].
  now apply builtJson_assign.
Qed.

Section StrictValues.
Variable lines : list ParsedLine.
Variable options : DecodeOptions.
Hypothesis Hstrict : dec_strict options = true.
Let json (v : jsval) : Prop := isJsonValue v = true.

Lemma decodeInlinePrimitiveArray_json hdr iv :
  returnsOnly (Forall json) (decodeInlinePrimitiveArray options hdr iv).
Proof.
  unfold decodeInlinePrimitiveArray, mapRowValuesToPrimitives. returns; [constructor|].
  eapply (returnsOnly_mapM json); [apply parsePrimitiveToken_json|eassumption].
Qed.

Lemma tabularRows_json hdr fields rowDepth rest : forall cursor objects,
  Forall json objects ->
  returnsOnly (fun r => Forall json (fst r))
    (tabularRows options hdr fields rowDepth rest cursor objects).
Proof.
  induction rest as [|line rest IH]; intros cursor objects Ho; simpl;
    [now apply returnsOnly_Return|].
  returns; try exact Ho.
  apply IH. apply List.Forall_app. split; [exact Ho|]. repeat constructor.
  match goal with
  | Ha : assertExpectedCount _ _ _ _ = Return ?u, Hm : mapRowValuesToPrimitives _ = Return _
    |- _ => destruct u; apply assertExpectedCount_Return in Ha; [|exact Hstrict];
            pose proof (mapM_length _ _ _ Hm) as Hlen;
            pose proof (returnsOnly_mapM json _ _ parsePrimitiveToken_json _ Hm) as Hjs
  end.
  cbv beta in Hlen. apply bindFields_json; [lia|exact Hjs|exact builtJson_empty].
Qed.

Lemma decodeTabularArray_json hdr cursor baseDepth :
  returnsOnly (fun r => Forall json (fst r))
    (decodeTabularArray lines options hdr cursor baseDepth).
Proof.
  unfold decodeTabularArray. returns.
  eapply (tabularRows_json); [|eassumption]. constructor.
Qed.

Lemma decoder_json fuel :
  (forall content cursor baseDepth,
      returnsOnly (fun r => json (kv_value (fst r)))
        (decodeKeyValue lines options fuel content cursor baseDepth))
  /\ (forall cursor baseDepth obj,
         builtJson obj ->
         returnsOnly (fun r => builtJson (fst r))
           (decodeObject lines options fuel cursor baseDepth obj))
  /\ (forall hdr inlineValues cursor baseDepth,
         returnsOnly (fun r => Forall json (fst r))
           (decodeArrayFromHeader lines options fuel hdr inlineValues cursor baseDepth))
  /\ (forall hdr cursor baseDepth items,
         Forall json items ->
         returnsOnly (fun r => Forall json (fst r))
           (decodeListArray lines options fuel hdr cursor baseDepth items))
  /\ (forall cursor baseDepth d,
         returnsOnly (fun r => json (fst r))
           (decodeListItem lines options fuel cursor baseDepth d))
  /\ (forall firstLine cursor baseDepth,
         returnsOnly (fun r => builtJson (fst r))
           (decodeObjectFromListItem lines options fuel firstLine cursor baseDepth))
  /\ (forall cursor followDepth obj,
         builtJson obj ->
         returnsOnly (fun r => builtJson (fst r))
           (decodeListItemFields lines options fuel cursor followDepth obj)).
Proof.
  induction fuel as [|fuel (IH1 & IH2 & IH3 & IH4 & IH5 & IH6 & IH7)].
  - repeat apply conj; intros; simpl; apply returnsOnly_Exhausted.
  - repeat apply conj.
    + intros content cursor baseDepth.
      rewrite decodeKeyValue_S. unfold decodeKeyValue_body. returns; cbn [fst kv_value].
      all: try (apply json_VObj; constructor).
      all: try (apply json_VArr;
                match goal with
                | H : decodeArrayFromHeader _ _ _ _ _ _ _ = Return ?r |- _ =>
                    exact (IH3 _ _ _ _ r H)
                end).
      all: try (match goal with
                | H : decodeObject _ _ _ _ _ _ = Return ?r |- _ =>
                    exact (proj2 (IH2 _ _ _ builtJson_empty r H))
                end).
      all: match goal with
           | H : parsePrimitiveToken _ = Return ?v |- _ =>
               exact (parsePrimitiveToken_json _ v H)
           end.
    + intros cursor baseDepth obj Ho.
      rewrite decodeObject_S. unfold decodeObject_body. returns; cbn [fst]; try exact Ho.
      apply IH2. apply builtJson_assign; [exact Ho|].
      match goal with
      | H : decodeKeyValue _ _ _ _ _ _ = Return ?r |- _ => exact (IH1 _ _ _ r H)
      end.
    + intros hdr inlineValues cursor baseDepth.
      rewrite decodeArrayFromHeader_S. unfold decodeArrayFromHeader_body.
      returns; cbn [fst].
      all: try apply decodeTabularArray_json.
      all: try (apply IH4; constructor).
      all: match goal with
           | H : decodeInlinePrimitiveArray _ _ _ = Return ?r |- _ =>
               exact (decodeInlinePrimitiveArray_json _ _ r H)
           end.
    + intros hdr cursor baseDepth items Hi.
      rewrite decodeListArray_S. unfold decodeListArray_body.
      returns; cbn [fst]; try exact Hi.
      apply IH4. apply List.Forall_app. split; [exact Hi|]. repeat constructor.
      match goal with
      | H : decodeListItem _ _ _ _ _ _ = Return ?r |- _ => exact (IH5 _ _ _ r H)
      end.
    + intros cursor baseDepth d.
      rewrite decodeListItem_S. unfold decodeListItem_body. returns; cbn [fst].
      all: try (apply json_VArr;
                match goal with
                | H : decodeArrayFromHeader _ _ _ _ _ _ _ = Return ?r |- _ =>
                    exact (IH3 _ _ _ _ r H)
                end).
      all: try (match goal with
                | H : decodeObjectFromListItem _ _ _ _ _ _ = Return ?r |- _ =>
                    exact (proj2 (IH6 _ _ _ r H))
                end).
      all: match goal with
           | H : parsePrimitiveToken _ = Return ?v |- _ =>
               exact (parsePrimitiveToken_json _ v H)
           end.
    + intros firstLine cursor baseDepth.
      rewrite decodeObjectFromListItem_S. unfold decodeObjectFromListItem_body. returns.
      apply IH7. apply builtJson_first.
      match goal with
      | H : decodeKeyValue _ _ _ _ _ _ = Return ?r |- _ => exact (IH1 _ _ _ r H)
      end.
    + intros cursor followDepth obj Ho.
      rewrite decodeListItemFields_S. unfold decodeListItemFields_body.
      returns; cbn [fst]; try exact Ho.
      apply IH7. apply builtJson_assign; [exact Ho|].
      match goal with
      | H : decodeKeyValue _ _ _ _ _ _ = Return ?r |- _ => exact (IH1 _ _ _ r H)
      end.
Qed.

Lemma decodeValueFromLines_json fuel :
  returnsOnly json (decodeValueFromLines lines options fuel).
Proof.
  destruct (decoder_json fuel) as (IH1 & IH2 & IH3 & _).
  unfold decodeValueFromLines. returns.
  all: try apply parsePrimitiveToken_json.
  all: try (apply json_VArr;
            match goal with
            | H : decodeArrayFromHeader _ _ _ _ _ _ _ = Return ?r |- _ =>
                exact (IH3 _ _ _ _ r H)
            end).
  all: try (match goal with
            | H : decodeObject _ _ _ _ _ _ = Return ?r |- _ =>
                exact (proj2 (IH2 _ _ _ builtJson_empty r H))
            end).
  all: match goal with
       | H : parsePrimitiveToken _ = Return ?v |- _ =>
           exact (parsePrimitiveToken_json _ v H)
       end.
Qed.
End StrictValues.

(** X7. In strict mode every value that [deserialize] returns is a value of
    the JSON data model: [null], booleans, strings, finite numbers, arrays
    and objects.  Without strict mode a tabular row with fewer values than
    fields gives an object that holds [undefined]. *)
Theorem deserialize_strict_json (s : string) :
  match deserialize s (Some true) with
  | Return v => isJsonValue v = true
  | _ => True
  end
  /\ deserialize (document ["[1]{a,b}:"; "  x"]) None
     = Return (VArr [VObj [("a", VStr "x"); ("b", VUndefined)]]).
Proof.
  split; [|vm_compute; reflexivity].
  destruct (deserialize s (Some true)) as [v|e|] eqn:E; [|exact I|exact I].
  revert E. unfold deserialize, toParsedLines. cbn [dec_indent dec_strict].
  destruct (isEmpty (trim s)); simpl; [discriminate|].
  destruct (scanLines _ _ _ _ _ _) as [[p b]|e'|]; simpl; [|discriminate|discriminate].
  destruct p as [|l p]; [discriminate|].
  apply (decodeValueFromLines_json (l :: p)
           {| dec_indent := DEFAULT_INDENT_SIZE; dec_strict := true |} eq_refl).
Qed.

Lemma charIs_first c r x : charIs (String c r) 0 x = Ascii.eqb c x.
Proof. reflexivity. Qed.

Lemma encodeKey_first key rest :
  exists c t, (encodeKey key ++ String COLON rest)%string = String c t
              /\ isWhite c = false /\ Ascii.eqb c OPEN_BRACKET = false
              /\ (Ascii.eqb c DOUBLE_QUOTE = true <-> isValidUnquotedKey key = false).
Proof.
  unfold encodeKey. destruct (isValidUnquotedKey key) eqn:Ev.
  - destruct key as [|c r]; [discriminate|]. cbn [isValidUnquotedKey] in Ev.
    apply andb_true_iff in Ev. destruct Ev as [Hc _].
    assert (Hk : isKeyChar c = true).
    { unfold isKeyChar. apply orb_true_iff in Hc. destruct Hc as [-> | ->]; [reflexivity|].
      now rewrite !orb_true_r. }
    apply isKeyChar_plain in Hk. exists c, (r ++ String COLON rest)%string.
    rewrite append_cons. repeat split; try tauto.
    + intros H. destruct Hk as (_ & _ & Hq & _). congruence.
    + discriminate.
  - exists DOUBLE_QUOTE. eexists. rewrite quoted_append. repeat split; discriminate.
Qed.

Lemma isKeyValueLine_written key rest l :
  content l = (encodeKey key ++ String COLON rest)%string -> isKeyValueLine l = true.
Proof.
  intros Hc. unfold isKeyValueLine. rewrite Hc. unfold encodeKey.
  destruct (isValidUnquotedKey key) eqn:Ev.
  - apply isValidUnquotedKey_chars in Ev. destruct Ev as [Hk Hne].
    destruct key as [|c r]; [congruence|].
    assert (Hq : startsWith (String c r ++ String COLON rest)%string (ofChar DOUBLE_QUOTE)
                 = false).
    { cbn [allChars] in Hk. apply andb_true_iff in Hk. destruct Hk as [Hc' _].
      apply isKeyChar_plain in Hc'. rewrite append_cons. unfold ofChar. cbn [startsWith].
      rewrite Ascii.eqb_sym. destruct Hc' as (_ & _ & -> & _). reflexivity. }
    rewrite Hq. unfold includes.
    now rewrite find_append by (apply (find_absent isKeyChar); [exact Hk|reflexivity]).
  - rewrite escapeString_chars. set (e := escapeChars key).
    assert (Hq : startsWith (quoted e ++ String COLON rest)%string (ofChar DOUBLE_QUOTE)
                 = true).
    { rewrite quoted_append. unfold ofChar. cbn [startsWith].
      now rewrite Ascii.eqb_refl, startsWith_nil. }
    rewrite Hq. cbv zeta. unfold e. rewrite findClosingQuote_written. fold e.
    assert (He : 0 <= len e) by (unfold len; lia).
    destruct (Z.eqb_spec (len e + 1) (-1)); [lia|].
    assert (Hlen : len (quoted e ++ String COLON rest)%string = len e + 3 + len rest).
    { rewrite quoted_append. unfold len. cbn [String.length]. rewrite length_append.
      cbn [String.length]. lia. }
    rewrite Hlen.
    destruct (Z.ltb_spec (len e + 1 + 1) (len e + 3 + len rest)); [|unfold len in *; lia].
    unfold charIs, charAt. destruct (Z.ltb_spec (len e + 1 + 1) 0); [lia|].
    replace (Z.to_nat (len e + 1 + 1)) with (String.length (quoted e))
      by (rewrite length_quoted; unfold len; lia).
    rewrite get_append. now rewrite Ascii.eqb_refl.
Qed.

(** X4. A key written by [encodeKey] and followed by a colon is read back
    by [parseKeyToken] as the same key, whatever the key and whatever
    follows the colon; the position returned is the one after the colon.
    A line that starts that way is a key-value line for
    [isKeyValueLine]. *)
Theorem parseKeyToken_encodeKey (key rest : string) :
  parseKeyToken (encodeKey key ++ String COLON rest)%string 0
  = Return (key, len (encodeKey key) + 1)
  /\ forall d n,
       isKeyValueLine (lineOf d (encodeKey key ++ String COLON rest)%string n) = true.
Proof.
  split; [apply parseKeyToken_written|].
  intros d n. now apply (isKeyValueLine_written key rest).
Qed.

(** ** The lines of a document that the emitter wrote *)

Lemma find_app_None c a b :
  find c a = None -> find c (a ++ b)%string = match find c b with
                                               | Some i => Some (String.length a + i)%nat
                                               | None => None
                                               end.
Proof.
  induction a as [|x r IH]; intros H.
  - rewrite append_nil. now destruct (find c b).
  - rewrite append_cons. cbn [find] in *. destruct (Ascii.eqb x c); [discriminate|].
    destruct (find c r); [discriminate|]. rewrite IH by reflexivity.
    now destruct (find c b).
Qed.

Lemma splitOn_single c s : find c s = None -> splitOn c s = [s].
Proof.
  induction s as [|x r IH]; [reflexivity|]. cbn [find splitOn].
  destruct (Ascii.eqb x c); [discriminate|].
  destruct (find c r); [discriminate|]. intros _. now rewrite IH.
Qed.

Lemma splitOn_append c a t :
  find c a = None -> splitOn c (a ++ String c t)%string = a :: splitOn c t.
Proof.
  induction a as [|x r IH]; intros H.
  - rewrite append_nil. cbn [splitOn]. now rewrite Ascii.eqb_refl.
  - rewrite append_cons. cbn [find splitOn] in *. destruct (Ascii.eqb x c); [discriminate|].
    destruct (find c r); [discriminate|]. now rewrite IH.
Qed.

Lemma splitOn_join c raws :
  raws <> [] -> Forall (fun r => find c r = None) raws ->
  splitOn c (join (ofChar c) raws) = raws.
Proof.
  intros Hne H. induction H as [|r rs Hr Hrs IH]; [congruence|].
  destruct rs as [|r' rs']; [now apply splitOn_single|].
  change (join (ofChar c) (r :: r' :: rs'))
    with (r ++ ofChar c ++ join (ofChar c) (r' :: rs'))%string.
  unfold ofChar at 1. rewrite append_cons, append_nil.
  rewrite splitOn_append by exact Hr. now rewrite IH.
Qed.

Lemma find_spaces c d : Ascii.eqb SPACE c = false -> find c (JsString.repeat "  " d) = None.
Proof.
  unfold SPACE. intros H. induction d as [|d IH]; [reflexivity|].
  cbn [JsString.repeat]. rewrite !append_cons, append_nil. cbn [find].
  now rewrite H, IH.
Qed.

Lemma solid_first text :
  solid text = true ->
  exists c t, text = String c t /\ isWhite c = false /\ find NEWLINE text = None.
Proof.
  destruct text as [|c t]; [discriminate|]. unfold solid, includes.
  rewrite andb_true_iff, !negb_true_iff. intros [Hc Hn]. exists c, t.
  repeat split; [exact Hc|]. now destruct (find NEWLINE (String c t)).
Qed.

Lemma renderLine_no_newline it : solid (snd it) = true -> find NEWLINE (renderLine it) = None.
Proof.
  intros H. apply solid_first in H. destruct H as (c & t & _ & _ & Hn).
  unfold renderLine. rewrite find_app_None by (now apply find_spaces). now rewrite Hn.
Qed.

Lemma countWhile_spaces p d c t :
  p SPACE = true -> p c = false ->
  countWhile p (JsString.repeat "  " d ++ String c t)%string = 2 * Z.of_nat d.
Proof.
  unfold SPACE. intros Hs Hc. induction d as [|d IH].
  - rewrite append_nil. cbn [countWhile]. now rewrite Hc.
  - cbn [JsString.repeat]. rewrite !append_assoc, !append_cons, append_nil.
    cbn [countWhile]. rewrite Hs, IH. lia.
Qed.

Lemma length_spaces d : String.length (JsString.repeat "  " d) = (2 * d)%nat.
Proof.
  induction d as [|d IH]; [reflexivity|]. cbn [JsString.repeat].
  rewrite length_append, IH. simpl. lia.
Qed.

Lemma drop_append a b : drop (String.length a) (a ++ b)%string = b.
Proof. induction a as [|x r IH]; [now destruct b|]. rewrite append_cons. exact IH. Qed.

Lemma allWhite_first c t : isWhite c = false -> allChars isWhite (String c t) = false.
Proof. intros H. cbn [allChars]. now rewrite H. Qed.

Lemma scanLines_rendered strict items : forall n parsed blank,
  Forall (fun it => solid (snd it) = true) items ->
  scanLines (map renderLine items) n 2 strict parsed blank
  = Return (parsed ++ numberLines n items, blank).
Proof.
  induction items as [|[d text] items IH]; intros n parsed blank H.
  - cbn. now rewrite app_nil_r.
  - inversion H as [|? ? Hs Hr]; subst. cbn [snd] in Hs.
    destruct (solid_first _ Hs) as (c & t & -> & Hc & Hn).
    cbn [map scanLines].
    change (renderLine (d, String c t)) with (JsString.repeat "  " d ++ String c t)%string.
    assert (Hsp : isSpace c = false).
    { unfold isSpace. destruct (Ascii.eqb_spec c SPACE) as [->|]; [discriminate|reflexivity]. }
    assert (Hst : isSpaceOrTab c = false).
    { unfold isSpaceOrTab. rewrite (proj2 (Ascii.eqb_neq c SPACE)), (proj2 (Ascii.eqb_neq c TAB));
        [reflexivity|intros ->; discriminate|intros ->; discriminate]. }
    rewrite (countWhile_spaces isSpace) by (reflexivity || exact Hsp).
    rewrite (countWhile_spaces isSpaceOrTab) by (reflexivity || exact Hst).
    assert (Hcontent : sliceFrom (JsString.repeat "  " d ++ String c t)%string (2 * Z.of_nat d)
                       = String c t).
    { rewrite sliceFrom_inside
        by (unfold len; rewrite length_append, length_spaces; cbn [String.length]; lia).
      replace (Z.to_nat (2 * Z.of_nat d)) with (String.length (JsString.repeat "  " d))
        by (rewrite length_spaces; lia).
      apply drop_append. }
    rewrite Hcontent, isEmpty_trim, (allWhite_first c t Hc).
    assert (Hpre : slice (JsString.repeat "  " d ++ String c t)%string 0 (2 * Z.of_nat d)
                   = JsString.repeat "  " d).
    { replace (2 * Z.of_nat d) with (len (JsString.repeat "  " d))
        by (unfold len; rewrite length_spaces; lia).
      apply slice_prefix. }
    rewrite Hpre. unfold includes. rewrite find_spaces by reflexivity.
    rewrite andb_false_r.
    replace ((2 * Z.of_nat d) mod 2 =? 0) with true
      by (symmetry; apply Z.eqb_eq; rewrite Z.mul_comm; apply Z_mod_mult).
    cbn [negb]. rewrite !andb_false_r.
    rewrite IH by exact Hr. rewrite <- app_assoc. cbn [app numberLines fst snd].
    unfold lineOf, computeDepthFromIndent.
    replace (2 * Z.of_nat d / 2) with (Z.of_nat d)
      by (rewrite Z.mul_comm, Z_div_mult by lia; reflexivity).
    reflexivity.
Qed.

Lemma toParsedLines_rendered strict items :
  items <> [] -> Forall (fun it => solid (snd it) = true) items ->
  toParsedLines (join (ofChar NEWLINE) (map renderLine items)) 2 strict
  = Return (numberLines 1 items, []).
Proof.
  intros Hne H. unfold toParsedLines.
  assert (Hraws : Forall (fun r => find NEWLINE r = None) (map renderLine items)).
  { apply List.Forall_map. eapply List.Forall_impl; [|exact H].
    intros it. apply renderLine_no_newline. }
  assert (Hsplit : splitOn NEWLINE (join (ofChar NEWLINE) (map renderLine items))
                   = map renderLine items).
  { apply splitOn_join; [|exact Hraws]. destruct items; [congruence|discriminate]. }
  rewrite isEmpty_trim.
  assert (Hw : allChars isWhite (join (ofChar NEWLINE) (map renderLine items)) = false).
  { pose proof (allWhite_splitOn (join (ofChar NEWLINE) (map renderLine items))) as Ha.
    rewrite Hsplit in Ha. rewrite <- Ha.
    destruct items as [|[d text] r]; [congruence|]. inversion H as [|? ? Hs _]; subst.
    cbn [snd] in Hs. destruct (solid_first _ Hs) as (c & t & -> & Hc & _).
    cbn [map forallb]. apply andb_false_iff. left. unfold renderLine. cbn [fst snd].
    clear -Hc. induction d as [|d IH].
    - rewrite append_nil. now apply allWhite_first.
    - cbn [JsString.repeat]. rewrite !append_assoc, !append_cons, append_nil.
      cbn [allChars]. rewrite IH. reflexivity. }
  rewrite Hw, Hsplit. now rewrite scanLines_rendered.
Qed.

Lemma linesAt_app lines a : forall c b,
  linesAt lines c (a ++ b) <-> linesAt lines c a /\ linesAt lines (c + List.length a) b.
Proof.
  induction a as [|it a IH]; intros c b; cbn [app linesAt List.length].
  - rewrite Nat.add_0_r. tauto.
  - destruct (peek lines c) as [l|]; [|tauto].
    rewrite IH. replace (c + S (List.length a))%nat with (S c + List.length a)%nat by lia.
    tauto.
Qed.

Lemma linesAt_numberLines items : forall pre n,
  linesAt (pre ++ numberLines n items) (List.length pre) items.
Proof.
  induction items as [|[d t] items IH]; intros pre n; cbn [linesAt numberLines]; [exact I|].
  unfold peek. rewrite nth_error_app2 by lia. rewrite Nat.sub_diag. cbn [nth_error fst snd].
  repeat split.
  specialize (IH (pre ++ [lineOf d t n]) (n + 1)).
  rewrite <- app_assoc, length_app in IH. cbn [app List.length] in IH.
  now rewrite Nat.add_1_r in IH.
Qed.

Lemma length_numberLines items : forall n,
  List.length (numberLines n items) = List.length items.
Proof. induction items as [|it r IH]; intros n; cbn; [reflexivity|now rewrite IH]. Qed.

Lemma drop_after a c r : drop (S (String.length a)) (a ++ String c r)%string = r.
Proof. induction a as [|x a IH]; [now destruct r|]. rewrite append_cons. exact IH. Qed.

Lemma sliceFrom_after a c r :
  sliceFrom (a ++ String c r)%string (len a + 1) = r.
Proof.
  rewrite sliceFrom_inside
    by (unfold len; rewrite length_append; cbn [String.length]; lia).
  replace (Z.to_nat (len a + 1)) with (S (String.length a)) by (unfold len; lia).
  apply drop_after.
Qed.

Lemma headerLine_none key rest :
  (isValidUnquotedKey key = true -> find OPEN_BRACKET rest = None) ->
  parseArrayHeaderLine (encodeKey key ++ String COLON rest)%string DEFAULT_DELIMITER
  = Return None.
Proof.
  intros Hb. unfold parseArrayHeaderLine, encodeKey in *.
  destruct (isValidUnquotedKey key) eqn:Ev.
  - apply isValidUnquotedKey_chars in Ev. destruct Ev as [Hk Hne].
    destruct key as [|c r]; [congruence|].
    assert (Hc : isKeyChar c = true)
      by (cbn [allChars] in Hk; apply andb_true_iff in Hk; tauto).
    apply isKeyChar_plain in Hc. destruct Hc as (_ & Hw & Hq & _).
    rewrite append_cons. cbn [trimStart]. rewrite Hw. unfold ofChar. cbn [startsWith].
    rewrite Ascii.eqb_sym, Hq. cbn [andb]. rewrite <- append_cons.
    rewrite indexOf_find, find_app_None
      by (apply (find_absent isKeyChar); [exact Hk|reflexivity]).
    cbn [find]. change (Ascii.eqb COLON OPEN_BRACKET) with false. cbv iota.
    now rewrite (Hb eq_refl).
  - rewrite quoted_append. cbn [trimStart]. change (isWhite DOUBLE_QUOTE) with false.
    cbv iota. unfold ofChar. cbn [startsWith]. now rewrite Ascii.eqb_refl, startsWith_nil.
Qed.

Lemma find_escapeChars c s :
  Ascii.eqb BACKSLASH c = false -> Ascii.eqb DOUBLE_QUOTE c = false ->
  Ascii.eqb "n" c = false -> Ascii.eqb "r" c = false -> Ascii.eqb "t" c = false ->
  find c s = None -> find c (escapeChars s) = None.
Proof.
  intros H1 H2 H3 H4 H5. induction s as [|x r IH]; [reflexivity|].
  cbn [find escapeChars]. destruct (Ascii.eqb x c) eqn:Ex; [discriminate|].
  destruct (find c r); [discriminate|]. intros _. specialize (IH eq_refl).
  unfold escapeChar, ofChar.
  repeat match goal with
         | |- context [if ?b then _ else _] => destruct b
         end;
    rewrite ?append_cons, ?append_nil; cbn [find];
    rewrite ?H1, ?H2, ?H3, ?H4, ?H5, ?Ex, IH; reflexivity.
Qed.

Lemma find_escapeChars_newline s : find NEWLINE (escapeChars s) = None.
Proof.
  induction s as [|x r IH]; [reflexivity|]. cbn [escapeChars]. unfold escapeChar, ofChar.
  destruct (Ascii.eqb_spec x BACKSLASH) as [->|H1];
    [rewrite !append_cons, append_nil; cbn [find]; now rewrite IH|].
  destruct (Ascii.eqb_spec x DOUBLE_QUOTE) as [->|H2];
    [rewrite !append_cons, append_nil; cbn [find]; now rewrite IH|].
  destruct (Ascii.eqb_spec x NEWLINE) as [->|H3];
    [rewrite !append_cons, append_nil; cbn [find]; now rewrite IH|].
  destruct (Ascii.eqb_spec x CARRIAGE_RETURN) as [->|H4];
    [rewrite !append_cons, append_nil; cbn [find]; now rewrite IH|].
  destruct (Ascii.eqb_spec x TAB) as [->|H5];
    [rewrite !append_cons, append_nil; cbn [find]; now rewrite IH|].
  rewrite append_cons, append_nil. cbn [find].
  apply Ascii.eqb_neq in H3. now rewrite H3, IH.
Qed.

Lemma find_quoted c e :
  Ascii.eqb DOUBLE_QUOTE c = false -> find c e = None -> find c (quoted e) = None.
Proof.
  intros Hq He. unfold quoted, ofChar. cbn [find]. rewrite Hq.
  rewrite find_app_None by exact He. cbn [find]. now rewrite Hq.
Qed.

Lemma includes_false s c : includes s c = false <-> find c s = None.
Proof. unfold includes. destruct (find c s); split; congruence. Qed.

Lemma isSafeUnquoted_facts s d :
  isSafeUnquoted s d = true ->
  s <> EmptyString /\ trim s = s /\ find NEWLINE s = None /\ find OPEN_BRACKET s = None
  /\ find COLON s = None /\ find DOUBLE_QUOTE s = None.
Proof.
  unfold isSafeUnquoted.
  destruct (isEmpty s) eqn:E0; [discriminate|].
  destruct (String.eqb_spec s (trim s)) as [Ht|]; [|discriminate]. cbn [negb].
  destruct (_ || _); [discriminate|].
  destruct (includes s ":") eqn:Ec; [discriminate|].
  destruct (includes s DOUBLE_QUOTE) eqn:Eq; [discriminate|]. cbn [orb].
  destruct (includes s BACKSLASH); [discriminate|].
  destruct (includes s "[") eqn:Eb; [discriminate|]. cbn [orb].
  destruct (_ || _); [discriminate|].
  destruct (includes s NEWLINE) eqn:En; [discriminate|]. intros _.
  apply includes_false in Ec, Eq, Eb, En.
  repeat split; try assumption; [|congruence]. intros ->. discriminate.
Qed.

Lemma encodeKey_no_newline key : find NEWLINE (encodeKey key) = None.
Proof.
  unfold encodeKey. destruct (isValidUnquotedKey key) eqn:Ev.
  - apply isValidUnquotedKey_chars in Ev. destruct Ev as [Hk _].
    now apply (find_absent isKeyChar).
  - rewrite escapeString_chars. apply find_quoted; [reflexivity|].
    apply find_escapeChars_newline.
Qed.

Lemma append_nil_r (s : string) : (s ++ EmptyString)%string = s.
Proof. induction s as [|c r IH]; [reflexivity|]. rewrite append_cons. now rewrite IH. Qed.

Lemma trimEnd_first c t : isWhite c = false -> exists t', trimEnd (String c t) = String c t'.
Proof.
  intros Hc. cbn [trimEnd]. destruct (trimEnd t); [rewrite Hc|]; eauto.
Qed.

Lemma trim_first c t : isWhite c = false -> exists t', trim (String c t) = String c t'.
Proof.
  intros Hc. unfold trim. cbn [trimStart]. rewrite Hc. now apply trimEnd_first.
Qed.

Lemma length_trimEnd s : (String.length (trimEnd s) <= String.length s)%nat.
Proof.
  induction s as [|c r IH]; [reflexivity|]. cbn [trimEnd].
  destruct (trimEnd r) as [|x t]; [destruct (isWhite c); cbn; lia|].
  cbn [String.length] in *. lia.
Qed.

Lemma length_trimStart s : (String.length (trimStart s) <= String.length s)%nat.
Proof.
  induction s as [|c r IH]; [reflexivity|]. cbn [trimStart].
  destruct (isWhite c); cbn [String.length]; lia.
Qed.

Lemma trim_fixed_first s :
  trim s = s -> s <> EmptyString -> exists c t, s = String c t /\ isWhite c = false.
Proof.
  destruct s as [|c t]; [congruence|]. intros H _. exists c, t. split; [reflexivity|].
  destruct (isWhite c) eqn:Hc; [|reflexivity]. exfalso.
  assert (Hl : (String.length (trim (String c t)) <= String.length t)%nat).
  { unfold trim. cbn [trimStart]. rewrite Hc.
    etransitivity; [apply length_trimEnd|apply length_trimStart]. }
  rewrite H in Hl. cbn [String.length] in Hl. lia.
Qed.

Lemma hasCircularReference_tree v :
  ordinary v = true -> hasCircularReference ∅ (HTree v) = Return false.
Proof.
  intros H. unfold hasCircularReference, checkBudget. rewrite map_size_empty.
  cbn [Nat.add]. rewrite check_S, (checkTree_ordinary v H). reflexivity.
Qed.

Lemma upTo_bind {A B} (m : outcome A) (k : A -> outcome B) a b :
  upTo m a -> upTo (k a) b -> upTo (bind m k) b.
Proof. intros [->| ->] Hk; [now left|exact Hk]. Qed.

Section Closed.
Variable lines : list ParsedLine.

Lemma closedAt_next c d it items :
  linesAt lines c (it :: items) -> fst it = d -> closedAt lines c (S d).
Proof.
  cbn [linesAt]. unfold closedAt. destruct (peek lines c) as [l|]; [|tauto].
  intros (Hd & _ & _) <-. lia.
Qed.

Lemma closedAt_deeper c d : closedAt lines c d -> closedAt lines c (S d).
Proof. unfold closedAt. destruct (peek lines c); [lia|tauto]. Qed.
End Closed.

Lemma serializeValue_stable numberToString v :
  ordinary v = true ->
  normalizeValue v = Return v ->
  serializeValue numberToString v
  = Return (encodeValue numberToString (resolveOptions None) v).
Proof.
  intros Ho H. unfold serializeValue, serialize.
  rewrite hasCircularReference_tree by exact Ho.
  cbn [bind unfold]. now rewrite H.
Qed.

(** The values of the round trip are ordinary. *)
Lemma readable_ordinary numberToString d v :
  readable numberToString d v = true -> ordinary v = true.
Proof. destruct v; try discriminate; reflexivity. Qed.

Lemma readables_ordinary numberToString d items :
  forallb (readable numberToString d) items = true -> forallb ordinary items = true.
Proof.
  rewrite !forallb_forall. intros H v Hin.
  exact (readable_ordinary numberToString d v (H v Hin)).
Qed.

Lemma plainKeys_lookup {A} (props : JsObject.props A) :
  forallb plainKey (JsObject.keys props) = true ->
  JsObject.hasKey "hasOwnProperty" props = false
  /\ Forall (fun kv => fst kv <> PROTO) props.
Proof.
  rewrite forallb_forall. intros H. split.
  - unfold JsObject.hasKey.
    destruct (JsObject.lookup "hasOwnProperty" props) eqn:E; [|reflexivity]. exfalso.
    assert (Hin : In "hasOwnProperty" (JsObject.keys props)).
    { destruct (in_dec String.string_dec "hasOwnProperty" (JsObject.keys props)) as [Hi|Hn];
        [exact Hi|]. apply lookup_None in Hn. congruence. }
    specialize (H _ Hin). discriminate.
  - apply List.Forall_forall. intros [k v] Hin E. cbn in E. subst k.
    assert (Hk : In PROTO (JsObject.keys props)).
    { unfold JsObject.keys. apply in_map_iff. now exists (PROTO, v). }
    specialize (H _ Hk). discriminate.
Qed.

Lemma tableRow_ordinary numberToString fields row :
  forallb plainKey fields = true ->
  tableRow numberToString fields row = true -> ordinary row = true.
Proof.
  intros Hk Hr. destruct row; try discriminate. cbn [tableRow] in Hr.
  apply andb_prop in Hr. destruct Hr as [Hf Hc].
  destruct (List.list_eq_dec String.string_dec (JsObject.keys props) fields) as [E|];
    [|discriminate].
  rewrite <- E in Hk. apply plainKeys_lookup in Hk. destruct Hk as [Hk _].
  cbn [ordinary]. rewrite Hk. cbn [negb andb].
  rewrite forallb_forall in Hc |- *. intros kv Hin. specialize (Hc kv Hin).
  unfold cell in Hc. apply andb_prop in Hc. destruct Hc as [Hc _].
  exact (readable_ordinary _ _ _ Hc).
Qed.

Lemma table_ordinary numberToString fields rows :
  table numberToString fields rows = true -> ordinary (VArr rows) = true.
Proof.
  unfold table. rewrite !andb_true_iff. intros ((((_ & _) & _) & Hr) & Hk).
  cbn [ordinary]. rewrite forallb_forall in Hr |- *. intros row Hin.
  exact (tableRow_ordinary numberToString fields row Hk (Hr row Hin)).
Qed.

Lemma listOfArrays_ordinary numberToString rows :
  listOfArrays numberToString rows = true -> ordinary (VArr rows) = true.
Proof.
  unfold listOfArrays. rewrite andb_true_iff. intros [_ Hr].
  cbn [ordinary]. rewrite forallb_forall in Hr |- *. intros row Hin.
  specialize (Hr row Hin). destruct row; try discriminate.
  cbn [ordinary]. exact (readables_ordinary _ _ _ Hr).
Qed.

Lemma plainArray_ordinary numberToString items :
  plainArray numberToString items = true -> ordinary (VArr items) = true.
Proof.
  unfold plainArray. rewrite !orb_true_iff. intros [[H|H]|H].
  - cbn [ordinary]. exact (readables_ordinary _ _ _ H).
  - exact (table_ordinary _ _ _ H).
  - exact (listOfArrays_ordinary _ _ H).
Qed.

Lemma plainTree_ordinary numberToString v :
  plainTree numberToString v = true -> ordinary v = true.
Proof.
  induction v
    as [| |b|x|s|z|iso|items IH|items IH|entries IH|props IH|proto props IHp IH|b]
    using jsval_ind;
    intros H; try reflexivity; try discriminate.
  - cbn [plainTree] in H. apply orb_prop in H. destruct H as [H|H];
      [exact (plainArray_ordinary _ _ H)|].
    apply andb_prop in H. destruct H as [_ H]. cbn [ordinary].
    rewrite forallb_forall in H |- *. rewrite List.Forall_forall in IH.
    intros item Hin. specialize (H item Hin). specialize (IH item Hin).
    destruct item as [| |b|x|s|z|iso|xs|xs|entries|props|proto props|b];
      try reflexivity; try discriminate.
    + cbn [ordinary]. exact (readables_ordinary _ _ _ H).
    + destruct props as [|[k x] rest]; [discriminate|].
      apply andb_prop in H. destruct H as [H _]. exact (IH H).
  - cbn [plainTree] in H. rewrite forallb_forall in H. cbn [ordinary].
    assert (Hk : forallb plainKey (JsObject.keys props) = true).
    { apply forallb_forall. intros k Hk. unfold JsObject.keys in Hk.
      apply in_map_iff in Hk. destruct Hk as (kv & <- & Hin).
      specialize (H kv Hin). apply andb_prop in H. tauto. }
    apply plainKeys_lookup in Hk. destruct Hk as [-> _]. cbn [negb andb].
    apply forallb_forall. rewrite List.Forall_forall in IH. intros kv Hin.
    apply (IH kv Hin). specialize (H kv Hin).
    apply andb_prop in H. destruct H as [H _]. apply andb_prop in H. tauto.
Qed.

Lemma listItem_ordinary numberToString item :
  listItem numberToString item = true -> ordinary item = true.
Proof.
  destruct item as [| |b|x|s|z|iso|xs|xs|entries|props|proto props|b];
    cbn [listItem]; try reflexivity; try discriminate.
  - apply readables_ordinary.
  - destruct props as [|[k x] rest]; [discriminate|]. intros H.
    apply andb_prop in H. destruct H as [H _]. exact (plainTree_ordinary _ _ H).
Qed.

Lemma listItems_ordinary numberToString items :
  forallb (listItem numberToString) items = true -> forallb ordinary items = true.
Proof.
  rewrite !forallb_forall. intros H v Hin. exact (listItem_ordinary _ _ (H v Hin)).
Qed.

Lemma ordinary_single v : ordinary v = true -> ordinary (VArr [v]) = true.
Proof. intros H. cbn [ordinary forallb]. now rewrite H. Qed.

Lemma ordinary_items pre v post :
  forallb ordinary pre = true -> ordinary v = true -> forallb ordinary post = true ->
  ordinary (VArr (pre ++ v :: post)) = true.
Proof.
  intros Hpre Hv Hpost. cbn [ordinary]. rewrite forallb_app. cbn [forallb].
  now rewrite Hpre, Hv, Hpost.
Qed.

(** The keys of such an object. *)
Lemma plainTree_keys numberToString props :
  plainTree numberToString (VObj props) = true ->
  Forall (fun kv => fst kv <> PROTO) props.
Proof.
  cbn [plainTree]. rewrite forallb_forall. intros H.
  assert (Hk : forallb plainKey (JsObject.keys props) = true).
  { apply forallb_forall. intros k Hk. unfold JsObject.keys in Hk.
    apply in_map_iff in Hk. destruct Hk as (kv & <- & Hin).
    specialize (H kv Hin). apply andb_prop in H. tauto. }
  apply plainKeys_lookup in Hk. tauto.
Qed.

(** ** decode.ts: the line scanner *)

Lemma leading_spaces raw :
  raw = (JsString.repeat " " (Z.to_nat (countWhile isSpace raw))
         ++ sliceFrom raw (countWhile isSpace raw))%string
  /\ startsWith (sliceFrom raw (countWhile isSpace raw)) " " = false.
Proof.
  rewrite sliceFrom_inside by apply countWhile_bounds.
  induction raw as [|c r IH]; [split; reflexivity|]. cbn [countWhile].
  destruct (isSpace c) eqn:E.
  - pose proof (countWhile_bounds isSpace r).
    replace (Z.to_nat (1 + countWhile isSpace r)) with (S (Z.to_nat (countWhile isSpace r)))
      by lia.
    cbn [JsString.repeat drop]. unfold isSpace in E. apply Ascii.eqb_eq in E. subst c.
    destruct IH as [IH1 IH2]. split; [|exact IH2].
    change (String SPACE r
            = String SPACE (JsString.repeat " " (Z.to_nat (countWhile isSpace r))
                            ++ drop (Z.to_nat (countWhile isSpace r)) r)%string).
    f_equal. exact IH1.
  - change (Z.to_nat 0) with 0%nat. cbn [JsString.repeat drop]. split; [reflexivity|].
    cbn [startsWith]. destruct (Ascii.eqb_spec " "%char c) as [<-|]; [|reflexivity].
    vm_compute in E. discriminate.
Qed.

Lemma parsedFrom_later size raw rest n l :
  parsedFrom size rest (n + 1) l -> parsedFrom size (raw :: rest) n l.
Proof.
  unfold parsedFrom. intros (H1 & H2 & H3 & H4 & H5 & H6 & H7).
  repeat split; try assumption; [lia|].
  replace (Z.to_nat (lineNumber l - n)) with (S (Z.to_nat (lineNumber l - (n + 1)))) by lia.
  exact H7.
Qed.

Lemma scanLines_outcome size strict todo : forall n parsed blank,
  scanOutcome size strict todo n parsed (scanLines todo n size strict parsed blank).
Proof.
  induction todo as [|ln rest IH]; intros n parsed blank.
  - cbn. split; [apply andb_false_r|]. exists []. rewrite app_nil_r. repeat split. constructor.
  - cbn [scanLines]. rewrite isEmpty_trim, allWhite_content.
    unfold scanOutcome. cbn [existsb List.filter].
    destruct (allChars isWhite ln) eqn:Ew.
    + assert (Hnb : nonBlank ln = false) by (unfold nonBlank; now rewrite Ew).
      rewrite !Hnb. cbn [andb orb].
      specialize (IH (n + 1) parsed
                     (blank ++ [{| blank_lineNumber := n;
                                   blank_indent := countWhile isSpace ln;
                                   blank_depth := computeDepthFromIndent
                                                    (countWhile isSpace ln) size |}])).
      unfold scanOutcome in IH.
      destruct (scanLines rest _ _ _ _ _) as [[p b]|e|]; [|exact IH|exact IH].
      destruct IH as (Hs & p' & Hp & Hm & Hf). split; [exact Hs|].
      exists p'. repeat split; try assumption.
      eapply List.Forall_impl; [|exact Hf]. intros l. apply parsedFrom_later.
    + assert (Hnb : nonBlank ln = true) by (unfold nonBlank; now rewrite Ew).
      rewrite !Hnb. cbn [andb].
      destruct (strict && badIndent size ln) eqn:Esb.
      * apply andb_true_iff in Esb. destruct Esb as [-> Hbad]. rewrite Hbad.
        cbn [andb orb]. unfold badIndent in Hbad.
        destruct (includes _ TAB); [repeat split; eauto|].
        cbn [orb] in Hbad. rewrite Hbad. repeat split; eauto.
      * assert (H1 : strict && includes (slice ln 0 (countWhile isSpaceOrTab ln)) TAB
                     = false).
        { destruct strict; [|reflexivity]. cbn [andb] in *. unfold badIndent in Esb.
          apply orb_false_iff in Esb. tauto. }
        assert (H2 : strict && (0 <? countWhile isSpace ln)
                     && negb (countWhile isSpace ln mod size =? 0) = false).
        { destruct strict; [|reflexivity]. cbn [andb] in *. unfold badIndent in Esb.
          apply orb_false_iff in Esb. tauto. }
        rewrite H1, H2.
        set (line := {| raw := ln; indent := countWhile isSpace ln;
                        content := sliceFrom ln (countWhile isSpace ln);
                        depth := computeDepthFromIndent (countWhile isSpace ln) size;
                        lineNumber := n |}).
        specialize (IH (n + 1) (parsed ++ [line]) blank). unfold scanOutcome in IH.
        destruct (scanLines rest _ _ _ _ _) as [[p b]|e|].
        -- destruct IH as (Hs & p' & Hp & Hm & Hf). split.
           { destruct strict; [|reflexivity]. cbn [andb] in *. now rewrite Esb, Hs. }
           exists (line :: p'). rewrite Hp, <- app_assoc. repeat split.
           ++ cbn [map]. now rewrite Hm.
           ++ constructor.
              ** destruct (leading_spaces ln) as [Hl1 Hl2].
                 unfold parsedFrom, line;
                   cbn [raw indent content depth lineNumber].
                 repeat split; try assumption.
                 --- apply countWhile_bounds.
                 --- unfold nonBlank. now rewrite allWhite_content, Ew.
                 --- lia.
                 --- now rewrite Z.sub_diag.
              ** eapply List.Forall_impl; [|exact Hf]. intros l. apply parsedFrom_later.
        -- destruct IH as (Hs & Hr & Hm). repeat split; [exact Hs| |exact Hm].
           rewrite Hr. apply orb_true_r.
        -- exact IH.
Qed.

(** X9. The line scanner [toParsedLines], with the indent size that
    [deserialize] gives it, ends on every text.  It throws only in strict
    mode, a syntax error, and exactly when a line that is not blank has a
    tab in its leading white space or a number of leading spaces that is no
    multiple of the indent size.  Otherwise it returns the lines that are
    not blank, in their order, each split into its leading spaces and the
    rest, with the depth [indent / indentSize] and its position in the text
    as line number. *)
Theorem toParsedLines_outcome (source : string) (strict : bool) :
  scanOutcome DEFAULT_INDENT_SIZE strict (splitOn NEWLINE source) 1 []
    (toParsedLines source DEFAULT_INDENT_SIZE strict).
Proof.
  unfold toParsedLines. rewrite isEmpty_trim.
  destruct (allChars isWhite source) eqn:Ew; [|apply scanLines_outcome].
  rewrite <- allWhite_splitOn in Ew. unfold scanOutcome.
  assert (Hall : Forall (fun raw => nonBlank raw = false) (splitOn NEWLINE source)).
  { apply List.Forall_forall. intros raw Hin. unfold nonBlank.
    rewrite forallb_forall in Ew. now rewrite (Ew raw Hin). }
  split.
  - apply andb_false_iff. right. apply not_true_is_false. intros H.
    apply existsb_exists in H. destruct H as (raw & Hin & Hb).
    rewrite List.Forall_forall in Hall. rewrite (Hall raw Hin) in Hb. discriminate.
  - exists []. repeat split; [|constructor]. clear Ew.
    induction Hall as [|raw raws Hr _ IH]; [reflexivity|]. cbn [List.filter]. rewrite Hr. exact IH.
Qed.

(** ** decode.ts: splitting a line into values *)

Lemma scanDelimited_plain dc s : forall cur vals,
  find DOUBLE_QUOTE s = None ->
  cur <> EmptyString \/ vals <> [] \/ s <> EmptyString ->
  scanDelimited dc s false cur vals
  = match splitOn dc s with
    | h :: t => vals ++ trim (cur ++ h) :: map trim t
    | [] => vals
    end.
Proof.
  induction s as [|c r IH]; intros cur vals Hq Hne.
  - cbn [scanDelimited splitOn map]. rewrite append_nil_r.
    destruct cur as [|x cur']; [|reflexivity]. cbn [isEmpty negb orb].
    destruct vals as [|v vals']; [|reflexivity]. destruct Hne as [H|[H|H]]; congruence.
  - cbn [find] in Hq. destruct (Ascii.eqb c DOUBLE_QUOTE) eqn:Ec; [discriminate|].
    assert (Hr : find DOUBLE_QUOTE r = None) by (destruct (find DOUBLE_QUOTE r); congruence).
    assert (Hstep : scanDelimited dc (String c r) false cur vals
                    = if Ascii.eqb c dc
                      then scanDelimited dc r false EmptyString (vals ++ [trim cur])
                      else scanDelimited dc r false (cur ++ ofChar c)%string vals).
    { cbn [scanDelimited]. rewrite Ec, !andb_false_r. cbn [negb]. rewrite andb_true_r.
      now destruct r. }
    rewrite Hstep. cbn [splitOn]. destruct (Ascii.eqb c dc).
    + rewrite IH; [|exact Hr|right; left; now destruct vals].
      destruct (splitOn dc r) as [|h t] eqn:Es; [now apply splitOn_nonempty in Es|].
      rewrite append_nil, append_nil_r, <- app_assoc. reflexivity.
    + rewrite IH; [|exact Hr|left; now destruct cur].
      destruct (splitOn dc r) as [|h t] eqn:Es; [now apply splitOn_nonempty in Es|].
      unfold ofChar. now rewrite append_assoc, append_cons, append_nil.
Qed.

(** X10. On a text without double quote, [parseDelimitedValues] is
    [split] on the delimiter followed by [trim] on every piece; the empty
    text gives no value at all, where [split] gives one empty piece. *)
Theorem parseDelimitedValues_split (input : string) (delimiter : Delimiter) :
  includes input DOUBLE_QUOTE = false ->
  parseDelimitedValues input delimiter
  = if isEmpty input then [] else map trim (splitOn (delimChar delimiter) input).
Proof.
  intros Hq. apply includes_false in Hq. unfold parseDelimitedValues.
  destruct input as [|c r]; [reflexivity|]. cbn [isEmpty].
  rewrite scanDelimited_plain; [|exact Hq|right; right; discriminate].
  destruct (splitOn (delimChar delimiter) (String c r)) as [|h t] eqn:Es;
    [now apply splitOn_nonempty in Es|].
  now rewrite append_nil.
Qed.

Lemma parseDelimitedValues_split_witness :
  parseDelimitedValues " a, b c ,,d " DComma = ["a"; "b c"; ""; "d"]
  /\ parseDelimitedValues "" DPipe = [].
Proof.
  split.
  - rewrite (parseDelimitedValues_split " a, b c ,,d " DComma) by reflexivity.
    reflexivity.
  - rewrite (parseDelimitedValues_split "" DPipe) by reflexivity. reflexivity.
Defined.

(** ** Inline values *)

Lemma number_eqb_eq x y : number_eqb x y = true -> x = y.
Proof.
  destruct x as [a|a| |a m e], y as [b|b| |b m' e']; try discriminate; cbn [number_eqb].
  - intros H. apply Bool.eqb_prop in H. now subst.
  - intros H. apply Bool.eqb_prop in H. now subst.
  - reflexivity.
  - rewrite !andb_true_iff. intros [[H1 H2] H3].
    apply Bool.eqb_prop in H1. apply Pos.eqb_eq in H2. apply Z.eqb_eq in H3. now subst.
Qed.

Lemma numberChar_plain c :
  numberChar c = true ->
  isWhite c = false /\ Ascii.eqb c DOUBLE_QUOTE = false /\ Ascii.eqb c NEWLINE = false
  /\ Ascii.eqb c OPEN_BRACKET = false /\ Ascii.eqb c COLON = false
  /\ forall d, Ascii.eqb c (delimChar d) = false.
Proof.
  destruct c as [[] [] [] [] [] [] [] []]; vm_compute; intros H;
    try discriminate; repeat split; intros []; reflexivity.
Qed.

Lemma scanDelimited_step dc c r inQuotes cur vals :
  Ascii.eqb c DOUBLE_QUOTE = false -> Ascii.eqb c dc && negb inQuotes = false ->
  Ascii.eqb c BACKSLASH && inQuotes = false ->
  scanDelimited dc (String c r) inQuotes cur vals
  = scanDelimited dc r inQuotes (cur ++ ofChar c)%string vals.
Proof.
  intros Hq Hd Hb. cbn [scanDelimited]. rewrite Hq, Hd, Hb. now destruct r.
Qed.

Lemma scanDelimited_bare dc t rest : forall cur vals,
  find DOUBLE_QUOTE t = None -> find dc t = None ->
  scanDelimited dc (t ++ rest)%string false cur vals
  = scanDelimited dc rest false (cur ++ t)%string vals.
Proof.
  induction t as [|c r IH]; intros cur vals Hq Hd.
  - now rewrite append_nil, append_nil_r.
  - cbn [find] in Hq, Hd.
    destruct (Ascii.eqb c DOUBLE_QUOTE) eqn:Ec; [discriminate|].
    destruct (Ascii.eqb c dc) eqn:Ed; [discriminate|].
    rewrite append_cons, scanDelimited_step
      by (assumption || now rewrite ?Ed, ?andb_false_r).
    rewrite IH by (destruct (find DOUBLE_QUOTE r), (find dc r); congruence).
    unfold ofChar. now rewrite append_assoc, append_cons, append_nil.
Qed.

Lemma scanDelimited_escaped dc s rest : forall cur vals,
  scanDelimited dc (escapeChars s ++ String DOUBLE_QUOTE rest)%string true cur vals
  = scanDelimited dc rest false (cur ++ escapeChars s ++ ofChar DOUBLE_QUOTE)%string vals.
Proof.
  induction s as [|c r IH]; intros cur vals.
  - cbn [escapeChars]. rewrite !append_nil. cbn [scanDelimited].
    rewrite Ascii.eqb_refl. change (Ascii.eqb DOUBLE_QUOTE BACKSLASH) with false.
    cbn [andb negb]. now destruct rest.
  - cbn [escapeChars]. unfold escapeChar.
    assert (Hesc : forall x,
      scanDelimited dc ((String BACKSLASH (ofChar x) ++ escapeChars r)
                        ++ String DOUBLE_QUOTE rest)%string true cur vals
      = scanDelimited dc rest false
          (cur ++ (String BACKSLASH (ofChar x) ++ escapeChars r)
               ++ ofChar DOUBLE_QUOTE)%string vals).
    { intros x. unfold ofChar at 1 3. rewrite !append_cons, !append_nil.
      cbn [scanDelimited]. rewrite Ascii.eqb_refl. cbn [andb]. rewrite IH.
      f_equal. rewrite !append_assoc, !append_cons. reflexivity. }
    destruct (Ascii.eqb_spec c BACKSLASH) as [->|H1]; [apply Hesc|].
    destruct (Ascii.eqb_spec c DOUBLE_QUOTE) as [->|H2]; [apply Hesc|].
    destruct (Ascii.eqb_spec c NEWLINE) as [->|H3]; [apply (Hesc "n"%char)|].
    destruct (Ascii.eqb_spec c CARRIAGE_RETURN) as [->|H4]; [apply (Hesc "r"%char)|].
    destruct (Ascii.eqb_spec c TAB) as [->|H5]; [apply (Hesc "t"%char)|].
    apply Ascii.eqb_neq in H1, H2. unfold ofChar at 1 3.
    rewrite !append_cons, !append_nil.
    rewrite scanDelimited_step
      by (assumption || now rewrite ?H1, ?andb_false_r).
    rewrite IH. f_equal. unfold ofChar. now rewrite !append_assoc, !append_cons, !append_nil.
Qed.

Lemma scanDelimited_quoted dc s rest cur vals :
  scanDelimited dc (quoted (escapeChars s) ++ rest)%string false cur vals
  = scanDelimited dc rest false (cur ++ quoted (escapeChars s))%string vals.
Proof.
  rewrite quoted_append.
  assert (H : scanDelimited dc
                (String DOUBLE_QUOTE (escapeChars s ++ String DOUBLE_QUOTE rest)) false
                cur vals
              = scanDelimited dc (escapeChars s ++ String DOUBLE_QUOTE rest)%string true
                  (cur ++ ofChar DOUBLE_QUOTE)%string vals).
  { cbn [scanDelimited]. rewrite Ascii.eqb_refl.
    change (Ascii.eqb DOUBLE_QUOTE BACKSLASH) with false. cbn [andb negb].
    now destruct (escapeChars s ++ String DOUBLE_QUOTE rest)%string. }
  rewrite H, scanDelimited_escaped. f_equal. unfold quoted, ofChar.
  now rewrite !append_assoc, !append_cons, !append_nil.
Qed.

Section Tokens.
Variable numberToString : number -> string.
Variable d : Delimiter.

(** The text of a readable primitive: it reads back, it is one piece for
    [parseDelimitedValues], and it has no white space around it. *)
Lemma readable_token v :
  readable numberToString d v = true ->
  let t := encodePrimitive numberToString v d in
  parsePrimitiveToken t = Return v /\ trim t = t /\ t <> EmptyString
  /\ forall rest cur vals,
       scanDelimited (delimChar d) (t ++ rest)%string false cur vals
       = scanDelimited (delimChar d) rest false (cur ++ t)%string vals.
Proof.
  destruct v as [| |b|x|s|z|iso|items|items|entries|props|proto props|b]; try discriminate.
  - intros _. repeat split; try discriminate. intros rest cur vals.
    apply scanDelimited_bare; [reflexivity|now destruct d].
  - intros _. destruct b; repeat split; try discriminate; intros rest cur vals;
      (apply scanDelimited_bare; [reflexivity|now destruct d]).
  - cbn [readable encodePrimitive]. unfold numberReads.
    rewrite andb_true_iff. intros [Hc Hp]. cbv zeta.
    assert (Hfacts : forall c, numberChar c = true ->
              isWhite c = false /\ Ascii.eqb c DOUBLE_QUOTE = false
              /\ Ascii.eqb c (delimChar d) = false).
    { intros c H. apply numberChar_plain in H. destruct H as (H1 & H2 & _ & _ & _ & H6).
      auto. }
    repeat split.
    + destruct (parsePrimitiveToken (numberToString x)) as [[]| |]; try discriminate.
      now apply number_eqb_eq in Hp; subst.
    + apply trim_noWhite. apply (allChars_impl numberChar); [|exact Hc].
      intros c H. apply negb_true_iff. now apply Hfacts.
    + intros E. rewrite E in Hp. discriminate.
    + intros rest cur vals. apply scanDelimited_bare.
      * apply (find_absent numberChar); [exact Hc|reflexivity].
      * apply (find_absent numberChar); [exact Hc|now destruct d].
  - cbn [readable encodePrimitive]. unfold encodeStringLiteral.
    rewrite negb_true_iff. intros Hn. cbv zeta.
    destruct (isSafeUnquoted s d) eqn:Es.
    + cbn [andb] in Hn. rewrite (parsePrimitiveToken_bare s _ Es), Hn.
      pose proof Es as Hf. apply isSafeUnquoted_facts in Hf.
      destruct Hf as (Hne & Ht & _ & _ & _ & Hq). repeat split; try assumption.
      intros rest cur vals. apply scanDelimited_bare; [exact Hq|].
      unfold isSafeUnquoted in Es.
      repeat match type of Es with
             | (if ?b then false else _) = true =>
                 destruct b eqn:?; [discriminate|]
             end.
      now apply includes_false.
    + rewrite parsePrimitiveToken_quoted, trim_quoted, escapeString_chars.
      repeat split; [discriminate|]. intros rest cur vals. apply scanDelimited_quoted.
Qed.

Lemma scanDelimited_join values : forall vals,
  values <> [] -> forallb (readable numberToString d) values = true ->
  scanDelimited (delimChar d)
    (join (ofChar (delimChar d)) (map (fun v => encodePrimitive numberToString v d) values))
    false EmptyString vals
  = vals ++ map (fun v => encodePrimitive numberToString v d) values.
Proof.
  induction values as [|v vs IH]; intros vals Hne Hr; [congruence|].
  cbn [forallb] in Hr. apply andb_true_iff in Hr. destruct Hr as [Hv Hvs].
  destruct (readable_token v Hv) as (_ & Ht & Hnt & Hscan). cbn [map].
  set (t := encodePrimitive numberToString v d) in *.
  destruct vs as [|v' vs'].
  - cbn [map join]. rewrite <- (append_nil_r t) at 1. rewrite Hscan, append_nil.
    cbn [scanDelimited]. destruct t as [|c r]; [congruence|]. cbn [isEmpty negb orb].
    now rewrite Ht.
  - change (join (ofChar (delimChar d))
              (t :: map (fun v => encodePrimitive numberToString v d) (v' :: vs')))
      with (t ++ ofChar (delimChar d)
              ++ join (ofChar (delimChar d))
                   (map (fun v => encodePrimitive numberToString v d) (v' :: vs')))%string.
    rewrite Hscan, append_nil. unfold ofChar at 1. rewrite append_cons, append_nil.
    assert (Hstep : forall r,
      scanDelimited (delimChar d) (String (delimChar d) r) false t vals
      = scanDelimited (delimChar d) r false EmptyString (vals ++ [trim t])).
    { intros r. cbn [scanDelimited]. rewrite Ascii.eqb_refl.
      replace (Ascii.eqb (delimChar d) DOUBLE_QUOTE) with false by now destruct d.
      rewrite andb_false_r. cbn [andb negb]. now destruct r. }
    rewrite Hstep, Ht, IH by (discriminate || exact Hvs).
    now rewrite <- app_assoc.
Qed.

Lemma mapM_readable values :
  forallb (readable numberToString d) values = true ->
  mapM parsePrimitiveToken (map (fun v => encodePrimitive numberToString v d) values)
  = Return values.
Proof.
  induction values as [|v vs IH]; [reflexivity|]. cbn [forallb map mapM].
  rewrite andb_true_iff. intros [Hv Hvs].
  destruct (readable_token v Hv) as (Hp & _). rewrite Hp. cbn [bind].
  now rewrite IH.
Qed.
End Tokens.

(** X11. The values of an inline array or of a tabular row are read back:
    for every list, not empty, of booleans, [null], strings that are not
    written bare while [isNumericLiteral] accepts them, and numbers whose
    decimal text reads back, [parseDelimitedValues] splits the text that
    [encodeAndJoinPrimitives] wrote into as many pieces, and
    [mapRowValuesToPrimitives] reads the values back, whatever the
    delimiter and whatever delimiters, quotes and backslashes the strings
    hold. *)
Theorem inline_values_read_back (numberToString : number -> string) (d : Delimiter)
    (values : list jsval) :
  values <> [] ->
  forallb (readable numberToString d) values = true ->
  mapRowValuesToPrimitives
    (parseDelimitedValues (encodeAndJoinPrimitives numberToString values d) d)
  = Return values.
Proof.
  intros Hne Hr. unfold mapRowValuesToPrimitives, parseDelimitedValues,
    encodeAndJoinPrimitives.
  rewrite scanDelimited_join by assumption. now apply mapM_readable.
Qed.

Lemma inline_values_read_back_witness :
  let values := [VStr "a,b"; VStr ("say " ++ quoted "hi")%string; VBool false; VNull; VStr "";
                 VStr "5"; VNum (S754_finite false 5629499534213120 (-50)); VStr "x y"] in
  mapRowValuesToPrimitives
    (parseDelimitedValues (encodeAndJoinPrimitives (fun _ => "5") values DComma) DComma)
  = Return values.
Proof.
  intros values. apply (inline_values_read_back (fun _ => "5") DComma values).
  - discriminate.
  - vm_compute. reflexivity.
Defined.

(** ** Element counts in headers *)

Ltac digit_value :=
  repeat match goal with
         | |- context [digitValue ?c] =>
             let v := eval vm_compute in (digitValue c) in change (digitValue c) with v
         end.

Lemma digitsValue_of_uint_acc d : forall acc,
  digitsValue (Zpos acc) (NilEmpty.string_of_uint d) = Zpos (Pos.of_uint_acc d acc).
Proof.
  induction d; intros acc; cbn [NilEmpty.string_of_uint digitsValue Pos.of_uint_acc];
    try reflexivity; digit_value; rewrite <- IHd; f_equal; lia.
Qed.

Lemma digitsValue_of_uint d :
  digitsValue 0 (NilEmpty.string_of_uint d) = Z.of_N (Pos.of_uint d).
Proof.
  induction d; cbn [NilEmpty.string_of_uint digitsValue Pos.of_uint];
    try reflexivity; digit_value; cbn [Z.mul Z.add];
    [exact IHd|apply digitsValue_of_uint_acc..].
Qed.

Lemma string_of_uint_digits d : allChars isDigit (NilEmpty.string_of_uint d) = true.
Proof. induction d; cbn [NilEmpty.string_of_uint allChars]; try reflexivity; exact IHd. Qed.

Lemma intToString_nat n :
  exists d, intToString (Z.of_nat n) = NilEmpty.string_of_uint d
            /\ d <> Decimal.Nil /\ Z.of_N (Pos.of_uint d) = Z.of_nat n.
Proof.
  unfold intToString. destruct (Z.of_nat n) as [|p|p] eqn:E; [| |lia].
  - exists (Decimal.D0 Decimal.Nil). repeat split. discriminate.
  - exists (Pos.to_uint p). cbn [Z.to_int NilZero.string_of_int].
    pose proof (Unsigned.to_uint_nonnil p) as Hn. repeat split.
    + unfold NilZero.string_of_uint. now destruct (Pos.to_uint p).
    + exact Hn.
    + now rewrite Unsigned.of_to.
Qed.

Lemma spanDigits_append a rest :
  allChars isDigit a = true ->
  match rest with String c _ => isDigit c = false | EmptyString => True end ->
  spanDigits (a ++ rest)%string = (a, rest).
Proof.
  intros Ha Hr. induction a as [|x r IH].
  - rewrite append_nil. destruct rest as [|c t]; [reflexivity|]. cbn [spanDigits].
    now rewrite Hr.
  - cbn [allChars] in Ha. apply andb_true_iff in Ha. destruct Ha as [Hx Hr'].
    rewrite append_cons. cbn [spanDigits]. now rewrite Hx, IH.
Qed.

(** The count the emitter prints is the count [parseInt] reads, whatever
    follows it that is no digit. *)
Lemma parseInt_intToString n rest :
  match rest with String c _ => isDigit c = false | EmptyString => True end ->
  parseInt (intToString (Z.of_nat n) ++ rest)%string = Some (Z.of_nat n).
Proof.
  intros Hr. destruct (intToString_nat n) as (d & -> & Hd & Hv).
  pose proof (string_of_uint_digits d) as Hdig.
  destruct (NilEmpty.string_of_uint d) as [|c t] eqn:E.
  { destruct d; [congruence|cbn in E; discriminate..]. }
  pose proof Hdig as Hc. cbn [allChars] in Hc. apply andb_true_iff in Hc.
  destruct Hc as [Hc _].
  assert (Hplain : isWhite c = false /\ c <> "+"%char /\ c <> "-"%char).
  { clear -Hc. destruct c as [[] [] [] [] [] [] [] []]; vm_compute in Hc; try discriminate;
      repeat split; (reflexivity || discriminate). }
  destruct Hplain as (Hw & Hp & Hm).
  unfold parseInt. rewrite append_cons. cbn [trimStart]. rewrite Hw.
  assert (Hbody : (let '(neg, body) :=
                      match String c (t ++ rest) with
                      | String "+" b => (false, b)
                      | String "-" b => (true, b)
                      | _ => (false, String c (t ++ rest)%string)
                      end in
                    match spanDigits body with
                    | (String _ _ as d, _) =>
                        Some (if neg then - digitsValue 0 d else digitsValue 0 d)
                    | _ => None
                    end)
                  = match spanDigits (String c (t ++ rest)) with
                    | (String _ _ as d, _) => Some (digitsValue 0 d)
                    | _ => None
                    end).
  { clear -Hp Hm. destruct c as [[] [] [] [] [] [] [] []]; try reflexivity; congruence. }
  rewrite Hbody, <- append_cons, spanDigits_append by assumption.
  cbv iota beta. now rewrite <- E, digitsValue_of_uint, Hv.
Qed.

(** ** Headers *)

Lemma indexOfFrom_at a b c :
  indexOfFrom (a ++ b)%string c (len a)
  = match find c b with Some i => len a + Z.of_nat i | None => -1 end.
Proof.
  unfold indexOfFrom, len. rewrite Z.max_l by lia. rewrite Nat2Z.id, drop_append.
  reflexivity.
Qed.

Lemma slice_middle a b c :
  slice (a ++ b ++ c)%string (len a) (len a + len b) = b.
Proof.
  unfold slice, clampIndex, len. rewrite !length_append.
  destruct (Z.ltb_spec (Z.of_nat (String.length a)) 0); [lia|].
  destruct (Z.ltb_spec (Z.of_nat (String.length a) + Z.of_nat (String.length b)) 0); [lia|].
  rewrite !Z.min_l by lia.
  replace (Z.to_nat (Z.of_nat (String.length a) + Z.of_nat (String.length b)
                     - Z.of_nat (String.length a))) with (String.length b) by lia.
  rewrite Nat2Z.id, drop_append. apply take_append.
Qed.

Lemma lastChar_append a c : lastChar (a ++ ofChar c)%string = Some c.
Proof.
  induction a as [|x r IH]; [reflexivity|]. rewrite append_cons. cbn [lastChar].
  rewrite IH. destruct (r ++ ofChar c)%string eqn:E; [|reflexivity].
  destruct r; discriminate.
Qed.

Lemma find_digits c a : allChars isDigit a = true -> isDigit c = false -> find c a = None.
Proof. apply find_absent. Qed.

(** The text of a header without fields, for the default delimiter:
    [keyText] is empty or a key written bare. *)
Lemma parseArrayHeaderLine_written keyText marker n tail :
  find OPEN_BRACKET keyText = None ->
  trim keyText = keyText ->
  match keyText with
  | String c _ => isWhite c = false /\ Ascii.eqb c DOUBLE_QUOTE = false
  | EmptyString => True
  end ->
  parseArrayHeaderLine
    (keyText ++ ofChar OPEN_BRACKET ++ (if marker : bool then "#" else "")
       ++ intToString (Z.of_nat n) ++ ofChar CLOSE_BRACKET ++ ofChar COLON ++ tail)%string
    DEFAULT_DELIMITER
  = Return (Some ({| hdr_key := if isEmpty keyText then None else Some keyText;
                     hdr_length := Z.of_nat n; hdr_delimiter := DEFAULT_DELIMITER;
                     hdr_fields := None; hdr_hasLengthMarker := marker |},
                  if isEmpty (trim tail) then None else Some (trim tail))).
Proof.
  intros Hkb Hkt Hk1.
  destruct (intToString_nat n) as (d & Hd & Hdn & Hdv).
  pose proof (string_of_uint_digits d) as Hdig. rewrite <- Hd in Hdig.
  set (D := intToString (Z.of_nat n)) in *.
  set (M := if marker then "#" else "").
  set (B := (M ++ D)%string).
  assert (HB : find CLOSE_BRACKET B = None /\ find OPEN_BRACE B = None).
  { unfold B, M. destruct marker; rewrite ?append_cons, ?append_nil; cbn [find];
      rewrite !(find_digits _ D Hdig) by reflexivity; split; reflexivity. }
  destruct HB as [HBc HBo].
  set (P := (keyText ++ ofChar OPEN_BRACKET ++ B)%string).
  assert (Hcontent :
    (keyText ++ ofChar OPEN_BRACKET ++ M ++ D ++ ofChar CLOSE_BRACKET
       ++ ofChar COLON ++ tail)%string
    = (P ++ String CLOSE_BRACKET (String COLON tail))%string).
  { unfold P, B. unfold ofChar. now rewrite !append_assoc, !append_cons, !append_nil. }
  rewrite Hcontent. set (content := (P ++ String CLOSE_BRACKET (String COLON tail))%string).
  assert (HlenP : len P = len keyText + 1 + len B).
  { unfold P. unfold len, ofChar. rewrite !length_append. cbn [String.length]. lia. }
  assert (Hk0 : 0 <= len keyText) by (unfold len; lia).
  assert (Hb0 : 0 <= len B) by (unfold len; lia).
  assert (Hstart : startsWith (trimStart content) (ofChar DOUBLE_QUOTE) = false).
  { unfold content, P. destruct keyText as [|c r].
    - reflexivity.
    - destruct Hk1 as [Hw Hq]. rewrite !append_cons. cbn [trimStart]. rewrite Hw.
      unfold ofChar. cbn [startsWith]. now rewrite Ascii.eqb_sym, Hq. }
  assert (HbracketStart : indexOf content OPEN_BRACKET = len keyText).
  { unfold content, P. rewrite indexOf_find, !append_assoc. unfold ofChar at 1.
    rewrite append_cons, append_nil. now rewrite find_append. }
  assert (HbracketEnd : indexOfFrom content CLOSE_BRACKET (len keyText) = len P).
  { rewrite HlenP. unfold content, P. rewrite !append_assoc, indexOfFrom_at. unfold ofChar.
    rewrite append_cons, append_nil. cbn [find].
    change (Ascii.eqb OPEN_BRACKET CLOSE_BRACKET) with false. cbv iota.
    rewrite find_append by exact HBc. unfold len. lia. }
  assert (HbraceStart : indexOfFrom content OPEN_BRACE (len P) = -1
                        \/ len P + 2 <= indexOfFrom content OPEN_BRACE (len P)).
  { unfold content. rewrite indexOfFrom_at. cbn [find].
    change (Ascii.eqb CLOSE_BRACKET OPEN_BRACE) with false.
    change (Ascii.eqb COLON OPEN_BRACE) with false. cbv iota.
    destruct (find OPEN_BRACE tail); [right; lia|now left]. }
  assert (Hcolon1 : indexOfFrom content COLON (len P) = len P + 1).
  { unfold content. rewrite indexOfFrom_at. cbn [find].
    change (Ascii.eqb CLOSE_BRACKET COLON) with false. now rewrite Ascii.eqb_refl. }
  assert (Hcontent2 : content = ((P ++ ofChar CLOSE_BRACKET) ++ String COLON tail)%string).
  { unfold content. unfold ofChar. now rewrite append_assoc, append_cons, append_nil. }
  assert (HlenP1 : len (P ++ ofChar CLOSE_BRACKET)%string = len P + 1).
  { unfold len, ofChar. rewrite length_append. cbn [String.length]. lia. }
  assert (Hcolon2 : indexOfFrom content COLON (len P + 1) = len P + 1).
  { rewrite Hcontent2, <- HlenP1, indexOfFrom_at. cbn [find].
    rewrite Ascii.eqb_refl. lia. }
  assert (Hafter : sliceFrom content (len P + 1 + 1) = tail).
  { rewrite Hcontent2, <- HlenP1. apply sliceFrom_after. }
  assert (Hinner : slice content (len keyText + 1) (len P + 1)
                   = (B ++ ofChar CLOSE_BRACKET)%string).
  { assert (Hsplit : content = ((keyText ++ ofChar OPEN_BRACKET)
                                ++ (B ++ ofChar CLOSE_BRACKET) ++ String COLON tail)%string).
    { unfold content, P. unfold ofChar.
      now rewrite !append_assoc, !append_cons, !append_nil. }
    rewrite Hsplit.
    replace (len keyText + 1) with (len (keyText ++ ofChar OPEN_BRACKET)%string)
      by (unfold len, ofChar; rewrite length_append; cbn [String.length]; lia).
    replace (len P + 1)
      with (len (keyText ++ ofChar OPEN_BRACKET)%string
            + len (B ++ ofChar CLOSE_BRACKET)%string)
      by (rewrite HlenP; unfold len, ofChar; rewrite !length_append;
          cbn [String.length]; lia).
    apply slice_middle. }
  assert (Hkey : slice content 0 (len keyText) = keyText).
  { unfold content, P. rewrite !append_assoc. apply slice_prefix. }
  assert (Hseg : parseBracketSegment (B ++ ofChar CLOSE_BRACKET)%string DEFAULT_DELIMITER
                 = Return (Z.of_nat n, DEFAULT_DELIMITER, marker)).
  { unfold parseBracketSegment.
    assert (Hd1 : exists c t, D = String c t /\ isDigit c = true).
    { destruct D as [|c t] eqn:ED.
      - exfalso. destruct d; [congruence|cbn in Hd; discriminate..].
      - cbn [allChars] in Hdig. apply andb_true_iff in Hdig. exists c, t. tauto. }
    destruct Hd1 as (c & t & HD & Hc).
    assert (Hfirst :
      (if startsWith (B ++ ofChar CLOSE_BRACKET)%string "#"
       then (true, sliceFrom (B ++ ofChar CLOSE_BRACKET)%string 1)
       else (false, (B ++ ofChar CLOSE_BRACKET)%string))
      = (marker, (D ++ ofChar CLOSE_BRACKET)%string)).
    { unfold B, M. destruct marker.
      - rewrite !append_cons, append_nil. cbn [startsWith].
        rewrite Ascii.eqb_refl, startsWith_nil. cbn [andb]. f_equal.
        apply (sliceFrom_after EmptyString "#"%char).
      - rewrite append_nil, HD, append_cons. cbn [startsWith].
        destruct (Ascii.eqb_spec "#"%char c) as [<-|]; [discriminate|reflexivity]. }
    rewrite Hfirst. unfold endsWithChar. rewrite lastChar_append.
    change (Ascii.eqb CLOSE_BRACKET TAB) with false.
    change (Ascii.eqb CLOSE_BRACKET PIPE) with false. cbv iota.
    unfold D. now rewrite parseInt_intToString. }
  unfold parseArrayHeaderLine. rewrite Hstart, HbracketStart.
  destruct (Z.eqb_spec (len keyText) (-1)); [lia|].
  rewrite HbracketEnd. destruct (Z.eqb_spec (len P) (-1)); [lia|].
  rewrite Hcolon1.
  set (braceStart := indexOfFrom content OPEN_BRACE (len P)) in *.
  assert (Hcond1 : negb (braceStart =? -1) && (braceStart <? len P + 1) = false).
  { destruct HbraceStart as [-> | H]; [reflexivity|].
    apply andb_false_iff. right. apply Z.ltb_ge. lia. }
  rewrite Hcond1. rewrite Z.max_r by lia. rewrite Hcolon2.
  destruct (Z.eqb_spec (len P + 1) (-1)); [lia|].
  rewrite Hafter, Hinner, Hseg, Hcond1. cbn [bind].
  f_equal. f_equal. f_equal. f_equal.
  destruct keyText as [|c r]; [reflexivity|].
  replace (0 <? len (String c r)) with true
    by (symmetry; apply Z.ltb_lt; unfold len; cbn [String.length]; lia).
  now rewrite Hkey, Hkt.
Qed.

Lemma formatHeader_text n key marker :
  formatHeader n key None DEFAULT_DELIMITER marker
  = ((match key with
      | Some k => if isEmpty k then EmptyString else encodeKey k
      | None => EmptyString
      end)
     ++ ofChar OPEN_BRACKET ++ (if marker then "#" else "")
     ++ intToString (Z.of_nat n) ++ ofChar CLOSE_BRACKET ++ ofChar COLON)%string.
Proof.
  unfold formatHeader. cbn [Delimiter_eqb DEFAULT_DELIMITER].
  now rewrite !append_nil, !append_assoc.
Qed.

Lemma validKey_text k :
  isValidUnquotedKey k = true ->
  encodeKey k = k /\ isEmpty k = false /\ find OPEN_BRACKET k = None /\ trim k = k
  /\ match k with
     | String c _ => isWhite c = false /\ Ascii.eqb c DOUBLE_QUOTE = false
     | EmptyString => True
     end.
Proof.
  intros Hv. pose proof Hv as Hc. apply isValidUnquotedKey_chars in Hc.
  destruct Hc as [Hk Hne]. unfold encodeKey. rewrite Hv. repeat split.
  - now destruct k.
  - now apply (find_absent isKeyChar).
  - apply trim_noWhite. apply (allChars_impl isKeyChar); [|exact Hk].
    intros c Hc. apply isKeyChar_plain in Hc. apply negb_true_iff. tauto.
  - destruct k as [|c r]; [exact I|]. cbn [allChars] in Hk. apply andb_true_iff in Hk.
    destruct Hk as [Hc _]. apply isKeyChar_plain in Hc. tauto.
Qed.

(** X12. A header that [formatHeader] writes for the default delimiter
    and without fields is read back by [parseArrayHeaderLine], whatever
    follows its colon: the key (none, or a key that is written bare), the
    element count and the length marker are those that were written, and
    the text after the colon is returned trimmed, or not at all when it is
    blank. *)
Theorem formatHeader_read_back (n : nat) (key : option string) (marker : bool)
    (tail : string) :
  match key with Some k => isValidUnquotedKey k = true | None => True end ->
  parseArrayHeaderLine (formatHeader n key None DEFAULT_DELIMITER marker ++ tail)%string
    DEFAULT_DELIMITER
  = Return (Some ({| hdr_key := key; hdr_length := Z.of_nat n;
                     hdr_delimiter := DEFAULT_DELIMITER; hdr_fields := None;
                     hdr_hasLengthMarker := marker |},
                  if isEmpty (trim tail) then None else Some (trim tail))).
Proof.
  intros Hk. rewrite formatHeader_text, !append_assoc.
  destruct key as [k|].
  - destruct (validKey_text k Hk) as (-> & Hne & Hb & Ht & H1). rewrite Hne.
    rewrite parseArrayHeaderLine_written by assumption. now rewrite Hne.
  - now rewrite (parseArrayHeaderLine_written EmptyString).
Qed.

Lemma formatHeader_read_back_witness :
  parseArrayHeaderLine (formatHeader 3 (Some "tags") None DEFAULT_DELIMITER false ++ " a,b,c")
    DEFAULT_DELIMITER
  = Return (Some (header (Some "tags") 3 None, Some "a,b,c")).
Proof.
  apply (formatHeader_read_back 3 (Some "tags") false " a,b,c"). reflexivity.
Defined.

(** X13. An array under a key that has to be quoted is not read back:
    whatever the array, its header line starts with the quoted key and an
    opening bracket, [parseArrayHeaderLine] gives up on the quote, and
    [decodeKeyValue] throws the syntax error of a key without colon. *)
Theorem quoted_key_array_unreadable (lines : list ParsedLine) (options : DecodeOptions)
    (fuel : nat) (key : string) (n : nat) (fields : option (list string))
    (delimiter : Delimiter) (marker : bool) (tail : string) (cursor : nat) (baseDepth : Z) :
  key <> EmptyString ->
  isValidUnquotedKey key = false ->
  decodeKeyValue lines options (S fuel)
    (formatHeader n (Some key) fields delimiter marker ++ tail)%string cursor baseDepth
  = Throw (SyntaxError "Missing colon after key").
Proof.
  intros Hne Hv.
  assert (Htext : exists rest,
    (formatHeader n (Some key) fields delimiter marker ++ tail)%string
    = (quoted (escapeChars key) ++ String OPEN_BRACKET rest)%string).
  { unfold formatHeader, encodeKey. rewrite Hv, escapeString_chars.
    destruct key as [|c r]; [congruence|]. cbn [isEmpty]. unfold ofChar at 1.
    rewrite !append_assoc, append_cons, append_nil. eauto. }
  destruct Htext as (rest & ->).
  rewrite decodeKeyValue_S. unfold decodeKeyValue_body.
  assert (Hhdr : parseArrayHeaderLine
                   (quoted (escapeChars key) ++ String OPEN_BRACKET rest)%string
                   DEFAULT_DELIMITER = Return None).
  { unfold parseArrayHeaderLine. rewrite quoted_append. cbn [trimStart].
    change (isWhite DOUBLE_QUOTE) with false. cbv iota. unfold ofChar. cbn [startsWith].
    now rewrite Ascii.eqb_refl, startsWith_nil. }
  rewrite Hhdr. cbn [bind].
  assert (Hkey : parseKeyToken (quoted (escapeChars key) ++ String OPEN_BRACKET rest)%string 0
                 = Throw (SyntaxError "Missing colon after key")).
  { set (e := escapeChars key). unfold parseKeyToken.
    assert (Hq : charIs (quoted e ++ String OPEN_BRACKET rest)%string 0 DOUBLE_QUOTE = true)
      by (rewrite quoted_append; reflexivity).
    rewrite Hq. unfold parseQuotedKey. unfold e. rewrite findClosingQuote_written. fold e.
    assert (He : 0 <= len e) by (unfold len; lia).
    destruct (Z.eqb_spec (len e + 1) (-1)); [lia|].
    assert (Hs : slice (quoted e ++ String OPEN_BRACKET rest)%string (0 + 1) (len e + 1) = e).
    { rewrite quoted_append. unfold slice, clampIndex, len in *. cbn [String.length].
      rewrite length_append. cbn [String.length].
      destruct (Z.ltb_spec (0 + 1) 0); [lia|].
      destruct (Z.ltb_spec (Z.of_nat (String.length e) + 1) 0); [lia|].
      rewrite !Z.min_l by lia.
      replace (Z.to_nat (Z.of_nat (String.length e) + 1 - (0 + 1))) with (String.length e)
        by lia.
      change (Z.to_nat (0 + 1)) with 1%nat. cbn [drop]. apply take_append. }
    rewrite Hs. unfold e at 1. rewrite unescape_escapeChars. cbn [bind].
    assert (Hc : charIs (quoted e ++ String OPEN_BRACKET rest)%string (len e + 1 + 1) COLON
                 = false).
    { unfold charIs, charAt. destruct (Z.ltb_spec (len e + 1 + 1) 0); [lia|].
      replace (Z.to_nat (len e + 1 + 1)) with (String.length (quoted e))
        by (rewrite length_quoted; unfold len; lia).
      now rewrite get_append. }
    rewrite Hc. cbn [negb]. now rewrite orb_true_r. }
  rewrite Hkey. cbn [bind].
  reflexivity.
Qed.

Lemma quoted_key_array_unreadable_witness :
  decodeKeyValue [] strictOptions 1
    (formatHeader 2 (Some "my key") None DEFAULT_DELIMITER false ++ " a,b") 0 0
  = Throw (SyntaxError "Missing colon after key")
  /\ deserialize (document [(quoted "my key" ++ "[2]: a,b")%string; "n: 1"]) None
     = Throw (SyntaxError "Missing colon after key").
Proof.
  split.
  - apply (quoted_key_array_unreadable [] strictOptions 0 "my key" 2 None DEFAULT_DELIMITER
             false " a,b" 0 0); [discriminate|reflexivity].
  - vm_compute. reflexivity.
Defined.

(** ** Blank lines and line numbers *)

Lemma bind_ext {A B} (m : outcome A) (k k' : A -> outcome B) :
  (forall a, k a = k' a) -> bind m k = bind m k'.
Proof. intros H. destruct m; cbn [bind]; [apply H|reflexivity..]. Qed.

Lemma content_textOf l : content (textOf l) = content l.
Proof. reflexivity. Qed.

Lemma depth_textOf l : depth (textOf l) = depth l.
Proof. reflexivity. Qed.

Lemma isKeyValueLine_textOf l : isKeyValueLine (textOf l) = isKeyValueLine l.
Proof. reflexivity. Qed.

Lemma acceptsRow_textOf l d : acceptsRow (textOf l) d = acceptsRow l d.
Proof. reflexivity. Qed.

Section TextOnly.
Variable lines : list ParsedLine.
Variable options : DecodeOptions.

Lemma peek_textOf c : peek (map textOf lines) c = option_map textOf (peek lines c).
Proof. unfold peek. apply nth_error_map. Qed.

Lemma atEnd_textOf c : atEnd (map textOf lines) c = atEnd lines c.
Proof. unfold atEnd. now rewrite length_map. Qed.

Lemma tabularRows_textOf header fields rowDepth rest : forall cursor objects,
  tabularRows options header fields rowDepth (map textOf rest) cursor objects
  = tabularRows options header fields rowDepth rest cursor objects.
Proof.
  induction rest as [|l rest IH]; intros cursor objects; [reflexivity|].
  cbn [map tabularRows]. rewrite depth_textOf, content_textOf, acceptsRow_textOf.
  destruct (negb _); [reflexivity|]. destruct (depth l <? rowDepth); [reflexivity|].
  destruct (depth l =? rowDepth); [|reflexivity].
  destruct (acceptsRow l _); [|reflexivity].
  apply bind_ext. intros _. apply bind_ext. intros primitives. apply IH.
Qed.

Lemma decodeTabularArray_textOf header cursor baseDepth :
  decodeTabularArray (map textOf lines) options header cursor baseDepth
  = decodeTabularArray lines options header cursor baseDepth.
Proof.
  unfold decodeTabularArray. now rewrite skipn_map, tabularRows_textOf.
Qed.

Ltac text_step :=
  first
    [ reflexivity
    | match goal with H : _ |- _ => rewrite H end
    | apply bind_ext; intros
    | match goal with
      | |- context [peek lines ?c] =>
          destruct (peek lines c); cbn [option_map];
          rewrite ?content_textOf, ?depth_textOf
      end
    | match goal with
      | |- (if ?b then _ else _) = _ => destruct b
      | |- match ?x with _ => _ end = _ => destruct x
      end ].

Ltac text_only :=
  cbv zeta; rewrite ?peek_textOf, ?atEnd_textOf, ?decodeTabularArray_textOf;
  repeat text_step.

(** The recursive decoder reads nothing of a line but its depth and its
    content. *)
Lemma decoder_textOf fuel :
  (forall content c d,
      decodeKeyValue (map textOf lines) options fuel content c d
      = decodeKeyValue lines options fuel content c d)
  /\ (forall c d obj,
         decodeObject (map textOf lines) options fuel c d obj
         = decodeObject lines options fuel c d obj)
  /\ (forall hdr iv c d,
         decodeArrayFromHeader (map textOf lines) options fuel hdr iv c d
         = decodeArrayFromHeader lines options fuel hdr iv c d)
  /\ (forall hdr c d items,
         decodeListArray (map textOf lines) options fuel hdr c d items
         = decodeListArray lines options fuel hdr c d items)
  /\ (forall c d dl,
         decodeListItem (map textOf lines) options fuel c d dl
         = decodeListItem lines options fuel c d dl)
  /\ (forall l c d,
         decodeObjectFromListItem (map textOf lines) options fuel (textOf l) c d
         = decodeObjectFromListItem lines options fuel l c d)
  /\ (forall c d obj,
         decodeListItemFields (map textOf lines) options fuel c d obj
         = decodeListItemFields lines options fuel c d obj).
Proof.
  induction fuel as [|fuel (IHkv & IHobj & IHarr & IHlist & IHitem & IHfirst & IHfields)];
    [repeat split; reflexivity|].
  repeat split; intros.
  - rewrite !decodeKeyValue_S. unfold decodeKeyValue_body. text_only.
  - rewrite !decodeObject_S. unfold decodeObject_body. text_only.
  - rewrite !decodeArrayFromHeader_S. unfold decodeArrayFromHeader_body. text_only.
  - rewrite !decodeListArray_S. unfold decodeListArray_body. text_only.
  - rewrite !decodeListItem_S. unfold decodeListItem_body. text_only.
  - rewrite !decodeObjectFromListItem_S. unfold decodeObjectFromListItem_body.
    rewrite content_textOf. text_only.
  - rewrite !decodeListItemFields_S. unfold decodeListItemFields_body. text_only.
Qed.

Lemma decodeValueFromLines_textOf fuel :
  decodeValueFromLines (map textOf lines) options fuel
  = decodeValueFromLines lines options fuel.
Proof.
  destruct (decoder_textOf fuel) as (_ & Hobj & Harr & _).
  unfold decodeValueFromLines. rewrite peek_textOf, length_map.
  destruct (peek lines 0) as [first|]; [|reflexivity]. cbn [option_map].
  rewrite content_textOf, isKeyValueLine_textOf.
  destruct (isArrayHeaderAfterHyphen (content first)).
  - apply bind_ext. intros [[header inlineValues]|].
    + now rewrite Harr.
    + destruct (_ && _); [reflexivity|]. now rewrite Hobj.
  - destruct (_ && _); [reflexivity|]. now rewrite Hobj.
Qed.
End TextOnly.

Lemma scanLines_text size strict todo : forall n parsed blank,
  strict && existsb (badIndent size) (List.filter nonBlank todo) = false ->
  exists p' b,
    scanLines todo n size strict parsed blank = Return (parsed ++ p', b)
    /\ map textOf p' = map (scanned size) (List.filter nonBlank todo).
Proof.
  induction todo as [|ln rest IH]; intros n parsed blank Hok.
  - exists [], blank. now rewrite app_nil_r.
  - cbn [scanLines]. rewrite isEmpty_trim, allWhite_content.
    cbn [List.filter] in Hok |- *.
    destruct (allChars isWhite ln) eqn:Ew.
    + assert (Hnb : nonBlank ln = false) by (unfold nonBlank; now rewrite Ew).
      rewrite Hnb in Hok |- *. now apply IH.
    + assert (Hnb : nonBlank ln = true) by (unfold nonBlank; now rewrite Ew).
      rewrite Hnb in Hok |- *. cbn [existsb] in Hok.
      assert (H1 : strict && includes (slice ln 0 (countWhile isSpaceOrTab ln)) TAB
                   = false).
      { destruct strict; [|reflexivity]. cbn [andb] in *. unfold badIndent in Hok.
        apply orb_false_iff in Hok. destruct Hok as [Hok _].
        apply orb_false_iff in Hok. tauto. }
      assert (H2 : strict && (0 <? countWhile isSpace ln)
                   && negb (countWhile isSpace ln mod size =? 0) = false).
      { destruct strict; [|reflexivity]. cbn [andb] in *. unfold badIndent in Hok.
        apply orb_false_iff in Hok. destruct Hok as [Hok _].
        apply orb_false_iff in Hok. tauto. }
      assert (H3 : strict && existsb (badIndent size) (List.filter nonBlank rest) = false).
      { destruct strict; [|reflexivity]. cbn [andb] in *.
        apply orb_false_iff in Hok. tauto. }
      rewrite H1, H2.
      set (line := {| raw := ln; indent := countWhile isSpace ln;
                      content := sliceFrom ln (countWhile isSpace ln);
                      depth := computeDepthFromIndent (countWhile isSpace ln) size;
                      lineNumber := n |}).
      destruct (IH (n + 1) (parsed ++ [line]) blank H3) as (p' & b & Hscan & Hmap).
      exists (line :: p'), b. rewrite Hscan, <- app_assoc. split; [reflexivity|].
      cbn [map]. now rewrite Hmap.
Qed.

(** The lines that [toParsedLines] hands to the decoder: the depth and
    the content of each line of the text that is not blank. *)
Lemma toParsedLines_text source strict :
  strict && existsb (badIndent DEFAULT_INDENT_SIZE)
              (List.filter nonBlank (splitOn NEWLINE source)) = false ->
  exists p b,
    toParsedLines source DEFAULT_INDENT_SIZE strict = Return (p, b)
    /\ map textOf p
       = map (scanned DEFAULT_INDENT_SIZE) (List.filter nonBlank (splitOn NEWLINE source)).
Proof.
  intros Hok. unfold toParsedLines. rewrite isEmpty_trim.
  destruct (allChars isWhite source) eqn:Ew.
  - exists [], []. split; [reflexivity|]. rewrite <- allWhite_splitOn in Ew.
    induction (splitOn NEWLINE source) as [|ln rest IH]; [reflexivity|].
    cbn [forallb] in Ew. apply andb_true_iff in Ew. destruct Ew as [Hl Hr].
    assert (Hnb : nonBlank ln = false) by (unfold nonBlank; now rewrite Hl).
    cbn [List.filter] in Hok |- *. rewrite Hnb in Hok |- *. now apply IH.
  - destruct (scanLines_text DEFAULT_INDENT_SIZE strict (splitOn NEWLINE source) 1 [] [] Hok)
      as (p' & b & Hscan & Hmap).
    exists p', b. now split.
Qed.

(** X14. Blank lines and line numbers mean nothing to [deserialize]: two
    texts that have the same lines once the lines made of white space
    only are left out are decoded alike, to the same value or the same
    exception, in both modes and wherever the blank lines stand, also
    between the items of an array or the rows of a table.  In strict
    mode this is said of texts whose indentation the line scanner does
    not refuse. *)
Theorem blank_lines_ignored (source1 source2 : string) (strict : option bool) :
  List.filter nonBlank (splitOn NEWLINE source1)
  = List.filter nonBlank (splitOn NEWLINE source2) ->
  resolveStrict strict
  && existsb (badIndent DEFAULT_INDENT_SIZE)
       (List.filter nonBlank (splitOn NEWLINE source1)) = false ->
  deserialize source1 strict = deserialize source2 strict.
Proof.
  intros Hsame Hok. unfold deserialize. cbn [dec_indent dec_strict].
  change (match strict with Some b => b | None => false end) with (resolveStrict strict).
  destruct (toParsedLines_text source1 (resolveStrict strict) Hok)
    as (p1 & b1 & -> & Hmap1).
  rewrite Hsame in Hok, Hmap1.
  destruct (toParsedLines_text source2 (resolveStrict strict) Hok)
    as (p2 & b2 & -> & Hmap2).
  rewrite <- Hmap2 in Hmap1. cbn [bind fst].
  destruct p1 as [|l1 r1], p2 as [|l2 r2]; try discriminate; [reflexivity|].
  assert (Hlen : List.length (l1 :: r1) = List.length (l2 :: r2)).
  { rewrite <- (length_map textOf (l1 :: r1)), Hmap1. apply length_map. }
  rewrite <- (decodeValueFromLines_textOf (l1 :: r1)),
    <- (decodeValueFromLines_textOf (l2 :: r2)).
  unfold decodeBudget. now rewrite Hmap1, Hlen.
Qed.

Lemma blank_lines_ignored_witness :
  deserialize (document ["items[2]:"; ""; "  - a: 1"; "   "; "    b: x"; "";
                         "  - a: 2"; "    b: y"; ""]) (Some true)
  = deserialize (document ["items[2]:"; "  - a: 1"; "    b: x"; "  - a: 2"; "    b: y"])
      (Some true).
Proof.
  apply blank_lines_ignored; vm_compute; reflexivity.
Defined.

(** ** The delimiter of a header *)

Lemma find_split c s i :
  find c s = Some i ->
  exists a r, s = (a ++ String c r)%string /\ String.length a = i.
Proof.
  revert i. induction s as [|x s IH]; intros i H; [discriminate|].
  cbn [find] in H. destruct (Ascii.eqb_spec x c) as [->|Hne].
  - injection H as <-. now exists EmptyString, s.
  - destruct (find c s) as [j|]; [|discriminate]. injection H as <-.
    destruct (IH j eq_refl) as (a & r & -> & Hl). exists (String x a), r.
    split; [reflexivity|]. cbn [String.length]. now rewrite Hl.
Qed.

Lemma take_drop n s :
  s = (take n s ++ drop n s)%string
  /\ (drop n s <> EmptyString -> String.length (take n s) = n).
Proof.
  revert s. induction n as [|n IH]; intros s.
  - destruct s; split; reflexivity.
  - destruct s as [|x s]; [split; [reflexivity|intros H; now elim H]|].
    cbn [take drop]. destruct (IH s) as [H1 H2]. split.
    + rewrite append_cons. now rewrite <- H1.
    + intros H. cbn [String.length]. now rewrite H2.
Qed.

(** Where [indexOf] finds a character, the character stands. *)
Lemma indexOfFrom_split s c from j :
  indexOfFrom s c from = j -> j <> -1 ->
  exists a r, s = (a ++ String c r)%string /\ len a = j /\ Z.max from 0 <= j.
Proof.
  unfold indexOfFrom. cbv zeta.
  destruct (find c (drop (Z.to_nat (Z.max from 0)) s)) as [i|] eqn:Ef; [|congruence].
  intros <- _. destruct (find_split _ _ _ Ef) as (a & r & Hd & Hl).
  destruct (take_drop (Z.to_nat (Z.max from 0)) s) as [Hs Hn].
  rewrite Hd in Hs, Hn.
  exists (take (Z.to_nat (Z.max from 0)) s ++ a)%string, r. repeat split.
  - now rewrite append_assoc.
  - unfold len. rewrite length_append, Hn, Hl by (destruct a; discriminate). lia.
  - lia.
Qed.

Lemma drop_inside k a b :
  (k <= String.length a)%nat -> drop k (a ++ b)%string = (drop k a ++ b)%string.
Proof.
  revert a. induction k as [|k IH]; intros a H; [now destruct a|].
  destruct a as [|x a]; [cbn in H; lia|]. cbn [String.length] in H.
  rewrite append_cons. cbn [drop]. apply IH. lia.
Qed.

Lemma length_drop k a : String.length (drop k a) = (String.length a - k)%nat.
Proof.
  revert a. induction k as [|k IH]; intros a; [destruct a; cbn; lia|].
  destruct a as [|x a]; [reflexivity|]. cbn [drop String.length]. now rewrite IH.
Qed.

(** The slice that ends just after a character ends with it. *)
Lemma lastChar_slice a c r k :
  0 <= k <= len a ->
  lastChar (slice (a ++ String c r)%string k (len a + 1)) = Some c.
Proof.
  intros Hk. unfold slice, clampIndex, len in *. rewrite length_append. cbn [String.length].
  destruct (Z.ltb_spec k 0); [lia|].
  destruct (Z.ltb_spec (Z.of_nat (String.length a) + 1) 0); [lia|].
  rewrite !Z.min_l by lia.
  rewrite drop_inside by lia.
  replace (Z.to_nat (Z.of_nat (String.length a) + 1 - k))
    with (String.length (drop (Z.to_nat k) a ++ ofChar c)%string)
    by (rewrite length_append, length_drop; cbn [String.length ofChar]; lia).
  change (String c r) with (ofChar c ++ r)%string. rewrite <- append_assoc.
  rewrite take_append. apply lastChar_append.
Qed.

(** A bracket segment that ends with a character other than a tab, a
    pipe and a hash mark has no delimiter of its own. *)
Lemma parseBracketSegment_default seg d c n dl marker :
  lastChar seg = Some c ->
  Ascii.eqb c TAB = false -> Ascii.eqb c PIPE = false -> Ascii.eqb c "#" = false ->
  parseBracketSegment seg d = Return (n, dl, marker) -> dl = d.
Proof.
  intros Hl Ht Hp Hh. unfold parseBracketSegment.
  assert (Hrest : lastChar (if startsWith seg "#" then sliceFrom seg 1 else seg) = Some c).
  { destruct (startsWith seg "#") eqn:Es; [|exact Hl].
    destruct seg as [|x rest]; [discriminate|]. cbn [startsWith] in Es.
    apply andb_true_iff in Es. destruct Es as [Ex _]. apply Ascii.eqb_eq in Ex. subst x.
    destruct rest as [|y rest].
    - cbn in Hl. injection Hl as <-. discriminate.
    - replace (sliceFrom (String "#" (String y rest)) 1) with (String y rest); [exact Hl|].
      unfold sliceFrom, clampIndex, len. cbn [String.length Z.ltb Z.compare].
      now rewrite Z.min_l by lia. }
  destruct (startsWith seg "#"); unfold endsWithChar; rewrite Hrest, Ht, Hp;
    destruct (parseInt _); intros H; now inversion H.
Qed.

(** X16. The delimiter written in a header is never read: whatever the
    line, the header that [parseArrayHeaderLine] returns has the delimiter
    it was given as the default.  The text it hands to
    [parseBracketSegment] runs up to the closing bracket or brace, that
    bracket or brace included, so the test for a tab or a pipe at its end
    never holds. *)
Theorem header_delimiter_never_read (content : string) (defaultDelimiter : Delimiter)
    (header : ArrayHeader) (inlineValues : option string) :
  parseArrayHeaderLine content defaultDelimiter = Return (Some (header, inlineValues)) ->
  hdr_delimiter header = defaultDelimiter.
Proof.
  unfold parseArrayHeaderLine.
  destruct (startsWith _ _); [discriminate|].
  destruct (Z.eqb_spec (indexOf content OPEN_BRACKET) (-1)) as [|Hbs]; [discriminate|].
  destruct (indexOfFrom_split content OPEN_BRACKET 0 _ eq_refl Hbs)
    as (a0 & r0 & Hc0 & Hl0 & Hge0).
  fold (indexOf content OPEN_BRACKET) in Hl0, Hge0.
  set (bs := indexOf content OPEN_BRACKET) in *.
  destruct (Z.eqb_spec (indexOfFrom content CLOSE_BRACKET bs) (-1)) as [|Hbe];
    [discriminate|].
  destruct (indexOfFrom_split content CLOSE_BRACKET bs _ eq_refl Hbe)
    as (a1 & r1 & Hc1 & Hl1 & Hge1).
  set (be := indexOfFrom content CLOSE_BRACKET bs) in *.
  assert (Hlt : bs < be).
  { destruct (Z.eq_dec bs be) as [E|]; [|lia]. exfalso.
    pose proof (get_append a0 OPEN_BRACKET r0) as G0.
    pose proof (get_append a1 CLOSE_BRACKET r1) as G1.
    rewrite <- Hc0 in G0. rewrite <- Hc1 in G1.
    replace (String.length a1) with (String.length a0) in G1 by (unfold len in *; lia).
    rewrite G0 in G1. discriminate. }
  cbv zeta.
  set (braceStart := indexOfFrom content OPEN_BRACE be).
  set (braceEnd := if negb (braceStart =? -1) && (braceStart <? indexOfFrom content COLON be)
                   then if negb (indexOfFrom content CLOSE_BRACE braceStart =? -1)
                        then indexOfFrom content CLOSE_BRACE braceStart + 1
                        else be + 1
                   else be + 1).
  assert (Hlast : exists c, lastChar (slice content (bs + 1) braceEnd) = Some c
                            /\ (c = CLOSE_BRACKET \/ c = CLOSE_BRACE)).
  { assert (Hdefault : lastChar (slice content (bs + 1) (be + 1)) = Some CLOSE_BRACKET).
    { rewrite Hc1 at 1. rewrite <- Hl1. apply lastChar_slice. unfold len in *. lia. }
    unfold braceEnd.
    destruct (negb (braceStart =? -1) && _) eqn:E1; [|eauto].
    destruct (Z.eqb_spec (indexOfFrom content CLOSE_BRACE braceStart) (-1)) as [|Hfe];
      [eauto|]. cbn [negb].
    apply andb_true_iff in E1. destruct E1 as [E1 _]. apply negb_true_iff in E1.
    apply Z.eqb_neq in E1.
    destruct (indexOfFrom_split content OPEN_BRACE be _ eq_refl E1)
      as (a2 & r2 & Hc2 & Hl2 & Hge2).
    destruct (indexOfFrom_split content CLOSE_BRACE braceStart _ eq_refl Hfe)
      as (a3 & r3 & Hc3 & Hl3 & Hge3).
    exists CLOSE_BRACE. split; [|now right].
    rewrite Hc3 at 1. rewrite <- Hl3. apply lastChar_slice.
    fold braceStart in Hl2, Hge2. unfold len in *. lia. }
  destruct Hlast as (c & Hlast & Hc).
  destruct (indexOfFrom content COLON (Z.max be braceEnd) =? -1); [discriminate|].
  destruct (parseBracketSegment (slice content (bs + 1) braceEnd) defaultDelimiter)
    as [[[n dl] marker]|e|] eqn:Eseg; try discriminate.
  assert (Hdl : dl = defaultDelimiter).
  { apply (parseBracketSegment_default _ _ c n dl marker Hlast); [| | |exact Eseg];
      destruct Hc as [-> | ->]; reflexivity. }
  subst dl.
  match goal with
  | |- bind ?m _ = _ -> _ => destruct m as [fields|e|]; cbn [bind]; try discriminate
  end.
  intros H. injection H as <- _. reflexivity.
Qed.

Lemma header_delimiter_never_read_witness :
  let items := VArr [VStr "a"; VStr "b"] in
  hdr_delimiter (header (Some "tags") 2 None) = DComma
  /\ parseArrayHeaderLine "tags[2|]: a|b" DComma
     = Return (Some (header (Some "tags") 2 None, Some "a|b"))
  /\ serialize (fun _ => "0") 0 ∅ (HTree items) (Some DPipe) = Return "[2|]: a|b"
  /\ deserialize "[2|]: a|b" None = Return (VArr [VStr "a|b"])
  /\ deserialize "[2|]: a|b" (Some true) = Throw (CountMismatch 2 1 "inline array items").
Proof.
  split; [|repeat split; vm_compute; reflexivity].
  apply (header_delimiter_never_read "tags[2|]: a|b" DComma (header (Some "tags") 2 None)
           (Some "a|b")).
  vm_compute. reflexivity.
Defined.

(** ** Round trip: texts and lines *)

Lemma includes_append a b c : includes (a ++ b)%string c = includes a c || includes b c.
Proof.
  unfold includes. induction a as [|x r IH]; [reflexivity|]. rewrite append_cons.
  cbn [find]. destruct (Ascii.eqb x c); [reflexivity|].
  destruct (find c (r ++ b)%string), (find c r); cbn [orb] in *; congruence.
Qed.

Lemma define_first key (v : jsval) : JsObject.define [] key v = [(key, v)].
Proof. unfold JsObject.define. cbn. now destruct (JsObject.arrayIndex key). Qed.

Lemma linesAt_skipn lines items : forall c,
  linesAt lines c items -> startsWithItems (skipn c lines) items.
Proof.
  induction items as [|it r IH]; intros c H; [exact I|]. cbn [linesAt] in H.
  unfold peek in H. destruct (nth_error lines c) as [l|] eqn:E; [|contradiction].
  destruct H as (Hd & Hc & Hr).
  assert (Hs : skipn c lines = l :: skipn (S c) lines).
  { clear -E. revert lines E. induction c as [|c IHc]; intros [|x xs] E; try discriminate.
    - now inversion E.
    - cbn [nth_error] in E. change (skipn (S c) (x :: xs)) with (skipn c xs).
      now rewrite (IHc xs E). }
  rewrite Hs. cbn [startsWithItems]. repeat split; try assumption. now apply IH.
Qed.

Lemma trimEnd_append a b :
  trimEnd b = b -> b <> EmptyString -> trimEnd (a ++ b)%string = (a ++ b)%string.
Proof.
  intros Hb Hne. induction a as [|c r IH]; [now rewrite append_nil|].
  rewrite append_cons. cbn [trimEnd]. rewrite IH.
  destruct (r ++ b)%string eqn:E; [|reflexivity].
  destruct r; [rewrite append_nil in E; congruence|rewrite append_cons in E; discriminate].
Qed.

Lemma trim_append a m b :
  trim a = a -> a <> EmptyString -> trim b = b -> b <> EmptyString ->
  trim (a ++ m ++ b)%string = (a ++ m ++ b)%string.
Proof.
  intros Ha Hane Hb Hbne.
  destruct (trim_fixed_first a Ha Hane) as (c & t & -> & Hc).
  destruct (trim_fixed_first b Hb Hbne) as (c' & t' & Eb & Hc').
  unfold trim. rewrite append_cons. cbn [trimStart]. rewrite Hc.
  rewrite <- append_cons, <- append_assoc. apply trimEnd_append; [|exact Hbne].
  unfold trim in Hb. rewrite Eb in Hb |- *. cbn [trimStart] in Hb. now rewrite Hc' in Hb.
Qed.

Lemma find_join c sep parts :
  find c sep = None -> Forall (fun p => find c p = None) parts ->
  find c (join sep parts) = None.
Proof.
  intros Hs H. induction H as [|p ps Hp Hps IH]; [reflexivity|].
  destruct ps as [|q qs]; [exact Hp|].
  change (join sep (p :: q :: qs)) with (p ++ sep ++ join sep (q :: qs))%string.
  rewrite find_app_None by exact Hp. rewrite find_app_None by exact Hs. now rewrite IH.
Qed.

Lemma scanUnquoted_plain char a rest : forall i,
  find DOUBLE_QUOTE a = None -> find char a = None ->
  Ascii.eqb char DOUBLE_QUOTE = false ->
  scanUnquoted char (a ++ String char rest)%string false i = i + len a.
Proof.
  induction a as [|c r IH]; intros i Hq Hc Hd.
  - rewrite append_nil. cbn [scanUnquoted]. rewrite Hd, Ascii.eqb_refl, andb_false_r.
    cbn [andb negb]. unfold len. cbn [String.length]. destruct rest; lia.
  - rewrite append_cons. cbn [find] in Hq, Hc.
    destruct (Ascii.eqb c DOUBLE_QUOTE) eqn:Eq; [discriminate|].
    destruct (Ascii.eqb c char) eqn:Ec; [discriminate|].
    assert (Hq' : find DOUBLE_QUOTE r = None) by (destruct (find DOUBLE_QUOTE r); congruence).
    assert (Hc' : find char r = None) by (destruct (find char r); congruence).
    cbn [scanUnquoted]. rewrite Eq, Ec, andb_false_r. cbn [andb].
    rewrite (IH (i + 1) Hq' Hc' Hd). unfold len. cbn [String.length].
    destruct (r ++ String char rest)%string eqn:E; [|lia].
    destruct r; [rewrite append_nil in E|rewrite append_cons in E]; discriminate.
Qed.

Section Tokens2.
Variable numberToString : number -> string.

Lemma readable_primitive d v : readable numberToString d v = true -> isJsonPrimitive v = true.
Proof. destruct v; try discriminate; reflexivity. Qed.

Lemma readable_primitives d items :
  forallb (readable numberToString d) items = true -> isArrayOfPrimitives items = true.
Proof.
  unfold isArrayOfPrimitives. induction items as [|v vs IH]; [reflexivity|].
  cbn [forallb]. rewrite !andb_true_iff. intros [Hv Hvs].
  split; [now apply (readable_primitive d)|now apply IH].
Qed.

Lemma encodeArray_inline key items d w :
  isArrayOfPrimitives items = true ->
  encodeArray numberToString (resolveOptions None)
    (encodeListItemValue numberToString (resolveOptions None)) key items d w
  = w ++ [renderLine (d, encodeInlineArrayLine numberToString items DEFAULT_DELIMITER
                           key false)].
Proof.
  intros H. destruct items as [|v vs]; [reflexivity|].
  unfold encodeArray. now rewrite H.
Qed.

Lemma readable_no_newline d v :
  readable numberToString d v = true ->
  find NEWLINE (encodePrimitive numberToString v d) = None.
Proof.
  destruct v as [| |b|x|s|z|iso|items|items|entries|props|proto props|b]; try discriminate.
  - reflexivity.
  - now destruct b.
  - cbn [readable encodePrimitive]. unfold numberReads. rewrite andb_true_iff.
    intros [Hc _]. now apply (find_absent numberChar).
  - intros _. cbn [encodePrimitive]. unfold encodeStringLiteral.
    destruct (isSafeUnquoted s d) eqn:Es.
    + apply isSafeUnquoted_facts in Es. tauto.
    + rewrite escapeString_chars. apply find_quoted; [reflexivity|].
      apply find_escapeChars_newline.
Qed.

(** The values of an inline array, joined: one line that reads back,
    without white space around it. *)
Lemma joined_facts items :
  items <> [] -> forallb (readable numberToString DEFAULT_DELIMITER) items = true ->
  let j := encodeAndJoinPrimitives numberToString items DEFAULT_DELIMITER in
  trim j = j /\ j <> EmptyString /\ find NEWLINE j = None
  /\ mapRowValuesToPrimitives (parseDelimitedValues j DEFAULT_DELIMITER) = Return items.
Proof.
  intros Hne Hr. cbv zeta. unfold encodeAndJoinPrimitives.
  assert (Htight : forall vs, vs <> [] ->
            forallb (readable numberToString DEFAULT_DELIMITER) vs = true ->
            let j := join (ofChar (delimChar DEFAULT_DELIMITER))
                       (map (fun v => encodePrimitive numberToString v DEFAULT_DELIMITER) vs) in
            trim j = j /\ j <> EmptyString).
  { induction vs as [|v vs IH]; [congruence|]. intros _ H. cbn [forallb] in H.
    apply andb_true_iff in H. destruct H as [Hv Hvs].
    destruct (readable_token numberToString DEFAULT_DELIMITER v Hv) as (_ & Ht & Hnt & _).
    destruct vs as [|v' vs']; [now split|].
    destruct IH as [IHt IHne]; [discriminate|exact Hvs|]. cbv zeta.
    change (join (ofChar (delimChar DEFAULT_DELIMITER))
              (map (fun v => encodePrimitive numberToString v DEFAULT_DELIMITER)
                 (v :: v' :: vs')))
      with (encodePrimitive numberToString v DEFAULT_DELIMITER
              ++ ofChar (delimChar DEFAULT_DELIMITER)
              ++ join (ofChar (delimChar DEFAULT_DELIMITER))
                   (map (fun v => encodePrimitive numberToString v DEFAULT_DELIMITER)
                      (v' :: vs')))%string.
    split; [now apply trim_append|].
    destruct (encodePrimitive numberToString v DEFAULT_DELIMITER); [congruence|discriminate]. }
  destruct (Htight items Hne Hr) as [Ht Hn]. repeat split; try assumption.
  - apply find_join; [reflexivity|]. apply List.Forall_forall. intros t Hin.
    apply in_map_iff in Hin. destruct Hin as (v & <- & Hin).
    apply readable_no_newline. rewrite forallb_forall in Hr. now apply Hr.
  - unfold mapRowValuesToPrimitives, parseDelimitedValues.
    rewrite scanDelimited_join by assumption. now apply mapM_readable.
Qed.

(** The line of an inline array: its header, and its values after a
    space. *)
Lemma arrayLine_text key items :
  encodeInlineArrayLine numberToString items DEFAULT_DELIMITER key false
  = (formatHeader (List.length items) key None DEFAULT_DELIMITER false
       ++ match items with
          | [] => EmptyString
          | _ => String " " (encodeAndJoinPrimitives numberToString items DEFAULT_DELIMITER)
          end)%string.
Proof. destruct items; [now rewrite append_nil_r|reflexivity]. Qed.

Lemma arrayTail_facts items :
  forallb (readable numberToString DEFAULT_DELIMITER) items = true ->
  let tail := match items with
              | [] => EmptyString
              | _ => String " " (encodeAndJoinPrimitives numberToString items
                                   DEFAULT_DELIMITER)
              end in
  find NEWLINE tail = None
  /\ trim tail = match items with
                 | [] => EmptyString
                 | _ => encodeAndJoinPrimitives numberToString items DEFAULT_DELIMITER
                 end.
Proof.
  intros Hr. destruct items as [|v vs]; [now split|].
  destruct (joined_facts (v :: vs)) as (Ht & _ & Hn & _); [discriminate|exact Hr|].
  cbv zeta. split.
  - cbn [find]. change (Ascii.eqb " " NEWLINE) with false. cbv iota. now rewrite Hn.
  - exact Ht.
Qed.

Lemma formatHeader_no_newline n key marker :
  find NEWLINE (formatHeader n key None DEFAULT_DELIMITER marker) = None.
Proof.
  rewrite formatHeader_text.
  destruct (intToString_nat n) as (d & Hd & _ & _).
  pose proof (string_of_uint_digits d) as Hdig. rewrite <- Hd in Hdig.
  assert (Hk : find NEWLINE match key with
                            | Some k => if isEmpty k then EmptyString else encodeKey k
                            | None => EmptyString
                            end = None).
  { destruct key as [k|]; [|reflexivity]. destruct (isEmpty k); [reflexivity|].
    apply encodeKey_no_newline. }
  rewrite find_app_None by exact Hk.
  rewrite (find_app_None _ (ofChar OPEN_BRACKET)) by reflexivity.
  rewrite (find_app_None _ (if marker then "#" else EmptyString))
    by (now destruct marker).
  rewrite (find_app_None _ (intToString (Z.of_nat n)))
    by (now apply (find_digits NEWLINE)).
  reflexivity.
Qed.

Lemma arrayLine_no_newline key items :
  forallb (readable numberToString DEFAULT_DELIMITER) items = true ->
  find NEWLINE (encodeInlineArrayLine numberToString items DEFAULT_DELIMITER key false)
  = None.
Proof.
  intros Hr. rewrite arrayLine_text.
  rewrite find_app_None by apply formatHeader_no_newline.
  destruct (arrayTail_facts items Hr) as [Hn _]. cbv zeta in Hn. now rewrite Hn.
Qed.

(** The line of an inline array under a key that is written bare, or
    under no key: the key, the bracket, and what follows the colon. *)
Lemma arrayLine_shape key items :
  match key with Some k => isValidUnquotedKey k = true | None => True end ->
  exists keyText tail,
    encodeInlineArrayLine numberToString items DEFAULT_DELIMITER key false
    = (keyText ++ ofChar OPEN_BRACKET ++ EmptyString
         ++ intToString (Z.of_nat (List.length items))
         ++ ofChar CLOSE_BRACKET ++ ofChar COLON ++ tail)%string
    /\ keyText = match key with Some k => k | None => EmptyString end
    /\ tail = match items with
              | [] => EmptyString
              | _ => String " " (encodeAndJoinPrimitives numberToString items
                                   DEFAULT_DELIMITER)
              end.
Proof.
  intros Hk. do 2 eexists. split; [|split; reflexivity].
  rewrite arrayLine_text, formatHeader_text, !append_assoc.
  destruct key as [k|]; [|reflexivity].
  destruct (validKey_text k Hk) as (-> & -> & _). reflexivity.
Qed.

(** A line that starts with the bracket of a header is taken for a
    header. *)
Lemma bracketLine_header n tail :
  isArrayHeaderAfterHyphen
    (ofChar OPEN_BRACKET ++ intToString (Z.of_nat n) ++ ofChar CLOSE_BRACKET
       ++ ofChar COLON ++ tail)%string
  = true.
Proof.
  unfold isArrayHeaderAfterHyphen. apply andb_true_iff. split.
  - unfold ofChar at 1. rewrite append_cons.
    destruct (trim_first OPEN_BRACKET
                (EmptyString ++ intToString (Z.of_nat n) ++ ofChar CLOSE_BRACKET
                   ++ ofChar COLON ++ tail)%string eq_refl) as (t' & ->).
    unfold ofChar. cbn [startsWith]. now rewrite Ascii.eqb_refl, startsWith_nil.
  - apply negb_true_iff. unfold findUnquotedChar.
    destruct (intToString_nat n) as (dg & Hd & _ & _).
    pose proof (string_of_uint_digits dg) as Hdig. rewrite <- Hd in Hdig.
    set (D := intToString (Z.of_nat n)) in *.
    replace (ofChar OPEN_BRACKET ++ D ++ ofChar CLOSE_BRACKET ++ ofChar COLON ++ tail)%string
      with ((ofChar OPEN_BRACKET ++ D ++ ofChar CLOSE_BRACKET) ++ String COLON tail)%string
      by (now rewrite !append_assoc).
    rewrite scanUnquoted_plain; [|
      rewrite (find_app_None _ (ofChar OPEN_BRACKET)) by reflexivity;
      rewrite (find_app_None _ D) by (now apply (find_digits _ D)); reflexivity ..
      | reflexivity].
    apply Z.eqb_neq. unfold len. lia.
Qed.

(** The text of a readable primitive never starts like a list item. *)
Lemma token_no_hyphen v rest :
  readable numberToString DEFAULT_DELIMITER v = true ->
  startsWith (encodePrimitive numberToString v DEFAULT_DELIMITER ++ rest) LIST_ITEM_PREFIX
  = false.
Proof.
  destruct v as [| |b|x|s|z|iso|items|items|entries|props|proto props|b]; try discriminate.
  - reflexivity.
  - now destruct b.
  - cbn [readable encodePrimitive]. unfold numberReads. rewrite andb_true_iff.
    intros [Hc Hp]. destruct (numberToString x) as [|c0 [|c1 t]] eqn:E.
    + discriminate.
    + destruct (Ascii.eqb_spec c0 "-") as [->|Hne].
      * vm_compute in Hp. discriminate.
      * rewrite append_cons. unfold LIST_ITEM_PREFIX. cbn [startsWith].
        destruct (Ascii.eqb_spec "-" c0); [congruence|reflexivity].
    + cbn [allChars] in Hc. apply andb_true_iff in Hc. destruct Hc as [_ Hc].
      apply andb_true_iff in Hc. destruct Hc as [Hc1 _]. apply numberChar_plain in Hc1.
      destruct Hc1 as (Hw & _). rewrite !append_cons. unfold LIST_ITEM_PREFIX.
      cbn [startsWith]. destruct (Ascii.eqb_spec " " c1) as [<-|]; [discriminate|].
      now rewrite andb_false_r.
  - intros _. cbn [encodePrimitive]. unfold encodeStringLiteral.
    destruct (isSafeUnquoted s DEFAULT_DELIMITER) eqn:Es.
    + unfold isSafeUnquoted in Es.
      repeat match type of Es with
             | (if ?b then false else _) = true => destruct b eqn:?; [discriminate|]
             end.
      destruct s as [|c t]; [discriminate|]. rewrite append_cons.
      unfold LIST_ITEM_MARKER, LIST_ITEM_PREFIX in *. cbn [startsWith] in *.
      rewrite startsWith_nil, andb_true_r in *.
      match goal with H : Ascii.eqb "-" c = false |- _ => now rewrite H end.
    + reflexivity.
Qed.

End Tokens2.

Section Leaves.
Variable numberToString : number -> string.

Lemma plainLeaf_primitive v : plainLeaf numberToString v = true -> isJsonPrimitive v = true.
Proof. destruct v; try discriminate; reflexivity. Qed.

(** A plain leaf is written as a text that reads back as the leaf, on
    one line, without white space around it and without bracket. *)
Lemma plain_leaf v :
  plainLeaf numberToString v = true ->
  let t := encodePrimitive numberToString v DEFAULT_DELIMITER in
  parsePrimitiveToken t = Return v /\ trim t = t /\ t <> EmptyString
  /\ find NEWLINE t = None /\ find OPEN_BRACKET t = None.
Proof.
  destruct v as [| |b|x|s|z|iso|items|items|entries|props|proto props|b]; try discriminate.
  - intros _. repeat split; discriminate.
  - intros _. destruct b; repeat split; discriminate.
  - cbn [plainLeaf encodePrimitive]. unfold numberReads.
    rewrite andb_true_iff. intros [Hc Hp]. cbv zeta. repeat split.
    + destruct (parsePrimitiveToken (numberToString x)) as [[]| |]; try discriminate.
      now apply number_eqb_eq in Hp; subst.
    + apply trim_noWhite. apply (allChars_impl numberChar); [|exact Hc].
      intros c H. apply numberChar_plain in H. apply negb_true_iff. tauto.
    + intros E. rewrite E in Hp. discriminate.
    + now apply (find_absent numberChar).
    + now apply (find_absent numberChar).
  - cbn [plainLeaf encodePrimitive]. unfold plainString, encodeStringLiteral.
    rewrite andb_true_iff, !negb_true_iff. intros [Hb Hn]. apply includes_false in Hb.
    destruct (isSafeUnquoted s DEFAULT_DELIMITER) eqn:Es.
    + cbn [andb] in Hn. cbv zeta. rewrite (parsePrimitiveToken_bare s _ Es), Hn.
      apply isSafeUnquoted_facts in Es. tauto.
    + cbv zeta. rewrite parsePrimitiveToken_quoted, trim_quoted, escapeString_chars.
      repeat split; [discriminate| |].
      * apply find_quoted; [reflexivity|apply find_escapeChars_newline].
      * apply find_quoted; [reflexivity|]. now apply find_escapeChars.
Qed.

Lemma isKeyValueLine_leaf v n :
  plainLeaf numberToString v = true ->
  isKeyValueLine (lineOf 0 (encodePrimitive numberToString v DEFAULT_DELIMITER) n) = false.
Proof.
  destruct v as [| |b|x|s|z|iso|items|items|entries|props|proto props|b]; try discriminate.
  - reflexivity.
  - destruct b; reflexivity.
  - cbn [plainLeaf encodePrimitive]. unfold numberReads. rewrite andb_true_iff.
    intros [Hc _]. unfold isKeyValueLine. cbn [lineOf content].
    assert (Hq : find DOUBLE_QUOTE (numberToString x) = None)
      by (now apply (find_absent numberChar)).
    assert (Hcol : find COLON (numberToString x) = None)
      by (now apply (find_absent numberChar)).
    destruct (numberToString x) as [|c r]; [reflexivity|]. unfold ofChar.
    cbn [startsWith]. cbn [find] in Hq. rewrite Ascii.eqb_sym.
    destruct (Ascii.eqb c DOUBLE_QUOTE); [discriminate|]. cbn [andb].
    now apply includes_false.
  - cbn [plainLeaf encodePrimitive]. unfold plainString, encodeStringLiteral.
    rewrite andb_true_iff, !negb_true_iff. intros [_ Hn].
    unfold isKeyValueLine. cbn [lineOf content].
    destruct (isSafeUnquoted s DEFAULT_DELIMITER) eqn:Es.
    + apply isSafeUnquoted_facts in Es. destruct Es as (Hne & _ & _ & _ & Hc & Hq).
      destruct s as [|c r]; [congruence|]. unfold ofChar. cbn [startsWith].
      cbn [find] in Hq. rewrite Ascii.eqb_sym.
      destruct (Ascii.eqb c DOUBLE_QUOTE); [discriminate|]. cbn [andb].
      now apply includes_false.
    + rewrite escapeString_chars. set (e := escapeChars s).
      assert (Hs : startsWith (quoted e) (ofChar DOUBLE_QUOTE) = true).
      { unfold quoted, ofChar. cbn [startsWith]. now rewrite Ascii.eqb_refl, startsWith_nil. }
      rewrite Hs. cbv zeta.
      assert (Hclose : findClosingQuote (quoted e) 0 = len e + 1).
      { pose proof (findClosingQuote_written s EmptyString) as H.
        now rewrite append_nil_r in H. }
      rewrite Hclose.
      assert (He : 0 <= len e) by (unfold len; lia).
      destruct (Z.eqb_spec (len e + 1) (-1)); [lia|].
      replace (len (quoted e)) with (len e + 2) by (unfold len; rewrite length_quoted; lia).
      destruct (Z.ltb_spec (len e + 1 + 1) (len e + 2)); [lia|reflexivity].
Qed.

(** The line of an inline array without key: a header, and the items
    after its colon. *)
Lemma arrayLine_read items :
  forallb (readable numberToString DEFAULT_DELIMITER) items = true ->
  let line := encodeInlineArrayLine numberToString items DEFAULT_DELIMITER None false in
  let tail := match items with
              | [] => EmptyString
              | _ => encodeAndJoinPrimitives numberToString items DEFAULT_DELIMITER
              end in
  isArrayHeaderAfterHyphen line = true
  /\ find NEWLINE line = None
  /\ parseArrayHeaderLine line DEFAULT_DELIMITER
     = Return (Some ({| hdr_key := None; hdr_length := Z.of_nat (List.length items);
                        hdr_delimiter := DEFAULT_DELIMITER; hdr_fields := None;
                        hdr_hasLengthMarker := false |},
                     if isEmpty tail then None else Some tail)).
Proof.
  intros Hr. cbv zeta.
  pose proof (arrayLine_no_newline numberToString None items Hr) as Hnl.
  destruct (arrayLine_shape numberToString None items I) as (keyText & tail & Htext & -> & ->).
  destruct (arrayTail_facts numberToString items Hr) as [_ Htail]. cbv zeta in Htail.
  rewrite Htext in *. repeat split.
  - rewrite !append_nil. apply bracketLine_header.
  - exact Hnl.
  - rewrite <- Htail.
    exact (parseArrayHeaderLine_written EmptyString false (List.length items) _
             eq_refl eq_refl I).
Qed.

Section Decode.
Variable lines : list ParsedLine.
Variable options : DecodeOptions.

(** The values after the colon of an array header, or the lack of them,
    read back as the items, up to the budget. *)
Lemma decodeArrayFromHeader_inline fuel key items c baseDepth :
  forallb (readable numberToString DEFAULT_DELIMITER) items = true ->
  let tail := match items with
              | [] => EmptyString
              | _ => encodeAndJoinPrimitives numberToString items DEFAULT_DELIMITER
              end in
  upTo (decodeArrayFromHeader lines options fuel
          {| hdr_key := key; hdr_length := Z.of_nat (List.length items);
             hdr_delimiter := DEFAULT_DELIMITER; hdr_fields := None;
             hdr_hasLengthMarker := false |}
          (if isEmpty tail then None else Some tail) c baseDepth)
       (items, c).
Proof.
  intros Hr. cbv zeta. destruct fuel as [|fuel]; [now left|].
  rewrite decodeArrayFromHeader_S. unfold decodeArrayFromHeader_body. cbn [hdr_fields].
  destruct items as [|v vs].
  - cbn [isEmpty]. destruct fuel as [|fuel]; [now left|].
    rewrite decodeListArray_S. unfold decodeListArray_body.
    cbn [List.length hdr_length]. rewrite Z.ltb_irrefl. cbn [negb]. rewrite orb_true_r.
    rewrite assertExpectedCount_passes. now right.
  - destruct (joined_facts numberToString (v :: vs)) as (Ht & Hne & _ & Hread);
      [discriminate|exact Hr|].
    set (j := encodeAndJoinPrimitives numberToString (v :: vs) DEFAULT_DELIMITER) in *.
    assert (He : isEmpty j = false) by (destruct j; [congruence|reflexivity]).
    rewrite He, He. unfold decodeInlinePrimitiveArray. cbn [hdr_delimiter hdr_length].
    rewrite Ht, He, Hread. cbn [bind]. rewrite assertExpectedCount_passes. now right.
Qed.

(** A list item that holds an inline array. *)
Lemma decodeListItem_array fuel items c l d dl :
  forallb (readable numberToString DEFAULT_DELIMITER) items = true ->
  peek lines c = Some l ->
  content l = (LIST_ITEM_PREFIX
                 ++ encodeInlineArrayLine numberToString items DEFAULT_DELIMITER None false)%string ->
  upTo (decodeListItem lines options fuel c d dl) (VArr items, S c).
Proof.
  intros Hr Hpeek Hcontent. destruct fuel as [|fuel]; [now left|].
  rewrite decodeListItem_S. unfold decodeListItem_body. rewrite Hpeek, Hcontent.
  destruct (arrayLine_read items Hr) as (Hhdr & _ & Hparse). cbv zeta in Hhdr, Hparse.
  set (line := encodeInlineArrayLine numberToString items DEFAULT_DELIMITER None false) in *.
  assert (Hslice : sliceFrom (LIST_ITEM_PREFIX ++ line)%string (len LIST_ITEM_PREFIX) = line).
  { rewrite sliceFrom_inside
      by (unfold len; rewrite length_append; cbn [String.length LIST_ITEM_PREFIX]; lia).
    unfold len. rewrite Nat2Z.id. apply drop_append. }
  cbv zeta. rewrite Hslice, Hhdr, Hparse. cbn [bind].
  eapply upTo_bind; [now apply decodeArrayFromHeader_inline|]. now right.
Qed.

End Decode.
End Leaves.

(** ** Tables: the lines the emitter writes *)

Section TableLines.
Variable numberToString : number -> string.
Let options := resolveOptions None.

Lemma table_parts fields rows :
  table numberToString fields rows = true ->
  fields <> [] /\ forallb isValidUnquotedKey fields = true /\ rows <> []
  /\ forallb (tableRow numberToString fields) rows = true.
Proof.
  unfold table. rewrite !andb_true_iff, !negb_true_iff.
  intros [[[[Hf Hk] Hr] Hrows] _]. repeat split; try assumption.
  - intros ->. discriminate.
  - intros ->. discriminate.
Qed.

Lemma table_keys fields rows :
  table numberToString fields rows = true -> forallb plainKey fields = true.
Proof. unfold table. rewrite !andb_true_iff. tauto. Qed.

Lemma tableRow_parts fields row :
  tableRow numberToString fields row = true ->
  exists props, row = VObj props /\ JsObject.keys props = fields
                /\ forallb (cell numberToString) (map snd props) = true.
Proof.
  destruct row; try discriminate. cbn [tableRow]. rewrite andb_true_iff.
  intros [Hk Hc]. exists props. split; [reflexivity|].
  destruct (List.list_eq_dec String.string_dec (JsObject.keys props) fields); [|discriminate].
  split; [assumption|]. clear -Hc.
  induction props as [|kv r IH]; [reflexivity|]. cbn [forallb map] in *.
  apply andb_true_iff in Hc. destruct Hc as [-> Hr]. now apply IH.
Qed.

Lemma cell_readable v : cell numberToString v = true ->
  readable numberToString DEFAULT_DELIMITER v = true.
Proof. unfold cell. rewrite andb_true_iff. tauto. Qed.

Lemma cells_readable vs :
  forallb (cell numberToString) vs = true ->
  forallb (readable numberToString DEFAULT_DELIMITER) vs = true.
Proof.
  rewrite !forallb_forall. intros H v Hin. apply cell_readable. now apply H.
Qed.

Lemma lookup_in (props : JsObject.props jsval) k :
  In k (JsObject.keys props) ->
  exists v, JsObject.lookup k props = Some v /\ In v (map snd props).
Proof.
  induction props as [|[k' v'] r IH]; [intros []|]. cbn [JsObject.keys map fst snd In].
  cbn [JsObject.lookup]. destruct (String.eqb_spec k' k) as [->|Hne].
  - intros _. exists v'. split; [reflexivity|now left].
  - intros [H|H]; [congruence|]. destruct (IH H) as (v & Hv & Hin).
    exists v. split; [exact Hv|now right].
Qed.

(** In an object whose keys are in property order, each key gives its
    own value. *)
Lemma lookup_keys (props : JsObject.props jsval) :
  propertyOrder props ->
  map (fun key => match JsObject.lookup key props with
                  | Some v => v
                  | None => VUndefined
                  end) (JsObject.keys props)
  = map snd props.
Proof.
  unfold propertyOrder. induction props as [|[k v] r IH]; [reflexivity|].
  cbn [JsObject.keys map fst snd]. intros Hs. apply StronglySorted_inv in Hs.
  destruct Hs as [Hr Hk]. cbn [JsObject.lookup]. rewrite String.eqb_refl. f_equal.
  rewrite <- IH by exact Hr. apply map_ext_in. intros k' Hin.
  rewrite List.Forall_forall in Hk. destruct (Hk k' Hin) as [Hne _].
  destruct (String.eqb_spec k k'); [congruence|reflexivity].
Qed.

Lemma isTabularArray_table fields rows :
  forallb (tableRow numberToString fields) rows = true ->
  isTabularArray rows fields = true.
Proof.
  unfold isTabularArray. rewrite !forallb_forall. intros H row Hin.
  destruct (tableRow_parts fields row (H row Hin)) as (props & -> & Hk & Hc).
  cbn [ownProps getProperty]. rewrite Hk, Nat.eqb_refl. cbn [andb].
  apply forallb_forall. intros key Hkey. rewrite <- Hk in Hkey.
  destruct (lookup_in props key Hkey) as (v & -> & Hv).
  rewrite forallb_forall in Hc.
  apply (readable_primitive numberToString DEFAULT_DELIMITER). apply cell_readable.
  now apply Hc.
Qed.

Lemma writeTabularRows_lines fields rows d : forall w,
  forallb (tableRow numberToString fields) rows = true ->
  Forall (fun row => propertyOrder (ownProps row)) rows ->
  writeTabularRows numberToString options rows fields d w
  = w ++ map (fun row => renderLine (d, rowText numberToString row)) rows.
Proof.
  unfold writeTabularRows.
  induction rows as [|row rows IH]; intros w Ht Ho; cbn [forEach map].
  - now rewrite app_nil_r.
  - cbn [forallb] in Ht. apply andb_true_iff in Ht. destruct Ht as [Hrow Hrows].
    inversion Ho as [|? ? Hrow_o Hrows_o]; subst.
    rewrite IH by assumption.
    destruct (tableRow_parts fields row Hrow) as (props & -> & Hk & _).
    cbn [ownProps getProperty] in *. rewrite <- Hk, lookup_keys by exact Hrow_o.
    unfold push. rewrite <- app_assoc. reflexivity.
Qed.

Lemma encodeArray_table key fields rows d w :
  table numberToString fields rows = true ->
  Forall (fun row => propertyOrder (ownProps row)) rows ->
  encodeArray numberToString options (encodeListItemValue numberToString options)
    key rows d w
  = w ++ map renderLine (tableItems numberToString key fields rows d).
Proof.
  intros Ht Ho. destruct (table_parts fields rows Ht) as (Hf & Hk & Hr & Hrows).
  destruct rows as [|row rows]; [congruence|].
  pose proof Hrows as Hrows'. cbn [forallb] in Hrows'. apply andb_true_iff in Hrows'.
  destruct Hrows' as [Hrow _].
  destruct (tableRow_parts fields row Hrow) as (props & -> & Hkeys & _).
  assert (Hobjs : isArrayOfObjects (VObj props :: rows) = true).
  { unfold isArrayOfObjects. apply forallb_forall. intros r Hin.
    rewrite forallb_forall in Hrows.
    destruct (tableRow_parts fields r (Hrows r Hin)) as (p & -> & _). reflexivity. }
  assert (Hhdr : extractTabularHeader (VObj props :: rows) = Some fields).
  { unfold extractTabularHeader. cbn [ownProps]. rewrite Hkeys.
    destruct fields as [|f fs]; [congruence|].
    now rewrite (isTabularArray_table (f :: fs) (VObj props :: rows) Hrows). }
  unfold encodeArray. cbn [isArrayOfPrimitives isArrayOfArrays forallb isJsonPrimitive
                           isJsonArray andb].
  rewrite Hobjs, Hhdr. unfold encodeArrayOfObjectsAsTabular.
  rewrite (writeTabularRows_lines fields) by assumption.
  unfold tableItems, push. cbn [map]. rewrite map_map, <- app_assoc. reflexivity.
Qed.

Lemma table_fields fields rows :
  table numberToString fields rows = true -> tableFields rows = fields.
Proof.
  intros Ht. destruct (table_parts fields rows Ht) as (_ & _ & Hr & Hrows).
  destruct rows as [|row rows]; [congruence|]. cbn [forallb] in Hrows.
  apply andb_true_iff in Hrows. destruct Hrows as [Hrow _].
  now destruct (tableRow_parts fields row Hrow) as (props & -> & Hkeys & _).
Qed.
End TableLines.

(** ** Tables: the header *)

Lemma formatHeader_fields n key fields marker :
  formatHeader n key (Some fields) DEFAULT_DELIMITER marker
  = ((match key with
      | Some k => if isEmpty k then EmptyString else encodeKey k
      | None => EmptyString
      end)
     ++ ofChar OPEN_BRACKET ++ (if marker then "#" else "")
     ++ intToString (Z.of_nat n) ++ ofChar CLOSE_BRACKET
     ++ ofChar OPEN_BRACE ++ join (ofChar COMMA) (map encodeKey fields)
     ++ ofChar CLOSE_BRACE ++ ofChar COLON)%string.
Proof.
  unfold formatHeader. cbn [Delimiter_eqb DEFAULT_DELIMITER delimChar].
  now rewrite !append_nil, !append_assoc.
Qed.

Lemma encodeKey_fields fields :
  forallb isValidUnquotedKey fields = true -> map encodeKey fields = fields.
Proof.
  induction fields as [|k ks IH]; [reflexivity|]. cbn [forallb map].
  rewrite andb_true_iff. intros [Hk Hks]. rewrite IH by exact Hks.
  unfold encodeKey. now rewrite Hk.
Qed.

(** The names of the fields, joined: one piece of text without any of
    the characters that end it, which splits back into the names. *)
Lemma joined_fields fields :
  fields <> [] -> forallb isValidUnquotedKey fields = true ->
  let F := join (ofChar COMMA) fields in
  (forall c, isKeyChar c = false -> Ascii.eqb COMMA c = false -> find c F = None)
  /\ F <> EmptyString
  /\ parseDelimitedValues F DEFAULT_DELIMITER = fields
  /\ mapM (fun field => parseStringLiteral (trim field)) fields = Return fields.
Proof.
  intros Hne Hk. cbv zeta.
  assert (Hall : Forall (fun k => allChars isKeyChar k = true /\ k <> EmptyString
                                  /\ trim k = k) fields).
  { apply List.Forall_forall. intros k Hin. rewrite forallb_forall in Hk.
    specialize (Hk k Hin). destruct (validKey_text k Hk) as (_ & _ & _ & Ht & _).
    apply isValidUnquotedKey_chars in Hk. tauto. }
  assert (Hfind : forall c, isKeyChar c = false -> Ascii.eqb COMMA c = false ->
                            find c (join (ofChar COMMA) fields) = None).
  { intros c Hc Hcomma. apply find_join.
    - cbn [ofChar find]. now rewrite Hcomma.
    - eapply List.Forall_impl; [|exact Hall]. intros k (Hch & _ & _).
      now apply (find_absent isKeyChar). }
  assert (Hnonempty : join (ofChar COMMA) fields <> EmptyString).
  { destruct fields as [|k ks]; [congruence|]. inversion Hall as [|? ? (_ & Hk1 & _) _]; subst.
    destruct ks; cbn [join]; [exact Hk1|]. destruct k; [congruence|discriminate]. }
  repeat split; try assumption.
  - unfold parseDelimitedValues. cbn [delimChar DEFAULT_DELIMITER].
    rewrite scanDelimited_plain by (auto || now apply Hfind).
    rewrite splitOn_join.
    + destruct fields as [|k ks]; [congruence|]. cbn [app]. rewrite append_nil.
      change (trim k :: map trim ks) with (map trim (k :: ks)).
      clear -Hall. induction Hall as [|x xs (_ & _ & Hx) _ IH]; [reflexivity|].
      cbn [map]. now rewrite Hx, IH.
    + exact Hne.
    + eapply List.Forall_impl; [|exact Hall]. intros k (Hch & _ & _).
      now apply (find_absent isKeyChar).
  - clear -Hall. induction Hall as [|k ks (Hch & Hk1 & Ht) _ IH]; [reflexivity|].
    cbn [mapM]. unfold parseStringLiteral at 1. rewrite !Ht.
    destruct k as [|c r]; [congruence|]. cbn [allChars] in Hch.
    apply andb_true_iff in Hch. destruct Hch as [Hc _]. apply isKeyChar_plain in Hc.
    unfold ofChar at 1. cbn [startsWith]. rewrite Ascii.eqb_sym.
    replace (Ascii.eqb c DOUBLE_QUOTE) with false by (symmetry; tauto).
    cbn [andb bind]. now rewrite IH.
Qed.

(** The header of a table, for the default delimiter: [keyText] is
    empty or a key written bare. *)
Lemma parseArrayHeaderLine_table keyText marker n fields :
  find OPEN_BRACKET keyText = None ->
  trim keyText = keyText ->
  match keyText with
  | String c _ => isWhite c = false /\ Ascii.eqb c DOUBLE_QUOTE = false
  | EmptyString => True
  end ->
  fields <> [] -> forallb isValidUnquotedKey fields = true ->
  parseArrayHeaderLine
    (keyText ++ ofChar OPEN_BRACKET ++ (if marker : bool then "#" else "")
       ++ intToString (Z.of_nat n) ++ ofChar CLOSE_BRACKET
       ++ ofChar OPEN_BRACE ++ join (ofChar COMMA) fields
       ++ ofChar CLOSE_BRACE ++ ofChar COLON)%string
    DEFAULT_DELIMITER
  = Return (Some ({| hdr_key := if isEmpty keyText then None else Some keyText;
                     hdr_length := Z.of_nat n; hdr_delimiter := DEFAULT_DELIMITER;
                     hdr_fields := Some fields; hdr_hasLengthMarker := marker |},
                  None)).
Proof.
  intros Hkb Hkt Hk1 Hfne Hfk.
  destruct (joined_fields fields Hfne Hfk) as (HF & HFne & HFsplit & HFread).
  set (F := join (ofChar COMMA) fields) in *.
  destruct (intToString_nat n) as (d & Hd & Hdn & Hdv).
  pose proof (string_of_uint_digits d) as Hdig. rewrite <- Hd in Hdig.
  set (D := intToString (Z.of_nat n)) in *.
  set (M := if marker then "#" else "").
  set (B := (M ++ D)%string).
  assert (HBc : find CLOSE_BRACKET B = None).
  { unfold B, M. destruct marker; rewrite ?append_cons, ?append_nil; cbn [find];
      rewrite !(find_digits _ D Hdig) by reflexivity; reflexivity. }
  set (P := (keyText ++ ofChar OPEN_BRACKET ++ B)%string).
  set (Q := (P ++ ofChar CLOSE_BRACKET)%string).
  set (R := (Q ++ ofChar OPEN_BRACE ++ F ++ ofChar CLOSE_BRACE)%string).
  assert (Hcontent :
    (keyText ++ ofChar OPEN_BRACKET ++ M ++ D ++ ofChar CLOSE_BRACKET
       ++ ofChar OPEN_BRACE ++ F ++ ofChar CLOSE_BRACE ++ ofChar COLON)%string
    = (R ++ ofChar COLON)%string).
  { unfold R, Q, P, B. now rewrite !append_assoc. }
  rewrite Hcontent. set (content := (R ++ ofChar COLON)%string).
  assert (HcP : content = (P ++ String CLOSE_BRACKET
                                  (String OPEN_BRACE (F ++ String CLOSE_BRACE (ofChar COLON))))%string).
  { unfold content, R, Q. unfold ofChar.
    now rewrite !append_assoc, !append_cons, !append_nil. }
  assert (HcQ : content = (Q ++ String OPEN_BRACE (F ++ String CLOSE_BRACE (ofChar COLON)))%string).
  { unfold content, R. unfold ofChar.
    now rewrite !append_assoc, !append_cons, !append_nil. }
  assert (HlenP : len P = len keyText + 1 + len B).
  { unfold P. unfold len, ofChar. rewrite !length_append. cbn [String.length]. lia. }
  assert (HlenQ : len Q = len P + 1).
  { unfold Q, len, ofChar. rewrite length_append. cbn [String.length]. lia. }
  assert (HlenR : len R = len P + 3 + len F).
  { unfold R. unfold len in *. unfold ofChar. rewrite !length_append. cbn [String.length].
    rewrite ?length_append. cbn [String.length]. lia. }
  assert (Hk0 : 0 <= len keyText) by (unfold len; lia).
  assert (Hb0 : 0 <= len B) by (unfold len; lia).
  assert (Hf0 : 0 <= len F) by (unfold len; lia).
  assert (Hstart : startsWith (trimStart content) (ofChar DOUBLE_QUOTE) = false).
  { rewrite HcP. unfold P. destruct keyText as [|c r].
    - reflexivity.
    - destruct Hk1 as [Hw Hq]. rewrite !append_cons. cbn [trimStart]. rewrite Hw.
      unfold ofChar. cbn [startsWith]. now rewrite Ascii.eqb_sym, Hq. }
  assert (HbracketStart : indexOf content OPEN_BRACKET = len keyText).
  { rewrite HcP. unfold P. rewrite indexOf_find, !append_assoc. unfold ofChar at 1.
    rewrite append_cons, append_nil. now rewrite find_append. }
  assert (HbracketEnd : indexOfFrom content CLOSE_BRACKET (len keyText) = len P).
  { rewrite HlenP, HcP. unfold P. rewrite !append_assoc, indexOfFrom_at. unfold ofChar.
    rewrite append_cons, append_nil. cbn [find].
    change (Ascii.eqb OPEN_BRACKET CLOSE_BRACKET) with false. cbv iota.
    rewrite find_append by exact HBc. unfold len. lia. }
  assert (HbraceStart : indexOfFrom content OPEN_BRACE (len P) = len P + 1).
  { rewrite HcP, indexOfFrom_at. cbn [find].
    change (Ascii.eqb CLOSE_BRACKET OPEN_BRACE) with false.
    now rewrite Ascii.eqb_refl. }
  assert (Hcolon1 : indexOfFrom content COLON (len P) = len R).
  { rewrite HlenR, HcP, indexOfFrom_at. cbn [find].
    change (Ascii.eqb CLOSE_BRACKET COLON) with false.
    change (Ascii.eqb OPEN_BRACE COLON) with false. cbv iota.
    rewrite find_app_None by (now apply HF). cbn [find ofChar].
    change (Ascii.eqb CLOSE_BRACE COLON) with false. rewrite Ascii.eqb_refl.
    unfold len. lia. }
  assert (HbraceEnd : indexOfFrom content CLOSE_BRACE (len P + 1) = len R - 1).
  { rewrite HlenR, <- HlenQ, HcQ, indexOfFrom_at. cbn [find].
    change (Ascii.eqb OPEN_BRACE CLOSE_BRACE) with false. cbv iota.
    rewrite find_append by (now apply HF). unfold len in *. lia. }
  assert (Hcolon2 : indexOfFrom content COLON (len R) = len R).
  { unfold content. rewrite indexOfFrom_at. cbn [find ofChar].
    rewrite Ascii.eqb_refl. lia. }
  assert (Hafter : sliceFrom content (len R + 1) = EmptyString).
  { unfold content, ofChar. apply sliceFrom_after. }
  assert (Hinner : slice content (len keyText + 1) (len R)
                   = (B ++ ofChar CLOSE_BRACKET ++ ofChar OPEN_BRACE ++ F
                        ++ ofChar CLOSE_BRACE)%string).
  { assert (Hsplit : content
                     = ((keyText ++ ofChar OPEN_BRACKET)
                          ++ (B ++ ofChar CLOSE_BRACKET ++ ofChar OPEN_BRACE ++ F
                                ++ ofChar CLOSE_BRACE)
                          ++ ofChar COLON)%string).
    { unfold content, R, Q, P. now rewrite !append_assoc. }
    rewrite Hsplit.
    replace (len keyText + 1) with (len (keyText ++ ofChar OPEN_BRACKET)%string)
      by (unfold len, ofChar; rewrite length_append; cbn [String.length]; lia).
    replace (len R)
      with (len (keyText ++ ofChar OPEN_BRACKET)%string
            + len (B ++ ofChar CLOSE_BRACKET ++ ofChar OPEN_BRACE ++ F
                     ++ ofChar CLOSE_BRACE)%string)
      by (rewrite HlenR, HlenP; unfold len, ofChar; rewrite !length_append;
          cbn [String.length]; rewrite ?length_append; cbn [String.length]; lia).
    apply slice_middle. }
  assert (Hfields : slice content (len P + 1 + 1) (len R - 1) = F).
  { assert (Hsplit : content
                     = ((Q ++ ofChar OPEN_BRACE) ++ F
                          ++ (ofChar CLOSE_BRACE ++ ofChar COLON))%string).
    { unfold content, R. now rewrite !append_assoc. }
    rewrite Hsplit.
    replace (len P + 1 + 1) with (len (Q ++ ofChar OPEN_BRACE)%string)
      by (unfold len in *; unfold ofChar; rewrite length_append;
          cbn [String.length]; lia).
    replace (len R - 1) with (len (Q ++ ofChar OPEN_BRACE)%string + len F)
      by (unfold len in *; unfold ofChar; rewrite length_append;
          cbn [String.length]; lia).
    apply slice_middle. }
  assert (Hkey : slice content 0 (len keyText) = keyText).
  { rewrite HcP. unfold P. rewrite !append_assoc. apply slice_prefix. }
  assert (Hseg : parseBracketSegment
                   (B ++ ofChar CLOSE_BRACKET ++ ofChar OPEN_BRACE ++ F
                      ++ ofChar CLOSE_BRACE)%string DEFAULT_DELIMITER
                 = Return (Z.of_nat n, DEFAULT_DELIMITER, marker)).
  { unfold parseBracketSegment.
    set (T := (ofChar CLOSE_BRACKET ++ ofChar OPEN_BRACE ++ F ++ ofChar CLOSE_BRACE)%string).
    assert (Hd1 : exists c t, D = String c t /\ isDigit c = true).
    { destruct D as [|c t] eqn:ED.
      - exfalso. destruct d; [congruence|cbn in Hd; discriminate..].
      - cbn [allChars] in Hdig. apply andb_true_iff in Hdig. exists c, t. tauto. }
    destruct Hd1 as (c & t & HD & Hc).
    assert (Hfirst :
      (if startsWith (B ++ T)%string "#"
       then (true, sliceFrom (B ++ T)%string 1)
       else (false, (B ++ T)%string))
      = (marker, (D ++ T)%string)).
    { unfold B, M. destruct marker.
      - rewrite !append_cons, append_nil. cbn [startsWith].
        rewrite Ascii.eqb_refl, startsWith_nil. cbn [andb]. f_equal.
        apply (sliceFrom_after EmptyString "#"%char).
      - rewrite append_nil, HD, append_cons. cbn [startsWith].
        destruct (Ascii.eqb_spec "#"%char c) as [<-|]; [discriminate|reflexivity]. }
    rewrite Hfirst. unfold endsWithChar.
    assert (Hlast : lastChar (D ++ T)%string = Some CLOSE_BRACE).
    { unfold T. rewrite <- !append_assoc. apply lastChar_append. }
    rewrite Hlast.
    change (Ascii.eqb CLOSE_BRACE TAB) with false.
    change (Ascii.eqb CLOSE_BRACE PIPE) with false. cbv iota.
    unfold D, T. now rewrite parseInt_intToString. }
  unfold parseArrayHeaderLine. rewrite Hstart, HbracketStart.
  destruct (Z.eqb_spec (len keyText) (-1)); [lia|].
  rewrite HbracketEnd. destruct (Z.eqb_spec (len P) (-1)); [lia|].
  rewrite HbraceStart, Hcolon1, HbraceEnd.
  destruct (Z.eqb_spec (len P + 1) (-1)); [lia|].
  destruct (Z.ltb_spec (len P + 1) (len R)); [|lia].
  destruct (Z.eqb_spec (len R - 1) (-1)); [lia|]. cbn [negb andb].
  replace (len R - 1 + 1) with (len R) by lia.
  rewrite Z.max_r by lia. rewrite Hcolon2.
  destruct (Z.eqb_spec (len R) (-1)); [lia|].
  destruct (Z.ltb_spec (len R - 1) (len R)); [|lia].
  replace (len P + 1 <? len R) with true by (symmetry; apply Z.ltb_lt; lia).
  rewrite Hafter, Hinner, Hseg, Hfields, HFsplit, HFread.
  cbn [bind trim trimStart trimEnd isEmpty]. f_equal. f_equal. f_equal. f_equal.
  destruct keyText as [|c r]; [reflexivity|].
  replace (0 <? len (String c r)) with true
    by (symmetry; apply Z.ltb_lt; unfold len; cbn [String.length]; lia).
  now rewrite Hkey, Hkt.
Qed.

(** ** Tables: the rows *)

Section TableRows.
Variable numberToString : number -> string.

(** The line of a row of cells: solid, no list item, a data row, and its
    pieces read back as the cells. *)
Lemma row_facts vs :
  vs <> [] -> forallb (cell numberToString) vs = true ->
  let j := encodeAndJoinPrimitives numberToString vs DEFAULT_DELIMITER in
  solid j = true
  /\ startsWith j LIST_ITEM_PREFIX = false
  /\ isDataRow j DEFAULT_DELIMITER = true
  /\ List.length (parseDelimitedValues j DEFAULT_DELIMITER) = List.length vs
  /\ mapRowValuesToPrimitives (parseDelimitedValues j DEFAULT_DELIMITER) = Return vs.
Proof.
  intros Hne Hc. pose proof (cells_readable numberToString vs Hc) as Hr.
  destruct (joined_facts numberToString vs Hne Hr) as (Ht & Hjne & Hnl & Hread).
  cbv zeta. repeat split.
  - destruct (trim_fixed_first _ Ht Hjne) as (c & t & E & Hw).
    unfold solid. rewrite E at 1. rewrite Hw. cbn [negb andb]. apply negb_true_iff.
    now apply includes_false.
  - destruct vs as [|v vs']; [congruence|]. cbn [forallb] in Hr.
    apply andb_true_iff in Hr. destruct Hr as [Hv _]. unfold encodeAndJoinPrimitives.
    cbn [map]. destruct vs' as [|v' vs''].
    + cbn [map join]. rewrite <- (append_nil_r (encodePrimitive _ _ _)).
      now apply (token_no_hyphen numberToString).
    + change (join ?sep (?t :: ?r)) with (t ++ sep ++ join sep r)%string.
      now apply (token_no_hyphen numberToString).
  - unfold isDataRow. rewrite indexOf_find.
    assert (Hcolon : find COLON (encodeAndJoinPrimitives numberToString vs DEFAULT_DELIMITER)
                     = None).
    { unfold encodeAndJoinPrimitives. apply find_join; [reflexivity|].
      apply List.Forall_forall. intros t Hin. apply in_map_iff in Hin.
      destruct Hin as (v & <- & Hin). rewrite forallb_forall in Hc.
      specialize (Hc v Hin). unfold cell in Hc. apply andb_true_iff in Hc.
      destruct Hc as [_ Hc]. apply negb_true_iff in Hc. now apply includes_false. }
    now rewrite Hcolon.
  - unfold parseDelimitedValues, encodeAndJoinPrimitives.
    rewrite scanDelimited_join by assumption. cbn [app]. apply length_map.
  - exact Hread.
Qed.

(** Assigning the fields of a row one after the other. *)
Lemma bindFields_assignAll fields : forall vs obj,
  List.length vs = List.length fields ->
  bindFields fields vs obj = assignAll obj (combine fields vs).
Proof.
  induction fields as [|f fs IH]; intros vs obj Hl; [reflexivity|].
  destruct vs as [|v vs]; [discriminate|]. cbn [bindFields tl combine].
  cbn [List.length] in Hl. rewrite IH by lia. reflexivity.
Qed.

Lemma combine_props (props : list (string * jsval)) :
  combine (JsObject.keys props) (map snd props) = props.
Proof.
  induction props as [|[k v] r IH]; [reflexivity|].
  cbn [JsObject.keys map combine fst snd]. f_equal. exact IH.
Qed.

(** The loop of [decodeTabularArray] on the lines of the rows, whatever
    follows them. *)
Lemma tabularRows_table options header fields rows d : forall rest c objs,
  hdr_delimiter header = DEFAULT_DELIMITER ->
  fields <> [] ->
  forallb plainKey fields = true ->
  forallb (tableRow numberToString fields) rows = true ->
  Forall (fun row => propertyOrder (ownProps row)) rows ->
  Z.of_nat (List.length objs + List.length rows) = hdr_length header ->
  startsWithItems rest (map (fun row => (S d, rowText numberToString row)) rows) ->
  tabularRows options header fields (Z.of_nat d + 1) rest c objs
  = Return (objs ++ rows, (c + List.length rows)%nat).
Proof.
  induction rows as [|row rows IH]; intros rest c objs Hd Hf Hpk Ht Ho Hlen Hl.
  - cbn [List.length] in Hlen. rewrite app_nil_r, Nat.add_0_r in *.
    destruct rest as [|l rest]; [reflexivity|]. cbn [tabularRows].
    destruct (Z.ltb_spec (Z.of_nat (List.length objs)) (hdr_length header)); [lia|].
    reflexivity.
  - cbn [forallb] in Ht. apply andb_true_iff in Ht. destruct Ht as [Hrow Hrows].
    inversion Ho as [|? ? Hrow_o Hrows_o]; subst.
    destruct (tableRow_parts numberToString fields row Hrow) as (props & -> & Hk & Hc).
    cbn [ownProps] in Hrow_o.
    assert (Hvs : map snd props <> []).
    { destruct props; [cbn in Hk; congruence|discriminate]. }
    destruct (row_facts (map snd props) Hvs Hc) as (_ & Hhy & Hrowtest & Hcount & Hread).
    cbn [map startsWithItems fst snd] in Hl. destruct rest as [|l rest]; [contradiction|].
    destruct Hl as (Hdl & Hcl & Hl). cbn [tabularRows List.length] in *.
    destruct (Z.ltb_spec (Z.of_nat (List.length objs)) (hdr_length header)); [|lia].
    cbn [negb]. rewrite Hdl.
    destruct (Z.ltb_spec (Z.of_nat (S d)) (Z.of_nat d + 1)); [lia|].
    destruct (Z.eqb_spec (Z.of_nat (S d)) (Z.of_nat d + 1)); [|lia].
    unfold acceptsRow. rewrite Hd, Hcl.
    change (rowText numberToString (VObj props))
      with (encodeAndJoinPrimitives numberToString (map snd props) DEFAULT_DELIMITER).
    rewrite Hhy, Hrowtest. cbn [negb andb]. rewrite Hcount, Hread.
    assert (Hlens : List.length (map snd props) = List.length fields)
      by (rewrite <- Hk; unfold JsObject.keys; now rewrite !length_map).
    rewrite Hlens, assertExpectedCount_passes. cbn [bind].
    rewrite bindFields_assignAll by exact Hlens. rewrite <- Hk, combine_props.
    rewrite assignAll_define
      by (apply (plainKeys_lookup props); rewrite Hk; exact Hpk).
    change (JsObject.defineAll [] props) with (JsObject.fromEntries props).
    rewrite fromEntries_rebuild by exact Hrow_o. rewrite Hk.
    rewrite (IH rest (S c) (objs ++ [VObj props])); try assumption.
    + rewrite <- app_assoc. cbn [app]. f_equal. f_equal. lia.
    + rewrite length_app. cbn [List.length]. lia.
Qed.

(** [decodeArrayFromHeader] on the header of a table, with the rows
    from the cursor on. *)
Lemma decodeArrayFromHeader_table lines options fuel key fields rows c d :
  fields <> [] ->
  forallb plainKey fields = true ->
  forallb (tableRow numberToString fields) rows = true ->
  Forall (fun row => propertyOrder (ownProps row)) rows ->
  linesAt lines c (map (fun row => (S d, rowText numberToString row)) rows) ->
  upTo (decodeArrayFromHeader lines options fuel
          {| hdr_key := key; hdr_length := Z.of_nat (List.length rows);
             hdr_delimiter := DEFAULT_DELIMITER; hdr_fields := Some fields;
             hdr_hasLengthMarker := false |} None c (Z.of_nat d))
       (rows, (c + List.length rows)%nat).
Proof.
  intros Hf Hpk Ht Ho Hl. destruct fuel as [|fuel]; [now left|]. right.
  rewrite decodeArrayFromHeader_S. unfold decodeArrayFromHeader_body. cbn [hdr_fields].
  destruct fields as [|f fs]; [congruence|].
  unfold decodeTabularArray. cbn [hdr_fields].
  rewrite (tabularRows_table options _ (f :: fs) rows d (skipn c lines) c []);
    try assumption; try reflexivity; [|now apply linesAt_skipn].
  cbn [bind fst app hdr_length]. now rewrite assertExpectedCount_passes.
Qed.
End TableRows.

(** ** Tables: the round trip *)

Section TableRoundTrip.
Variable numberToString : number -> string.

Lemma stable_rows fields rows :
  table numberToString fields rows = true ->
  normalizeValue (VArr rows) = Return (VArr rows) ->
  Forall (fun row => propertyOrder (ownProps row)) rows.
Proof.
  intros Ht Hs. destruct (table_parts numberToString fields rows Ht) as (_ & _ & _ & Hrows).
  apply stable_VArr in Hs. rewrite forallb_forall in Hrows.
  rewrite List.Forall_forall in Hs |- *. intros row Hin.
  destruct (tableRow_parts numberToString fields row (Hrows row Hin)) as (props & -> & _).
  cbn [ownProps]. exact (proj1 (stable_VObj props (Hs _ Hin))).
Qed.

Lemma tableRows_solid fields rows (d : nat) :
  forallb (tableRow numberToString fields) rows = true -> fields <> [] ->
  Forall (fun it => solid (snd it) = true)
    (map (fun row => (d, rowText numberToString row)) rows).
Proof.
  intros Hrows Hf. apply List.Forall_forall.
  intros it Hin. apply in_map_iff in Hin. destruct Hin as (row & <- & Hin).
  rewrite forallb_forall in Hrows.
  destruct (tableRow_parts numberToString fields row (Hrows row Hin))
    as (props & -> & Hkeys & Hc).
  assert (Hvs : map snd props <> []).
  { destruct props; [cbn in Hkeys; congruence|discriminate]. }
  now destruct (row_facts numberToString (map snd props) Hvs Hc) as (Hs & _).
Qed.

(** The header of a table at the root is taken for a header. *)
Lemma tableHeader_root fields n :
  fields <> [] -> forallb isValidUnquotedKey fields = true ->
  isArrayHeaderAfterHyphen (formatHeader n None (Some fields) DEFAULT_DELIMITER false) = true.
Proof.
  intros Hne Hk. rewrite formatHeader_fields, (encodeKey_fields fields Hk).
  destruct (joined_fields fields Hne Hk) as (HF & _ & _ & _).
  set (F := join (ofChar COMMA) fields) in *.
  destruct (intToString_nat n) as (dg & Hd & _ & _).
  pose proof (string_of_uint_digits dg) as Hdig. rewrite <- Hd in Hdig.
  set (D := intToString (Z.of_nat n)) in *.
  set (inner := (D ++ ofChar CLOSE_BRACKET ++ ofChar OPEN_BRACE ++ F
                   ++ ofChar CLOSE_BRACE)%string).
  assert (Hinner : forall c, isDigit c = false -> isKeyChar c = false ->
                     Ascii.eqb COMMA c = false -> Ascii.eqb CLOSE_BRACKET c = false ->
                     Ascii.eqb OPEN_BRACE c = false -> Ascii.eqb CLOSE_BRACE c = false ->
                     find c inner = None).
  { intros c H1 H2 H3 H4 H5 H6. unfold inner.
    rewrite (find_app_None c D) by (now apply (find_digits c D)).
    unfold ofChar at 1 2. rewrite !append_cons, !append_nil. cbn [find].
    rewrite H4, H5. rewrite find_app_None by (now apply HF).
    cbn [find ofChar]. now rewrite H6. }
  assert (Htext : (EmptyString ++ ofChar OPEN_BRACKET ++ EmptyString ++ D
                     ++ ofChar CLOSE_BRACKET ++ ofChar OPEN_BRACE ++ F
                     ++ ofChar CLOSE_BRACE ++ ofChar COLON)%string
                  = String OPEN_BRACKET (inner ++ String COLON EmptyString)).
  { unfold inner, ofChar. now rewrite !append_nil, !append_assoc, !append_cons, !append_nil. }
  rewrite Htext. unfold isArrayHeaderAfterHyphen. apply andb_true_iff. split.
  - destruct (trim_first OPEN_BRACKET (inner ++ String COLON EmptyString) eq_refl)
      as (t' & ->).
    unfold ofChar. cbn [startsWith]. now rewrite Ascii.eqb_refl, startsWith_nil.
  - apply negb_true_iff. unfold findUnquotedChar.
    rewrite <- append_cons, scanUnquoted_plain.
    + apply Z.eqb_neq. unfold len. lia.
    + cbn [find]. change (Ascii.eqb OPEN_BRACKET DOUBLE_QUOTE) with false. cbv iota.
      now rewrite Hinner.
    + cbn [find]. change (Ascii.eqb OPEN_BRACKET COLON) with false. cbv iota.
      now rewrite Hinner.
    + reflexivity.
Qed.

(** The header of a table under a key that is written bare, or under
    none: a solid line, read back as the header. *)
Lemma tableHeader_facts key fields n :
  match key with Some k => isValidUnquotedKey k = true | None => True end ->
  fields <> [] -> forallb isValidUnquotedKey fields = true ->
  let h := formatHeader n key (Some fields) DEFAULT_DELIMITER false in
  solid h = true
  /\ includes h COLON = true
  /\ (exists c t, h = String c t
                  /\ (Ascii.eqb c OPEN_BRACKET = true <-> key = None)
                  /\ Ascii.eqb c DOUBLE_QUOTE = false)
  /\ parseArrayHeaderLine h DEFAULT_DELIMITER
     = Return (Some ({| hdr_key := key; hdr_length := Z.of_nat n;
                        hdr_delimiter := DEFAULT_DELIMITER; hdr_fields := Some fields;
                        hdr_hasLengthMarker := false |}, None)).
Proof.
  intros Hkey Hne Hk. cbv zeta. rewrite formatHeader_fields, (encodeKey_fields fields Hk).
  destruct (joined_fields fields Hne Hk) as (HF & _ & _ & _).
  set (F := join (ofChar COMMA) fields) in *.
  destruct (intToString_nat n) as (dg & Hd & _ & _).
  pose proof (string_of_uint_digits dg) as Hdig. rewrite <- Hd in Hdig.
  set (D := intToString (Z.of_nat n)) in *.
  set (keyText := match key with
                  | Some k => if isEmpty k then EmptyString else encodeKey k
                  | None => EmptyString
                  end).
  assert (Hkt : keyText = match key with Some k => k | None => EmptyString end
                /\ find NEWLINE keyText = None /\ find OPEN_BRACKET keyText = None
                /\ trim keyText = keyText
                /\ match keyText with
                   | String c _ => isWhite c = false /\ Ascii.eqb c DOUBLE_QUOTE = false
                                   /\ Ascii.eqb c OPEN_BRACKET = false
                   | EmptyString => key = None
                   end).
  { unfold keyText. destruct key as [k|]; [|repeat split].
    destruct (validKey_text k Hkey) as (Henc & Hnek & Hb & Ht & H1).
    rewrite Hnek, Henc. repeat split; try assumption.
    - rewrite <- Henc. apply encodeKey_no_newline.
    - destruct k as [|c r]; [discriminate|]. destruct H1 as [Hw Hq].
      repeat split; try assumption. cbn [find] in Hb.
      destruct (Ascii.eqb c OPEN_BRACKET); [discriminate|reflexivity]. }
  destruct Hkt as (Hkeq & Hknl & Hkb & Hktrim & Hk1).
  set (tail := (ofChar OPEN_BRACKET ++ EmptyString ++ D ++ ofChar CLOSE_BRACKET
                  ++ ofChar OPEN_BRACE ++ F ++ ofChar CLOSE_BRACE ++ ofChar COLON)%string).
  assert (Htail : find NEWLINE tail = None).
  { unfold tail. rewrite append_nil. unfold ofChar at 1. rewrite append_cons, append_nil.
    cbn [find]. change (Ascii.eqb OPEN_BRACKET NEWLINE) with false. cbv iota.
    rewrite (find_app_None NEWLINE D) by (now apply (find_digits NEWLINE D)).
    unfold ofChar at 1 2. rewrite !append_cons, !append_nil. cbn [find].
    change (Ascii.eqb CLOSE_BRACKET NEWLINE) with false.
    change (Ascii.eqb OPEN_BRACE NEWLINE) with false. cbv iota.
    rewrite find_app_None by (now apply HF). reflexivity. }
  repeat split.
  - unfold solid. destruct keyText as [|c r].
    + rewrite append_nil. unfold tail at 1. unfold ofChar at 1. rewrite append_cons.
      change (isWhite OPEN_BRACKET) with false. cbn [negb andb]. apply negb_true_iff.
      now apply includes_false.
    + destruct Hk1 as (Hw & _ & _). rewrite append_cons. rewrite Hw. cbn [negb andb].
      apply negb_true_iff. apply includes_false. rewrite <- append_cons.
      rewrite find_app_None by exact Hknl. now rewrite Htail.
  - rewrite includes_append. apply orb_true_iff. right. unfold tail.
    rewrite !includes_append.
    change (includes (ofChar COLON) COLON) with true. now rewrite !orb_true_r.
  - destruct keyText as [|c r].
    + exists OPEN_BRACKET. eexists. split; [unfold tail, ofChar; reflexivity|].
      split; [|reflexivity]. split; [intros _; exact Hk1|reflexivity].
    + destruct Hk1 as (Hw & Hq & Hb). exists c. eexists. split; [apply append_cons|].
      split; [|exact Hq]. rewrite Hb. split; [discriminate|].
      intros ->. discriminate.
  - replace key with (if isEmpty keyText then None else Some keyText).
    + exact (parseArrayHeaderLine_table keyText false n fields Hkb Hktrim
               ltac:(destruct keyText; [exact I|tauto]) Hne Hk).
    + rewrite Hkeq. destruct key as [k|]; [|reflexivity].
      destruct (validKey_text k Hkey) as (_ & -> & _). reflexivity.
Qed.

(** A key-value line that holds the header of a table, with the rows
    from the cursor on. *)
Lemma decodeKeyValue_table lines options fuel key fields rows c d :
  isValidUnquotedKey key = true ->
  table numberToString fields rows = true ->
  Forall (fun row => propertyOrder (ownProps row)) rows ->
  linesAt lines c (map (fun row => (S d, rowText numberToString row)) rows) ->
  upTo (decodeKeyValue lines options fuel
          (formatHeader (List.length rows) (Some key) (Some fields) DEFAULT_DELIMITER false)
          c (Z.of_nat d))
       ({| kv_key := key; kv_value := VArr rows; kv_followDepth := Z.of_nat d + 1 |},
        (c + List.length rows)%nat).
Proof.
  intros Hkey Ht Ho Hl. destruct (table_parts numberToString fields rows Ht)
    as (Hf & Hk & Hr & Hrows).
  destruct fuel as [|fuel]; [now left|].
  rewrite decodeKeyValue_S. unfold decodeKeyValue_body.
  destruct (tableHeader_facts (Some key) fields (List.length rows) Hkey Hf Hk)
    as (_ & _ & _ & Hparse).
  cbv zeta in Hparse. rewrite Hparse. cbn [bind hdr_key].
  destruct (validKey_text key Hkey) as (_ & -> & _).
  eapply upTo_bind;
    [apply (decodeArrayFromHeader_table numberToString); try assumption;
     exact (table_keys numberToString fields rows Ht)|].
  now right.
Qed.

Lemma deserialize_table fields rows strict :
  table numberToString fields rows = true ->
  Forall (fun row => propertyOrder (ownProps row)) rows ->
  deserialize (encodeValue numberToString (resolveOptions None) (VArr rows)) strict
  = Return (VArr rows).
Proof.
  intros Ht Ho. destruct (table_parts numberToString fields rows Ht) as (Hf & Hk & Hr & Hrows).
  assert (Henc : encodeValue numberToString (resolveOptions None) (VArr rows)
                 = join (ofChar NEWLINE)
                     (map renderLine (tableItems numberToString None fields rows 0))).
  { change (encodeValue numberToString (resolveOptions None) (VArr rows))
      with (writerToString
              (encodeArray numberToString (resolveOptions None)
                 (encodeListItemValue numberToString (resolveOptions None)) None rows 0 [])).
    now rewrite (encodeArray_table numberToString None fields). }
  rewrite Henc.
  destruct (tableHeader_facts None fields (List.length rows) I Hf Hk)
    as (Hsolid & Hcolon & (c0 & t0 & Hh & Hbr & _) & Hparse).
  set (h := formatHeader (List.length rows) None (Some fields) DEFAULT_DELIMITER false) in *.
  assert (Hitems : Forall (fun it => solid (snd it) = true)
                     (tableItems numberToString None fields rows 0)).
  { unfold tableItems. constructor; [exact Hsolid|].
    now apply (tableRows_solid fields). }
  unfold deserialize. cbn [dec_indent dec_strict]. change DEFAULT_INDENT_SIZE with 2.
  rewrite toParsedLines_rendered by (discriminate || exact Hitems).
  cbn [bind fst]. unfold tableItems. fold h. cbn [numberLines fst snd].
  set (options := {| dec_indent := 2; dec_strict := _ |}).
  set (rest := numberLines (1 + 1)
                 (map (fun row => (1%nat, rowText numberToString row)) rows)).
  set (lines := lineOf 0 h 1 :: rest).
  pose proof (decodeValueFromLines_finishes lines options) as Hfin.
  unfold decodeValueFromLines in *. cbn [peek lines nth_error lineOf content] in *.
  assert (Hhdr : isArrayHeaderAfterHyphen h = true) by (now apply tableHeader_root).
  rewrite Hhdr, Hparse in *. cbn [bind] in *.
  assert (Hl : linesAt lines 1 (map (fun row => (1%nat, rowText numberToString row)) rows))
    by apply (linesAt_numberLines _ [lineOf 0 h 1] (1 + 1)).
  destruct (decodeArrayFromHeader_table numberToString lines options (decodeBudget lines)
              None fields rows 1 0 Hf (table_keys numberToString fields rows Ht)
              Hrows Ho Hl) as [E|E];
    change (Z.of_nat 0) with 0 in E; rewrite E in *; [contradiction|reflexivity].
Qed.
End TableRoundTrip.



(** ** Arrays of arrays *)

Section ArraysOfArrays.
Variable numberToString : number -> string.
Let encodeOptions := resolveOptions None.

Lemma listOfArrays_parts rows :
  listOfArrays numberToString rows = true ->
  rows <> []
  /\ Forall (fun row => exists items,
                 row = VArr items
                 /\ forallb (readable numberToString DEFAULT_DELIMITER) items = true) rows.
Proof.
  unfold listOfArrays. rewrite andb_true_iff, negb_true_iff. intros [Hn Hr]. split.
  - intros ->. discriminate.
  - apply List.Forall_forall. intros row Hin. rewrite forallb_forall in Hr.
    specialize (Hr row Hin). destruct row; try discriminate. eauto.
Qed.

Lemma forEach_arrays rows d : forall w,
  Forall (fun row => exists items,
              row = VArr items
              /\ forallb (readable numberToString DEFAULT_DELIMITER) items = true) rows ->
  forEach (fun arr w' =>
             match arr with
             | VArr items =>
                 if isArrayOfPrimitives items then
                   pushListItem (opt_indent encodeOptions) d
                     (encodeInlineArrayLine numberToString items
                        (opt_delimiter encodeOptions) None
                        (opt_lengthMarker encodeOptions)) w'
                 else w'
             | _ => w'
             end) rows w
  = w ++ map renderLine (arrayItems numberToString rows d).
Proof.
  intros w Hrows. revert w.
  induction Hrows as [|r rs (items & -> & Hi) _ IH]; intros w.
  - cbn [forEach arrayItems map]. now rewrite app_nil_r.
  - cbn [forEach]. rewrite (readable_primitives numberToString DEFAULT_DELIMITER items Hi).
    rewrite IH. unfold pushListItem, push. rewrite <- app_assoc. reflexivity.
Qed.

Lemma encodeArray_arrays key rows d w :
  listOfArrays numberToString rows = true ->
  encodeArray numberToString encodeOptions
    (encodeListItemValue numberToString encodeOptions) key rows d w
  = w ++ map renderLine
           ((d, formatHeader (List.length rows) key None DEFAULT_DELIMITER false)
              :: arrayItems numberToString rows (S d)).
Proof.
  intros Hl. destruct (listOfArrays_parts rows Hl) as [Hne Hrows].
  destruct rows as [|row rows]; [congruence|].
  assert (Hprim : isArrayOfPrimitives (row :: rows) = false).
  { inversion Hrows as [|? ? (items & -> & _) _]. reflexivity. }
  assert (Hcond : isArrayOfArrays (row :: rows)
                  && forallb (fun arr => match arr with
                                         | VArr items => isArrayOfPrimitives items
                                         | _ => false
                                         end) (row :: rows) = true).
  { apply andb_true_iff. split; apply forallb_forall; intros r Hin;
      rewrite List.Forall_forall in Hrows; destruct (Hrows r Hin) as (items & -> & Hi);
      [reflexivity|now apply (readable_primitives numberToString DEFAULT_DELIMITER)]. }
  unfold encodeArray. rewrite Hprim, Hcond. unfold encodeArrayOfArraysAsListItems.
  rewrite forEach_arrays by exact Hrows. unfold push. cbn [map].
  rewrite <- app_assoc. reflexivity.
Qed.

Lemma arrayItems_solid rows d :
  Forall (fun row => exists items,
              row = VArr items
              /\ forallb (readable numberToString DEFAULT_DELIMITER) items = true) rows ->
  Forall (fun it => solid (snd it) = true) (arrayItems numberToString rows d).
Proof.
  intros Hrows. unfold arrayItems. apply List.Forall_forall.
  intros it Hin. apply in_map_iff in Hin. destruct Hin as (row & <- & Hin).
  rewrite List.Forall_forall in Hrows. destruct (Hrows row Hin) as (items & -> & Hi).
  cbn [snd elements]. destruct (arrayLine_read numberToString items Hi) as (_ & Hnl & _).
  cbv zeta in Hnl. unfold solid, LIST_ITEM_PREFIX. rewrite !append_cons, append_nil.
  change (isWhite "-") with false. cbn [negb andb]. apply negb_true_iff.
  apply includes_false. cbn [find]. change (Ascii.eqb "-" NEWLINE) with false.
  change (Ascii.eqb " " NEWLINE) with false. cbv iota. now rewrite Hnl.
Qed.

Section Decode.
Variable lines : list ParsedLine.
Variable options : DecodeOptions.

(** The loop of [decodeListArray] on the list items of inner arrays,
    whatever follows them. *)
Lemma decodeListArray_arrays header rest d : forall fuel c acc,
  Forall (fun row => exists items,
              row = VArr items
              /\ forallb (readable numberToString DEFAULT_DELIMITER) items = true) rest ->
  linesAt lines c (arrayItems numberToString rest (S d)) ->
  Z.of_nat (List.length acc + List.length rest) = hdr_length header ->
  upTo (decodeListArray lines options fuel header c (Z.of_nat d) acc)
       (acc ++ rest, (c + List.length rest)%nat).
Proof.
  induction rest as [|row rest IH]; intros fuel c acc Hrows Hl Hlen;
    (destruct fuel as [|fuel]; [now left|]);
    rewrite decodeListArray_S; unfold decodeListArray_body; cbv zeta.
  - cbn [List.length] in *. rewrite Nat.add_0_r in *.
    destruct (Z.ltb_spec (Z.of_nat (List.length acc)) (hdr_length header)); [lia|].
    cbn [negb]. rewrite orb_true_r, <- Hlen, assertExpectedCount_passes.
    right. now rewrite app_nil_r.
  - inversion Hrows as [|? ? (items & -> & Hi) Hrest]; subst.
    cbn [arrayItems map linesAt fst snd elements] in Hl.
    destruct (peek lines c) as [l|] eqn:Ep; [|contradiction].
    destruct Hl as (Hd & Hc & Hl). cbn [List.length] in *.
    assert (He : atEnd lines c = false).
    { unfold atEnd. apply Nat.leb_gt. eapply peek_Some_lt. exact Ep. }
    rewrite He. cbn [orb].
    destruct (Z.ltb_spec (Z.of_nat (List.length acc)) (hdr_length header)); [|lia].
    cbn [negb]. rewrite Hd.
    destruct (Z.ltb_spec (Z.of_nat (S d)) (Z.of_nat d + 1)); [lia|].
    destruct (Z.eqb_spec (Z.of_nat (S d)) (Z.of_nat d + 1)); [|lia].
    assert (Hs : startsWith (content l) LIST_ITEM_PREFIX = true).
    { rewrite Hc. unfold LIST_ITEM_PREFIX. rewrite !append_cons, append_nil.
      cbn [startsWith]. now rewrite !Ascii.eqb_refl, startsWith_nil. }
    rewrite Hs. cbn [andb].
    eapply upTo_bind.
    + apply (decodeListItem_array numberToString lines options fuel items c l);
        assumption.
    + cbn [fst snd].
      replace (acc ++ VArr items :: rest) with ((acc ++ [VArr items]) ++ rest)
        by (now rewrite <- app_assoc).
      replace (c + S (List.length rest))%nat with (S c + List.length rest)%nat by lia.
      apply IH; try assumption. rewrite length_app. cbn [List.length]. lia.
Qed.

(** [decodeArrayFromHeader] on the header of an array of arrays, with
    the list items from the cursor on. *)
Lemma decodeArrayFromHeader_arrays fuel key rows c d :
  listOfArrays numberToString rows = true ->
  linesAt lines c (arrayItems numberToString rows (S d)) ->
  upTo (decodeArrayFromHeader lines options fuel
          {| hdr_key := key; hdr_length := Z.of_nat (List.length rows);
             hdr_delimiter := DEFAULT_DELIMITER; hdr_fields := None;
             hdr_hasLengthMarker := false |} None c (Z.of_nat d))
       (rows, (c + List.length rows)%nat).
Proof.
  intros Hla Hl. destruct (listOfArrays_parts rows Hla) as [_ Hrows].
  destruct fuel as [|fuel]; [now left|].
  rewrite decodeArrayFromHeader_S. unfold decodeArrayFromHeader_body. cbn [hdr_fields].
  now apply (decodeListArray_arrays _ rows d fuel c []).
Qed.

(** A key-value line that holds the header of an array of arrays. *)
Lemma decodeKeyValue_arrays fuel key rows c d :
  isValidUnquotedKey key = true ->
  listOfArrays numberToString rows = true ->
  linesAt lines c (arrayItems numberToString rows (S d)) ->
  upTo (decodeKeyValue lines options fuel
          (formatHeader (List.length rows) (Some key) None DEFAULT_DELIMITER false)
          c (Z.of_nat d))
       ({| kv_key := key; kv_value := VArr rows; kv_followDepth := Z.of_nat d + 1 |},
        (c + List.length rows)%nat).
Proof.
  intros Hk Hla Hl. destruct fuel as [|fuel]; [now left|].
  rewrite decodeKeyValue_S. unfold decodeKeyValue_body.
  rewrite formatHeader_text.
  destruct (validKey_text key Hk) as (-> & Hne & Hb & Ht & H1). rewrite Hne.
  rewrite <- (append_nil_r (key ++ _)), !append_assoc.
  rewrite (parseArrayHeaderLine_written key false) by assumption.
  rewrite Hne. cbn [bind hdr_key trim trimStart trimEnd isEmpty]. rewrite Hne.
  eapply upTo_bind; [now apply decodeArrayFromHeader_arrays|]. now right.
Qed.
End Decode.

Lemma deserialize_arrays rows strict :
  listOfArrays numberToString rows = true ->
  deserialize (encodeValue numberToString (resolveOptions None) (VArr rows)) strict
  = Return (VArr rows).
Proof.
  intros Hl. destruct (listOfArrays_parts rows Hl) as [Hne Hrows].
  set (h := formatHeader (List.length rows) None None DEFAULT_DELIMITER false).
  assert (Henc : encodeValue numberToString (resolveOptions None) (VArr rows)
                 = join (ofChar NEWLINE)
                     (map renderLine ((0%nat, h) :: arrayItems numberToString rows 1))).
  { change (encodeValue numberToString (resolveOptions None) (VArr rows))
      with (writerToString
              (encodeArray numberToString (resolveOptions None)
                 (encodeListItemValue numberToString (resolveOptions None)) None rows 0 [])).
    now rewrite encodeArray_arrays. }
  rewrite Henc.
  assert (Htext : h = (ofChar OPEN_BRACKET ++ intToString (Z.of_nat (List.length rows))
                         ++ ofChar CLOSE_BRACKET ++ ofChar COLON ++ EmptyString)%string).
  { unfold h. rewrite formatHeader_text. now rewrite !append_nil, append_nil_r. }
  assert (Hsolid : solid h = true).
  { unfold solid. rewrite Htext at 1. unfold ofChar at 1. rewrite append_cons.
    change (isWhite OPEN_BRACKET) with false. cbn [negb andb]. apply negb_true_iff.
    apply includes_false. apply formatHeader_no_newline. }
  assert (Hitems : Forall (fun it => solid (snd it) = true)
                     ((0%nat, h) :: arrayItems numberToString rows 1)).
  { constructor; [exact Hsolid|]. now apply arrayItems_solid. }
  unfold deserialize. cbn [dec_indent dec_strict]. change DEFAULT_INDENT_SIZE with 2.
  rewrite toParsedLines_rendered by (discriminate || exact Hitems).
  cbn [bind fst numberLines snd].
  set (options := {| dec_indent := 2; dec_strict := _ |}).
  set (rest := numberLines (1 + 1) (arrayItems numberToString rows 1)).
  set (lines := lineOf 0 h 1 :: rest).
  pose proof (decodeValueFromLines_finishes lines options) as Hfin.
  unfold decodeValueFromLines in *. cbn [peek lines nth_error lineOf content] in *.
  assert (Hhdr : isArrayHeaderAfterHyphen h = true)
    by (rewrite Htext; apply bracketLine_header).
  assert (Hparse : parseArrayHeaderLine h DEFAULT_DELIMITER
                   = Return (Some ({| hdr_key := None;
                                      hdr_length := Z.of_nat (List.length rows);
                                      hdr_delimiter := DEFAULT_DELIMITER;
                                      hdr_fields := None; hdr_hasLengthMarker := false |},
                                   None))).
  { rewrite Htext.
    exact (parseArrayHeaderLine_written EmptyString false (List.length rows) EmptyString
             eq_refl eq_refl I). }
  rewrite Hhdr, Hparse in *. cbn [bind] in *.
  assert (Hl' : linesAt lines 1 (arrayItems numberToString rows 1))
    by apply (linesAt_numberLines (arrayItems numberToString rows 1) [lineOf 0 h 1] (1 + 1)).
  destruct (decodeArrayFromHeader_arrays lines options (decodeBudget lines) None rows 1 0
              Hl Hl') as [E|E];
    change (Z.of_nat 0) with 0 in E; rewrite E in *; [contradiction|reflexivity].
Qed.
End ArraysOfArrays.



(** ** Round trip: the lines the emitter writes *)

Section ObjectLines.
Variable numberToString : number -> string.
Let options := resolveOptions None.

Lemma plainTree_VObj props :
  plainTree numberToString (VObj props) = forallb (plainPair numberToString) props.
Proof. reflexivity. Qed.

Lemma plainTree_VArr items :
  plainTree numberToString (VArr items)
  = plainArray numberToString items
    || (listForm items && forallb (listItem numberToString) items).
Proof. reflexivity. Qed.

Lemma childItems_VObj props d :
  childItems numberToString (VObj props) d = objectItems numberToString props (S d).
Proof. reflexivity. Qed.

Lemma childItems_VArr items d :
  childItems numberToString (VArr items) d
  = if plainArray numberToString items then arrayBody numberToString items d
    else listBody numberToString items d.
Proof. reflexivity. Qed.

Lemma pairItems_eq key v d :
  pairItems numberToString key v d
  = (d, headText numberToString key v) :: childItems numberToString v d.
Proof. reflexivity. Qed.

Lemma plainTree_leaf v :
  isJsonPrimitive v = true -> plainTree numberToString v = plainLeaf numberToString v.
Proof. destruct v; try discriminate; reflexivity. Qed.

Lemma plainTree_cases v :
  plainTree numberToString v = true ->
  plainLeaf numberToString v = true \/ (exists props, v = VObj props)
  \/ (exists items, v = VArr items).
Proof. destruct v; try discriminate; intros H; eauto. Qed.
End ObjectLines.

(** The emitter's loop over a list, when each turn appends lines. *)
Lemma forEach_lines {A} (f : A -> LineWriter -> LineWriter) (g : A -> list (nat * string))
    (l : list A) :
  Forall (fun x => forall w, f x w = w ++ map renderLine (g x)) l ->
  forall w, forEach f l w = w ++ map renderLine (flat_map g l).
Proof.
  induction 1 as [|x r Hx _ IH]; intros w; cbn [forEach flat_map map].
  - now rewrite app_nil_r.
  - now rewrite Hx, IH, map_app, app_assoc.
Qed.

Lemma forEach_ext {A} (f f' : A -> LineWriter -> LineWriter) (l : list A) :
  Forall (fun x => forall w, f x w = f' x w) l ->
  forall w, forEach f l w = forEach f' l w.
Proof.
  induction 1 as [|x r Hx _ IH]; intros w; cbn [forEach]; [reflexivity|].
  now rewrite Hx, IH.
Qed.

Section ListLines.
Variable numberToString : number -> string.
Let options := resolveOptions None.

Lemma plainArray_cases items :
  plainArray numberToString items = true ->
  forallb (readable numberToString DEFAULT_DELIMITER) items = true
  \/ (forallb (readable numberToString DEFAULT_DELIMITER) items = false
      /\ isTable numberToString items = true)
  \/ (forallb (readable numberToString DEFAULT_DELIMITER) items = false
      /\ isTable numberToString items = false
      /\ listOfArrays numberToString items = true).
Proof.
  unfold plainArray.
  destruct (forallb _ items); [now left|].
  destruct (isTable numberToString items); [intros _; right; left; now split|].
  cbn [orb]. intros H. right. right. now repeat split.
Qed.

(** The four kinds of arrays, as the emitter tells them apart. *)
Lemma plainTree_arrays items :
  plainTree numberToString (VArr items) = true ->
  plainArray numberToString items = true
  \/ (plainArray numberToString items = false /\ listForm items = true
      /\ forallb (listItem numberToString) items = true).
Proof.
  rewrite plainTree_VArr. destruct (plainArray numberToString items); [now left|].
  cbn [orb]. rewrite andb_true_iff. intros [Hf Hi]. right. now repeat split.
Qed.

Lemma plainPair_key key v :
  plainPair numberToString (key, v) = true ->
  plainTree numberToString v = true
  /\ (isJsonArray v = true -> isValidUnquotedKey key = true).
Proof.
  unfold plainPair. cbn [fst snd]. rewrite !andb_true_iff, orb_true_iff, negb_true_iff.
  intros [[Hp [Ha|Hk]] _]; split; try assumption; [congruence|auto].
Qed.

Lemma plainPair_plainKey key v :
  plainPair numberToString (key, v) = true -> key <> PROTO.
Proof.
  unfold plainPair, plainKey. cbn [fst snd]. rewrite !andb_true_iff, !negb_true_iff.
  intros [_ [Hk _]]. now apply String.eqb_neq.
Qed.

Lemma plainPairs_keys props :
  forallb (plainPair numberToString) props = true ->
  Forall (fun kv => fst kv <> PROTO) props.
Proof.
  rewrite forallb_forall. intros H. apply List.Forall_forall. intros [k v] Hin.
  exact (plainPair_plainKey k v (H _ Hin)).
Qed.

Lemma listForm_parts items :
  listForm items = true ->
  items <> [] /\ isArrayOfPrimitives items = false
  /\ isArrayOfArrays items
     && forallb (fun arr => match arr with
                            | VArr xs => isArrayOfPrimitives xs
                            | _ => false
                            end) items = false
  /\ (isArrayOfObjects items = true -> extractTabularHeader items = None).
Proof.
  unfold listForm. rewrite !andb_true_iff, !negb_true_iff, orb_true_iff, negb_true_iff.
  intros [[Hp Ha] Ho]. repeat split; try assumption.
  - intros ->. discriminate.
  - intros Hobj. destruct Ho as [Ho|Ho]; [congruence|].
    now destruct (extractTabularHeader items).
Qed.

Lemma encodeArray_listForm key items d w :
  listForm items = true ->
  encodeArray numberToString options (encodeListItemValue numberToString options)
    key items d w
  = forEach (fun item w' => encodeListItemValue numberToString options item (S d) w')
      items
      (w ++ [renderLine (d, formatHeader (List.length items) key None
                              DEFAULT_DELIMITER false)]).
Proof.
  intros Hf. destruct (listForm_parts items Hf) as (Hne & Hp & Ha & Ho).
  destruct items as [|x r]; [congruence|]. unfold encodeArray. rewrite Hp, Ha.
  destruct (isArrayOfObjects (x :: r)); [rewrite Ho by reflexivity|]; reflexivity.
Qed.

Lemma arrayHead_listForm key items :
  plainArray numberToString items = false ->
  arrayHead numberToString key items
  = formatHeader (List.length items) key None DEFAULT_DELIMITER false.
Proof.
  unfold plainArray, arrayHead.
  destruct (forallb _ items); [discriminate|].
  destruct (isTable numberToString items); [discriminate|reflexivity].
Qed.

(** What [encodeArray] tests on a table. *)
Lemma table_tests fields rows :
  table numberToString fields rows = true ->
  isArrayOfPrimitives rows = false /\ isArrayOfObjects rows = true
  /\ extractTabularHeader rows = Some fields.
Proof.
  intros Ht. destruct (table_parts numberToString fields rows Ht) as (Hf & Hk & Hr & Hrows).
  destruct rows as [|row rows]; [congruence|].
  pose proof Hrows as Hrows'. cbn [forallb] in Hrows'. apply andb_true_iff in Hrows'.
  destruct Hrows' as [Hrow _].
  destruct (tableRow_parts numberToString fields row Hrow) as (props & -> & Hkeys & _).
  repeat split.
  - unfold isArrayOfObjects. apply forallb_forall. intros r Hin.
    rewrite forallb_forall in Hrows.
    destruct (tableRow_parts numberToString fields r (Hrows r Hin)) as (p & -> & _).
    reflexivity.
  - unfold extractTabularHeader. cbn [ownProps]. rewrite Hkeys.
    destruct fields as [|f fs]; [congruence|].
    now rewrite (isTabularArray_table numberToString (f :: fs) (VObj props :: rows) Hrows).
Qed.

Lemma listOfArrays_tests rows :
  listOfArrays numberToString rows = true ->
  isArrayOfPrimitives rows = false /\ isArrayOfObjects rows = false
  /\ forallb (listItem numberToString) rows = true
  /\ forall d, listBody numberToString rows d = arrayItems numberToString rows (S d).
Proof.
  intros Hl. destruct (listOfArrays_parts numberToString rows Hl) as [Hne Hrows].
  destruct rows as [|row rows]; [congruence|].
  inversion Hrows as [|? ? (xs & -> & Hxs) Hrest]; subst. repeat split.
  - apply forallb_forall. intros r Hin. rewrite List.Forall_forall in Hrows.
    destruct (Hrows r Hin) as (ys & -> & Hys). exact Hys.
  - intros d. unfold listBody, arrayItems. clear Hne Hl Hxs Hrest.
    induction Hrows as [|r rs (ys & -> & _) _ IH]; [reflexivity|].
    cbn [flat_map map itemLines elements app]. now rewrite IH.
Qed.
End ListLines.

Section EncoderLines.
Variable numberToString : number -> string.
Let options := resolveOptions None.

(** What is shown of a value by induction: the lines of the value under
    a key, and its lines as an item of a list. *)
Let keyedLines (v : jsval) : Prop :=
  forall key d w,
    plainTree numberToString v = true -> stable v ->
    encodeKeyValuePair numberToString options key v d w
    = w ++ map renderLine (pairItems numberToString key v d).

Let listedLines (v : jsval) : Prop :=
  forall d w,
    listItem numberToString v = true -> stable v ->
    encodeListItemValue numberToString options v d w
    = w ++ map renderLine (itemLines numberToString v d).

Lemma encodeKeyValuePair_VObj key props d w :
  encodeKeyValuePair numberToString options key (VObj props) d w
  = forEach (fun kv w' =>
               encodeKeyValuePair numberToString options (fst kv) (snd kv) (S d) w')
      props (w ++ [renderLine (d, (encodeKey key ++ ":")%string)]).
Proof. reflexivity. Qed.

Lemma encodeKeyValuePair_leaf key v d w :
  isJsonPrimitive v = true ->
  encodeKeyValuePair numberToString options key v d w
  = w ++ [renderLine (d, (encodeKey key ++ ": "
                             ++ encodePrimitive numberToString v DEFAULT_DELIMITER)%string)].
Proof. intros H. destruct v; try discriminate; reflexivity. Qed.

Lemma encodeListItemValue_leaf v d w :
  isJsonPrimitive v = true ->
  encodeListItemValue numberToString options v d w
  = w ++ [renderLine (d, (LIST_ITEM_PREFIX
                             ++ encodePrimitive numberToString v DEFAULT_DELIMITER)%string)].
Proof. intros H. destruct v; try discriminate; reflexivity. Qed.

Lemma encodeListItemValue_VArr xs d w :
  isArrayOfPrimitives xs = true ->
  encodeListItemValue numberToString options (VArr xs) d w
  = w ++ [renderLine (d, (LIST_ITEM_PREFIX
                             ++ encodeInlineArrayLine numberToString xs DEFAULT_DELIMITER
                                  None false)%string)].
Proof.
  intros H.
  change (encodeListItemValue numberToString options (VArr xs) d w)
    with (if isArrayOfPrimitives xs then
            pushListItem 2 d
              (encodeInlineArrayLine numberToString xs DEFAULT_DELIMITER None false) w
          else w).
  now rewrite H.
Qed.

Lemma encodeListItemValue_VObj props d w :
  encodeListItemValue numberToString options (VObj props) d w
  = encodePropsAsListItem numberToString options
      (encodeListItemValue numberToString options)
      (encodeKeyValuePair numberToString options)
      (encodeObjectAsListItem numberToString options) props d w.
Proof. reflexivity. Qed.

(** The lines of an array of the first three kinds, under a key or
    under none. *)
Lemma encodeArray_plain key items d w :
  plainArray numberToString items = true -> stable (VArr items) ->
  encodeArray numberToString options (encodeListItemValue numberToString options)
    key items d w
  = w ++ map renderLine
           ((d, arrayHead numberToString key items) :: arrayBody numberToString items d).
Proof.
  intros Hp Hs. unfold arrayHead, arrayBody.
  destruct (plainArray_cases numberToString items Hp) as [Hr|[[Hr Ht]|(Hr & Ht & Hl)]];
    rewrite Hr.
  - rewrite encodeArray_inline
      by (now apply (readable_primitives numberToString DEFAULT_DELIMITER)).
    reflexivity.
  - rewrite Ht. unfold isTable in Ht.
    rewrite (encodeArray_table numberToString key (tableFields items))
      by (assumption || now apply (stable_rows numberToString (tableFields items))).
    reflexivity.
  - rewrite Ht. now rewrite encodeArray_arrays.
Qed.

Lemma keyedHeader_text key n :
  isValidUnquotedKey key = true ->
  (encodeKey key ++ "[" ++ intToString (Z.of_nat n) ++ "]:")%string
  = formatHeader n (Some key) None DEFAULT_DELIMITER false.
Proof.
  intros Hk. rewrite formatHeader_text.
  destruct (validKey_text key Hk) as (_ & -> & _). reflexivity.
Qed.

Lemma listed_items xs d :
  Forall listedLines xs -> forallb (listItem numberToString) xs = true ->
  Forall stable xs ->
  Forall (fun item => forall w,
              encodeListItemValue numberToString options item d w
              = w ++ map renderLine (itemLines numberToString item d)) xs.
Proof.
  intros Hl Hi Hs. apply List.Forall_forall. intros item Hin w.
  rewrite List.Forall_forall in Hl, Hs. rewrite forallb_forall in Hi.
  apply Hl; auto.
Qed.

Lemma keyed_pairs props d :
  Forall (fun kv => keyedLines (snd kv)) props ->
  forallb (plainPair numberToString) props = true ->
  Forall (fun kv => stable (snd kv)) props ->
  forall w,
    forEach (fun kv w' =>
               encodeKeyValuePair numberToString options (fst kv) (snd kv) d w') props w
    = w ++ map renderLine (objectItems numberToString props d).
Proof.
  intros Hl Hp Hs. unfold objectItems. apply forEach_lines.
  apply List.Forall_forall. intros kv Hin w.
  rewrite List.Forall_forall in Hl, Hs. rewrite forallb_forall in Hp.
  specialize (Hp kv Hin). unfold plainPair in Hp. rewrite !andb_true_iff in Hp.
  apply Hl; tauto || auto.
Qed.

(** The first line of a list item that is an object, and the lines of
    the value of its first property. *)
Lemma firstField_lines k x d w :
  plainPair numberToString (k, x) = true -> isJsonObject x = false -> stable x ->
  Forall listedLines (elements x) ->
  (let encodedKey := encodeKey k in
   if isJsonPrimitive x then
     pushListItem 2 d
       (encodedKey ++ ": " ++ encodePrimitive numberToString x DEFAULT_DELIMITER)%string w
   else
     match x with
     | VArr items =>
         if isArrayOfPrimitives items then
           pushListItem 2 d
             (encodeInlineArrayLine numberToString items DEFAULT_DELIMITER (Some k) false) w
         else if isArrayOfObjects items then
           match extractTabularHeader items with
           | Some header =>
               writeTabularRows numberToString options items header (S d)
                 (pushListItem 2 d
                    (formatHeader (List.length items) (Some k) (Some header)
                       DEFAULT_DELIMITER false) w)
           | None =>
               forEach (fun item w' =>
                          encodeObjectAsListItem numberToString options item (S d) w')
                 items
                 (pushListItem 2 d
                    (encodedKey ++ "[" ++ intToString (Z.of_nat (List.length items))
                       ++ "]:")%string w)
           end
         else
           forEach (fun item w' =>
                      encodeListItemValue numberToString options item (S d) w') items
             (pushListItem 2 d
                (encodedKey ++ "[" ++ intToString (Z.of_nat (List.length items))
                   ++ "]:")%string w)
     | VObj props' | VObjWith _ props' =>
         forEach (fun kv w' =>
                    encodeKeyValuePair numberToString options (fst kv) (snd kv)
                      (S (S d)) w')
           props' (pushListItem 2 d (encodedKey ++ ":")%string w)
     | VDate _ | VSet _ | VMap _ | VOpaque true =>
         pushListItem 2 d (encodedKey ++ ":")%string w
     | _ => w
     end)
  = w ++ map renderLine
           ((d, (LIST_ITEM_PREFIX ++ headText numberToString k x)%string)
              :: childItems numberToString x d).
Proof.
  intros Hpair Hobj Hs Hel. cbv zeta.
  destruct (plainPair_key numberToString k x Hpair) as [Hp Hkey].
  destruct (plainTree_cases numberToString x Hp) as [Hleaf|[[props ->]|[items ->]]];
    [|discriminate|].
  - rewrite (plainLeaf_primitive numberToString x Hleaf).
    destruct x; try discriminate; reflexivity.
  - specialize (Hkey eq_refl). cbn [isJsonPrimitive elements headText] in *.
    rewrite childItems_VArr.
    pose proof (stable_VArr items Hs) as Hsi.
    destruct (plainTree_arrays numberToString items Hp) as [Hpa|(Hpa & Hf & Hi)]; rewrite Hpa.
    + unfold arrayHead, arrayBody.
      destruct (plainArray_cases numberToString items Hpa) as [Hr|[[Hr Ht]|(Hr & Ht & Hl)]];
        rewrite Hr.
      * rewrite (readable_primitives numberToString DEFAULT_DELIMITER items Hr).
        reflexivity.
      * rewrite Ht. unfold isTable in Ht.
        destruct (table_tests numberToString _ _ Ht) as (-> & -> & ->).
        destruct (table_parts numberToString _ _ Ht) as (_ & _ & _ & Hrows).
        rewrite (writeTabularRows_lines numberToString (tableFields items))
          by (assumption || now apply (stable_rows numberToString (tableFields items))).
        unfold pushListItem, push. cbn [map]. rewrite map_map, <- app_assoc. reflexivity.
      * rewrite Ht.
        destruct (listOfArrays_tests numberToString items Hl) as (-> & -> & Hi & Hbody).
        rewrite (forEach_lines _ (fun item => itemLines numberToString item (S d)))
          by (now apply listed_items).
        rewrite keyedHeader_text by exact Hkey.
        fold (listBody numberToString items d). rewrite Hbody.
        unfold pushListItem, push. cbn [map]. rewrite <- app_assoc. reflexivity.
    + destruct (listForm_parts items Hf) as (_ & -> & _ & Ho).
      rewrite arrayHead_listForm by exact Hpa. rewrite keyedHeader_text by exact Hkey.
      assert (Hlines : forall w',
                 forEach (fun item w'' =>
                            encodeListItemValue numberToString options item (S d) w'')
                   items w'
                 = w' ++ map renderLine (listBody numberToString items d)).
      { intros w'. now apply forEach_lines, listed_items. }
      destruct (isArrayOfObjects items) eqn:Eo.
      * rewrite Ho by reflexivity.
        rewrite (forEach_ext _ (fun item w' =>
                                  encodeListItemValue numberToString options item (S d) w')).
        -- rewrite Hlines. unfold pushListItem, push. cbn [map].
           rewrite <- app_assoc. reflexivity.
        -- apply List.Forall_forall. intros item Hin w'.
           unfold isArrayOfObjects in Eo. rewrite forallb_forall in Eo, Hi.
           specialize (Eo item Hin). specialize (Hi item Hin).
           destruct item as [| | | | | | | | | |props|proto props|[|]]; try discriminate; reflexivity.
      * rewrite Hlines. unfold pushListItem, push. cbn [map].
        rewrite <- app_assoc. reflexivity.
Qed.

Lemma encoder_lines v : keyedLines v /\ listedLines v /\ Forall listedLines (elements v).
Proof.
  induction v
    as [| |b|x|s|z|iso|items IH|items IH|entries IH|props IH|proto props IHp IH|b]
    using jsval_ind;
    (split; [|split; [|try constructor]]); try (intros ? ? ? HH; discriminate HH);
    try (intros ? ? HH; discriminate HH).
  - intros key d w _ _. now rewrite encodeKeyValuePair_leaf.
  - intros d w _ _. now rewrite encodeListItemValue_leaf.
  - intros key d w _ _. now rewrite encodeKeyValuePair_leaf.
  - intros d w _ _. now rewrite encodeListItemValue_leaf.
  - intros key d w _ _. now rewrite encodeKeyValuePair_leaf.
  - intros d w _ _. now rewrite encodeListItemValue_leaf.
  - intros key d w _ _. now rewrite encodeKeyValuePair_leaf.
  - intros d w _ _. now rewrite encodeListItemValue_leaf.
  - intros key d w Hp Hs.
    assert (Hitems : Forall listedLines items)
      by (eapply List.Forall_impl; [|exact IH]; intros a Ha; apply Ha).
    change (encodeKeyValuePair numberToString options key (VArr items) d w)
      with (encodeArray numberToString options
              (encodeListItemValue numberToString options) (Some key) items d w).
    rewrite pairItems_eq, childItems_VArr. cbn [headText].
    destruct (plainTree_arrays numberToString items Hp) as [Hpa|(Hpa & Hf & Hi)]; rewrite Hpa.
    + now rewrite encodeArray_plain.
    + rewrite encodeArray_listForm by exact Hf.
      rewrite (forEach_lines _ (fun item => itemLines numberToString item (S d)))
        by (apply listed_items; [assumption..|now apply stable_VArr]).
      rewrite arrayHead_listForm by exact Hpa. cbn [map]. rewrite <- app_assoc.
      reflexivity.
  - intros d w Hi _. cbn [listItem] in Hi.
    now rewrite encodeListItemValue_VArr
      by (now apply (readable_primitives numberToString DEFAULT_DELIMITER)).
  - eapply List.Forall_impl; [|exact IH]. intros a Ha. apply Ha.
  - intros key d w Hp Hs. rewrite encodeKeyValuePair_VObj.
    rewrite plainTree_VObj in Hp. apply stable_VObj in Hs. destruct Hs as [_ Hs].
    rewrite keyed_pairs; try assumption.
    + rewrite pairItems_eq, childItems_VObj. cbn [headText map].
      rewrite <- app_assoc. reflexivity.
    + eapply List.Forall_impl; [|exact IH]. intros a Ha. apply Ha.
  - intros d w Hi Hs. destruct props as [|[k x] rest]; [discriminate|].
    cbn [listItem] in Hi. apply andb_true_iff in Hi. destruct Hi as [Hp Hx].
    apply negb_true_iff in Hx. rewrite plainTree_VObj in Hp. cbn [forallb] in Hp.
    apply andb_true_iff in Hp. destruct Hp as [Hkx Hrest].
    apply stable_VObj in Hs. destruct Hs as [_ Hs].
    inversion Hs as [|? ? Hsx Hsrest]; subst. inversion IH as [|? ? IHx IHrest]; subst.
    cbn [fst snd] in *.
    rewrite encodeListItemValue_VObj. unfold encodePropsAsListItem.
    match goal with |- forEach _ rest ?a = _ =>
      replace a with (w ++ map renderLine
                             ((d, (LIST_ITEM_PREFIX ++ headText numberToString k x)%string)
                                :: childItems numberToString x d))
    end.
    + rewrite keyed_pairs; try assumption.
      * cbn [itemLines map]. rewrite !map_app, <- !app_assoc. reflexivity.
      * eapply List.Forall_impl; [|exact IHrest]. intros a Ha. apply Ha.
    + symmetry. apply (firstField_lines k x d w); try assumption. apply IHx.
Qed.

Lemma encodeKeyValuePair_items v key d w :
  plainTree numberToString v = true -> stable v ->
  encodeKeyValuePair numberToString options key v d w
  = w ++ map renderLine (pairItems numberToString key v d).
Proof. intros Hp Hs. now apply (proj1 (encoder_lines v)). Qed.

Lemma encodeArray_items key items d w :
  plainTree numberToString (VArr items) = true -> stable (VArr items) ->
  encodeArray numberToString options (encodeListItemValue numberToString options)
    key items d w
  = w ++ map renderLine
           ((d, arrayHead numberToString key items)
              :: childItems numberToString (VArr items) d).
Proof.
  intros Hp Hs. rewrite childItems_VArr.
  destruct (plainTree_arrays numberToString items Hp) as [Hpa|(Hpa & Hf & Hi)]; rewrite Hpa.
  - now rewrite encodeArray_plain.
  - rewrite encodeArray_listForm by exact Hf.
    rewrite (forEach_lines _ (fun item => itemLines numberToString item (S d))).
    + rewrite arrayHead_listForm by exact Hpa. cbn [map]. rewrite <- app_assoc.
      reflexivity.
    + apply listed_items; [|assumption|now apply stable_VArr].
      apply (proj2 (proj2 (encoder_lines (VArr items)))).
Qed.

Lemma encodeObject_items props d w :
  plainTree numberToString (VObj props) = true ->
  Forall (fun kv => stable (snd kv)) props ->
  encodeObject numberToString options (VObj props) d w
  = w ++ map renderLine (objectItems numberToString props d).
Proof.
  intros Hp Hs. unfold encodeObject. cbn [ownProps]. apply keyed_pairs; try assumption.
  apply List.Forall_forall. intros kv _. apply encoder_lines.
Qed.
End EncoderLines.

(** ** Round trip: what the lines hold *)

Ltac some_true := repeat first [reflexivity | rewrite orb_true_r | progress cbn [orb]].

(** [findUnquotedChar] on a text without quote, on an escaped text
    between quotes, and on a text that has the character after a part
    without quote. *)
Lemma scanUnquoted_absent char a : forall i,
  find DOUBLE_QUOTE a = None -> find char a = None ->
  scanUnquoted char a false i = -1.
Proof.
  induction a as [|c r IH]; intros i Hq Hc; [reflexivity|].
  cbn [find] in Hq, Hc.
  destruct (Ascii.eqb c DOUBLE_QUOTE) eqn:Eq; [discriminate|].
  destruct (Ascii.eqb c char) eqn:Ec; [discriminate|].
  assert (Hq' : find DOUBLE_QUOTE r = None) by (destruct (find DOUBLE_QUOTE r); congruence).
  assert (Hc' : find char r = None) by (destruct (find char r); congruence).
  cbn [scanUnquoted]. rewrite Eq, Ec, andb_false_r. cbn [andb].
  rewrite (IH (i + 1) Hq' Hc'). now destruct r.
Qed.

Lemma scanUnquoted_found char a rest : forall i,
  find DOUBLE_QUOTE a = None -> Ascii.eqb char DOUBLE_QUOTE = false ->
  i <= scanUnquoted char (a ++ String char rest)%string false i.
Proof.
  induction a as [|c r IH]; intros i Hq Hd.
  - rewrite append_nil. cbn [scanUnquoted]. rewrite Hd, Ascii.eqb_refl, andb_false_r.
    cbn [andb negb]. destruct rest; lia.
  - rewrite append_cons. cbn [find] in Hq.
    destruct (Ascii.eqb c DOUBLE_QUOTE) eqn:Eq; [discriminate|].
    assert (Hq' : find DOUBLE_QUOTE r = None) by (destruct (find DOUBLE_QUOTE r); congruence).
    cbn [scanUnquoted]. rewrite Eq, andb_false_r. cbn [negb]. rewrite andb_true_r.
    specialize (IH (i + 1) Hq' Hd).
    destruct (Ascii.eqb c char); destruct (r ++ String char rest)%string; lia.
Qed.

Lemma scanUnquoted_escaped char s rest : forall i,
  Ascii.eqb char DOUBLE_QUOTE = false ->
  scanUnquoted char (escapeChars s ++ String DOUBLE_QUOTE rest)%string true i
  = scanUnquoted char rest false (i + len (escapeChars s) + 1).
Proof.
  unfold len. induction s as [|c r IH]; intros i Hd.
  - cbn [escapeChars]. rewrite append_nil. cbn [scanUnquoted String.length].
    rewrite Ascii.eqb_refl. change (Ascii.eqb DOUBLE_QUOTE BACKSLASH) with false.
    cbn [andb negb]. replace (i + Z.of_nat 0 + 1) with (i + 1) by lia. now destruct rest.
  - cbn [escapeChars]. unfold escapeChar.
    assert (Hesc : forall x,
      scanUnquoted char ((String BACKSLASH (ofChar x) ++ escapeChars r)
                         ++ String DOUBLE_QUOTE rest)%string true i
      = scanUnquoted char rest false
          (i + Z.of_nat (String.length (String BACKSLASH (ofChar x) ++ escapeChars r)%string)
           + 1)).
    { intros x. unfold ofChar. rewrite !append_cons, !append_nil.
      cbn [scanUnquoted]. rewrite Ascii.eqb_refl. cbn [andb]. rewrite IH by exact Hd.
      f_equal. cbn [String.length]. lia. }
    destruct (Ascii.eqb_spec c BACKSLASH) as [->|H1]; [apply Hesc|].
    destruct (Ascii.eqb_spec c DOUBLE_QUOTE) as [->|H2]; [apply Hesc|].
    destruct (Ascii.eqb_spec c NEWLINE) as [->|H3]; [apply (Hesc "n"%char)|].
    destruct (Ascii.eqb_spec c CARRIAGE_RETURN) as [->|H4]; [apply (Hesc "r"%char)|].
    destruct (Ascii.eqb_spec c TAB) as [->|H5]; [apply (Hesc "t"%char)|].
    apply Ascii.eqb_neq in H1, H2. unfold ofChar.
    rewrite !append_cons, !append_nil. cbn [scanUnquoted].
    rewrite H1, H2, andb_false_r. cbn [andb negb]. rewrite IH by exact Hd.
    replace (i + 1 + Z.of_nat (String.length (escapeChars r)) + 1)
      with (i + Z.of_nat (String.length (String c (escapeChars r))) + 1)
      by (cbn [String.length]; lia).
    now destruct (escapeChars r ++ String DOUBLE_QUOTE rest)%string.
Qed.

Lemma scanUnquoted_quoted char s rest i :
  Ascii.eqb char DOUBLE_QUOTE = false ->
  scanUnquoted char (quoted (escapeChars s) ++ rest)%string false i
  = scanUnquoted char rest false (i + len (escapeChars s) + 2).
Proof.
  intros Hd. unfold quoted. rewrite append_cons, append_assoc. unfold ofChar.
  rewrite append_cons, append_nil. cbn [scanUnquoted]. rewrite Ascii.eqb_refl.
  change (Ascii.eqb DOUBLE_QUOTE BACKSLASH) with false. cbn [andb negb].
  rewrite scanUnquoted_escaped by exact Hd.
  replace (i + 1 + len (escapeChars s) + 1) with (i + len (escapeChars s) + 2) by lia.
  now destruct (escapeChars s ++ String DOUBLE_QUOTE rest)%string.
Qed.

(** A line that starts with a character of a bare key or with a quote and
    holds a colon outside: what the decoder makes of its start. *)
Lemma keyed_line text c t :
  text = String c t -> isWhite c = false -> Ascii.eqb c DOUBLE_QUOTE = false ->
  find NEWLINE text = None -> includes text COLON = true ->
  solid text = true /\ forall d n, isKeyValueLine (lineOf d text n) = true.
Proof.
  intros -> Hw Hq Hn Hc. split.
  - unfold solid. rewrite Hw. cbn [negb andb]. apply negb_true_iff.
    now apply includes_false.
  - intros d n. unfold isKeyValueLine, lineOf. cbn [content]. unfold ofChar.
    cbn [startsWith]. now rewrite Ascii.eqb_sym, Hq.
Qed.

(** What follows the hyphen of a list item. *)
Lemma afterHyphen text :
  sliceFrom (LIST_ITEM_PREFIX ++ text)%string (len LIST_ITEM_PREFIX) = text.
Proof.
  rewrite sliceFrom_inside
    by (unfold len; rewrite length_append; cbn [String.length LIST_ITEM_PREFIX]; lia).
  unfold len. rewrite Nat2Z.id. apply drop_append.
Qed.

Lemma hyphen_solid text :
  find NEWLINE text = None -> solid (LIST_ITEM_PREFIX ++ text)%string = true.
Proof.
  intros Hn. unfold solid, LIST_ITEM_PREFIX. rewrite !append_cons, append_nil.
  change (isWhite "-") with false. cbn [negb andb]. apply negb_true_iff.
  apply includes_false. cbn [find]. change (Ascii.eqb "-" NEWLINE) with false.
  change (Ascii.eqb " " NEWLINE) with false. cbv iota. now rewrite Hn.
Qed.

Lemma hyphen_start text : startsWith (LIST_ITEM_PREFIX ++ text)%string LIST_ITEM_PREFIX = true.
Proof.
  unfold LIST_ITEM_PREFIX. rewrite !append_cons, append_nil.
  cbn [startsWith]. now rewrite !Ascii.eqb_refl, startsWith_nil.
Qed.

Lemma includes_found c a rest : includes (a ++ String c rest)%string c = true.
Proof.
  unfold includes. induction a as [|x r IH]; [rewrite append_nil|rewrite append_cons]; cbn [find].
  - now rewrite Ascii.eqb_refl.
  - destruct (Ascii.eqb x c); [reflexivity|].
    now destruct (find c (r ++ String c rest)%string).
Qed.

Lemma encodeKey_hyphen key rest :
  startsWith (encodeKey key ++ rest)%string LIST_ITEM_PREFIX = false.
Proof.
  unfold encodeKey. destruct (isValidUnquotedKey key) eqn:Ev; [|reflexivity].
  destruct key as [|c r]; [discriminate|]. cbn [isValidUnquotedKey] in Ev.
  apply andb_true_iff in Ev. destruct Ev as [Hc _].
  rewrite append_cons. unfold LIST_ITEM_PREFIX. cbn [startsWith].
  destruct (Ascii.eqb_spec "-" c) as [<-|]; [discriminate|reflexivity].
Qed.

(** A key and a colon outside quotes, whatever the key. *)
Lemma encodeKey_colon key rest :
  isObjectFirstFieldAfterHyphen (encodeKey key ++ String COLON rest)%string = true.
Proof.
  unfold isObjectFirstFieldAfterHyphen, findUnquotedChar, encodeKey.
  apply negb_true_iff, Z.eqb_neq.
  destruct (isValidUnquotedKey key) eqn:Ev.
  - apply isValidUnquotedKey_chars in Ev. destruct Ev as [Hk _].
    pose proof (scanUnquoted_found COLON key rest 0
                  (find_absent isKeyChar DOUBLE_QUOTE key Hk eq_refl) eq_refl). lia.
  - rewrite escapeString_chars, scanUnquoted_quoted by reflexivity.
    pose proof (scanUnquoted_found COLON EmptyString rest (0 + len (escapeChars key) + 2)
                  eq_refl eq_refl) as H.
    rewrite append_nil in H. unfold len in *. lia.
Qed.

Section Heads.
Variable numberToString : number -> string.

Lemma headText_shape key v :
  plainTree numberToString v = true -> isJsonArray v = false ->
  exists rest, headText numberToString key v = (encodeKey key ++ String COLON rest)%string
               /\ find NEWLINE rest = None /\ find OPEN_BRACKET rest = None
               /\ trim rest = match v with
                              | VObj _ => EmptyString
                              | _ => encodePrimitive numberToString v DEFAULT_DELIMITER
                              end.
Proof.
  intros Hp Ha. destruct (plainTree_cases numberToString v Hp) as [Hl|[[props ->]|[items ->]]];
    [| |discriminate].
  - destruct (plain_leaf numberToString v Hl) as (_ & Ht & _ & Hn & Hb).
    exists (String " " (encodePrimitive numberToString v DEFAULT_DELIMITER)).
    repeat split.
    + destruct v; try discriminate; reflexivity.
    + cbn [find]. change (Ascii.eqb " " NEWLINE) with false. cbv iota. now rewrite Hn.
    + cbn [find]. change (Ascii.eqb " " OPEN_BRACKET) with false. cbv iota. now rewrite Hb.
    + replace (trim (String " " (encodePrimitive numberToString v DEFAULT_DELIMITER)))
        with (trim (encodePrimitive numberToString v DEFAULT_DELIMITER)) by reflexivity.
      rewrite Ht. destruct v; try discriminate; reflexivity.
  - exists EmptyString. repeat split.
Qed.

(** The header line of an array under a key that is written bare: the
    key, the bracket, a part without quote, the colon and the rest. *)
Lemma arrayHead_shape key items :
  isValidUnquotedKey key = true -> plainTree numberToString (VArr items) = true ->
  let h := arrayHead numberToString (Some key) items in
  find NEWLINE h = None
  /\ exists m rest, h = (key ++ String OPEN_BRACKET (m ++ String COLON rest))%string
                    /\ find DOUBLE_QUOTE m = None.
Proof.
  intros Hk Hp. cbv zeta.
  destruct (validKey_text key Hk) as (Henc & Hne & Hb & _ & H1).
  set (N := intToString (Z.of_nat (List.length items))).
  assert (HN : find DOUBLE_QUOTE N = None).
  { destruct (intToString_nat (List.length items)) as (dg & Hd & _ & _).
    pose proof (string_of_uint_digits dg) as Hdig. rewrite <- Hd in Hdig.
    now apply (find_digits _ N). }
  assert (Hm : find DOUBLE_QUOTE (N ++ ofChar CLOSE_BRACKET) = None)
    by (rewrite find_app_None by exact HN; reflexivity).
  assert (Hlist : let h := formatHeader (List.length items) (Some key) None
                             DEFAULT_DELIMITER false in
                  find NEWLINE h = None
                  /\ exists m rest, h = (key ++ String OPEN_BRACKET (m ++ String COLON rest))%string
                                    /\ find DOUBLE_QUOTE m = None).
  { cbv zeta. split; [apply formatHeader_no_newline|].
    exists (N ++ ofChar CLOSE_BRACKET)%string, EmptyString. split; [|exact Hm].
    rewrite formatHeader_text, Hne, Henc. fold N. now rewrite append_assoc. }
  destruct (plainTree_arrays numberToString items Hp) as [Hpa|(Hpa & Hf & Hi)];
    [|now rewrite arrayHead_listForm].
  unfold arrayHead.
  destruct (plainArray_cases numberToString items Hpa) as [Hr|[[Hr Ht]|(Hr & Ht & Hl)]];
    rewrite Hr; [| |now rewrite Ht].
  - split; [now apply arrayLine_no_newline|].
    destruct (arrayLine_shape numberToString (Some key) items Hk)
      as (keyText & tail & -> & -> & _).
    exists (N ++ ofChar CLOSE_BRACKET)%string, tail. split; [|exact Hm].
    fold N. now rewrite append_assoc.
  - rewrite Ht. unfold isTable in Ht.
    destruct (table_parts numberToString _ _ Ht) as (Hf & Hfk & _ & _).
    destruct (tableHeader_facts (Some key) (tableFields items)
                (List.length items) Hk Hf Hfk) as (Hsolid & _).
    cbv zeta in Hsolid. destruct (solid_first _ Hsolid) as (_ & _ & _ & _ & Hnl).
    split; [exact Hnl|].
    destruct (joined_fields (tableFields items) Hf Hfk) as (HF & _). cbv zeta in HF.
    exists (N ++ ofChar CLOSE_BRACKET ++ ofChar OPEN_BRACE
              ++ join (ofChar COMMA) (tableFields items) ++ ofChar CLOSE_BRACE)%string,
      EmptyString.
    split.
    + rewrite formatHeader_fields, Hne, Henc, encodeKey_fields by exact Hfk. fold N.
      now rewrite !append_assoc.
    + rewrite find_app_None by exact HN.
      rewrite (find_app_None _ (ofChar CLOSE_BRACKET)) by reflexivity.
      rewrite (find_app_None _ (ofChar OPEN_BRACE)) by reflexivity.
      rewrite (find_app_None _ (join _ _)) by (now apply HF). reflexivity.
Qed.

Lemma arrayHead_first key items :
  isValidUnquotedKey key = true -> plainTree numberToString (VArr items) = true ->
  let h := arrayHead numberToString (Some key) items in
  find NEWLINE h = None /\ includes h COLON = true
  /\ isObjectFirstFieldAfterHyphen h = true
  /\ startsWith h LIST_ITEM_PREFIX = false
  /\ exists c t, h = String c t /\ isWhite c = false
                 /\ Ascii.eqb c DOUBLE_QUOTE = false /\ Ascii.eqb c OPEN_BRACKET = false.
Proof.
  intros Hk Hp. cbv zeta.
  destruct (arrayHead_shape key items Hk Hp) as (Hnl & m & rest & Hh & Hm).
  cbv zeta in *. rewrite Hh in *.
  destruct (validKey_text key Hk) as (Henc & Hne & Hb & _ & H1).
  pose proof (isValidUnquotedKey_chars key Hk) as [Hchars _].
  repeat split.
  - exact Hnl.
  - replace (key ++ String OPEN_BRACKET (m ++ String COLON rest))%string
      with ((key ++ String OPEN_BRACKET m) ++ String COLON rest)%string
      by (now rewrite append_assoc).
    apply includes_found.
  - unfold isObjectFirstFieldAfterHyphen, findUnquotedChar.
    apply negb_true_iff, Z.eqb_neq.
    replace (key ++ String OPEN_BRACKET (m ++ String COLON rest))%string
      with ((key ++ String OPEN_BRACKET m) ++ String COLON rest)%string
      by (now rewrite append_assoc).
    assert (Ha : find DOUBLE_QUOTE (key ++ String OPEN_BRACKET m) = None).
    { rewrite find_app_None by (now apply (find_absent isKeyChar)).
      cbn [find]. change (Ascii.eqb OPEN_BRACKET DOUBLE_QUOTE) with false. cbv iota.
      now rewrite Hm. }
    pose proof (scanUnquoted_found COLON _ rest 0 Ha eq_refl). lia.
  - rewrite <- Henc. apply encodeKey_hyphen.
  - destruct key as [|c r]; [discriminate|]. destruct H1 as [Hw Hq].
    exists c, (r ++ String OPEN_BRACKET (m ++ String COLON rest))%string.
    repeat split; try assumption. cbn [find] in Hb.
    destruct (Ascii.eqb c OPEN_BRACKET); [discriminate|reflexivity].
Qed.
End Heads.

Section Lines.
Variable numberToString : number -> string.

(** The first line of a property: it starts with a character of the key
    that is neither white space nor a bracket, it stays on one line,
    [isKeyValueLine] takes it for a key-value line, and after a hyphen
    it is the first field of an object. *)
Lemma headText_line key v :
  plainTree numberToString v = true ->
  (isJsonArray v = true -> isValidUnquotedKey key = true) ->
  let h := headText numberToString key v in
  solid h = true
  /\ (exists c t, h = String c t /\ Ascii.eqb c OPEN_BRACKET = false)
  /\ (forall d n, isKeyValueLine (lineOf d h n) = true)
  /\ isArrayHeaderAfterHyphen h = false
  /\ isObjectFirstFieldAfterHyphen h = true
  /\ startsWith h LIST_ITEM_PREFIX = false.
Proof.
  intros Hp Hkey. cbv zeta.
  assert (Hfacts : solid (headText numberToString key v) = true
                   /\ (exists c t, headText numberToString key v = String c t
                                   /\ Ascii.eqb c OPEN_BRACKET = false)
                   /\ (forall d n,
                          isKeyValueLine (lineOf d (headText numberToString key v) n) = true)
                   /\ isObjectFirstFieldAfterHyphen (headText numberToString key v) = true
                   /\ startsWith (headText numberToString key v) LIST_ITEM_PREFIX = false).
  { destruct (isJsonArray v) eqn:Ea.
    - destruct v; try discriminate. cbn [headText] in *. specialize (Hkey eq_refl).
      destruct (arrayHead_first numberToString key items Hkey Hp)
        as (Hnl & Hcolon & Hfield & Hhy & c & t & Hh & Hw & Hq & Hb).
      cbv zeta in *. destruct (keyed_line _ c t Hh Hw Hq Hnl Hcolon) as [Hs Hkv].
      repeat split; try assumption. eauto.
    - destruct (headText_shape numberToString key v Hp Ea) as (rest & -> & Hn & _ & _).
      destruct (encodeKey_first key rest) as (c & t & Heq & Hw & Hb & _). repeat split.
      + unfold solid. rewrite Heq at 1. rewrite Hw. cbn [negb andb]. apply negb_true_iff.
        apply includes_false. rewrite find_app_None by apply encodeKey_no_newline.
        cbn [find]. change (Ascii.eqb COLON NEWLINE) with false. cbv iota. now rewrite Hn.
      + eauto.
      + intros d n. now apply (isKeyValueLine_written key rest).
      + apply encodeKey_colon.
      + apply encodeKey_hyphen. }
  destruct Hfacts as (Hs & (c & t & Hh & Hb) & Hkv & Hfield & Hhy).
  repeat split; try assumption; [eauto|].
  unfold isArrayHeaderAfterHyphen. rewrite Hh.
  assert (Hw : isWhite c = false).
  { rewrite Hh in Hs. cbn [solid] in Hs. apply andb_true_iff in Hs.
    now apply negb_true_iff. }
  destruct (trim_first c t Hw) as (t' & ->). unfold ofChar. cbn [startsWith].
  now rewrite Ascii.eqb_sym, Hb.
Qed.

Lemma headText_first key v :
  plainPair numberToString (key, v) = true ->
  let h := headText numberToString key v in
  solid h = true
  /\ (exists c t, h = String c t /\ Ascii.eqb c OPEN_BRACKET = false)
  /\ (forall d n, isKeyValueLine (lineOf d h n) = true)
  /\ isArrayHeaderAfterHyphen h = false
  /\ isObjectFirstFieldAfterHyphen h = true
  /\ startsWith h LIST_ITEM_PREFIX = false.
Proof.
  intros Hpair. destruct (plainPair_key numberToString key v Hpair) as [Hp Hkey].
  now apply headText_line.
Qed.

(** The line [key:] of an empty object. *)
Lemma headText_empty key :
  isArrayHeaderAfterHyphen (encodeKey key ++ ":") = false
  /\ isObjectFirstFieldAfterHyphen (encodeKey key ++ ":") = true.
Proof.
  destruct (headText_line key (VObj []) eq_refl) as (_ & _ & _ & H1 & H2 & _);
    [intros H; discriminate H|]. now split.
Qed.

(** The text of a primitive after a hyphen: neither a header nor the
    first field of an object. *)
Lemma listLeaf_facts v :
  readable numberToString DEFAULT_DELIMITER v = true ->
  let t := encodePrimitive numberToString v DEFAULT_DELIMITER in
  isArrayHeaderAfterHyphen t = false /\ isObjectFirstFieldAfterHyphen t = false.
Proof.
  intros Hr. cbv zeta.
  assert (H : findUnquotedChar (encodePrimitive numberToString v DEFAULT_DELIMITER) COLON
              = -1).
  { unfold findUnquotedChar.
    destruct v as [| |b|x|s|z|iso|items|items|entries|props|proto props|b]; try discriminate.
    - reflexivity.
    - now destruct b.
    - cbn [readable encodePrimitive] in *. unfold numberReads in Hr.
      apply andb_true_iff in Hr. destruct Hr as [Hc _].
      apply scanUnquoted_absent; now apply (find_absent numberChar).
    - cbn [encodePrimitive]. unfold encodeStringLiteral.
      destruct (isSafeUnquoted s DEFAULT_DELIMITER) eqn:Es.
      + apply isSafeUnquoted_facts in Es. destruct Es as (_ & _ & _ & _ & Hc & Hq).
        now apply scanUnquoted_absent.
      + rewrite escapeString_chars.
        rewrite <- (append_nil_r (quoted (escapeChars s))).
        now rewrite scanUnquoted_quoted. }
  unfold isArrayHeaderAfterHyphen, isObjectFirstFieldAfterHyphen. rewrite H.
  now rewrite andb_false_r.
Qed.

Lemma arrayBody_solid items d :
  plainArray numberToString items = true ->
  Forall (fun it => solid (snd it) = true) (arrayBody numberToString items d).
Proof.
  intros Hp. unfold arrayBody.
  destruct (plainArray_cases numberToString items Hp) as [Hr|[[Hr Ht]|(Hr & Ht & Hl)]];
    rewrite Hr; [constructor| |].
  - rewrite Ht. unfold isTable in Ht.
    destruct (table_parts numberToString _ _ Ht) as (Hf & _ & _ & Hrows).
    now apply (tableRows_solid numberToString (tableFields items)).
  - rewrite Ht. destruct (listOfArrays_parts numberToString items Hl) as [_ Hrows].
    now apply arrayItems_solid.
Qed.

Lemma headText_no_newline key v :
  plainPair numberToString (key, v) = true ->
  find NEWLINE (headText numberToString key v) = None.
Proof.
  intros Hp. destruct (headText_first key v Hp) as (Hs & _).
  now destruct (solid_first _ Hs) as (_ & _ & _ & _ & Hnl).
Qed.

(** Every line of a value of the round trip starts with a character
    that is not white space and holds no newline. *)
Lemma lines_solid v :
  (forall d, plainTree numberToString v = true ->
             Forall (fun it => solid (snd it) = true) (childItems numberToString v d))
  /\ (forall d, listItem numberToString v = true ->
                Forall (fun it => solid (snd it) = true) (itemLines numberToString v d)).
Proof.
  assert (Hpairs : forall props d,
             Forall (fun kv => forall d',
                         plainTree numberToString (snd kv) = true ->
                         Forall (fun it => solid (snd it) = true)
                           (childItems numberToString (snd kv) d')) props ->
             forallb (plainPair numberToString) props = true ->
             Forall (fun it => solid (snd it) = true) (objectItems numberToString props d)).
  { intros props d IH Hp. unfold objectItems. apply List.Forall_flat_map.
    apply List.Forall_forall. intros [k x] Hin.
    rewrite List.Forall_forall in IH. rewrite forallb_forall in Hp.
    specialize (IH _ Hin). specialize (Hp _ Hin). cbn [fst snd] in *.
    rewrite pairItems_eq. constructor; [now apply headText_first|].
    apply IH. now apply plainPair_key in Hp. }
  induction v
    as [| |b|x|s|z|iso|items IH|items IH|entries IH|props IH|proto props IHp IH|b]
    using jsval_ind;
    (split; intros d Hp); try discriminate; try constructor;
    try (cbn [snd]; apply hyphen_solid;
         now apply (readable_no_newline numberToString DEFAULT_DELIMITER)); try constructor.
  - rewrite childItems_VArr.
    destruct (plainTree_arrays numberToString items Hp) as [Hpa|(Hpa & Hf & Hi)]; rewrite Hpa.
    + now apply arrayBody_solid.
    + unfold listBody. apply List.Forall_flat_map. apply List.Forall_forall.
      intros item Hin. rewrite List.Forall_forall in IH. rewrite forallb_forall in Hi.
      now apply IH, Hi.
  - cbn [snd]. apply hyphen_solid. now apply arrayLine_no_newline.
  - rewrite childItems_VObj. apply Hpairs; [|exact Hp].
    eapply List.Forall_impl; [|exact IH]. intros a Ha. apply Ha.
  - destruct props as [|[k x] rest]; [discriminate|]. cbn [listItem] in Hp.
    apply andb_true_iff in Hp. destruct Hp as [Hp _]. rewrite plainTree_VObj in Hp.
    cbn [forallb] in Hp. apply andb_true_iff in Hp. destruct Hp as [Hkx Hrest].
    inversion IH as [|? ? IHx IHrest]; subst. cbn [itemLines].
    constructor; [cbn [snd]; apply hyphen_solid; now apply headText_no_newline|].
    apply List.Forall_app. split.
    + apply IHx. now apply plainPair_key in Hkx.
    + apply Hpairs; [|exact Hrest].
      eapply List.Forall_impl; [|exact IHrest]. intros a Ha. apply Ha.
Qed.

Lemma childItems_solid v d :
  plainTree numberToString v = true ->
  Forall (fun it => solid (snd it) = true) (childItems numberToString v d).
Proof. apply lines_solid. Qed.

Lemma pairItems_solid v key d :
  plainPair numberToString (key, v) = true ->
  Forall (fun it => solid (snd it) = true) (pairItems numberToString key v d).
Proof.
  intros Hp. rewrite pairItems_eq. constructor; [now apply headText_first|].
  apply childItems_solid. now apply plainPair_key in Hp.
Qed.

Lemma objectItems_solid props d :
  plainTree numberToString (VObj props) = true ->
  Forall (fun it => solid (snd it) = true) (objectItems numberToString props d).
Proof.
  rewrite plainTree_VObj. intros Hp. unfold objectItems. apply List.Forall_flat_map.
  apply List.Forall_forall. intros [k x] Hin. rewrite forallb_forall in Hp.
  now apply pairItems_solid, Hp.
Qed.
End Lines.

(** ** Round trip: reading the lines back *)

Section ReadBack.
Variable numberToString : number -> string.
Variable lines : list ParsedLine.
Variable options : DecodeOptions.

Lemma objectItems_head props d :
  props <> [] ->
  exists t r, objectItems numberToString props d = (d, t) :: r.
Proof.
  destruct props as [|[k v] ps]; [congruence|]. intros _.
  unfold objectItems. cbn [flat_map fst snd]. rewrite pairItems_eq. cbn [app]. eauto.
Qed.

Lemma itemLines_head item d :
  exists t r, itemLines numberToString item d = (d, (LIST_ITEM_PREFIX ++ t)%string) :: r.
Proof.
  destruct item as [| | | | | | |xs| | |[|[k x] rest]| |]; cbn [itemLines]; eauto.
Qed.

(** A key-value line that holds an inline array. *)
Lemma decodeKeyValue_array fuel key items c d :
  isValidUnquotedKey key = true ->
  forallb (readable numberToString DEFAULT_DELIMITER) items = true ->
  upTo (decodeKeyValue lines options fuel
          (encodeInlineArrayLine numberToString items DEFAULT_DELIMITER (Some key) false) c
          (Z.of_nat d))
       ({| kv_key := key; kv_value := VArr items; kv_followDepth := Z.of_nat d + 1 |}, c).
Proof.
  intros Hk Hr. destruct fuel as [|fuel]; [now left|].
  rewrite decodeKeyValue_S. unfold decodeKeyValue_body.
  destruct (arrayLine_shape numberToString (Some key) items Hk)
    as (keyText & tail & -> & -> & ->).
  destruct (validKey_text key Hk) as (_ & Hne & Hb & Ht & H1).
  rewrite (parseArrayHeaderLine_written key false) by assumption.
  rewrite Hne. cbn [bind hdr_key]. rewrite Hne.
  destruct (arrayTail_facts numberToString items Hr) as [_ Htail]. cbv zeta in Htail.
  rewrite Htail.
  eapply upTo_bind; [now apply decodeArrayFromHeader_inline|]. now right.
Qed.

(** A key-value line that holds the header of an array of the first
    three kinds, with the lines of the array from the cursor on. *)
Lemma decodeKeyValue_plainArray fuel key items c d :
  isValidUnquotedKey key = true ->
  plainArray numberToString items = true -> stable (VArr items) ->
  linesAt lines c (arrayBody numberToString items d) ->
  upTo (decodeKeyValue lines options fuel (arrayHead numberToString (Some key) items) c
          (Z.of_nat d))
       ({| kv_key := key; kv_value := VArr items; kv_followDepth := Z.of_nat d + 1 |},
        (c + List.length (arrayBody numberToString items d))%nat).
Proof.
  intros Hk Hp Hs. unfold arrayHead, arrayBody.
  destruct (plainArray_cases numberToString items Hp) as [Hr|[[Hr Ht]|(Hr & Ht & Hl)]];
    rewrite Hr.
  - intros _. cbn [List.length]. rewrite Nat.add_0_r. now apply decodeKeyValue_array.
  - rewrite Ht. intros Hlines. rewrite length_map. unfold isTable in Ht.
    apply (decodeKeyValue_table numberToString); try assumption.
    now apply (stable_rows numberToString (tableFields items)).
  - rewrite Ht. intros Hlines. unfold arrayItems at 1. rewrite length_map.
    now apply (decodeKeyValue_arrays numberToString).
Qed.

(** A key-value line that holds the header of an array in list form:
    the decoder goes on with [decodeArrayFromHeader]. *)
Lemma decodeKeyValue_listHeader fuel key n c d :
  isValidUnquotedKey key = true ->
  decodeKeyValue lines options (S fuel)
    (formatHeader n (Some key) None DEFAULT_DELIMITER false) c d
  = do ac <- decodeArrayFromHeader lines options fuel
               {| hdr_key := Some key; hdr_length := Z.of_nat n;
                  hdr_delimiter := DEFAULT_DELIMITER; hdr_fields := None;
                  hdr_hasLengthMarker := false |} None c d;
    Return ({| kv_key := key; kv_value := VArr (fst ac); kv_followDepth := d + 1 |},
            snd ac).
Proof.
  intros Hk. rewrite decodeKeyValue_S. unfold decodeKeyValue_body.
  rewrite formatHeader_text.
  destruct (validKey_text key Hk) as (-> & Hne & Hb & Ht & H1). rewrite Hne.
  rewrite <- (append_nil_r (key ++ _)), !append_assoc.
  rewrite (parseArrayHeaderLine_written key false) by assumption.
  rewrite Hne. cbn [bind hdr_key trim trimStart trimEnd isEmpty]. now rewrite Hne.
Qed.

(** A list item that holds a primitive. *)
Lemma decodeListItem_leaf fuel v c l d dl :
  readable numberToString DEFAULT_DELIMITER v = true ->
  peek lines c = Some l ->
  content l = (LIST_ITEM_PREFIX
                 ++ encodePrimitive numberToString v DEFAULT_DELIMITER)%string ->
  upTo (decodeListItem lines options fuel c d dl) (v, S c).
Proof.
  intros Hr Hpeek Hcontent. destruct fuel as [|fuel]; [now left|]. right.
  rewrite decodeListItem_S. unfold decodeListItem_body. rewrite Hpeek, Hcontent.
  cbv zeta. rewrite afterHyphen.
  destruct (listLeaf_facts numberToString v Hr) as [-> ->].
  destruct (readable_token numberToString DEFAULT_DELIMITER v Hr) as (-> & _).
  reflexivity.
Qed.

(** What each function of the decoder returns on the lines of a value,
    if its budget lets it return: a key-value line, the properties of
    an object, the items under the header of an array in list form, one
    list item, a list item that is an object, and its properties after
    the first. *)
Let readsPair (fuel : nat) : Prop :=
  forall key v d c,
    plainPair numberToString (key, v) = true -> stable v ->
    linesAt lines c (childItems numberToString v d) ->
    closedAt lines (c + List.length (childItems numberToString v d))
      (if isJsonObject v then S d else S (S d)) ->
    upTo (decodeKeyValue lines options fuel (headText numberToString key v) c (Z.of_nat d))
         ({| kv_key := key; kv_value := v; kv_followDepth := Z.of_nat d + 1 |},
          (c + List.length (childItems numberToString v d))%nat).

Let readsObject (fuel : nat) : Prop :=
  forall props d c obj,
    plainTree numberToString (VObj props) = true ->
    Forall (fun kv => stable (snd kv)) props ->
    linesAt lines c (objectItems numberToString props d) ->
    closedAt lines (c + List.length (objectItems numberToString props d)) d ->
    upTo (decodeObject lines options fuel c (Z.of_nat d) (VObj obj))
         (VObj (JsObject.defineAll obj props),
          (c + List.length (objectItems numberToString props d))%nat).

Let readsList (fuel : nat) : Prop :=
  forall header rest d c acc,
    forallb (listItem numberToString) rest = true -> Forall stable rest ->
    linesAt lines c (listBody numberToString rest d) ->
    closedAt lines (c + List.length (listBody numberToString rest d)) (S (S d)) ->
    Z.of_nat (List.length acc + List.length rest) = hdr_length header ->
    upTo (decodeListArray lines options fuel header c (Z.of_nat d) acc)
         (acc ++ rest, (c + List.length (listBody numberToString rest d))%nat).

Let readsArray (fuel : nat) : Prop :=
  forall key items d c,
    forallb (listItem numberToString) items = true -> Forall stable items ->
    linesAt lines c (listBody numberToString items d) ->
    closedAt lines (c + List.length (listBody numberToString items d)) (S (S d)) ->
    upTo (decodeArrayFromHeader lines options fuel
            {| hdr_key := key; hdr_length := Z.of_nat (List.length items);
               hdr_delimiter := DEFAULT_DELIMITER; hdr_fields := None;
               hdr_hasLengthMarker := false |} None c (Z.of_nat d))
         (items, (c + List.length (listBody numberToString items d))%nat).

Let readsItem (fuel : nat) : Prop :=
  forall item d c dl,
    listItem numberToString item = true -> stable item ->
    linesAt lines c (itemLines numberToString item d) ->
    closedAt lines (c + List.length (itemLines numberToString item d)) (S d) ->
    upTo (decodeListItem lines options fuel c (Z.of_nat d) dl)
         (item, (c + List.length (itemLines numberToString item d))%nat).

Let readsRecord (fuel : nat) : Prop :=
  forall firstLine k x rest d c,
    content firstLine = (LIST_ITEM_PREFIX ++ headText numberToString k x)%string ->
    plainPair numberToString (k, x) = true -> isJsonObject x = false ->
    forallb (plainPair numberToString) rest = true ->
    stable (VObj ((k, x) :: rest)) ->
    let body := childItems numberToString x d ++ objectItems numberToString rest (S d) in
    linesAt lines c body ->
    closedAt lines (c + List.length body) (S d) ->
    upTo (decodeObjectFromListItem lines options fuel firstLine c (Z.of_nat d))
         (VObj ((k, x) :: rest), (c + List.length body)%nat).

Let readsFields (fuel : nat) : Prop :=
  forall rest d c obj,
    forallb (plainPair numberToString) rest = true ->
    Forall (fun kv => stable (snd kv)) rest ->
    linesAt lines c (objectItems numberToString rest d) ->
    closedAt lines (c + List.length (objectItems numberToString rest d)) d ->
    upTo (decodeListItemFields lines options fuel c (Z.of_nat d) (VObj obj))
         (VObj (JsObject.defineAll obj rest),
          (c + List.length (objectItems numberToString rest d))%nat).

(** The line after the lines of a property, when the lines of other
    properties of the same depth follow, or a line that is less deep. *)
Lemma closedAt_sibling c d (body more : list (nat * string)) :
  linesAt lines c (body ++ more) ->
  (forall it r, more = it :: r -> fst it = d) ->
  closedAt lines (c + List.length (body ++ more)) (S d) ->
  closedAt lines (c + List.length body) (S d).
Proof.
  intros Hl Hd Hc. apply linesAt_app in Hl. destruct Hl as [_ Hl].
  destruct more as [|it r].
  - now rewrite app_nil_r in Hc.
  - apply (closedAt_next lines _ d it r); [exact Hl|]. now apply (Hd it r).
Qed.

Section Step.
Variable fuel : nat.
Hypothesis IHpair : readsPair fuel.
Hypothesis IHobject : readsObject fuel.
Hypothesis IHlist : readsList fuel.
Hypothesis IHarray : readsArray fuel.
Hypothesis IHitem : readsItem fuel.
Hypothesis IHrecord : readsRecord fuel.
Hypothesis IHfields : readsFields fuel.

Lemma readsPair_step : readsPair (S fuel).
Proof.
  intros key v d c Hpair Ho Hl Hc.
  destruct (plainPair_key numberToString key v Hpair) as [Hp Hkey].
  destruct (plainTree_cases numberToString v Hp) as [Hleaf|[[props ->]|[items ->]]].
  - assert (Hprim : isJsonPrimitive v = true) by (now apply plainLeaf_primitive in Hleaf).
    rewrite decodeKeyValue_S. unfold decodeKeyValue_body.
    destruct (headText_shape numberToString key v Hp) as (rest & -> & _ & Hb & Ht);
      [destruct v; try discriminate; reflexivity|].
    rewrite headerLine_none by (intros _; exact Hb). cbn [bind].
    rewrite parseKeyToken_written. cbn [bind fst snd].
    rewrite sliceFrom_after, Ht.
    destruct (plain_leaf numberToString v Hleaf) as (Hparse & _ & Hne & _ & _).
    replace (match v with
             | VObj _ => EmptyString
             | _ => encodePrimitive numberToString v DEFAULT_DELIMITER
             end) with (encodePrimitive numberToString v DEFAULT_DELIMITER)
      by (destruct v; try discriminate; reflexivity).
    destruct (encodePrimitive numberToString v DEFAULT_DELIMITER) as [|x t] eqn:E;
      [congruence|]. cbn [isEmpty]. rewrite Hparse. cbn [bind].
    replace (childItems numberToString v d) with (@nil (nat * string))
      by (destruct v; try discriminate; reflexivity).
    cbn [List.length]. rewrite Nat.add_0_r. now right.
  - rewrite decodeKeyValue_S. unfold decodeKeyValue_body.
    destruct (headText_shape numberToString key (VObj props) Hp eq_refl)
      as (rest & -> & _ & Hb & Ht).
    rewrite headerLine_none by (intros _; exact Hb). cbn [bind].
    rewrite parseKeyToken_written. cbn [bind fst snd].
    rewrite sliceFrom_after, Ht.
    rewrite childItems_VObj in *. cbn [isEmpty isJsonObject] in *.
    apply stable_VObj in Ho. destruct Ho as [Hord Hch].
    destruct props as [|[k1 v1] ps].
    + cbn [objectItems flat_map List.length] in *. rewrite Nat.add_0_r in *.
      unfold closedAt in Hc. destruct (peek lines c) as [l|]; [|now right].
      destruct (Z.ltb_spec (Z.of_nat d) (depth l)); [lia|now right].
    + destruct (objectItems_head ((k1, v1) :: ps) (S d)) as (t & r & Hitems);
        [discriminate|].
      pose proof Hl as Hl'. rewrite Hitems in Hl'. cbn [linesAt fst snd] in Hl'.
      destruct (peek lines c) as [l|]; [|contradiction]. destruct Hl' as (Hd & _ & _).
      destruct (Z.ltb_spec (Z.of_nat d) (depth l)); [|lia].
      eapply upTo_bind.
      * replace (Z.of_nat d + 1) with (Z.of_nat (S d)) by lia.
        apply (IHobject ((k1, v1) :: ps) (S d) c []); assumption.
      * cbn [fst snd]. right.
        change (JsObject.defineAll [] ((k1, v1) :: ps))
          with (JsObject.fromEntries ((k1, v1) :: ps)).
        now rewrite fromEntries_rebuild by exact Hord.
  - specialize (Hkey eq_refl). cbn [headText isJsonObject] in *.
    rewrite childItems_VArr in *.
    destruct (plainTree_arrays numberToString items Hp) as [Hpa|(Hpa & Hf & Hi)];
      rewrite Hpa in *.
    + now apply decodeKeyValue_plainArray.
    + rewrite arrayHead_listForm by exact Hpa.
      rewrite decodeKeyValue_listHeader by exact Hkey.
      eapply upTo_bind.
      * apply IHarray; try assumption. now apply stable_VArr.
      * now right.
Qed.

Lemma readsObject_step : readsObject (S fuel).
Proof.
  intros props d c obj Hp Ho Hl Hc.
  rewrite decodeObject_S. unfold decodeObject_body.
  destruct props as [|[k v] ps].
  - cbn [objectItems flat_map List.length] in *. rewrite Nat.add_0_r in *.
    cbn [JsObject.defineAll fold_left].
    destruct (atEnd lines c); [now right|].
    unfold closedAt in Hc. destruct (peek lines c) as [l|]; [|now right].
    destruct (Z.ltb_spec (depth l) (Z.of_nat d)); [now right|lia].
  - unfold objectItems in Hl, Hc |- *. cbn [flat_map fst snd] in Hl, Hc |- *.
    fold (objectItems numberToString ps d) in Hl, Hc |- *.
    rewrite pairItems_eq in Hl, Hc |- *. cbn [app] in Hl, Hc |- *.
    rewrite plainTree_VObj in Hp. cbn [forallb] in Hp. apply andb_true_iff in Hp.
    destruct Hp as [Hv Hps]. inversion Ho as [|? ? Hov Hops]; subst. cbn [snd] in Hov.
    pose proof Hl as Hl'. cbn [linesAt fst snd] in Hl'.
    destruct (peek lines c) as [l|] eqn:Ep; [|contradiction].
    destruct Hl' as (Hd & Hct & Hrest).
    assert (Hnext : closedAt lines (S c + List.length (childItems numberToString v d))
                      (S d)).
    { apply (closedAt_sibling (S c) d _ (objectItems numberToString ps d)).
      - exact Hrest.
      - intros it r E. destruct ps as [|[k2 v2] ps2]; [discriminate|].
        unfold objectItems in E. cbn [flat_map fst snd] in E.
        rewrite pairItems_eq in E. cbn [app] in E. now inversion E.
      - cbn [List.length] in Hc. apply closedAt_deeper.
        now replace (S c + List.length (childItems numberToString v d
                                          ++ objectItems numberToString ps d))%nat
          with (c + S (List.length (childItems numberToString v d
                                      ++ objectItems numberToString ps d)))%nat by lia. }
    apply linesAt_app in Hrest. destruct Hrest as [Hchild Hsib].
    assert (Hend : atEnd lines c = false).
    { unfold atEnd. apply Nat.leb_gt. eapply peek_Some_lt. exact Ep. }
    rewrite Hend, Hd, Z.ltb_irrefl, Z.eqb_refl, Hct.
    cbn [List.length] in Hc |- *. rewrite length_app in Hc |- *.
    eapply upTo_bind.
    + apply (IHpair k v d (S c)); try assumption.
      destruct (isJsonObject v); [exact Hnext|now apply closedAt_deeper].
    + cbn [fst snd kv_key kv_value].
      replace (c + S (List.length (childItems numberToString v d)
                      + List.length (objectItems numberToString ps d)))%nat
        with ((S c + List.length (childItems numberToString v d))
              + List.length (objectItems numberToString ps d))%nat by lia.
      rewrite (assign_define obj k v (plainPair_plainKey numberToString k v Hv)).
      apply (IHobject ps d _ (JsObject.define obj k v)); try assumption.
      replace (S c + List.length (childItems numberToString v d)
               + List.length (objectItems numberToString ps d))%nat
        with (c + S (List.length (childItems numberToString v d)
                     + List.length (objectItems numberToString ps d)))%nat by lia.
      exact Hc.
Qed.
Lemma readsFields_step : readsFields (S fuel).
Proof.
  intros rest d c obj Hp Ho Hl Hc.
  rewrite decodeListItemFields_S. unfold decodeListItemFields_body.
  destruct rest as [|[k v] ps].
  - cbn [objectItems flat_map List.length] in *. rewrite Nat.add_0_r in *.
    cbn [JsObject.defineAll fold_left].
    destruct (atEnd lines c); [now right|].
    unfold closedAt in Hc. destruct (peek lines c) as [l|]; [|now right].
    destruct (Z.ltb_spec (depth l) (Z.of_nat d)); [now right|lia].
  - unfold objectItems in Hl, Hc |- *. cbn [flat_map fst snd] in Hl, Hc |- *.
    fold (objectItems numberToString ps d) in Hl, Hc |- *.
    rewrite pairItems_eq in Hl, Hc |- *. cbn [app] in Hl, Hc |- *.
    cbn [forallb] in Hp. apply andb_true_iff in Hp.
    destruct Hp as [Hv Hps]. inversion Ho as [|? ? Hov Hops]; subst. cbn [snd] in Hov.
    pose proof Hl as Hl'. cbn [linesAt fst snd] in Hl'.
    destruct (peek lines c) as [l|] eqn:Ep; [|contradiction].
    destruct Hl' as (Hd & Hct & Hrest).
    assert (Hnext : closedAt lines (S c + List.length (childItems numberToString v d))
                      (S d)).
    { apply (closedAt_sibling (S c) d _ (objectItems numberToString ps d)).
      - exact Hrest.
      - intros it r E. destruct ps as [|[k2 v2] ps2]; [discriminate|].
        unfold objectItems in E. cbn [flat_map fst snd] in E.
        rewrite pairItems_eq in E. cbn [app] in E. now inversion E.
      - cbn [List.length] in Hc. apply closedAt_deeper.
        now replace (S c + List.length (childItems numberToString v d
                                          ++ objectItems numberToString ps d))%nat
          with (c + S (List.length (childItems numberToString v d
                                      ++ objectItems numberToString ps d)))%nat by lia. }
    apply linesAt_app in Hrest. destruct Hrest as [Hchild Hsib].
    assert (Hend : atEnd lines c = false).
    { unfold atEnd. apply Nat.leb_gt. eapply peek_Some_lt. exact Ep. }
    destruct (headText_first numberToString k v Hv) as (_ & _ & _ & _ & _ & Hhy).
    cbv zeta in Hhy.
    rewrite Hend, Hd, Z.ltb_irrefl, Z.eqb_refl, Hct, Hhy. cbn [negb andb].
    cbn [List.length] in Hc |- *. rewrite length_app in Hc |- *.
    eapply upTo_bind.
    + apply (IHpair k v d (S c)); try assumption.
      destruct (isJsonObject v); [exact Hnext|now apply closedAt_deeper].
    + cbn [fst snd kv_key kv_value].
      replace (c + S (List.length (childItems numberToString v d)
                      + List.length (objectItems numberToString ps d)))%nat
        with ((S c + List.length (childItems numberToString v d))
              + List.length (objectItems numberToString ps d))%nat by lia.
      rewrite (assign_define obj k v (plainPair_plainKey numberToString k v Hv)).
      apply (IHfields ps d _ (JsObject.define obj k v)); try assumption.
      replace (S c + List.length (childItems numberToString v d)
               + List.length (objectItems numberToString ps d))%nat
        with (c + S (List.length (childItems numberToString v d)
                     + List.length (objectItems numberToString ps d)))%nat by lia.
      exact Hc.
Qed.

Lemma readsRecord_step : readsRecord (S fuel).
Proof.
  intros firstLine k x rest d c Hcontent Hkx Hx Hrest Hs body Hl Hc. subst body.
  rewrite decodeObjectFromListItem_S. unfold decodeObjectFromListItem_body.
  rewrite Hcontent, afterHyphen.
  pose proof (stable_VObj _ Hs) as [Hord Hst].
  inversion Hst as [|? ? Hsx Hsrest]; subst. cbn [snd] in Hsx.
  pose proof Hl as Hl'. apply linesAt_app in Hl'. destruct Hl' as [Hchild Hsib].
  rewrite length_app in Hc |- *.
  eapply upTo_bind.
  - apply (IHpair k x d c); try assumption. rewrite Hx.
    apply (closedAt_sibling c (S d) _ (objectItems numberToString rest (S d))).
    + exact Hl.
    + intros it r E. destruct rest as [|[k2 v2] ps2]; [discriminate|].
      unfold objectItems in E. cbn [flat_map fst snd] in E.
      rewrite pairItems_eq in E. cbn [app] in E. now inversion E.
    + rewrite length_app. now apply closedAt_deeper.
  - cbn [fst snd kv_key kv_value kv_followDepth]. rewrite define_first.
    replace (Z.of_nat d + 1) with (Z.of_nat (S d)) by lia.
    assert (Hup : upTo (decodeListItemFields lines options fuel
                          (c + List.length (childItems numberToString x d))
                          (Z.of_nat (S d)) (VObj [(k, x)]))
                    (VObj (JsObject.defineAll [(k, x)] rest),
                     (c + List.length (childItems numberToString x d)
                      + List.length (objectItems numberToString rest (S d)))%nat)).
    { apply IHfields; try assumption. now rewrite <- Nat.add_assoc. }
    rewrite <- Nat.add_assoc in Hup.
    replace (JsObject.defineAll [(k, x)] rest) with ((k, x) :: rest) in Hup; [exact Hup|].
    rewrite <- (define_first k x).
    change (JsObject.defineAll (JsObject.define [] k x) rest)
      with (JsObject.fromEntries ((k, x) :: rest)).
    now rewrite fromEntries_rebuild by exact Hord.
Qed.

Lemma readsItem_step : readsItem (S fuel).
Proof.
  intros item d c dl Hi Hs Hl Hc.
  destruct item as [| |b|x|s|z|iso|xs|xs|entries|props|proto props|b];
    cbn [listItem readable] in Hi; try discriminate;
    try (cbn [itemLines linesAt fst snd List.length] in *;
         destruct (peek lines c) as [l|] eqn:Ep; [|contradiction];
         destruct Hl as (Hd & Hct & _); rewrite Nat.add_1_r;
         now apply (decodeListItem_leaf (S fuel) _ c l)).
  - cbn [itemLines linesAt fst snd List.length] in *.
    destruct (peek lines c) as [l|] eqn:Ep; [|contradiction].
    destruct Hl as (Hd & Hct & _). rewrite Nat.add_1_r.
    now apply (decodeListItem_array numberToString lines options (S fuel) xs c l).
  - destruct props as [|[k x] rest]; [discriminate|].
    apply andb_true_iff in Hi. destruct Hi as [Hp Hx].
    apply negb_true_iff in Hx. rewrite plainTree_VObj in Hp. cbn [forallb] in Hp.
    apply andb_true_iff in Hp. destruct Hp as [Hkx Hps].
    cbn [itemLines linesAt fst snd] in Hl, Hc |- *.
    destruct (peek lines c) as [l|] eqn:Ep; [|contradiction].
    destruct Hl as (Hd & Hct & Hrest).
    rewrite decodeListItem_S. unfold decodeListItem_body. rewrite Ep, Hct. cbv zeta.
    rewrite afterHyphen.
    destruct (headText_first numberToString k x Hkx) as (_ & _ & _ & -> & -> & _).
    cbn [List.length] in Hc |- *.
    replace (c + S (List.length (childItems numberToString x d
                                   ++ objectItems numberToString rest (S d))))%nat
      with (S c + List.length (childItems numberToString x d
                                 ++ objectItems numberToString rest (S d)))%nat in Hc |- *
      by lia.
    eapply upTo_bind.
    + apply (IHrecord l k x rest d (S c)); assumption.
    + now right.
Qed.

Lemma readsList_step : readsList (S fuel).
Proof.
  intros header rest d c acc Hi Hs Hl Hc Hlen.
  rewrite decodeListArray_S. unfold decodeListArray_body. cbv zeta.
  destruct rest as [|item rest].
  - cbn [listBody flat_map List.length] in *. rewrite Nat.add_0_r in *.
    destruct (Z.ltb_spec (Z.of_nat (List.length acc)) (hdr_length header)); [lia|].
    cbn [negb]. rewrite orb_true_r, <- Hlen, assertExpectedCount_passes.
    right. now rewrite app_nil_r.
  - unfold listBody in Hl, Hc |- *. cbn [flat_map] in Hl, Hc |- *.
    fold (listBody numberToString rest d) in Hl, Hc |- *.
    cbn [forallb] in Hi. apply andb_true_iff in Hi. destruct Hi as [Hitem Hrest].
    inversion Hs as [|? ? Hsi Hsr]; subst.
    destruct (itemLines_head item (S d)) as (t & r & Hhead).
    pose proof Hl as Hl'. rewrite Hhead in Hl'. cbn [app linesAt fst snd] in Hl'.
    destruct (peek lines c) as [l|] eqn:Ep; [|contradiction].
    destruct Hl' as (Hd & Hct & _). cbn [List.length] in Hlen.
    assert (He : atEnd lines c = false).
    { unfold atEnd. apply Nat.leb_gt. eapply peek_Some_lt. exact Ep. }
    rewrite He. cbn [orb].
    destruct (Z.ltb_spec (Z.of_nat (List.length acc)) (hdr_length header)); [|lia].
    cbn [negb]. rewrite Hd.
    destruct (Z.ltb_spec (Z.of_nat (S d)) (Z.of_nat d + 1)); [lia|].
    destruct (Z.eqb_spec (Z.of_nat (S d)) (Z.of_nat d + 1)); [|lia].
    rewrite Hct, hyphen_start. cbn [andb].
    pose proof Hl as Hl'. apply linesAt_app in Hl'. destruct Hl' as [Hfirst Hmore].
    rewrite length_app in Hc |- *.
    eapply upTo_bind.
    + replace (Z.of_nat d + 1) with (Z.of_nat (S d)) by lia.
      apply (IHitem item (S d) c); try assumption.
      apply (closedAt_sibling c (S d) _ (listBody numberToString rest d)).
      * exact Hl.
      * intros it r' E. destruct rest as [|item2 rest2]; [discriminate|].
        unfold listBody in E. cbn [flat_map] in E.
        destruct (itemLines_head item2 (S d)) as (t2 & r2 & Hhead2).
        rewrite Hhead2 in E. cbn [app] in E. now inversion E.
      * now rewrite length_app.
    + cbn [fst snd].
      replace (acc ++ item :: rest) with ((acc ++ [item]) ++ rest)
        by (now rewrite <- app_assoc).
      rewrite Nat.add_assoc.
      apply IHlist; try assumption.
      * now rewrite <- Nat.add_assoc.
      * rewrite length_app. cbn [List.length]. lia.
Qed.

Lemma readsArray_step : readsArray (S fuel).
Proof.
  intros key items d c Hi Hs Hl Hc.
  rewrite decodeArrayFromHeader_S. unfold decodeArrayFromHeader_body. cbn [hdr_fields].
  now apply (IHlist _ items d c []).
Qed.
End Step.

(** The functions of the decoder on the lines of a value of the round
    trip, each up to its budget. *)
Lemma decoder_reads fuel :
  readsPair fuel /\ readsObject fuel /\ readsList fuel /\ readsArray fuel
  /\ readsItem fuel /\ readsRecord fuel /\ readsFields fuel.
Proof.
  induction fuel as [|fuel (IH1 & IH2 & IH3 & IH4 & IH5 & IH6 & IH7)].
  - repeat split; intro; intros; now left.
  - repeat split.
    + now apply readsPair_step.
    + now apply readsObject_step.
    + now apply readsList_step.
    + now apply readsArray_step.
    + now apply readsItem_step.
    + now apply readsRecord_step.
    + now apply readsFields_step.
Qed.

Lemma decodeObject_reads fuel props d c obj :
  plainTree numberToString (VObj props) = true ->
  Forall (fun kv => stable (snd kv)) props ->
  linesAt lines c (objectItems numberToString props d) ->
  closedAt lines (c + List.length (objectItems numberToString props d)) d ->
  upTo (decodeObject lines options fuel c (Z.of_nat d) (VObj obj))
       (VObj (JsObject.defineAll obj props),
        (c + List.length (objectItems numberToString props d))%nat).
Proof. apply decoder_reads. Qed.

Lemma decodeArrayFromHeader_reads fuel key items d c :
  forallb (listItem numberToString) items = true -> Forall stable items ->
  linesAt lines c (listBody numberToString items d) ->
  closedAt lines (c + List.length (listBody numberToString items d)) (S (S d)) ->
  upTo (decodeArrayFromHeader lines options fuel
          {| hdr_key := key; hdr_length := Z.of_nat (List.length items);
             hdr_delimiter := DEFAULT_DELIMITER; hdr_fields := None;
             hdr_hasLengthMarker := false |} None c (Z.of_nat d))
       (items, (c + List.length (listBody numberToString items d))%nat).
Proof. apply decoder_reads. Qed.
End ReadBack.

(** ** Round trip: from the text back to the value *)

Section RoundTrip.
Variable numberToString : number -> string.

Lemma deserialize_object props strict :
  props <> [] -> plainTree numberToString (VObj props) = true -> stable (VObj props) ->
  deserialize (encodeValue numberToString (resolveOptions None) (VObj props)) strict
  = Return (VObj props).
Proof.
  intros Hne Hp Ho. apply stable_VObj in Ho.
  assert (Henc : encodeValue numberToString (resolveOptions None) (VObj props)
                 = join (ofChar NEWLINE)
                     (map renderLine (objectItems numberToString props 0))).
  { change (encodeValue numberToString (resolveOptions None) (VObj props))
      with (writerToString
              (encodeObject numberToString (resolveOptions None) (VObj props) 0 [])).
    now rewrite encodeObject_items by (exact Hp || exact (proj2 Ho)). }
  rewrite Henc. unfold deserialize. cbn [dec_indent dec_strict].
  set (items := objectItems numberToString props 0).
  assert (Hitems : items <> []).
  { destruct (objectItems_head numberToString props 0 Hne) as (t & r & E).
    subst items. rewrite E. discriminate. }
  change DEFAULT_INDENT_SIZE with 2.
  rewrite toParsedLines_rendered
    by (assumption || now apply objectItems_solid).
  cbn [bind fst]. set (lines := numberLines 1 items).
  set (options := {| dec_indent := 2; dec_strict := _ |}).
  assert (Hlines : lines <> []).
  { subst lines. destruct items; [congruence|discriminate]. }
  destruct lines as [|first rest] eqn:El; [congruence|]. rewrite <- El. clear Hlines.
  destruct props as [|[k v] ps]; [congruence|].
  assert (Hv : plainPair numberToString (k, v) = true)
    by (rewrite plainTree_VObj in Hp; cbn [forallb] in Hp; apply andb_true_iff in Hp; tauto).
  destruct (headText_first numberToString k v Hv)
    as (Hsolid & _ & Hkvl & Hnohdr & _).
  cbv zeta in Hsolid, Hkvl, Hnohdr.
  assert (Hfirst : peek lines 0 = Some first
                   /\ first = lineOf 0 (headText numberToString k v) 1).
  { rewrite El. split; [reflexivity|]. subst lines items. unfold objectItems in El.
    cbn [flat_map fst snd] in El. rewrite pairItems_eq in El.
    cbn [app numberLines] in El. now inversion El. }
  destruct Hfirst as [Hpeek Hcontent].
  assert (Hhdr : isArrayHeaderAfterHyphen (content first) = false)
    by (now rewrite Hcontent).
  assert (Hkv : isKeyValueLine first = true) by (rewrite Hcontent; apply Hkvl).
  pose proof (decodeValueFromLines_finishes lines options) as Hfin.
  pose proof (decodeObject_reads numberToString lines options (decodeBudget lines)
                ((k, v) :: ps) 0%nat 0%nat [] Hp (proj2 Ho)) as Hobj.
  fold items in Hobj. cbn [Nat.add] in Hobj.
  assert (Hup : upTo (decodeObject lines options (decodeBudget lines) 0 0 (VObj []))
                  (VObj (JsObject.defineAll [] ((k, v) :: ps)), List.length items)).
  { apply Hobj.
    - subst lines. apply (linesAt_numberLines items [] 1).
    - unfold closedAt, peek. subst lines.
      replace (nth_error (numberLines 1 items) (List.length items)) with (@None ParsedLine);
        [exact I|].
      symmetry. apply nth_error_None. now rewrite length_numberLines. }
  unfold decodeValueFromLines in *. rewrite Hpeek, Hhdr, Hkv in *.
  rewrite andb_false_r in *.
  destruct Hup as [E|E]; rewrite E in *; [contradiction|]. cbn [bind fst].
  change (JsObject.defineAll [] ((k, v) :: ps)) with (JsObject.fromEntries ((k, v) :: ps)).
  now rewrite fromEntries_rebuild by exact (proj1 Ho).
Qed.

Lemma deserialize_leaf v strict :
  plainLeaf numberToString v = true ->
  deserialize (encodeValue numberToString (resolveOptions None) v) strict = Return v.
Proof.
  intros Hp. assert (Hl : isJsonPrimitive v = true) by (now apply plainLeaf_primitive in Hp).
  assert (Henc : encodeValue numberToString (resolveOptions None) v
                 = encodePrimitive numberToString v DEFAULT_DELIMITER).
  { unfold encodeValue. now rewrite Hl. }
  rewrite Henc. pose proof (isKeyValueLine_leaf numberToString v 1 Hp) as Hkv.
  destruct (plain_leaf numberToString v Hp) as (Hparse & Ht & Hne & Hn & Hb).
  set (t := encodePrimitive numberToString v DEFAULT_DELIMITER) in *.
  destruct (trim_fixed_first t Ht Hne) as (c & r & Heq & Hw).
  assert (Hsolid : solid t = true).
  { unfold solid. rewrite Heq at 1. rewrite Hw. cbn [negb andb].
    apply negb_true_iff. now apply includes_false. }
  unfold deserialize. cbn [dec_indent dec_strict].
  change t with (join (ofChar NEWLINE) (map renderLine [(0%nat, t)])) at 1.
  change DEFAULT_INDENT_SIZE with 2.
  rewrite toParsedLines_rendered by (discriminate || (repeat constructor; exact Hsolid)).
  cbn [bind fst numberLines snd]. unfold decodeValueFromLines.
  cbn [peek nth_error List.length Nat.eqb]. rewrite Hkv. cbn [negb andb].
  assert (Hhdr : isArrayHeaderAfterHyphen (content (lineOf 0 t 1)) = false).
  { unfold isArrayHeaderAfterHyphen. cbn [lineOf content]. rewrite Ht.
    rewrite Heq in Hb |- *. unfold ofChar. cbn [startsWith find] in *.
    rewrite Ascii.eqb_sym. destruct (Ascii.eqb c OPEN_BRACKET); [discriminate|reflexivity]. }
  rewrite Hhdr. cbn [lineOf content]. now rewrite Ht.
Qed.

Lemma deserialize_array items strict :
  forallb (readable numberToString DEFAULT_DELIMITER) items = true ->
  deserialize (encodeValue numberToString (resolveOptions None) (VArr items)) strict
  = Return (VArr items).
Proof.
  intros Hr.
  set (line := encodeInlineArrayLine numberToString items DEFAULT_DELIMITER None false).
  assert (Henc : encodeValue numberToString (resolveOptions None) (VArr items)
                 = join (ofChar NEWLINE) (map renderLine [(0%nat, line)])).
  { change (encodeValue numberToString (resolveOptions None) (VArr items))
      with (writerToString
              (encodeArray numberToString (resolveOptions None)
                 (encodeListItemValue numberToString (resolveOptions None)) None items 0 [])).
    rewrite encodeArray_inline by (now apply (readable_primitives numberToString DEFAULT_DELIMITER)).
    reflexivity. }
  rewrite Henc.
  pose proof (arrayLine_no_newline numberToString None items Hr) as Hnl. fold line in Hnl.
  destruct (arrayLine_shape numberToString None items I) as (keyText & tail & Htext & -> & ->).
  fold line in Htext. rewrite !append_nil in Htext.
  assert (Hsolid : solid line = true).
  { unfold solid. rewrite Htext at 1. unfold ofChar at 1. rewrite append_cons.
    cbn [negb andb]. change (isWhite OPEN_BRACKET) with false. cbn [negb andb].
    apply negb_true_iff. now apply includes_false. }
  unfold deserialize. cbn [dec_indent dec_strict]. change DEFAULT_INDENT_SIZE with 2.
  rewrite toParsedLines_rendered by (discriminate || (repeat constructor; exact Hsolid)).
  cbn [bind fst numberLines snd].
  set (options := {| dec_indent := 2; dec_strict := _ |}).
  set (lines := [lineOf 0 line 1]).
  pose proof (decodeValueFromLines_finishes lines options) as Hfin.
  unfold decodeValueFromLines in *. cbn [peek lines nth_error lineOf content] in *.
  assert (Hhdr : isArrayHeaderAfterHyphen line = true).
  { unfold isArrayHeaderAfterHyphen. apply andb_true_iff. split.
    - rewrite Htext. unfold ofChar at 1. rewrite append_cons.
      destruct (trim_first OPEN_BRACKET
                  (EmptyString ++ intToString (Z.of_nat (List.length items))
                     ++ ofChar CLOSE_BRACKET ++ ofChar COLON
                     ++ match items with
                        | [] => EmptyString
                        | _ => String " " (encodeAndJoinPrimitives numberToString items
                                             DEFAULT_DELIMITER)
                        end)%string eq_refl) as (t' & ->).
      unfold ofChar. cbn [startsWith]. now rewrite Ascii.eqb_refl, startsWith_nil.
    - apply negb_true_iff. unfold findUnquotedChar. rewrite Htext.
      destruct (intToString_nat (List.length items)) as (dg & Hd & _ & _).
      pose proof (string_of_uint_digits dg) as Hdig. rewrite <- Hd in Hdig.
      set (D := intToString (Z.of_nat (List.length items))) in *.
      replace (ofChar OPEN_BRACKET ++ D ++ ofChar CLOSE_BRACKET ++ ofChar COLON ++ _)%string
        with ((ofChar OPEN_BRACKET ++ D ++ ofChar CLOSE_BRACKET)
                ++ String COLON match items with
                                | [] => EmptyString
                                | _ => String " " (encodeAndJoinPrimitives numberToString
                                                     items DEFAULT_DELIMITER)
                                end)%string
        by (now rewrite !append_assoc).
      rewrite scanUnquoted_plain; [|
        rewrite (find_app_None _ (ofChar OPEN_BRACKET)) by reflexivity;
        rewrite (find_app_None _ D) by (now apply (find_digits _ D)); reflexivity ..
        | reflexivity].
      apply Z.eqb_neq. unfold len. lia. }
  assert (Hparse : parseArrayHeaderLine line DEFAULT_DELIMITER
                   = Return (Some ({| hdr_key := None;
                                      hdr_length := Z.of_nat (List.length items);
                                      hdr_delimiter := DEFAULT_DELIMITER;
                                      hdr_fields := None; hdr_hasLengthMarker := false |},
                                   let tail := match items with
                                               | [] => EmptyString
                                               | _ => String " "
                                                        (encodeAndJoinPrimitives
                                                           numberToString items
                                                           DEFAULT_DELIMITER)
                                               end in
                                   if isEmpty (trim tail) then None else Some (trim tail)))).
  { rewrite Htext.
    exact (parseArrayHeaderLine_written EmptyString false (List.length items) _
             eq_refl eq_refl I). }
  rewrite Hhdr, Hparse in *. cbv zeta in *.
  cbn [bind isEmpty] in *.
  destruct (arrayTail_facts numberToString items Hr) as [_ Htail]. cbv zeta in Htail.
  rewrite Htail in *.
  pose proof (decodeArrayFromHeader_inline numberToString lines options (decodeBudget lines)
                None items 1 0 Hr) as Hup.
  cbv zeta in Hup.
  destruct Hup as [E|E]; rewrite E in *; [contradiction|]. reflexivity.
Qed.

Lemma deserialize_plainArray items strict :
  plainArray numberToString items = true -> stable (VArr items) ->
  deserialize (encodeValue numberToString (resolveOptions None) (VArr items)) strict
  = Return (VArr items).
Proof.
  intros Hp Hs.
  destruct (plainArray_cases numberToString items Hp) as [Hr|[[Hr Ht]|(Hr & Ht & Hl)]].
  - now apply deserialize_array.
  - apply (deserialize_table numberToString (tableFields items)); [exact Ht|].
    now apply (stable_rows numberToString (tableFields items)).
  - now apply deserialize_arrays.
Qed.
Lemma deserialize_list items strict :
  plainArray numberToString items = false -> listForm items = true ->
  forallb (listItem numberToString) items = true -> stable (VArr items) ->
  deserialize (encodeValue numberToString (resolveOptions None) (VArr items)) strict
  = Return (VArr items).
Proof.
  intros Hpa Hf Hi Hs.
  assert (Hp : plainTree numberToString (VArr items) = true)
    by (rewrite plainTree_VArr, Hpa, Hf, Hi; reflexivity).
  set (h := formatHeader (List.length items) None None DEFAULT_DELIMITER false).
  assert (Henc : encodeValue numberToString (resolveOptions None) (VArr items)
                 = join (ofChar NEWLINE)
                     (map renderLine ((0%nat, h) :: listBody numberToString items 0))).
  { change (encodeValue numberToString (resolveOptions None) (VArr items))
      with (writerToString
              (encodeArray numberToString (resolveOptions None)
                 (encodeListItemValue numberToString (resolveOptions None)) None items 0 [])).
    rewrite encodeArray_items by assumption.
    rewrite arrayHead_listForm, childItems_VArr, Hpa by exact Hpa. reflexivity. }
  rewrite Henc.
  assert (Htext : h = (ofChar OPEN_BRACKET ++ intToString (Z.of_nat (List.length items))
                         ++ ofChar CLOSE_BRACKET ++ ofChar COLON ++ EmptyString)%string).
  { unfold h. rewrite formatHeader_text. now rewrite !append_nil, append_nil_r. }
  assert (Hsolid : solid h = true).
  { unfold solid. rewrite Htext at 1. unfold ofChar at 1. rewrite append_cons.
    change (isWhite OPEN_BRACKET) with false. cbn [negb andb]. apply negb_true_iff.
    apply includes_false. apply formatHeader_no_newline. }
  assert (Hitems : Forall (fun it => solid (snd it) = true)
                     ((0%nat, h) :: listBody numberToString items 0)).
  { constructor; [exact Hsolid|].
    pose proof (childItems_solid numberToString (VArr items) 0 Hp) as Hb.
    now rewrite childItems_VArr, Hpa in Hb. }
  unfold deserialize. cbn [dec_indent dec_strict]. change DEFAULT_INDENT_SIZE with 2.
  rewrite toParsedLines_rendered by (discriminate || exact Hitems).
  cbn [bind fst numberLines snd].
  set (options := {| dec_indent := 2; dec_strict := _ |}).
  set (rest := numberLines (1 + 1) (listBody numberToString items 0)).
  set (lines := lineOf 0 h 1 :: rest).
  pose proof (decodeValueFromLines_finishes lines options) as Hfin.
  unfold decodeValueFromLines in *. cbn [peek lines nth_error lineOf content] in *.
  assert (Hhdr : isArrayHeaderAfterHyphen h = true)
    by (rewrite Htext; apply bracketLine_header).
  assert (Hparse : parseArrayHeaderLine h DEFAULT_DELIMITER
                   = Return (Some ({| hdr_key := None;
                                      hdr_length := Z.of_nat (List.length items);
                                      hdr_delimiter := DEFAULT_DELIMITER;
                                      hdr_fields := None; hdr_hasLengthMarker := false |},
                                   None))).
  { rewrite Htext.
    exact (parseArrayHeaderLine_written EmptyString false (List.length items) EmptyString
             eq_refl eq_refl I). }
  rewrite Hhdr, Hparse in *. cbn [bind] in *.
  assert (Hl' : linesAt lines 1 (listBody numberToString items 0))
    by apply (linesAt_numberLines (listBody numberToString items 0) [lineOf 0 h 1] (1 + 1)).
  assert (Hc' : closedAt lines (1 + List.length (listBody numberToString items 0)) 2).
  { unfold closedAt, peek. subst lines rest. cbn [Nat.add nth_error].
    replace (nth_error (numberLines (1 + 1) (listBody numberToString items 0))
               (List.length (listBody numberToString items 0)))
      with (@None ParsedLine); [exact I|].
    symmetry. apply nth_error_None. now rewrite length_numberLines. }
  destruct (decodeArrayFromHeader_reads numberToString lines options (decodeBudget lines)
              None items 0 1 Hi (stable_VArr items Hs) Hl' Hc') as [E|E];
    change (Z.of_nat 0) with 0 in E; rewrite E in *; [contradiction|reflexivity].
Qed.

Lemma deserialize_anyArray items strict :
  plainTree numberToString (VArr items) = true -> stable (VArr items) ->
  deserialize (encodeValue numberToString (resolveOptions None) (VArr items)) strict
  = Return (VArr items).
Proof.
  intros Hp Hs.
  destruct (plainTree_arrays numberToString items Hp) as [Hpa|(Hpa & Hf & Hi)].
  - now apply deserialize_plainArray.
  - now apply deserialize_list.
Qed.
End RoundTrip.

(** X8. The round trip holds for every normalized value made of objects
    (with keys other than [__proto__] and [hasOwnProperty], nested to any
    depth), strings, booleans, [null], numbers whose decimal text reads
    back, and arrays of four kinds: arrays of
    primitives, tables (objects of primitives with the same keys in the
    same order, all written bare), arrays of arrays of primitives, and
    arrays in list form whose items are primitives, arrays of primitives
    and objects of such values that are not empty and whose first value
    is not an object; provided that no string outside an array holds an
    opening bracket, that no string is written bare while
    [isNumericLiteral] accepts it, that every array in an object stands
    under a key that is written bare, and that the value is not the
    empty object: [serialize] followed by [deserialize], in either mode,
    returns the value it was given, with its keys in their order and its
    nesting. *)
Theorem plain_round_trip (numberToString : number -> string) (v : jsval)
    (strict : option bool) :
  plainTree numberToString v = true ->
  normalizeValue v = Return v ->
  v <> VObj [] ->
  (do text <- serializeValue numberToString v; deserialize text strict) = Return v.
Proof.
  intros Hp Hs Hne.
  rewrite serializeValue_stable by (exact Hs || exact (plainTree_ordinary _ _ Hp)).
  cbn [bind].
  destruct (plainTree_cases numberToString v Hp) as [Hl|[[props ->]|[items ->]]].
  - now apply deserialize_leaf.
  - apply deserialize_object; [congruence|exact Hp|exact Hs].
  - now apply deserialize_anyArray.
Qed.

Lemma plain_round_trip_witness :
  let five := VNum (S754_finite false 5629499534213120 (-50)) in
  let v := VObj [("name", VStr "Ada Lovelace");
                 ("links", VObj [("0", VStr "-");
                                 ("home page", VStr "https://example.org/a?b=1, c");
                                 ("empty", VObj []);
                                 ("ports", VArr [five; five])]);
                 ("tags", VArr [VStr "a,b"; VStr "[x]"; VBool false; VNull; VStr ""; five]);
                 ("users", VArr [VObj [("id", five); ("name", VStr "Ada, Countess")];
                                 VObj [("id", five); ("name", VNull)]]);
                 ("grid", VArr [VArr [five; VStr "x"]; VArr []; VArr [VBool true]]);
                 ("jobs", VArr [VObj [("id", five);
                                      ("steps", VArr [VStr "build"; VStr "test: all"]);
                                      ("env", VObj [("CI", VBool true)])];
                                VStr "a: b";
                                VArr [five];
                                VObj [("needs", VArr [VObj [("job", VStr "x")]; VNull]);
                                      ("when", VStr "always")]]);
                 ("none", VArr []);
                 ("count", five);
                 ("active", VBool true);
                 ("note", VNull)] in
  (do text <- serializeValue (fun _ => "5") v; deserialize text (Some true)) = Return v.
Proof.
  intros five v. apply (plain_round_trip (fun _ => "5") v (Some true)).
  - vm_compute. reflexivity.
  - vm_compute. reflexivity.
  - discriminate.
Defined.

(** ** Lines that are never read *)

Section UnreadLines.
Variable numberToString : number -> string.

(** An array of primitives among the arrays of the round trip is
    written on one line. *)
Lemma primitives_inline items :
  plainTree numberToString (VArr items) = true -> forallb isJsonPrimitive items = true ->
  forallb (readable numberToString DEFAULT_DELIMITER) items = true.
Proof.
  intros Hp Hprim.
  destruct (plainTree_arrays numberToString items Hp) as [Hpa|(_ & Hf & _)].
  - destruct (plainArray_cases numberToString items Hpa) as [Hr|[[_ Ht]|(_ & _ & Hl)]];
      [exact Hr| |].
    + destruct (table_parts numberToString _ _ Ht) as (_ & _ & Hne & Hrows).
      destruct items as [|x r]; [congruence|]. cbn [forallb] in Hrows, Hprim.
      apply andb_true_iff in Hrows, Hprim. destruct Hrows as [Hx _], Hprim as [Hpx _].
      destruct x; cbn [tableRow isJsonPrimitive] in Hx, Hpx; congruence.
    + destruct (listOfArrays_parts numberToString _ Hl) as (Hne & Hrows).
      destruct items as [|x r]; [congruence|]. apply Forall_inv in Hrows.
      destruct Hrows as (its & -> & _). cbn [forallb isJsonPrimitive andb] in Hprim.
      discriminate.
  - destruct (listForm_parts items Hf) as (_ & Hn & _). unfold isArrayOfPrimitives in Hn.
    congruence.
Qed.

(** A key-value line that holds a primitive or an array of primitives:
    its value is on the line, and the cursor stays where it is. *)
Lemma decodeKeyValue_inline lines options fuel key v c d :
  plainPair numberToString (key, v) = true -> isJsonObject v = false ->
  forallb isJsonPrimitive (elements v) = true ->
  upTo (decodeKeyValue lines options fuel (headText numberToString key v) c (Z.of_nat d))
       ({| kv_key := key; kv_value := v; kv_followDepth := Z.of_nat d + 1 |}, c).
Proof.
  intros Hpair Hobj Hel. destruct (plainPair_key numberToString key v Hpair) as [Hp Hkey].
  destruct (plainTree_cases numberToString v Hp) as [Hleaf|[[props ->]|[items ->]]];
    [|discriminate|].
  2:{ cbn [elements headText] in *.
      pose proof (primitives_inline items Hp Hel) as Hr.
      unfold arrayHead. rewrite Hr.
      apply decodeKeyValue_array; [now apply Hkey|exact Hr]. }
  destruct fuel as [|fuel]; [now left|]. right.
  rewrite decodeKeyValue_S. unfold decodeKeyValue_body.
  destruct (headText_shape numberToString key v Hp) as (rest & -> & _ & Hb & Ht);
    [destruct v; try discriminate; reflexivity|].
  rewrite headerLine_none by (intros _; exact Hb). cbn [bind].
  rewrite parseKeyToken_written. cbn [bind fst snd].
  rewrite sliceFrom_after, Ht.
  destruct (plain_leaf numberToString v Hleaf) as (Hparse & _ & Hne & _ & _).
  replace (match v with
           | VObj _ => EmptyString
           | _ => encodePrimitive numberToString v DEFAULT_DELIMITER
           end) with (encodePrimitive numberToString v DEFAULT_DELIMITER)
    by (destruct v; try discriminate; reflexivity).
  destruct (encodePrimitive numberToString v DEFAULT_DELIMITER) as [|x t] eqn:E;
    [congruence|]. cbn [isEmpty]. now rewrite Hparse.
Qed.

(** What the line scanner records for a line that starts with no white
    space, and for a line that starts with two spaces. *)
Lemma scanned_solid text :
  solid text = true -> scanned DEFAULT_INDENT_SIZE text = textOf (lineOf 0 text 0).
Proof.
  intros Hs. destruct (solid_first text Hs) as (c & t & -> & Hw & _).
  unfold scanned, textOf. cbn [lineOf content depth countWhile].
  assert (Hsp : isSpace c = false).
  { unfold isSpace. destruct (Ascii.eqb_spec c SPACE) as [->|]; [discriminate|reflexivity]. }
  rewrite Hsp. reflexivity.
Qed.

Lemma scanned_indented text :
  1 <= depth (scanned DEFAULT_INDENT_SIZE (String " " (String " " text))).
Proof.
  unfold scanned. cbn [depth countWhile]. change (isSpace " ") with true. cbv iota.
  pose proof (countWhile_bounds isSpace text) as Hb. unfold computeDepthFromIndent.
  change DEFAULT_INDENT_SIZE with 2. apply Z.div_le_lower_bound; lia.
Qed.

Lemma badIndent_solid text : solid text = true -> badIndent DEFAULT_INDENT_SIZE text = false.
Proof.
  intros Hs. destruct (solid_first text Hs) as (c & t & -> & Hw & _).
  unfold badIndent. cbn [countWhile].
  assert (Hsp : isSpace c = false).
  { unfold isSpace. destruct (Ascii.eqb_spec c SPACE) as [->|]; [discriminate|reflexivity]. }
  assert (Hst : isSpaceOrTab c = false).
  { unfold isSpaceOrTab. destruct (Ascii.eqb_spec c SPACE) as [->|]; [discriminate|].
    destruct (Ascii.eqb_spec c TAB) as [->|]; [discriminate|reflexivity]. }
  rewrite Hsp, Hst. reflexivity.
Qed.

Lemma nonBlank_solid text : solid text = true -> nonBlank text = true.
Proof.
  intros Hs. destruct (solid_first text Hs) as (c & t & -> & Hw & _).
  unfold nonBlank. cbn [allChars]. now rewrite Hw.
Qed.

(** The object of a first line [key: value] when the next line, if any,
    is deeper: the decoder stops at that line. *)
Lemma decodeObject_stops options key v l2 rest fuel :
  plainPair numberToString (key, v) = true -> isJsonObject v = false ->
  forallb isJsonPrimitive (elements v) = true ->
  1 <= depth l2 ->
  let lines := textOf (lineOf 0 (headText numberToString key v) 0) :: l2 :: rest in
  upTo (decodeObject lines options fuel 0 0 (VObj [])) (VObj [(key, v)], 1%nat).
Proof.
  intros Hpair Hobj Hel Hd lines. destruct fuel as [|fuel]; [now left|].
  rewrite decodeObject_S. unfold decodeObject_body.
  cbn [atEnd lines List.length Nat.leb peek nth_error textOf lineOf content depth].
  change (Z.of_nat 0 <? 0) with false. change (Z.of_nat 0 =? 0) with true. cbv iota.
  eapply upTo_bind.
  - apply (decodeKeyValue_inline lines options fuel key v 1 0 Hpair Hobj Hel).
  - cbn [fst snd kv_key kv_value].
    rewrite (assign_define [] key v (plainPair_plainKey numberToString key v Hpair)).
    rewrite define_first.
    destruct fuel as [|fuel]; [now left|]. right.
    rewrite decodeObject_S. unfold decodeObject_body.
    cbn [atEnd lines List.length Nat.leb peek nth_error].
    destruct (Z.ltb_spec (depth l2) 0); [lia|].
    destruct (Z.eqb_spec (depth l2) 0); [lia|reflexivity].
Qed.
End UnreadLines.

(** X15. A line that is indented under a [key: value] line is where
    [deserialize] stops reading, without a word: whatever follows the text
    that [serialize] wrote for an object of one property (under a key
    other than [__proto__] and [hasOwnProperty]) whose value is a
    primitive or an array of primitives, from a line on that starts with
    two spaces and is not blank, the object is returned as if the text
    had ended there, in both modes.  In strict mode this is said of
    texts whose indentation the line scanner does not refuse. *)
Theorem deeper_line_ends_document (numberToString : number -> string) (key : string)
    (v : jsval) (rest : string) (strict : option bool) :
  plainTree numberToString (VObj [(key, v)]) = true ->
  normalizeValue (VObj [(key, v)]) = Return (VObj [(key, v)]) ->
  isJsonObject v = false ->
  forallb isJsonPrimitive (elements v) = true ->
  nonBlank (hd EmptyString (splitOn NEWLINE rest)) = true ->
  resolveStrict strict
  && existsb (badIndent DEFAULT_INDENT_SIZE)
       (List.filter nonBlank (splitOn NEWLINE ("  " ++ rest))) = false ->
  (do text <- serializeValue numberToString (VObj [(key, v)]);
   deserialize (text ++ String NEWLINE ("  " ++ rest)) strict)
  = Return (VObj [(key, v)]).
Proof.
  intros Hp Hs Hobj Hel Hnb Hok.
  rewrite serializeValue_stable by (exact Hs || exact (plainTree_ordinary _ _ Hp)).
  cbn [bind].
  assert (Hpair : plainPair numberToString (key, v) = true).
  { rewrite plainTree_VObj in Hp. cbn [forallb] in Hp. now rewrite andb_true_r in Hp. }
  set (h := headText numberToString key v).
  assert (Henc : encodeValue numberToString (resolveOptions None) (VObj [(key, v)]) = h).
  { change (encodeValue numberToString (resolveOptions None) (VObj [(key, v)]))
      with (writerToString
              (encodeObject numberToString (resolveOptions None) (VObj [(key, v)]) 0 [])).
    rewrite encodeObject_items by (exact Hp || exact (proj2 (stable_VObj _ Hs))).
    unfold objectItems. cbn [flat_map fst snd].
    rewrite app_nil_r, pairItems_eq.
    replace (childItems numberToString v 0) with (@nil (nat * string)); [reflexivity|].
    destruct v as [| | | | | | |items| | | | |]; try reflexivity; try discriminate.
    cbn [elements] in *. rewrite childItems_VArr. unfold plainArray, arrayBody.
    destruct (plainPair_key numberToString key _ Hpair) as [Hv _].
    now rewrite (primitives_inline numberToString items Hv Hel). }
  rewrite Henc.
  destruct (headText_first numberToString key v Hpair) as (Hsolid & (c & t & Hhead & Hbr) & Hkvl).
  fold h in Hsolid, Hhead, Hkvl.
  destruct (solid_first h Hsolid) as (c' & t' & Hh' & Hw & Hnl).
  destruct (splitOn NEWLINE rest) as [|r0 rs] eqn:Er; [now apply splitOn_nonempty in Er|].
  cbn [hd] in Hnb.
  assert (Hsplit : splitOn NEWLINE (h ++ String NEWLINE ("  " ++ rest))
                   = h :: String " " (String " " r0) :: rs).
  { rewrite splitOn_append by exact Hnl. f_equal.
    change ("  " ++ rest)%string with (String " " (String " " rest)).
    cbn [splitOn]. change (Ascii.eqb " " NEWLINE) with false. cbv iota. now rewrite Er. }
  assert (Hsplit2 : splitOn NEWLINE ("  " ++ rest) = String " " (String " " r0) :: rs).
  { change ("  " ++ rest)%string with (String " " (String " " rest)).
    cbn [splitOn]. change (Ascii.eqb " " NEWLINE) with false. cbv iota. now rewrite Er. }
  assert (Hnb2 : nonBlank (String " " (String " " r0)) = true).
  { unfold nonBlank in *. cbn [allChars]. exact Hnb. }
  rewrite Hsplit2 in Hok. cbn [List.filter] in Hok. rewrite Hnb2 in Hok.
  assert (Hok' : resolveStrict strict
                 && existsb (badIndent DEFAULT_INDENT_SIZE)
                      (List.filter nonBlank
                         (splitOn NEWLINE (h ++ String NEWLINE ("  " ++ rest)))) = false).
  { rewrite Hsplit. cbn [List.filter]. rewrite (nonBlank_solid h Hsolid), Hnb2.
    cbn [existsb]. now rewrite (badIndent_solid h Hsolid). }
  unfold deserialize. cbn [dec_indent dec_strict].
  change (match strict with Some b => b | None => false end) with (resolveStrict strict).
  destruct (toParsedLines_text _ (resolveStrict strict) Hok') as (p & b & -> & Hmap).
  rewrite Hsplit in Hmap. cbn [List.filter] in Hmap.
  rewrite (nonBlank_solid h Hsolid), Hnb2 in Hmap. cbn [map] in Hmap.
  rewrite (scanned_solid h Hsolid) in Hmap. cbn [bind fst].
  set (options := {| dec_indent := _; dec_strict := _ |}).
  destruct p as [|l1 r1]; [discriminate|].
  pose proof (decodeValueFromLines_finishes (l1 :: r1) options) as Hfin.
  rewrite <- decodeValueFromLines_textOf in Hfin |- *.
  assert (Hlen : decodeBudget (l1 :: r1) = decodeBudget (map textOf (l1 :: r1)))
    by (unfold decodeBudget; now rewrite length_map).
  rewrite Hlen in Hfin |- *. rewrite Hmap in Hfin |- *.
  set (l2 := scanned DEFAULT_INDENT_SIZE (String " " (String " " r0))) in *.
  set (tail := map (scanned DEFAULT_INDENT_SIZE) (List.filter nonBlank rs)) in *.
  pose proof (decodeObject_stops numberToString options key v l2 tail
                (decodeBudget (textOf (lineOf 0 h 0) :: l2 :: tail)) Hpair Hobj Hel
                (scanned_indented r0)) as Hup.
  cbv zeta in Hup. fold h in Hup.
  unfold decodeValueFromLines in *.
  cbn [peek nth_error List.length Nat.eqb textOf lineOf content] in Hfin |- *.
  assert (Hhdr : isArrayHeaderAfterHyphen h = false).
  { unfold isArrayHeaderAfterHyphen. rewrite Hh'.
    destruct (trim_first c' t' Hw) as (t'' & ->). unfold ofChar. cbn [startsWith].
    rewrite Hh' in Hhead. injection Hhead as -> _. now rewrite Ascii.eqb_sym, Hbr. }
  rewrite Hhdr in *. cbn [andb] in *.
  destruct Hup as [E|E]; rewrite E in *; [contradiction|]. reflexivity.
Qed.

Lemma deeper_line_ends_document_witness :
  (do text <- serializeValue (fun _ => "5") (VObj [("name", VStr "Ada")]);
   deserialize (text ++ String NEWLINE ("  " ++ "age: 36")) (Some true))
  = Return (VObj [("name", VStr "Ada")]).
Proof.
  apply (deeper_line_ends_document (fun _ => "5") "name" (VStr "Ada") "age: 36" (Some true));
    vm_compute; reflexivity.
Defined.

(** ** An object under the first key of a list item *)

Section FirstField.
Variable numberToString : number -> string.
Let encodeOptions := resolveOptions None.

Lemma forEach_object props d w :
  plainTree numberToString (VObj props) = true ->
  Forall (fun kv => stable (snd kv)) props ->
  forEach (fun kv w' =>
             encodeKeyValuePair numberToString encodeOptions (fst kv) (snd kv) d w')
    props w
  = w ++ map renderLine (objectItems numberToString props d).
Proof. intros Hp Hs. now apply (encodeObject_items numberToString props d w). Qed.

(** The lines of a list with one item, an object whose first value is
    an object: the properties of the inner object stand two levels under
    the hyphen, the other properties of the item one level under it. *)
Lemma encodeArray_first_object key inner rest :
  plainTree numberToString (VObj ((key, VObj inner) :: rest)) = true ->
  stable (VObj ((key, VObj inner) :: rest)) ->
  encodeArray numberToString encodeOptions
    (encodeListItemValue numberToString encodeOptions) None
    [VObj ((key, VObj inner) :: rest)] 0 []
  = map renderLine
      ((0%nat, formatHeader 1 None None DEFAULT_DELIMITER false)
         :: (1%nat, (LIST_ITEM_PREFIX ++ encodeKey key ++ ":")%string)
         :: objectItems numberToString inner 3 ++ objectItems numberToString rest 2).
Proof.
  intros Hp Hs. rewrite plainTree_VObj in Hp. cbn [forallb] in Hp.
  apply andb_true_iff in Hp. destruct Hp as [Hfirst Hrest].
  apply plainPair_key in Hfirst. destruct Hfirst as [Hinner _].
  apply stable_VObj in Hs. destruct Hs as [_ Hs].
  inversion Hs as [|? ? Hsi Hsr]; subst. cbn [snd] in Hsi.
  apply stable_VObj in Hsi. destruct Hsi as [_ Hsi].
  unfold encodeArray.
  cbn [isArrayOfPrimitives isArrayOfArrays isArrayOfObjects forallb isJsonPrimitive
       isJsonArray isJsonObject andb].
  unfold extractTabularHeader, isTabularArray.
  cbn [ownProps getProperty JsObject.keys map fst forallb JsObject.lookup].
  rewrite String.eqb_refl. cbn [isJsonPrimitive andb]. rewrite andb_false_r.
  unfold encodeMixedArrayAsListItems. cbn [forEach].
  rewrite encodeListItemValue_VObj. unfold encodePropsAsListItem.
  cbn [isJsonPrimitive].
  rewrite (forEach_object inner) by assumption.
  rewrite (forEach_object rest) by assumption.
  cbn [map]. rewrite map_app. reflexivity.
Qed.

(** A text of three lines or more: the header of a list of one item,
    the item, and lines under it.  When [decodeListItem] returns [v] on
    the item, [deserialize] returns the array of [v], wherever the
    cursor stands then. *)
Lemma deserialize_single item body v cursor strict :
  find NEWLINE item = None ->
  Forall (fun it => solid (snd it) = true) body ->
  (forall options fuel,
      upTo (decodeListItem
              (numberLines 1
                 ((0%nat, formatHeader 1 None None DEFAULT_DELIMITER false)
                    :: (1%nat, (LIST_ITEM_PREFIX ++ item)%string) :: body))
              options fuel 1 1 DEFAULT_DELIMITER) (v, cursor)) ->
  deserialize
    (join (ofChar NEWLINE)
       (map renderLine
          ((0%nat, formatHeader 1 None None DEFAULT_DELIMITER false)
             :: (1%nat, (LIST_ITEM_PREFIX ++ item)%string) :: body))) strict
  = Return (VArr [v]).
Proof.
  intros Hnl Hbody Hitem.
  set (h := formatHeader 1 None None DEFAULT_DELIMITER false) in *.
  assert (Hitems : Forall (fun it => solid (snd it) = true)
                     ((0%nat, h) :: (1%nat, (LIST_ITEM_PREFIX ++ item)%string) :: body)).
  { constructor; [reflexivity|]. constructor; [now apply hyphen_solid|exact Hbody]. }
  unfold deserialize. cbn [dec_indent dec_strict]. change DEFAULT_INDENT_SIZE with 2.
  rewrite toParsedLines_rendered by (discriminate || exact Hitems).
  cbn [bind fst].
  set (options := {| dec_indent := 2; dec_strict := _ |}).
  specialize (Hitem options). cbn [numberLines fst snd] in Hitem |- *.
  set (lines := lineOf 0 h 1 :: lineOf 1 (LIST_ITEM_PREFIX ++ item)%string (1 + 1)
                  :: numberLines (1 + 1 + 1) body) in *.
  pose proof (decodeValueFromLines_finishes lines options) as Hfin.
  unfold decodeValueFromLines in *.
  assert (Hp0 : peek lines 0 = Some (lineOf 0 h 1)) by reflexivity.
  assert (Hp1 : peek lines 1 = Some (lineOf 1 (LIST_ITEM_PREFIX ++ item)%string (1 + 1)))
    by reflexivity.
  rewrite Hp0 in *. cbn [lineOf content] in *.
  change (isArrayHeaderAfterHyphen h) with true in *.
  change (parseArrayHeaderLine h DEFAULT_DELIMITER)
    with (parseArrayHeaderLine "[1]:" DEFAULT_DELIMITER) in *.
  replace (parseArrayHeaderLine "[1]:" DEFAULT_DELIMITER)
    with (Return (Some (header None 1 None, @None string))) in * by (vm_compute; reflexivity).
  cbn [bind] in *.
  assert (Hup : upTo (decodeArrayFromHeader lines options (decodeBudget lines)
                        (header None 1 None) None 1 0)
                  ([v], cursor)).
  { destruct (decodeBudget lines) as [|fuel]; [now left|].
    rewrite decodeArrayFromHeader_S. unfold decodeArrayFromHeader_body.
    cbn [header hdr_fields].
    destruct fuel as [|fuel]; [now left|].
    rewrite decodeListArray_S. unfold decodeListArray_body. cbv zeta.
    rewrite Hp1.
    assert (He : atEnd lines 1 = false).
    { unfold atEnd. apply Nat.leb_gt. eapply peek_Some_lt. exact Hp1. }
    rewrite He. cbn [List.length hdr_length lineOf depth content orb].
    change (Z.of_nat 0 <? 1) with true. change (Z.of_nat 1 <? 0 + 1) with false.
    change (Z.of_nat 1 =? 0 + 1) with true. cbn [negb]. rewrite hyphen_start.
    cbn [andb].
    eapply upTo_bind; [apply Hitem|].
    cbn [fst snd app].
    destruct fuel as [|fuel]; [now left|].
    rewrite decodeListArray_S. unfold decodeListArray_body. cbv zeta.
    cbn [List.length hdr_length header]. change (Z.of_nat 1 <? 1) with false.
    cbn [negb]. rewrite orb_true_r, assertExpectedCount_passes. now right. }
  destruct Hup as [E|E]; rewrite E in *; [contradiction|]. reflexivity.
Qed.

Section Decode.
Variable lines : list ParsedLine.
Variable options : DecodeOptions.

(** The list item [- key:], up to the test that [decodeKeyValue] makes
    of the next line. *)
Ltac first_key Hpeek Hcontent key fuel :=
  destruct fuel as [|fuel]; [now left|];
  rewrite decodeListItem_S; unfold decodeListItem_body; rewrite Hpeek, Hcontent; cbv zeta;
  rewrite afterHyphen;
  let Hhdr := fresh "Hhdr" in
  let Hfirst := fresh "Hfirst" in
  destruct (headText_empty numberToString key) as (Hhdr & Hfirst);
  rewrite Hhdr, Hfirst;
  destruct fuel as [|fuel]; [now left|];
  rewrite decodeObjectFromListItem_S; unfold decodeObjectFromListItem_body;
  rewrite Hcontent, afterHyphen;
  destruct fuel as [|fuel]; [now left|];
  rewrite decodeKeyValue_S; unfold decodeKeyValue_body;
  rewrite headerLine_none by (intros _; reflexivity); cbn [bind];
  rewrite parseKeyToken_written; cbn [bind fst snd]; rewrite sliceFrom_after;
  cbn [trim trimStart trimEnd isEmpty].

(** The list item [- key:] followed by a line two levels deeper: the
    decoder looks for the properties one level deeper, finds none, and
    leaves the line unread. *)
Lemma decodeListItem_first_object fuel key l next :
  peek lines 1 = Some l ->
  content l = (LIST_ITEM_PREFIX ++ encodeKey key ++ ":")%string ->
  peek lines 2 = Some next -> depth next = 3 ->
  upTo (decodeListItem lines options fuel 1 1 DEFAULT_DELIMITER)
       (VObj [(key, VObj [])], 2%nat).
Proof.
  intros Hpeek Hcontent Hnext Hdepth.
  first_key Hpeek Hcontent key fuel.
  rewrite Hnext, Hdepth. change (1 <? 3) with true. cbv iota.
  destruct fuel as [|fuel]; [now left|].
  rewrite decodeObject_S. unfold decodeObject_body.
  assert (Hend : atEnd lines 2 = false).
  { unfold atEnd. apply Nat.leb_gt. eapply peek_Some_lt. exact Hnext. }
  rewrite Hend, Hnext, Hdepth. change (3 <? 1 + 1) with false.
  change (3 =? 1 + 1) with false. cbv iota. cbn [bind fst snd kv_key kv_value kv_followDepth].
  rewrite define_first, decodeListItemFields_S. unfold decodeListItemFields_body.
  rewrite Hend, Hnext, Hdepth. change (3 <? 1 + 1) with false.
  change (3 =? 1 + 1) with false. cbn [andb bind fst snd]. now right.
Qed.

(** The list item [- key:] followed by the other properties of the
    item, one level deeper, up to the end of the lines: the decoder
    reads them as the properties of the value of [key]. *)
Lemma decodeListItem_first_empty fuel key l rest :
  peek lines 1 = Some l ->
  content l = (LIST_ITEM_PREFIX ++ encodeKey key ++ ":")%string ->
  rest <> [] ->
  plainTree numberToString (VObj rest) = true ->
  Forall (fun kv => stable (snd kv)) rest -> propertyOrder rest ->
  linesAt lines 2 (objectItems numberToString rest 2) ->
  List.length lines = (2 + List.length (objectItems numberToString rest 2))%nat ->
  upTo (decodeListItem lines options fuel 1 1 DEFAULT_DELIMITER)
       (VObj [(key, VObj rest)], List.length lines).
Proof.
  intros Hpeek Hcontent Hne Hp Hs Hord Hl Hlen.
  destruct (objectItems_head numberToString rest 2 Hne) as (t & r & Hhead).
  pose proof Hl as Hl'. rewrite Hhead in Hl'. cbn [linesAt fst snd] in Hl'.
  destruct (peek lines 2) as [next|] eqn:Hnext; [|contradiction].
  destruct Hl' as (Hdepth & _ & _).
  assert (Hend : closedAt lines (2 + List.length (objectItems numberToString rest 2)) 2).
  { unfold closedAt, peek. rewrite <- Hlen.
    now replace (nth_error lines (List.length lines)) with (@None ParsedLine)
      by (symmetry; now apply nth_error_None). }
  pose proof (decodeObject_reads numberToString lines options) as Hobj.
  first_key Hpeek Hcontent key fuel.
  rewrite Hnext, Hdepth. change (1 <? Z.of_nat 2) with true. cbv iota.
  eapply upTo_bind.
  - eapply upTo_bind.
    + eapply upTo_bind; [apply (Hobj fuel rest 2%nat 2%nat []); assumption|]. now right.
    + cbn [fst snd kv_key kv_value kv_followDepth].
      change (JsObject.defineAll [] rest) with (JsObject.fromEntries rest).
      rewrite fromEntries_rebuild by exact Hord. rewrite define_first, <- Hlen.
      rewrite decodeListItemFields_S. unfold decodeListItemFields_body.
      unfold atEnd. rewrite Nat.leb_refl. now right.
  - now right.
Qed.
End Decode.

Lemma firstLine_facts key inner rest :
  plainTree numberToString (VObj ((key, VObj inner) :: rest)) = true ->
  stable (VObj ((key, VObj inner) :: rest)) ->
  find NEWLINE (encodeKey key ++ ":") = None
  /\ plainTree numberToString (VObj inner) = true
  /\ plainTree numberToString (VObj rest) = true
  /\ Forall (fun kv => stable (snd kv)) rest /\ propertyOrder rest.
Proof.
  intros Hp Hs. rewrite plainTree_VObj in Hp. cbn [forallb] in Hp.
  apply andb_true_iff in Hp. destruct Hp as [Hfirst Hrest].
  apply plainPair_key in Hfirst. destruct Hfirst as [Hinner _].
  apply stable_VObj in Hs. destruct Hs as [Hord Hs].
  inversion Hs as [|? ? _ Hsr]; subst. repeat split; try assumption.
  - rewrite find_app_None by apply encodeKey_no_newline. reflexivity.
  - unfold propertyOrder in *. cbn [JsObject.keys map] in Hord.
    now apply StronglySorted_inv in Hord.
Qed.

Lemma deserialize_first_object key inner rest strict :
  inner <> [] ->
  plainTree numberToString (VObj ((key, VObj inner) :: rest)) = true ->
  stable (VObj ((key, VObj inner) :: rest)) ->
  deserialize (encodeValue numberToString (resolveOptions None)
                 (VArr [VObj ((key, VObj inner) :: rest)])) strict
  = Return (VArr [VObj [(key, VObj [])]]).
Proof.
  intros Hne Hp Hs.
  destruct (firstLine_facts key inner rest Hp Hs) as (Hnl & Hinner & Hrest & _).
  change (encodeValue numberToString (resolveOptions None)
            (VArr [VObj ((key, VObj inner) :: rest)]))
    with (writerToString
            (encodeArray numberToString (resolveOptions None)
               (encodeListItemValue numberToString (resolveOptions None)) None
               [VObj ((key, VObj inner) :: rest)] 0 [])).
  rewrite encodeArray_first_object by assumption.
  apply (deserialize_single _ _ _ 2%nat); [exact Hnl| |].
  - apply List.Forall_app. split; now apply objectItems_solid.
  - intros options fuel.
    destruct (objectItems_head numberToString inner 3 Hne) as (t & r & Hobj).
    rewrite Hobj. cbn [numberLines fst snd app].
    now apply (decodeListItem_first_object _ options fuel key
                 (lineOf 1 (LIST_ITEM_PREFIX ++ encodeKey key ++ ":") (1 + 1))
                 (lineOf 3 t (1 + 1 + 1))).
Qed.

Lemma deserialize_first_empty key rest strict :
  rest <> [] ->
  plainTree numberToString (VObj ((key, VObj []) :: rest)) = true ->
  stable (VObj ((key, VObj []) :: rest)) ->
  deserialize (encodeValue numberToString (resolveOptions None)
                 (VArr [VObj ((key, VObj []) :: rest)])) strict
  = Return (VArr [VObj [(key, VObj rest)]]).
Proof.
  intros Hne Hp Hs.
  destruct (firstLine_facts key [] rest Hp Hs) as (Hnl & _ & Hrest & Hsr & Hord).
  change (encodeValue numberToString (resolveOptions None)
            (VArr [VObj ((key, VObj []) :: rest)]))
    with (writerToString
            (encodeArray numberToString (resolveOptions None)
               (encodeListItemValue numberToString (resolveOptions None)) None
               [VObj ((key, VObj []) :: rest)] 0 [])).
  rewrite encodeArray_first_object by assumption.
  change (objectItems numberToString [] 3 ++ objectItems numberToString rest 2)
    with (objectItems numberToString rest 2).
  set (body := objectItems numberToString rest 2).
  apply (deserialize_single _ _ _ (2 + List.length body)%nat);
    [exact Hnl|now apply objectItems_solid|].
  intros options fuel.
  set (lines := numberLines 1 _).
  assert (Hlen : List.length lines = (2 + List.length body)%nat)
    by (unfold lines; rewrite length_numberLines; reflexivity).
  rewrite <- Hlen.
  apply (decodeListItem_first_empty lines options fuel key
           (lineOf 1 (LIST_ITEM_PREFIX ++ encodeKey key ++ ":") (1 + 1)) rest);
    try assumption; try reflexivity.
  apply (linesAt_numberLines body
           [lineOf 0 (formatHeader 1 None None DEFAULT_DELIMITER false) 1;
            lineOf 1 (LIST_ITEM_PREFIX ++ encodeKey key ++ ":") (1 + 1)] (1 + 1 + 1)).
Qed.

Lemma stable_single v : stable v -> stable (VArr [v]).
Proof.
  unfold stable. intros Hs.
  change (normalizeValue (VArr [v])) with (do r <- mapM normalizeValue [v]; Return (VArr r)).
  cbn [mapM]. now rewrite Hs.
Qed.
End FirstField.

(** X19. An object that is the value of the first key of a list item is
    lost, and with it the other properties of the item: for every
    object of the round trip (none of its keys is [__proto__] or
    [hasOwnProperty]) whose first value is an object that is not empty,
    the array that holds this one object is written with the
    properties of the inner object two levels under the hyphen, where
    the decoder does not look for them, and is read back, in both modes,
    as one object that has the first key only, with an empty object for
    value. *)
Theorem first_field_object_lost (numberToString : number -> string) (key : string)
    (inner rest : list (string * jsval)) (strict : option bool) :
  inner <> [] ->
  plainTree numberToString (VObj ((key, VObj inner) :: rest)) = true ->
  normalizeValue (VObj ((key, VObj inner) :: rest))
  = Return (VObj ((key, VObj inner) :: rest)) ->
  (do text <- serializeValue numberToString (VArr [VObj ((key, VObj inner) :: rest)]);
   deserialize text strict)
  = Return (VArr [VObj [(key, VObj [])]]).
Proof.
  intros Hne Hp Hs.
  rewrite serializeValue_stable
    by (now apply stable_single || (apply ordinary_single; exact (plainTree_ordinary _ _ Hp))).
  cbn [bind].
  now apply deserialize_first_object.
Qed.

Lemma first_field_object_lost_witness :
  (do text <- serializeValue (fun _ => "5")
                (VArr [VObj [("user", VObj [("name", VStr "Ada"); ("admin", VBool true)]);
                             ("id", VStr "u1")]]);
   deserialize text (Some true))
  = Return (VArr [VObj [("user", VObj [])]]).
Proof.
  apply (first_field_object_lost (fun _ => "5") "user"
           [("name", VStr "Ada"); ("admin", VBool true)] [("id", VStr "u1")] (Some true));
    (discriminate || (vm_compute; reflexivity)).
Defined.

(** X20. An empty object that is the value of the first key of a list
    item takes the other properties of the item: for every object of
    the round trip (none of its keys is [__proto__] or [hasOwnProperty])
    whose first value is the empty object and that has other properties,
    the array that holds this one object is written
    with these properties one level under the hyphen, where the decoder
    looks for the properties of the first value, and is read back, in
    both modes, as one object that has the first key only, with the
    other properties in its value. *)
Theorem first_field_empty_object_fills (numberToString : number -> string) (key : string)
    (rest : list (string * jsval)) (strict : option bool) :
  rest <> [] ->
  plainTree numberToString (VObj ((key, VObj []) :: rest)) = true ->
  normalizeValue (VObj ((key, VObj []) :: rest)) = Return (VObj ((key, VObj []) :: rest)) ->
  (do text <- serializeValue numberToString (VArr [VObj ((key, VObj []) :: rest)]);
   deserialize text strict)
  = Return (VArr [VObj [(key, VObj rest)]]).
Proof.
  intros Hne Hp Hs.
  rewrite serializeValue_stable
    by (now apply stable_single || (apply ordinary_single; exact (plainTree_ordinary _ _ Hp))).
  cbn [bind].
  now apply deserialize_first_empty.
Qed.

Lemma first_field_empty_object_fills_witness :
  (do text <- serializeValue (fun _ => "5")
                (VArr [VObj [("meta", VObj []); ("id", VStr "u1");
                             ("tags", VArr [VStr "a"; VStr "b"])]]);
   deserialize text (Some true))
  = Return (VArr [VObj [("meta", VObj [("id", VStr "u1");
                                       ("tags", VArr [VStr "a"; VStr "b"])])]]).
Proof.
  apply (first_field_empty_object_fills (fun _ => "5") "meta"
           [("id", VStr "u1"); ("tags", VArr [VStr "a"; VStr "b"])] (Some true));
    (discriminate || (vm_compute; reflexivity)).
Defined.

(** ** Lists that are cut short *)

Lemma forEach_app {A} (f : A -> LineWriter -> LineWriter) (a b : list A) : forall w,
  forEach f (a ++ b) w = forEach f b (forEach f a w).
Proof. induction a as [|x r IH]; intros w; cbn [forEach app]; [reflexivity|apply IH]. Qed.

Section Cut.
Variable numberToString : number -> string.
Let encodeOptions := resolveOptions None.

Lemma forEach_listItems items d w :
  forallb (listItem numberToString) items = true -> Forall stable items ->
  forEach (fun item w' => encodeListItemValue numberToString encodeOptions item d w')
    items w
  = w ++ map renderLine (flat_map (fun item => itemLines numberToString item d) items).
Proof.
  intros Hi Hs. apply forEach_lines. apply listed_items; try assumption.
  apply List.Forall_forall. intros v _. apply encoder_lines.
Qed.

Lemma listBody_solid items d :
  forallb (listItem numberToString) items = true ->
  Forall (fun it => solid (snd it) = true) (listBody numberToString items d).
Proof.
  intros Hi. unfold listBody. apply List.Forall_flat_map. apply List.Forall_forall.
  intros item Hin. rewrite forallb_forall in Hi. now apply lines_solid, Hi.
Qed.

Lemma listBody_app a b d :
  listBody numberToString (a ++ b) d
  = listBody numberToString a d ++ listBody numberToString b d.
Proof. unfold listBody. apply flat_map_app. Qed.

(** Two arrays that [encodeArray] writes in list form: one that holds
    an empty object, and one that holds an array of something else than
    primitives. *)
Lemma listForm_empty_object pre post : listForm (pre ++ VObj [] :: post) = true.
Proof.
  unfold listForm, isArrayOfPrimitives, isArrayOfArrays.
  rewrite !forallb_app. cbn [forallb isJsonPrimitive isJsonArray andb].
  rewrite !andb_false_r. cbn [negb andb].
  replace (extractTabularHeader (pre ++ VObj [] :: post)) with (@None (list string));
    [now rewrite orb_true_r|].
  unfold extractTabularHeader.
  destruct pre as [|p pre]; [reflexivity|]. cbn [app].
  destruct (JsObject.keys (ownProps p)) as [|k ks] eqn:Ek; [reflexivity|].
  replace (isTabularArray (p :: pre ++ VObj [] :: post) (k :: ks)) with false;
    [reflexivity|].
  unfold isTabularArray. change (p :: pre ++ VObj [] :: post)
    with ((p :: pre) ++ VObj [] :: post).
  rewrite forallb_app. cbn [forallb ownProps JsObject.keys map List.length Nat.eqb andb].
  now rewrite andb_false_r.
Qed.

Lemma listForm_nested pre xs post :
  isArrayOfPrimitives xs = false -> listForm (pre ++ VArr xs :: post) = true.
Proof.
  intros Hx. unfold listForm, isArrayOfPrimitives, isArrayOfArrays, isArrayOfObjects.
  rewrite !forallb_app. cbn [forallb isJsonPrimitive isJsonArray isJsonObject andb].
  unfold isArrayOfPrimitives in Hx. rewrite Hx. cbn [andb]. now rewrite !andb_false_r.
Qed.

Section Decode.
Variable lines : list ParsedLine.
Variable options : DecodeOptions.

Lemma listStops_closed c d : listStops lines c d -> closedAt lines c (S d).
Proof.
  unfold listStops, closedAt. destruct (peek lines c); [|auto]. intros [H _]. lia.
Qed.

Lemma decodeListItem_reads fuel item d c dl :
  listItem numberToString item = true -> stable item ->
  linesAt lines c (itemLines numberToString item d) ->
  closedAt lines (c + List.length (itemLines numberToString item d)) (S d) ->
  upTo (decodeListItem lines options fuel c (Z.of_nat d) dl)
       (item, (c + List.length (itemLines numberToString item d))%nat).
Proof. apply decoder_reads. Qed.

(** The loop of [decodeListArray] on the items of a list, up to a line
    that ends the list: it goes to the count assertion with the items
    it has read, however many the header has announced. *)
Lemma decodeListArray_cut header d : forall pre fuel c acc,
  forallb (listItem numberToString) pre = true -> Forall stable pre ->
  linesAt lines c (listBody numberToString pre d) ->
  listStops lines (c + List.length (listBody numberToString pre d)) (S d) ->
  Z.of_nat (List.length acc + List.length pre) <= hdr_length header ->
  decodeListArray lines options fuel header c (Z.of_nat d) acc = Exhausted
  \/ decodeListArray lines options fuel header c (Z.of_nat d) acc
     = (do _ <- assertExpectedCount (Z.of_nat (List.length acc + List.length pre))
                  (hdr_length header) "list array items" options;
        Return (acc ++ pre, (c + List.length (listBody numberToString pre d))%nat)).
Proof.
  induction pre as [|item pre IH]; intros fuel c acc Hi Hs Hl Hstop Hle;
    (destruct fuel as [|fuel]; [now left|]);
    rewrite decodeListArray_S; unfold decodeListArray_body; cbv zeta.
  - right. cbn [listBody flat_map List.length] in *.
    rewrite !Nat.add_0_r in *. rewrite app_nil_r.
    destruct (atEnd lines c || negb (Z.of_nat (List.length acc) <? hdr_length header));
      [reflexivity|].
    unfold listStops in Hstop. destruct (peek lines c) as [l|]; [|reflexivity].
    destruct Hstop as [Hd Hnot].
    destruct (Z.ltb_spec (depth l) (Z.of_nat d + 1)); [reflexivity|].
    destruct (Z.eqb_spec (depth l) (Z.of_nat d + 1)); [|reflexivity].
    now rewrite Hnot by lia.
  - unfold listBody in Hl, Hstop |- *. cbn [flat_map] in Hl, Hstop |- *.
    fold (listBody numberToString pre d) in Hl, Hstop |- *.
    cbn [forallb] in Hi. apply andb_true_iff in Hi. destruct Hi as [Hitem Hrest].
    inversion Hs as [|? ? Hsi Hsr]; subst.
    destruct (itemLines_head numberToString item (S d)) as (t & r & Hhead).
    pose proof Hl as Hl'. rewrite Hhead in Hl'. cbn [app linesAt fst snd] in Hl'.
    destruct (peek lines c) as [l|] eqn:Ep; [|contradiction].
    destruct Hl' as (Hd & Hct & _). cbn [List.length] in Hle.
    assert (He : atEnd lines c = false).
    { unfold atEnd. apply Nat.leb_gt. eapply peek_Some_lt. exact Ep. }
    rewrite He. cbn [orb].
    destruct (Z.ltb_spec (Z.of_nat (List.length acc)) (hdr_length header)); [|lia].
    cbn [negb]. rewrite Hd.
    destruct (Z.ltb_spec (Z.of_nat (S d)) (Z.of_nat d + 1)); [lia|].
    destruct (Z.eqb_spec (Z.of_nat (S d)) (Z.of_nat d + 1)); [|lia].
    rewrite Hct, hyphen_start. cbn [andb].
    pose proof Hl as Hl'. apply linesAt_app in Hl'. destruct Hl' as [Hfirst Hmore].
    rewrite length_app in Hstop |- *.
    assert (Hup : upTo (decodeListItem lines options fuel c (Z.of_nat d + 1)
                          (hdr_delimiter header))
                    (item, (c + List.length (itemLines numberToString item (S d)))%nat)).
    { replace (Z.of_nat d + 1) with (Z.of_nat (S d)) by lia.
      apply decodeListItem_reads; try assumption.
      apply (closedAt_sibling lines c (S d) _ (listBody numberToString pre d)).
      - exact Hl.
      - intros it r' E. destruct pre as [|item2 pre2]; [discriminate|].
        unfold listBody in E. cbn [flat_map] in E.
        destruct (itemLines_head numberToString item2 (S d)) as (t2 & r2 & Hhead2).
        rewrite Hhead2 in E. cbn [app] in E. now inversion E.
      - rewrite length_app. apply listStops_closed.
        exact Hstop. }
    destruct Hup as [E|E]; rewrite E; [now left|]. cbn [bind fst snd].
    rewrite Nat.add_assoc in Hstop.
    destruct (IH fuel (c + List.length (itemLines numberToString item (S d)))%nat
                (acc ++ [item]) Hrest Hsr Hmore Hstop) as [E'|E'];
      [rewrite length_app; cbn [List.length]; lia|now left|].
    right. rewrite E'. rewrite length_app, <- app_assoc. cbn [List.length app].
    now rewrite Nat.add_assoc, <- (Nat.add_assoc (List.length acc)).
Qed.
End Decode.

(** The text of a header that announces [n] items, of the lines of the
    items [pre], and of lines that start with one that ends the list:
    [deserialize] goes to the count assertion with [pre]. *)
Lemma deserialize_cut n pre tail strict :
  forallb (listItem numberToString) pre = true -> Forall stable pre ->
  (List.length pre <= n)%nat ->
  Forall (fun it => solid (snd it) = true) tail ->
  match tail with
  | it :: _ =>
      (fst it <= 1)%nat
      /\ (fst it = 1%nat -> startsWith (snd it) LIST_ITEM_PREFIX = false)
  | [] => True
  end ->
  deserialize
    (join (ofChar NEWLINE)
       (map renderLine
          ((0%nat, formatHeader n None None DEFAULT_DELIMITER false)
             :: listBody numberToString pre 0 ++ tail))) strict
  = (do _ <- assertExpectedCount (Z.of_nat (List.length pre)) (Z.of_nat n)
               "list array items"
               {| dec_indent := 2; dec_strict := resolveStrict strict |};
     Return (VArr pre)).
Proof.
  intros Hi Hs Hn Htail Hstop.
  set (h := formatHeader n None None DEFAULT_DELIMITER false).
  set (body := listBody numberToString pre 0).
  assert (Htext : h = (ofChar OPEN_BRACKET ++ intToString (Z.of_nat n)
                         ++ ofChar CLOSE_BRACKET ++ ofChar COLON ++ EmptyString)%string).
  { unfold h. rewrite formatHeader_text. now rewrite !append_nil, append_nil_r. }
  assert (Hsolid : solid h = true).
  { unfold solid. rewrite Htext at 1. unfold ofChar at 1. rewrite append_cons.
    change (isWhite OPEN_BRACKET) with false. cbn [negb andb]. apply negb_true_iff.
    apply includes_false. apply formatHeader_no_newline. }
  assert (Hitems : Forall (fun it => solid (snd it) = true) ((0%nat, h) :: body ++ tail)).
  { constructor; [exact Hsolid|]. apply List.Forall_app. split; [|exact Htail].
    now apply listBody_solid. }
  unfold deserialize. cbn [dec_indent dec_strict]. change DEFAULT_INDENT_SIZE with 2.
  rewrite toParsedLines_rendered by (discriminate || exact Hitems).
  cbn [bind fst numberLines snd].
  change (match strict with Some b => b | None => false end) with (resolveStrict strict).
  set (options := {| dec_indent := 2; dec_strict := _ |}).
  set (rest := numberLines (1 + 1) (body ++ tail)).
  set (lines := lineOf 0 h 1 :: rest).
  pose proof (decodeValueFromLines_finishes lines options) as Hfin.
  unfold decodeValueFromLines in *. cbn [peek lines nth_error lineOf content] in *.
  assert (Hhdr : isArrayHeaderAfterHyphen h = true)
    by (rewrite Htext; apply bracketLine_header).
  assert (Hparse : parseArrayHeaderLine h DEFAULT_DELIMITER
                   = Return (Some ({| hdr_key := None; hdr_length := Z.of_nat n;
                                      hdr_delimiter := DEFAULT_DELIMITER;
                                      hdr_fields := None; hdr_hasLengthMarker := false |},
                                   None))).
  { rewrite Htext.
    exact (parseArrayHeaderLine_written EmptyString false n EmptyString
             eq_refl eq_refl I). }
  rewrite Hhdr, Hparse in *. cbn [bind] in *.
  assert (Hl : linesAt lines 1 (body ++ tail))
    by apply (linesAt_numberLines (body ++ tail) [lineOf 0 h 1] (1 + 1)).
  apply linesAt_app in Hl. destruct Hl as [Hbody Hrest].
  assert (Hends : listStops lines (1 + List.length body) 1).
  { unfold listStops. destruct tail as [|it tail'].
    - replace (peek lines (1 + List.length body)) with (@None ParsedLine); [exact I|].
      symmetry. unfold peek. apply nth_error_None. unfold lines, rest.
      cbn [List.length]. rewrite length_numberLines, app_nil_r. lia.
    - cbn [linesAt] in Hrest. destruct (peek lines (1 + List.length body)) as [l|];
        [|contradiction].
      destruct Hrest as (Hd & Hc & _). destruct Hstop as [Hle Hnot]. rewrite Hd, Hc.
      split; [lia|]. intros E. apply Hnot. lia. }
  set (hdr := {| hdr_key := None; hdr_length := Z.of_nat n; hdr_delimiter := _;
                 hdr_fields := None; hdr_hasLengthMarker := false |}) in *.
  assert (Hup : decodeArrayFromHeader lines options (decodeBudget lines) hdr None 1 0
                = Exhausted
                \/ decodeArrayFromHeader lines options (decodeBudget lines) hdr None 1 0
                   = (do _ <- assertExpectedCount (Z.of_nat (List.length pre)) (Z.of_nat n)
                                "list array items" options;
                      Return (pre, (1 + List.length body)%nat))).
  { destruct (decodeBudget lines) as [|fuel]; [now left|].
    rewrite decodeArrayFromHeader_S. unfold decodeArrayFromHeader_body.
    cbn [hdr hdr_fields].
    apply (decodeListArray_cut lines options hdr 0 pre fuel 1 []); try assumption.
    cbn [List.length hdr hdr_length Nat.add]. lia. }
  destruct Hup as [E|E]; rewrite E in *; [contradiction|].
  unfold assertExpectedCount. now destruct (dec_strict options && _).
Qed.

Lemma stable_app a b : Forall stable (a ++ b) -> Forall stable a /\ Forall stable b.
Proof. apply List.Forall_app. Qed.
End Cut.

(** X21. An empty object in a list cuts the list: in an array whose
    items before the empty object are items of the round trip (and the
    items after it too; no key in them is [__proto__] or
    [hasOwnProperty]), the object is written as a lone hyphen, which
    the decoder does not take for a list item; [deserialize] returns
    the items before it and drops the rest, or, in strict mode, throws
    the count error. *)
Theorem empty_object_cuts_list (numberToString : number -> string)
    (pre post : list jsval) (strict : option bool) :
  forallb (listItem numberToString) pre = true ->
  forallb (listItem numberToString) post = true ->
  normalizeValue (VArr (pre ++ VObj [] :: post)) = Return (VArr (pre ++ VObj [] :: post)) ->
  (do text <- serializeValue numberToString (VArr (pre ++ VObj [] :: post));
   deserialize text strict)
  = if resolveStrict strict then
      Throw (CountMismatch (Z.of_nat (List.length (pre ++ VObj [] :: post)))
               (Z.of_nat (List.length pre)) "list array items")
    else Return (VArr pre).
Proof.
  intros Hpre Hpost Hs.
  rewrite serializeValue_stable
    by (exact Hs
        || (apply ordinary_items; [exact (listItems_ordinary _ _ Hpre)|reflexivity
                                   |exact (listItems_ordinary _ _ Hpost)])).
  cbn [bind].
  apply stable_VArr, stable_app in Hs. destruct Hs as [Hspre Hspost].
  inversion Hspost as [|? ? _ Hspost']; subst.
  change (encodeValue numberToString (resolveOptions None) (VArr (pre ++ VObj [] :: post)))
    with (writerToString
            (encodeArray numberToString (resolveOptions None)
               (encodeListItemValue numberToString (resolveOptions None)) None
               (pre ++ VObj [] :: post) 0 [])).
  rewrite encodeArray_listForm by apply listForm_empty_object.
  rewrite forEach_app. cbn [forEach].
  rewrite (forEach_listItems numberToString pre) by assumption.
  change (encodeListItemValue numberToString (resolveOptions None) (VObj []) 1 ?w)
    with (w ++ [renderLine (1%nat, LIST_ITEM_MARKER)]).
  rewrite (forEach_listItems numberToString post) by assumption.
  fold (listBody numberToString pre 0) (listBody numberToString post 0).
  unfold writerToString. cbn [app]. rewrite <- app_assoc.
  replace (renderLine (0%nat, formatHeader (List.length (pre ++ VObj [] :: post)) None None
                                DEFAULT_DELIMITER false)
             :: map renderLine (listBody numberToString pre 0)
             ++ [renderLine (1%nat, LIST_ITEM_MARKER)]
             ++ map renderLine (listBody numberToString post 0))
    with (map renderLine
            ((0%nat, formatHeader (List.length (pre ++ VObj [] :: post)) None None
                       DEFAULT_DELIMITER false)
               :: listBody numberToString pre 0
               ++ (1%nat, LIST_ITEM_MARKER) :: listBody numberToString post 0))
    by (cbn [map]; now rewrite map_app).
  rewrite (deserialize_cut numberToString); try assumption.
  - unfold assertExpectedCount. cbn [dec_strict].
    destruct (resolveStrict strict); [|reflexivity]. cbn [andb].
    destruct (Z.eqb_spec (Z.of_nat (List.length pre))
                (Z.of_nat (List.length (pre ++ VObj [] :: post)))) as [E|E];
      [|reflexivity].
    rewrite length_app in E. cbn [List.length] in E. lia.
  - rewrite length_app. lia.
  - constructor; [reflexivity|]. now apply listBody_solid.
  - split; [cbn; lia|reflexivity].
Qed.

Lemma empty_object_cuts_list_witness :
  (do text <- serializeValue (fun _ => "5")
                (VArr ([VStr "a"; VObj [("id", VStr "u1")]]
                         ++ VObj [] :: [VStr "b"; VArr [VNull]]));
   deserialize text None)
  = Return (VArr [VStr "a"; VObj [("id", VStr "u1")]]).
Proof.
  apply (empty_object_cuts_list (fun _ => "5") [VStr "a"; VObj [("id", VStr "u1")]]
           [VStr "b"; VArr [VNull]] None); vm_compute; reflexivity.
Defined.

(** X22. An array that holds something else than primitives is left out
    of a list: in an array whose other items are items of the round
    trip, [encodeListItemValue] writes no line for such an array, made of
    ordinary values (no object in it has a property named
    [hasOwnProperty]), while the header counts it; [deserialize] returns the other items, or, in strict
    mode, throws the count error. *)
Theorem nested_array_left_out (numberToString : number -> string)
    (pre xs post : list jsval) (strict : option bool) :
  forallb (listItem numberToString) pre = true ->
  forallb (listItem numberToString) post = true ->
  isArrayOfPrimitives xs = false ->
  ordinary (VArr xs) = true ->
  normalizeValue (VArr (pre ++ VArr xs :: post)) = Return (VArr (pre ++ VArr xs :: post)) ->
  (do text <- serializeValue numberToString (VArr (pre ++ VArr xs :: post));
   deserialize text strict)
  = if resolveStrict strict then
      Throw (CountMismatch (Z.of_nat (List.length (pre ++ VArr xs :: post)))
               (Z.of_nat (List.length (pre ++ post))) "list array items")
    else Return (VArr (pre ++ post)).
Proof.
  intros Hpre Hpost Hx Hxs Hs.
  rewrite serializeValue_stable
    by (exact Hs
        || (apply ordinary_items; [exact (listItems_ordinary _ _ Hpre)|exact Hxs
                                   |exact (listItems_ordinary _ _ Hpost)])).
  cbn [bind].
  apply stable_VArr, stable_app in Hs. destruct Hs as [Hspre Hspost].
  inversion Hspost as [|? ? _ Hspost']; subst.
  change (encodeValue numberToString (resolveOptions None) (VArr (pre ++ VArr xs :: post)))
    with (writerToString
            (encodeArray numberToString (resolveOptions None)
               (encodeListItemValue numberToString (resolveOptions None)) None
               (pre ++ VArr xs :: post) 0 [])).
  rewrite encodeArray_listForm by (now apply listForm_nested).
  rewrite forEach_app. cbn [forEach].
  rewrite (forEach_listItems numberToString pre) by assumption.
  change (encodeListItemValue numberToString (resolveOptions None) (VArr xs) 1 ?w)
    with (if isArrayOfPrimitives xs then
            pushListItem 2 1
              (encodeInlineArrayLine numberToString xs DEFAULT_DELIMITER None false) w
          else w).
  rewrite Hx.
  rewrite (forEach_listItems numberToString post) by assumption.
  fold (listBody numberToString pre 0) (listBody numberToString post 0).
  unfold writerToString. cbn [app].
  replace (renderLine (0%nat, formatHeader (List.length (pre ++ VArr xs :: post)) None None
                                DEFAULT_DELIMITER false)
             :: map renderLine (listBody numberToString pre 0)
             ++ map renderLine (listBody numberToString post 0))
    with (map renderLine
            ((0%nat, formatHeader (List.length (pre ++ VArr xs :: post)) None None
                       DEFAULT_DELIMITER false)
               :: listBody numberToString (pre ++ post) 0 ++ []))
    by (cbn [map]; now rewrite app_nil_r, listBody_app, map_app).
  rewrite (deserialize_cut numberToString).
  - unfold assertExpectedCount. cbn [dec_strict].
    destruct (resolveStrict strict); [|reflexivity]. cbn [andb].
    destruct (Z.eqb_spec (Z.of_nat (List.length (pre ++ post)))
                (Z.of_nat (List.length (pre ++ VArr xs :: post)))) as [E|E];
      [|reflexivity].
    rewrite !length_app in E. cbn [List.length] in E. lia.
  - rewrite forallb_app. now rewrite Hpre, Hpost.
  - apply List.Forall_app. now split.
  - rewrite !length_app. cbn [List.length]. lia.
  - constructor.
  - exact I.
Qed.

Lemma nested_array_left_out_witness :
  (do text <- serializeValue (fun _ => "5")
                (VArr ([VStr "a"] ++ VArr [VArr [VStr "x"]; VStr "y"] :: [VStr "b"]));
   deserialize text (Some true))
  = Throw (CountMismatch 3 2 "list array items").
Proof.
  apply (nested_array_left_out (fun _ => "5") [VStr "a"] [VArr [VStr "x"]; VStr "y"]
           [VStr "b"] (Some true)); vm_compute; reflexivity.
Defined.

(** ** A property named [hasOwnProperty] *)

(** X27. [serialize] cannot take an object that has a property named
    [hasOwnProperty].  [hasCircularReference] tests every key of an object
    with [obj.hasOwnProperty(key)], which finds that property instead of
    the method of [Object.prototype]: when its value is no function, the
    call throws a [TypeError], which leaves [serialize] before anything is
    written, whatever the delimiter.  [normalizeValue], which calls
    [Object.prototype.hasOwnProperty.call(value, key)], takes such an
    object. *)
Theorem own_test_shadowed (numberToString : number -> string)
    (props : list (string * jsval)) (x : jsval) (delimiter : option Delimiter) :
  JsObject.lookup "hasOwnProperty" props = Some x ->
  x <> VOpaque false ->
  serialize numberToString 0 ∅ (HTree (VObj props)) delimiter = Throw TypeError
  /\ normalizeValue (VObj [("hasOwnProperty", VStr "x")])
     = Return (VObj [("hasOwnProperty", VStr "x")]).
Proof.
  intros Hl Hx. split; [|reflexivity].
  unfold serialize, hasCircularReference, checkBudget. rewrite map_size_empty.
  cbn [Nat.add]. rewrite check_S. cbn [checkTree hasEnumerableKey hasOwnPropertyOf].
  rewrite Hl. destruct props as [|kv rest]; [discriminate|]. cbn [List.length Nat.eqb negb].
  destruct x as [| |b|y|s|z|iso|items|items|entries|ps|proto ps|[|]];
    try reflexivity. now exfalso.
Qed.

Lemma own_test_shadowed_witness :
  JsObject.lookup "hasOwnProperty" [("id", VStr "a"); ("hasOwnProperty", VBool true)]
  = Some (VBool true)
  /\ VBool true <> VOpaque false
  /\ serialize (fun _ => "5") 0 ∅
       (HTree (VObj [("id", VStr "a"); ("hasOwnProperty", VBool true)])) None
     = Throw TypeError.
Proof.
  assert (Hx : VBool true <> VOpaque false) by discriminate.
  split; [reflexivity|]. split; [exact Hx|].
  exact (proj1 (own_test_shadowed (fun _ => "5")
                  [("id", VStr "a"); ("hasOwnProperty", VBool true)] (VBool true) None
                  eq_refl Hx)).
Defined.
